(* ===== verification/_CoqProject ===== *)
-Q . S2P
Prelude.v
Effects.v
Memory.v
Dumper.v
Sha1.v
Protocol.v
Vnscommand.v
Utils.v
Instance.v
Iface.v
Send.v
Conn.v
Rt.v
Print.v
Config.v
ArpCache.v
Router.v
Vns.v
RouterSpec.v
Packets.v
Sweep.v
Demo.v
RouterTheorems.v
VnsSpec.v
Commands.v
Handshake.v
RouterWitnesses.v
ComponentTheorems.v
SweepTheorems.v
SessionTheorems.v
System.v
Asked.v
Threads.v
TypeTheorems.v
Thread.v
Interleave.v
MainThread.v
Rely.v
Interference.v
Concurrent.v
ConcurrentSession.v
ProgramTheorems.v
PrintTheorems.v
StartTheorems.v
