(* ===== verification/Prelude.v ===== *)
(** * A verification library for the simple router [sr]

    The program is a client of a network simulator (VNS): it opens a TCP session
    with a server, which sends it the frames that arrive at its interfaces; the
    program answers ARP and ICMP and forwards IP packets, by sending frames back
    over the same session.  The library models the C sources and proves what
    makes each part, and their composition, correct.

    ** The program and the files that model it

    The names of the definitions are those of the C functions, structs and
    constants; a definition with another name is a loop or a branch of the
    function it stands beside.

    - [Effects]: a C function is a function of an environment, a state and its
      arguments, which stops with a value and a state or with a [fault]
      (undefined behaviour with its cause, a failed [assert], [exit], a read that
      waits for ever, a loop out of fuel).
    - [Memory], [Protocol] ([sr_protocol.h]): objects are lists of bytes, every
      access is checked against the object's size; packed structs are lists of
      members from which offsets are computed; the host is little-endian.
    - [Instance] ([sr_router.h], [sr_if.h], [sr_rt.h], [sr_arpcache.h]): the
      structs as records, the environment of a call (clock, allocations,
      [write]), and the invariant [sr_wf] of a router instance.
    - [Utils] ([sr_utils.c]): the internet checksum and the field readers.
    - [Print] (the printing functions of [sr_utils.c], [sr_if.c], [sr_rt.c] and
      [sr_arpcache.c]): the text that each prints, and the reads it makes.
    - [Iface] ([sr_if.c]): the list of interfaces.
    - [Rt] ([sr_rt.c], the lookup of [sr_router.c]): adding a route,
      longest-prefix match.
    - [ArpCache], [Sweep] ([sr_arpcache.c]): the cache, the queue of pending ARP
      requests, and one round of the timer thread.  A request has an address, so
      that a pointer kept across calls can dangle.
    - [Vnscommand] ([vnscommand.h]): the commands of the protocol with the server
      and their layouts.
    - [Dumper] ([sr_dumper.c]), [Send] (the sending half of [sr_vns_comm.c]): the
      packet log, and the message around a frame that is sent.
    - [Router] ([sr_router.c]): the handlers of a frame, function by function.
    - [Thread]: programs of single actions, and schedules that put rounds of the
      timer thread before any of them; [Interleave]: the handlers of a frame as
      such programs; [MainThread]: the main loop as one, from the calls of [recv]
      and [read] down to the steps of a frame's handling.
    - [Sha1] ([sha1.c]): the hash, and the standard it computes.
    - [Conn]: the process around the router: the socket with every schedule of
      partial reads, interruptions and errors, and the files.
    - [Config] ([sr_load_rt] of [sr_rt.c], the check and [sr_load_rt_wrap] of
      [sr_main.c]): the routing table's file.
    - [Vns] (the receiving half of [sr_vns_comm.c], [sr_main.c],
      [sr_dump_open]): a command of the server is read ([read_command]) and
      dispatched; what is done with each; the authentication, the connection, the
      main loop, [main] ([main_setup], [set_options] and [open_log] are its parts
      before the connection, [main_around] is [main] around any loop).

    A frame comes in through [main_loop], [sr_read_from_server_expect],
    [dispatch] and [handle_vnspacket] to [sr_handlepacket]; it leaves through
    [sr_send_packet] into the list [sent] of the messages written to the socket.
    The timer thread enters at [timeout_tick] and calls back into
    [sr_send_icmp_error] and [sr_send_arp_request].

    ** What is proved

    - Specification and refinement: [RouterSpec] gives every handler a pure
      function on the router's state ([handle_frame] for the entry point) and
      shows that the bounds-checked code runs without a fault and computes it;
      [Sweep] does the same for the timer's round ([sweep], [tick]), whose list
      changes under it while it calls back; [Sha1] relates the streaming hash to
      the standard on the whole message.  [Packets] shows what the frames made
      by the handlers are.
    - [RouterTheorems] (applied to concrete frames in [RouterWitnesses]): safety
      of the entry point and the behaviour on each kind of frame: forwarded,
      queued, answered with an error or a reply, dropped.
    - [ComponentTheorems]: checksum, validation, longest-prefix match, the cache
      as a finite map, the request queue, the message sent, the log read back (the
      first 1024 bytes of each frame).
    - [SweepTheorems]: what a round does with a request and with the mappings.
    - [System]: frames and rounds in any order, each taken as one step: the
      invariant in every reachable state, no stuck state, and that no packet
      waits for ever.  [TypeTheorems]: what frames and rounds add to the messages
      to the server are whole packet messages of its protocol.
    - [Threads] (with [Asked], on which messages ask for an address): a round of
      the timer between queueing a packet and asking for its next hop, the one
      place where the code keeps a request without the lock.  A new next hop is
      still asked for exactly once, by the round; the window is harmless unless
      the round gives the request up.
    - [Rely]: a program logic for programs of actions, whose assertions the
      timer's rounds must keep.  The class [Assertion] says what the handlers need
      of such an assertion, and every handler is shown to keep every assertion of
      the class.  [Interference] has the assertion that no request can be given
      up: with up to four rounds at any points inside a frame, handler and rounds
      run without a fault and keep the invariant.  One round more and the frame's
      thread may use a freed request; the point where it does is computed.
      [Concurrent] has the assertion without that condition: the use of a freed
      request is then the only fault there can be.
    - [MainThread], [ConcurrentSession]: whole sessions while the timer runs.  The
      main loop's program of actions, run alone, is the main loop
      ([main_loop_turns] is the same program with the rounds of each command kept
      apart, for the proofs); whatever rounds come, a session ends at the farewell with everything before it read and the
      router well-formed, or in the one fault of [Concurrent], and only when a
      round came while a frame was handled.  Without such a round the session is a
      sequence of whole steps, as [System] has them.
    - [PrintTheorems]: printing stays inside a packet of any length, with one
      exception in the code; the printed routing table can be loaded again.
    - [VnsSpec], [Commands], [Handshake] (lemmas) and [SessionTheorems]: commands arrive
      whatever the pieces; the class [FrameHandler] is what the session relies on
      from the router, with [sr_handlepacket] as its instance; hardware
      information, authentication, sessions on a topology and on a template, the
      routing table's file and what is refused in it, errors of the stream.
    - [ProgramTheorems]: [main] from the command line to the farewell, alone and
      with the timer's thread beside its loop, composed of all of the above, the
      messages it writes from the first to the last, and runs of it evaluated on
      concrete bytes.
      [StartTheorems]: the ways it fails to start, and what it returns.
    - [Demo]: the topology of the repository's tests, on which every theorem
      with hypotheses is applied to concrete data.

    ** Bounds and fuel

    [cksum_fuel] is 2: two folds bring a 32-bit sum below 2^16.  [fill_fuel] is
    64: a padding loop writes at most the 64 bytes of the block.  [recv_fuel] is
    one more than the answers of the socket still to come, each turn takes one.
    [sr_load_rt] has as many turns as the file has characters, each line takes
    one.  The sweep has as many as there are requests at its start, no request is
    visited twice.  Each of these is proved to be enough.  The fuel of
    [main_loop], which may run for ever, is a parameter: one more than the
    number of commands before the last is enough.  A frame is shorter than 2^31
    bytes ([MAX_FRAME]); the server's commands have at most 10000.  The request
    counter wraps at 2^32 as in C; the invariant keeps it at most 5.  Inside one
    frame at most four rounds of the timer are considered, any number between
    frames and while a command is read: a request that is new when the frame
    queues its packet then counts at most 4 from the rounds, and at most 5 after
    the frame's thread has counted it as well.  Rounds are a second apart.

    ** What is not modelled

    - The text of single messages to the standard streams, and [usage].  What a
      message reads with [%s] from the server's commands or from the instance is
      read in the model too, up to its NUL.  The functions that print headers and
      tables are modelled; those on the program's way (the interfaces on hardware
      information, the routing table when it was loaded) are called where the
      code calls them.
    - [sr_arpcache_destroy] (never called), [sr_destroy_instance] and
      [sr_dump_close] ([fclose] at exit, while the timer thread may still log);
      the creation of the thread, and [sleep].
    - A round of the timer is one step: it holds the cache's lock from its start
      to its end.  The few accesses of the frame's thread outside the lock (the
      count and the time of a request that was just queued) are actions of
      [Interleave] that come before or after a round, never inside one, and an
      increment is one action.  The same holds of the record that a packet leaves
      in the log, which the code writes in two pieces without a lock
      ([log_records_mixed] in [Dumper]), and of the handling of a command other
      than a packet.  Before [sr_init], which [main] calls just before its loop,
      there is no timer thread.  The interface list and the routing table do not
      change while frames are handled.
    - The operating system's answers are the environment's: the clock, whether
      an allocation succeeds, how much a [write] takes, name lookup and socket
      calls, the user's name, the text [inet_ntoa] makes of an address.
      [inet_aton], [inet_ntop] and [ctime] are parameters; [getopt] is the list of
      the options it finds.  Allocations that the code does not check are assumed
      to succeed where a theorem says so ([mallocs_checked]).
    - The name of the interface in a packet command is read up to its NUL; the
      theorems on sessions ask for a NUL among its 16 bytes, and for one among the
      32 of a name in the hardware information, which is printed.  The contents of
      memory from [malloc] that is overwritten entirely start as zeros. *)

From Stdlib Require Export ZArith Lia List.
From stdpp Require Export base tactics list numbers option.

#[global] Open Scope Z_scope.

(** ** Automation *)

Create HintDb sr.
Create Rewrite HintDb sr.

(** Case analysis on the boolean comparisons of the C conditions. *)
Ltac zcase :=
  match goal with
  | |- context [Z.eqb ?a ?b] => destruct (Z.eqb_spec a b)
  | |- context [Z.ltb ?a ?b] => destruct (Z.ltb_spec a b)
  | |- context [Z.leb ?a ?b] => destruct (Z.leb_spec a b)
  | |- context [Nat.leb ?a ?b] => destruct (Nat.leb_spec a b)
  | |- context [Nat.ltb ?a ?b] => destruct (Nat.ltb_spec a b)
  | |- context [Nat.eqb ?a ?b] => destruct (Nat.eqb_spec a b)
  end.

(** The same on a hypothesis. *)
Ltac zcase_in H :=
  match type of H with
  | context [Z.eqb ?a ?b] => destruct (Z.eqb_spec a b)
  | context [Z.ltb ?a ?b] => destruct (Z.ltb_spec a b)
  | context [Z.leb ?a ?b] => destruct (Z.leb_spec a b)
  | context [Nat.leb ?a ?b] => destruct (Nat.leb_spec a b)
  | context [Nat.ltb ?a ?b] => destruct (Nat.ltb_spec a b)
  | context [Nat.eqb ?a ?b] => destruct (Nat.eqb_spec a b)
  end.

(** Splits boolean conjunctions and negated disjunctions in the hypotheses
    into the arithmetic facts they stand for. *)
Ltac bools :=
  repeat match goal with
  | H : _ && _ = true |- _ => apply andb_prop in H as [? ?]
  | H : _ || _ = false |- _ => apply orb_false_elim in H as [? ?]
  | H : negb _ = true |- _ => apply negb_true_iff in H
  | H : negb _ = false |- _ => apply negb_false_iff in H
  | H : (_ =? _) = true |- _ => apply Z.eqb_eq in H
  | H : (_ =? _) = false |- _ => apply Z.eqb_neq in H
  | H : (_ <? _) = true |- _ => apply Z.ltb_lt in H
  | H : (_ <? _) = false |- _ => apply Z.ltb_ge in H
  | H : (_ <=? _) = true |- _ => apply Z.leb_le in H
  | H : (_ <=? _) = false |- _ => apply Z.leb_gt in H
  end.

(** [if] on a condition known to hold or to fail. *)
Lemma if_true {A} (b : bool) (x y : A) : b = true → (if b then x else y) = x.
Proof. by intros ->. Qed.

Lemma if_false {A} (b : bool) (x y : A) : b = false → (if b then x else y) = y.
Proof. by intros ->. Qed.

Lemma leb_nat_false (a b : nat) : (b < a)%nat → (a <=? b)%nat = false.
Proof. intros. by apply Nat.leb_gt. Qed.

Lemma leb_nat_true (a b : nat) : (a <= b)%nat → (a <=? b)%nat = true.
Proof. apply Nat.leb_le. Qed.

(** ** Fixed-width unsigned integers

    A [w]-bit value is a [Z] in [0, 2^w); the wrap-around is written out where
    the C code computes in that width. *)

Definition u8 (z : Z) : Z := z mod 2 ^ 8.
Definition u16 (z : Z) : Z := z mod 2 ^ 16.
Definition u32 (z : Z) : Z := z mod 2 ^ 32.

Definition u64 (z : Z) : Z := z mod 2 ^ 64.
(** The conversion of a 32-bit value to [int]. *)
Definition i32 (z : Z) : Z := if z <? 2 ^ 31 then z else z - 2 ^ 32.

#[global] Arguments u64 : simpl never.
#[global] Arguments i32 : simpl never.
#[global] Arguments u8 : simpl never.
#[global] Arguments u16 : simpl never.
#[global] Arguments u32 : simpl never.
#[global] Arguments Z.land : simpl never.
#[global] Arguments Z.lor : simpl never.
#[global] Arguments Z.shiftl : simpl never.
#[global] Arguments Z.shiftr : simpl never.
#[global] Arguments Z.pow : simpl never.
#[global] Arguments Z.mul : simpl never.
#[global] Arguments Z.add : simpl never.
#[global] Arguments Z.sub : simpl never.
#[global] Arguments Z.div : simpl never.
#[global] Arguments Z.modulo : simpl never.
#[global] Arguments Z.of_nat : simpl never.
#[global] Arguments Z.to_nat : simpl never.
#[global] Arguments Z.eqb : simpl never.
#[global] Arguments Z.ltb : simpl never.
#[global] Arguments Z.leb : simpl never.

Definition is_u8 (z : Z) : Prop := 0 ≤ z < 2 ^ 8.
Definition is_u16 (z : Z) : Prop := 0 ≤ z < 2 ^ 16.
Definition is_u32 (z : Z) : Prop := 0 ≤ z < 2 ^ 32.

Lemma u8_bound z : is_u8 (u8 z).
Proof. apply Z.mod_pos_bound. lia. Qed.
Lemma u16_bound z : is_u16 (u16 z).
Proof. apply Z.mod_pos_bound. lia. Qed.
Lemma u32_bound z : is_u32 (u32 z).
Proof. apply Z.mod_pos_bound. lia. Qed.

Lemma u8_small z : is_u8 z → u8 z = z.
Proof. apply Z.mod_small. Qed.
Lemma u16_small z : is_u16 z → u16 z = z.
Proof. apply Z.mod_small. Qed.
Lemma u32_small z : is_u32 z → u32 z = z.
Proof. apply Z.mod_small. Qed.

#[export] Hint Resolve u8_bound u16_bound u32_bound : sr.

(** A shift left by [n] and an [or] with something below [2^n] is an addition. *)
Lemma lor_shiftl_add a b n :
  0 ≤ n → 0 ≤ b < 2 ^ n → Z.lor (Z.shiftl a n) b = a * 2 ^ n + b.
Proof.
  intros Hn Hb.
  assert (Z.land (Z.shiftl a n) b = 0) as Hd.
  { apply Z.bits_inj'. intros i Hi. rewrite Z.land_spec, Z.bits_0, andb_false_iff.
    destruct (Z.ltb_spec i n) as [Hlt|Hge].
    - left. by apply Z.shiftl_spec_low.
    - right. destruct (Z.eq_dec b 0) as [->|Hz]; [apply Z.bits_0|].
      apply Z.bits_above_log2; [lia|]. apply Z.log2_lt_pow2; [lia|].
      apply Z.lt_le_trans with (2 ^ n); [lia|]. by apply Z.pow_le_mono_r. }
  pose proof (Z.add_lor_land (Z.shiftl a n) b) as He.
  rewrite Hd in He. rewrite Z.shiftl_mul_pow2 in * by done. lia.
Qed.

(** The low [n] bits, and what is above them. *)
Lemma land_ones_mod a n : 0 ≤ n → Z.land a (2 ^ n - 1) = a mod 2 ^ n.
Proof. intros. rewrite <- Z.land_ones by done. f_equal. by rewrite Z.ones_equiv. Qed.

Lemma testbit_u32 x i : is_u32 x → 32 ≤ i → Z.testbit x i = false.
Proof.
  intros Hx Hi. unfold is_u32 in Hx.
  destruct (Z.eq_dec x 0) as [->|]; [apply Z.bits_0|].
  apply Z.bits_above_log2; [lia|]. apply Z.log2_lt_pow2; [lia|].
  apply Z.lt_le_trans with (2 ^ 32); [lia|]. apply Z.pow_le_mono_r; lia.
Qed.

Lemma lxor_u32 a b : is_u32 a → is_u32 b → is_u32 (Z.lxor a b).
Proof.
  intros Ha Hb. assert (0 ≤ Z.lxor a b) as H0.
  { apply Z.lxor_nonneg. unfold is_u32 in *. lia. }
  split; [done|]. destruct (Z.eq_dec (Z.lxor a b) 0) as [->|Hz]; [lia|].
  apply Z.log2_lt_pow2; [lia|]. apply Z.nle_gt. intros Hge.
  pose proof (Z.bit_log2 (Z.lxor a b)) as Hbit.
  rewrite Z.lxor_spec, !testbit_u32 in Hbit by done. by specialize (Hbit ltac:(lia)).
Qed.

(** ** Lists *)

Lemma filter_all {A} (P : A → Prop) `{∀ x, Decision (P x)} (l : list A) :
  Forall P l → filter P l = l.
Proof.
  induction 1 as [|x l Hx _ IH]; [done|].
  rewrite filter_cons, decide_True by done. by f_equal.
Qed.

Lemma Forall_filter {A} (P Q : A → Prop) `{∀ x, Decision (P x)} (l : list A) :
  Forall Q l → Forall Q (filter P l).
Proof.
  rewrite !list.Forall_forall. intros HQ x [_ Hx]%list_elem_of_filter. auto.
Qed.

Lemma mapM_snoc {A B} (f : A → option B) (l : list A) (x : A) :
  mapM f (l ++ [x]) = ys ← mapM f l; y ← f x; Some (ys ++ [y]).
Proof.
  induction l as [|z l IH]; [cbn; by destruct (f x)|]. cbn. rewrite IH.
  destruct (f z), (mapM f l), (f x); done.
Qed.
