(* ===== verification/Effects.v ===== *)
(** * Effects of the C code

    A C function of the router is a function of an environment [E] (what the
    operating system answers during the call: the clock, whether an allocation
    succeeds, what [write] returns), a state [S] (the [sr_instance] it is given
    a pointer to) and its arguments; it stops with a value and a new state, or
    it does not return normally.  The ways of not returning normally are the
    values of [fault]: undefined behaviour of C with its cause, a failed
    [assert], a call of [exit], a read that waits for ever, and the fuel of a loop
    model running out. *)

From S2P Require Export Prelude.

Inductive ub :=
  | OutOfBounds      (* an access outside the object a pointer points into *)
  | NullDeref        (* an access through a null pointer *)
  | UseAfterFree     (* an access to an object that was freed *)
  | Uninitialised.   (* a read of an object that was never written *)

Inductive fault :=
  | Undefined (u : ub)
  | AssertFailed
  | Exited (code : Z)
  | Blocked          (* a read for which no answer ever comes *)
  | OutOfFuel.

Inductive res (A : Type) :=
  | Ok (a : A)
  | Fault (f : fault).
Arguments Ok {A} a.
Arguments Fault {A} f.

#[export] Instance ub_eq_dec : EqDecision ub.
Proof. solve_decision. Defined.
#[export] Instance fault_eq_dec : EqDecision fault.
Proof. solve_decision. Defined.

Definition M (E S A : Type) : Type := E → S → res (A * S).

#[export] Instance M_ret E S : MRet (M E S) := λ A a e s, Ok (a, s).
#[export] Instance M_bind E S : MBind (M E S) := λ A B k m e s,
  match m e s with
  | Ok (a, s') => k a e s'
  | Fault f => Fault f
  end.
#[export] Instance M_fmap E S : FMap (M E S) := λ A B f m,
  m ≫= λ a, mret (f a).

Definition throw {E S A} (f : fault) : M E S A := λ e s, Fault f.
Definition ask {E S} : M E S E := λ e s, Ok (e, s).
Definition gets {E S A} (f : S → A) : M E S A := λ e s, Ok (f s, s).
Definition modify {E S} (f : S → S) : M E S unit := λ e s, Ok (tt, f s).

(** The C library functions that do not touch the router's state are partial
    functions; [None] is undefined behaviour with the given cause. *)
Definition lift {E S A} (u : ub) (o : option A) : M E S A :=
  match o with
  | Some a => mret a
  | None => throw (Undefined u)
  end.

Definition assert {E S} (b : bool) : M E S unit :=
  if b then mret tt else throw AssertFailed.

(** A [for] loop over the elements of a list. *)
Fixpoint for_each {E S A} (l : list A) (body : A → M E S unit) : M E S unit :=
  match l with
  | [] => mret tt
  | x :: l' => body x ;; for_each l' body
  end.

(** ** Total correctness

    [wp m Q e s]: from the state [s], [m] returns normally and the value and
    the state it returns satisfy [Q]; so [wp] excludes every [fault]. *)

Definition wp {E S A} (m : M E S A) (Q : A → S → Prop) (e : E) (s : S) : Prop :=
  match m e s with
  | Ok (a, s') => Q a s'
  | Fault _ => False
  end.

Section wp_rules.
Context {E S : Type}.
Implicit Types (e : E) (s : S).

Lemma wp_ret {A} (a : A) (Q : A → S → Prop) e s :
  Q a s → wp (mret a) Q e s.
Proof. done. Qed.

Lemma wp_bind {A B} (m : M E S A) (k : A → M E S B) (Q : B → S → Prop) e s :
  wp m (λ a s', wp (k a) Q e s') e s → wp (m ≫= k) Q e s.
Proof. unfold wp, mbind, M_bind. by destruct (m e s) as [[a s']|f]. Qed.

Lemma wp_mono {A} (m : M E S A) (P Q : A → S → Prop) e s :
  wp m P e s → (∀ a s', P a s' → Q a s') → wp m Q e s.
Proof. unfold wp. destruct (m e s) as [[a s']|f]; eauto. Qed.

Lemma wp_gets {A} (f : S → A) (Q : A → S → Prop) e s :
  Q (f s) s → wp (gets f) Q e s.
Proof. done. Qed.

Lemma wp_modify (f : S → S) (Q : unit → S → Prop) e s :
  Q tt (f s) → wp (modify f) Q e s.
Proof. done. Qed.

Lemma wp_ask (Q : E → S → Prop) e s :
  Q e s → wp ask Q e s.
Proof. done. Qed.

Lemma wp_lift {A} u (o : option A) a (Q : A → S → Prop) e s :
  o = Some a → Q a s → wp (lift u o) Q e s.
Proof. by intros ->. Qed.

Lemma wp_assert (b : bool) (Q : unit → S → Prop) e s :
  b = true → Q tt s → wp (assert b) Q e s.
Proof. by intros ->. Qed.

(** The loop rule: a state invariant kept by the body on every element. *)
Lemma wp_for_each {A} (l : list A) body (I : S → Prop) e s :
  I s →
  (∀ x s', x ∈ l → I s' → wp (body x) (λ _, I) e s') →
  wp (for_each l body) (λ _, I) e s.
Proof.
  revert s. induction l as [|x l IH]; intros s HI Hbody; [done|].
  simpl. apply wp_bind. eapply wp_mono; [apply Hbody; [left|done]|].
  intros [] s' HI'. apply IH; [done|]. intros y s'' Hy. apply Hbody. by right.
Qed.

(** A computed run gives [wp], and [wp] gives a run. *)
Lemma wp_run {A} (m : M E S A) (Q : A → S → Prop) e s a s' :
  m e s = Ok (a, s') → Q a s' → wp m Q e s.
Proof. unfold wp. by intros ->. Qed.

Lemma wp_elim {A} (m : M E S A) (Q : A → S → Prop) e s :
  wp m Q e s → ∃ a s', m e s = Ok (a, s') ∧ Q a s'.
Proof. unfold wp. destruct (m e s) as [[a s']|f]; [eauto|done]. Qed.

Lemma wp_and {A} (m : M E S A) (P Q : A → S → Prop) e s :
  wp m P e s → wp m Q e s → wp m (λ a s', P a s' ∧ Q a s') e s.
Proof. unfold wp. by destruct (m e s) as [[a s']|f]. Qed.

(** ** Running a program *)

Lemma bind_run {A B} (m : M E S A) (k : A → M E S B) e s a s' :
  m e s = Ok (a, s') → (m ≫= k) e s = k a e s'.
Proof. unfold mbind, M_bind. by intros ->. Qed.

Lemma bind_fault {A B} (m : M E S A) (k : A → M E S B) e s f :
  m e s = Fault f → (m ≫= k) e s = Fault f.
Proof. unfold mbind, M_bind. by intros ->. Qed.

Lemma bind_mret {A B} (a : A) (k : A → M E S B) : mret a ≫= k = k a.
Proof. done. Qed.

Lemma lift_some {A} u (a : A) : lift (E:=E) (S:=S) u (Some a) = mret a.
Proof. done. Qed.

Lemma for_each_app {A} (l1 l2 : list A) (body : A → M E S unit) e s s' :
  for_each l1 body e s = Ok (tt, s') →
  for_each (l1 ++ l2) body e s = for_each l2 body e s'.
Proof.
  revert s. induction l1 as [|x l1 IH]; intros s H.
  - by injection H as ->.
  - simpl in *. unfold mbind, M_bind in *.
    destruct (body x e s) as [[[] s1]|f]; [by apply IH|done].
Qed.

(** A loop whose body is known to run, under an invariant of the state. *)
Lemma for_each_run {A} (l : list A) (body : A → M E S unit) (f : A → S → S) (I : S → Prop) e s :
  I s →
  (∀ x s', x ∈ l → I s' → body x e s' = Ok (tt, f x s') ∧ I (f x s')) →
  for_each l body e s = Ok (tt, foldl (λ s x, f x s) s l) ∧ I (foldl (λ s x, f x s) s l).
Proof.
  revert s. induction l as [|x l IH]; intros s HI Hbody; [done|]. simpl.
  destruct (Hbody x s) as [Hx HIx]; [left|done|].
  rewrite (bind_run _ _ _ _ _ _ Hx). apply IH; [done|].
  intros y s' Hy. apply Hbody. by right.
Qed.
End wp_rules.

#[export] Hint Rewrite @bind_mret @lift_some : sr.

(** One step of a run whose first action is known. *)
Ltac run_with H := erewrite bind_run by (eapply H; eauto with sr; fail).

Ltac wp_step :=
  match goal with
  | |- wp (mbind _ _) _ _ _ => apply wp_bind
  | |- wp (mret _) _ _ _ => apply wp_ret
  | |- wp (gets _) _ _ _ => apply wp_gets
  | |- wp (modify _) _ _ _ => apply wp_modify
  | |- wp ask _ _ _ => apply wp_ask
  end.
