(* ===== verification/Memory.v ===== *)
(** * Objects in memory: byte buffers and C strings

    An object is the list of its bytes; a pointer into it is the object and an
    offset.  Every access is checked against the object's size: an access that
    C leaves undefined is [None].  The host is little-endian (the build defines
    [_LINUX_], for which [sr_protocol.h] selects [__LITTLE_ENDIAN]): a load of
    [n] bytes gives the number with the first byte least significant, and
    [ntohs], [ntohl], [htons] and [htonl] swap the bytes. *)

From S2P Require Export Prelude.

Abbreviation buf := (list Z).

Definition bytes_ok (b : buf) : Prop := Forall is_u8 b.

(** ** Slices and updates *)

Definition slice (off n : nat) (b : buf) : buf := take n (drop off b).

(** [put off bs b] overwrites the bytes of [b] from [off] with [bs]; an update
    that does not fit, which the checked operations below never perform,
    changes nothing. *)
Definition put (off : nat) (bs b : buf) : buf :=
  if (off + length bs <=? length b)%nat
  then take off b ++ bs ++ drop (off + length bs) b
  else b.

(** ** Little-endian numbers *)

Fixpoint le_dec (b : buf) : Z :=
  match b with
  | [] => 0
  | x :: b' => x + 256 * le_dec b'
  end.

Fixpoint le_enc (n : nat) (z : Z) : buf :=
  match n with
  | O => []
  | S n' => z mod 256 :: le_enc n' (z / 256)
  end.

(** ** Checked loads and stores *)

Definition load (n off : nat) (b : buf) : option Z :=
  if (off + n <=? length b)%nat then Some (le_dec (slice off n b)) else None.

Definition store (n off : nat) (v : Z) (b : buf) : option buf :=
  if (off + n <=? length b)%nat then Some (put off (le_enc n v) b) else None.

Definition load_bytes (n off : nat) (b : buf) : option buf :=
  if (off + n <=? length b)%nat then Some (slice off n b) else None.

Definition store_bytes (off : nat) (bs b : buf) : option buf :=
  if (off + length bs <=? length b)%nat then Some (put off bs b) else None.

(** [memcpy (dst + doff, src + soff, n)] *)
Definition memcpy (doff : nat) (dst : buf) (soff : nat) (src : buf) (n : nat)
    : option buf :=
  bs ← load_bytes n soff src; store_bytes doff bs dst.

(** [memcmp (a, b, n) == 0] on two objects of at least [n] bytes. *)
Definition memcmp_eq (n : nat) (a b : buf) : option bool :=
  x ← load_bytes n 0 a; y ← load_bytes n 0 b; Some (bool_decide (x = y)).

(** ** Byte order *)

Definition ntohs (z : Z) : Z :=
  Z.lor (Z.shiftl (Z.land z 0xff) 8) (Z.land (Z.shiftr z 8) 0xff).

Definition ntohl (z : Z) : Z :=
  Z.lor (Z.lor (Z.shiftl (Z.land z 0xff) 24)
               (Z.shiftl (Z.land (Z.shiftr z 8) 0xff) 16))
        (Z.lor (Z.shiftl (Z.land (Z.shiftr z 16) 0xff) 8)
               (Z.land (Z.shiftr z 24) 0xff)).

Definition htons : Z → Z := ntohs.
Definition htonl : Z → Z := ntohl.

(** ** C strings

    A string argument is the bytes from the pointer to the end of the object it
    points into. *)

Abbreviation cstr := (list Z).

(** [strncmp (a, b, n) == 0]; [None] when it runs past the end of an object. *)
Fixpoint strncmp_eq (n : nat) (a b : cstr) : option bool :=
  match n with
  | O => Some true
  | S n' =>
      match a, b with
      | x :: a', y :: b' =>
          if x =? y then
            if x =? 0 then Some true else strncmp_eq n' a' b'
          else Some false
      | _, _ => None
      end
  end.

(** The [n] bytes that [strncpy (dst, src, n)] writes. *)
Fixpoint strncpy (n : nat) (src : cstr) : option buf :=
  match n with
  | O => Some []
  | S n' =>
      match src with
      | [] => None
      | c :: src' =>
          if c =? 0 then Some (replicate n 0)
          else cons c <$> strncpy n' src'
      end
  end.

(** The characters of a string; [None] when it is not terminated. *)
Fixpoint c_str (s : cstr) : option (list Z) :=
  match s with
  | [] => None
  | c :: s' => if c =? 0 then Some [] else cons c <$> c_str s'
  end.

(** What the first [n] bytes of a string say: up to the NUL or the limit. *)
Fixpoint cname (n : nat) (s : cstr) : list Z :=
  match n, s with
  | S n', c :: s' => if c =? 0 then [] else c :: cname n' s'
  | _, _ => []
  end.

(** Reading [n] characters of [s], or up to its NUL, stays inside the object. *)
Definition cstr_ok (n : nat) (s : cstr) : Prop := (n <= length s)%nat ∨ 0 ∈ s.

(** ** Lengths

    The rewriting base [len] turns the length of a buffer expression into
    arithmetic on the lengths of its parts. *)

Create Rewrite HintDb len.

Lemma length_slice off n b :
  length (slice off n b) = (n `min` (length b - off))%nat.
Proof. unfold slice. by rewrite length_take, length_drop. Qed.

Lemma put_fits off bs b :
  (off + length bs <= length b)%nat →
  put off bs b = take off b ++ bs ++ drop (off + length bs) b.
Proof. intros H. unfold put. by rewrite leb_nat_true. Qed.

Lemma put_outside off bs b : (length b < off + length bs)%nat → put off bs b = b.
Proof. intros H. unfold put. destruct (Nat.leb_spec (off + length bs) (length b)); [lia|done]. Qed.

Lemma length_put off bs b : length (put off bs b) = length b.
Proof.
  unfold put. zcase; [|done]. rewrite !length_app, length_take, length_drop. lia.
Qed.

Lemma length_le_enc n z : length (le_enc n z) = n.
Proof. revert z. induction n; intros; simpl; auto. Qed.

#[export] Hint Rewrite length_slice length_put length_le_enc @length_app
  @length_replicate @length_take @length_drop @length_cons @length_nil : len.

Ltac len := autorewrite with len in *; simpl length in *; lia.

(** ** The algebra of slices and updates *)

Lemma slice_put_same off n bs b :
  n = length bs → (off + n <= length b)%nat → slice off n (put off bs b) = bs.
Proof.
  intros -> H. rewrite put_fits by done. unfold slice.
  rewrite drop_app_length' by len. by rewrite take_app_length.
Qed.

Lemma slice_put_before off n off' bs b :
  (off + n <= off')%nat → slice off n (put off' bs b) = slice off n b.
Proof.
  intros H1. unfold put. zcase; [|done]. unfold slice.
  rewrite drop_app_le by len. rewrite take_app_le by len.
  rewrite skipn_firstn_comm, take_take. f_equal. lia.
Qed.

Lemma slice_put_after off n off' bs b :
  (off' + length bs <= off)%nat → slice off n (put off' bs b) = slice off n b.
Proof.
  intros H1. unfold put. zcase; [|done]. unfold slice. rewrite app_assoc.
  rewrite drop_app_ge by len. rewrite drop_drop. do 2 f_equal. len.
Qed.

Lemma slice_put_inside off n off' bs b :
  (off <= off')%nat → (off' + length bs <= off + n)%nat →
  (off + n <= length b)%nat →
  slice off n (put off' bs b) = put (off' - off) bs (slice off n b).
Proof.
  intros H1 H2 H3. rewrite !put_fits by len. unfold slice.
  rewrite drop_app_le, skipn_firstn_comm by len.
  rewrite take_app_ge by len. f_equal; [rewrite take_take; f_equal; lia|].
  rewrite take_app_ge by len. f_equal.
  rewrite skipn_firstn_comm, !drop_drop. f_equal; [len|f_equal; len].
Qed.

Lemma put_put_same off bs bs' b :
  length bs = length bs' → put off bs (put off bs' b) = put off bs b.
Proof.
  intros Hl. destruct (Nat.le_gt_cases (off + length bs) (length b)) as [H|H].
  2:{ by rewrite !put_outside by (rewrite ?put_outside by lia; lia). }
  rewrite (put_fits off bs (put _ _ _)) by len. rewrite !put_fits by lia.
  rewrite take_app_le by len. rewrite take_take.
  f_equal; [f_equal; lia|]. f_equal. rewrite !app_assoc, Hl.
  by rewrite drop_app_length' by len.
Qed.

Lemma put_slice_id off n b :
  (off + n <= length b)%nat → put off (slice off n b) b = b.
Proof.
  intros H. rewrite put_fits by len. unfold slice.
  rewrite length_take, length_drop, Nat.min_l by lia.
  rewrite <- (drop_drop b n off), take_drop. apply take_drop.
Qed.

(** Writing back what was there undoes a write. *)
Lemma put_restore off n bs b :
  n = length bs → (off + n <= length b)%nat →
  put off (slice off n b) (put off bs b) = b.
Proof.
  intros -> H. rewrite put_put_same by len. by apply put_slice_id.
Qed.

Lemma slice_slice off n off' n' b :
  (off' + n' <= n)%nat →
  slice off' n' (slice off n b) = slice (off + off') n' b.
Proof.
  intros H. unfold slice. rewrite skipn_firstn_comm, take_take, drop_drop.
  f_equal. lia.
Qed.

Lemma slice_all n b : n = length b → slice 0 n b = b.
Proof. intros ->. unfold slice. apply firstn_all. Qed.

Lemma lookup_slice off n b i :
  (i < n)%nat → slice off n b !! i = b !! (off + i)%nat.
Proof. intros H. unfold slice. by rewrite lookup_take_lt, lookup_drop by lia. Qed.

(** A byte outside the written range is unchanged. *)
Lemma lookup_put_ne off bs b i :
  (i < off)%nat ∨ (off + length bs <= i)%nat → put off bs b !! i = b !! i.
Proof.
  intros Hi. unfold put. zcase; [|done]. destruct Hi.
  - by rewrite lookup_app_l, lookup_take_lt by len.
  - rewrite app_assoc, lookup_app_r by len. rewrite lookup_drop. f_equal. len.
Qed.

Lemma slice_ext off n b b' :
  (∀ i, (off <= i < off + n)%nat → b !! i = b' !! i) → slice off n b = slice off n b'.
Proof.
  intros H. apply list_eq. intros i. destruct (decide (i < n)%nat).
  - rewrite !lookup_slice by done. apply H. lia.
  - unfold slice. by rewrite !lookup_take_ge by lia.
Qed.

(** Writing a fresh buffer member after member. *)
Lemma put_0 bs b : (length bs <= length b)%nat → put 0 bs b = bs ++ drop (length bs) b.
Proof. intros H. by rewrite put_fits. Qed.

Lemma put_app_r off bs pre b :
  (length pre <= off)%nat → put off bs (pre ++ b) = pre ++ put (off - length pre) bs b.
Proof.
  intros H. unfold put. rewrite length_app.
  destruct (Nat.leb_spec (off + length bs) (length pre + length b)),
    (Nat.leb_spec (off - length pre + length bs) (length b)); try lia; [|done].
  rewrite take_app_ge by done. rewrite drop_app_ge by lia.
  rewrite <- !app_assoc. do 3 f_equal. f_equal. lia.
Qed.

Lemma put_next off bs pre b :
  off = length pre → (length bs <= length b)%nat →
  put off bs (pre ++ b) = (pre ++ bs) ++ drop (length bs) b.
Proof.
  intros -> H. rewrite put_app_r, Nat.sub_diag, put_0 by lia. apply app_assoc.
Qed.

(** Two updates one after the other. *)
Lemma put_put_next off x y b :
  (off + length x + length y <= length b)%nat →
  put (off + length x) y (put off x b) = put off (x ++ y) b.
Proof.
  intros H. rewrite (put_fits off x), (put_fits off (x ++ y)) by (rewrite ?length_app; lia).
  rewrite app_assoc, put_next by (rewrite ?length_app, ?length_take, ?length_drop; lia).
  rewrite <- !app_assoc, drop_drop, length_app. do 3 f_equal. f_equal. lia.
Qed.

(** Filling a cleared buffer from the left, and overwriting a segment. *)
Lemma put_zeros_skip off bs pre k n m :
  off = (length pre + k)%nat → n = (k + length bs + m)%nat →
  put off bs (pre ++ replicate n 0) = pre ++ replicate k 0 ++ bs ++ replicate m 0.
Proof.
  intros -> ->. rewrite put_app_r by lia. f_equal.
  rewrite put_fits by len. rewrite !replicate_add, <- app_assoc, take_app_length' by len.
  do 2 f_equal. rewrite !app_assoc, drop_app_length' by len. done.
Qed.

Lemma put_zeros off bs pre n m :
  off = length pre → n = (length bs + m)%nat →
  put off bs (pre ++ replicate n 0) = pre ++ bs ++ replicate m 0.
Proof. intros -> ->. by rewrite (put_zeros_skip _ _ _ 0 _ m) by lia. Qed.

Lemma put_seg off bs pre old post :
  off = length pre → length bs = length old →
  put off bs (pre ++ old ++ post) = pre ++ bs ++ post.
Proof.
  intros -> Hl. rewrite put_app_r, Nat.sub_diag, put_0 by len. f_equal.
  rewrite Hl. by rewrite drop_app_length.
Qed.

(** A middle segment. *)
Lemma slice_seg off n pre mid post :
  off = length pre → n = length mid → slice off n (pre ++ mid ++ post) = mid.
Proof.
  intros -> ->. unfold slice. by rewrite drop_app_length, take_app_length.
Qed.

(** ** Numbers in memory *)

Lemma le_dec_bound b : bytes_ok b → 0 ≤ le_dec b < 256 ^ Z.of_nat (length b).
Proof.
  induction 1 as [|x b Hx Hb IH]; [simpl; lia|].
  unfold is_u8 in Hx.
  change (le_dec (x :: b)) with (x + 256 * le_dec b).
  change (length (x :: b)) with (S (length b)).
  rewrite Nat2Z.inj_succ, Z.pow_succ_r by lia. lia.
Qed.

Lemma le_dec_enc n z : 0 ≤ z < 256 ^ Z.of_nat n → le_dec (le_enc n z) = z.
Proof.
  revert z. induction n as [|n IH]; intros z Hz; [simpl in *; lia|].
  rewrite Nat2Z.inj_succ, Z.pow_succ_r in Hz by lia. simpl le_enc.
  change (z mod 256 + 256 * le_dec (le_enc n (z / 256)) = z).
  rewrite IH by (split; [apply Z.div_pos|apply Z.div_lt_upper_bound]; lia).
  rewrite (Z_div_mod_eq_full z 256) at 3. lia.
Qed.

Lemma le_enc_dec b : bytes_ok b → le_enc (length b) (le_dec b) = b.
Proof.
  induction 1 as [|x b Hx Hb IH]; [done|].
  unfold is_u8 in Hx. simpl length. simpl le_enc.
  change (le_dec (x :: b)) with (x + 256 * le_dec b).
  rewrite (Z.mul_comm 256), Z.mod_add, Z.div_add by lia.
  rewrite Z.mod_small, Z.div_small by lia. by rewrite Z.add_0_l, IH.
Qed.

Lemma le_enc_ok n z : bytes_ok (le_enc n z).
Proof.
  revert z. induction n as [|n IH]; intros z; simpl; constructor; [|apply IH].
  apply Z.mod_pos_bound. lia.
Qed.

Lemma bytes_ok_slice off n b : bytes_ok b → bytes_ok (slice off n b).
Proof. intros H. by apply Forall_take, Forall_drop. Qed.

Lemma bytes_ok_put off bs b : bytes_ok bs → bytes_ok b → bytes_ok (put off bs b).
Proof.
  intros H1 H2. unfold put. zcase; [|done]. apply Forall_app; split; [by apply Forall_take|].
  apply Forall_app; split; [done|by apply Forall_drop].
Qed.

Lemma bytes_ok_replicate n x : is_u8 x → bytes_ok (replicate n x).
Proof. intros. by apply Forall_replicate. Qed.

Lemma bytes_ok_app a b : bytes_ok a → bytes_ok b → bytes_ok (a ++ b).
Proof. intros. by apply Forall_app. Qed.

Lemma bytes_ok_drop n b : bytes_ok b → bytes_ok (drop n b).
Proof. apply Forall_drop. Qed.

#[export] Hint Resolve bytes_ok_app bytes_ok_drop : sr.
#[export] Hint Resolve le_enc_ok bytes_ok_slice bytes_ok_put bytes_ok_replicate : sr.

(** A buffer given as segments and literal bytes. *)
Ltac bytes :=
  repeat first
    [ solve [auto with sr] | apply bytes_ok_app | apply Forall_nil_2
    | apply Forall_cons_2; [first [assumption | unfold is_u8 in *; lia | done]|] ].

Lemma load_ok n off b :
  (off + n <= length b)%nat → load n off b = Some (le_dec (slice off n b)).
Proof. intros H. unfold load. by rewrite leb_nat_true. Qed.

Lemma store_ok n off v b :
  (off + n <= length b)%nat → store n off v b = Some (put off (le_enc n v) b).
Proof. intros H. unfold store. by rewrite leb_nat_true. Qed.

Lemma load_bytes_ok n off b :
  (off + n <= length b)%nat → load_bytes n off b = Some (slice off n b).
Proof. intros H. unfold load_bytes. by rewrite leb_nat_true. Qed.

Lemma store_bytes_ok off bs b :
  (off + length bs <= length b)%nat → store_bytes off bs b = Some (put off bs b).
Proof. intros H. unfold store_bytes. by rewrite leb_nat_true. Qed.

Lemma memcpy_ok doff dst soff src n :
  (soff + n <= length src)%nat → (doff + n <= length dst)%nat →
  memcpy doff dst soff src n = Some (put doff (slice soff n src) dst).
Proof.
  intros H1 H2. unfold memcpy. rewrite load_bytes_ok by done. simpl.
  by rewrite store_bytes_ok by len.
Qed.

Lemma memcmp_eq_ok n a b :
  (n <= length a)%nat → (n <= length b)%nat →
  memcmp_eq n a b = Some (bool_decide (take n a = take n b)).
Proof. intros H1 H2. unfold memcmp_eq. by rewrite !load_bytes_ok by lia. Qed.

(** ** Byte order *)

Lemma ntohs_arith z : is_u16 z → ntohs z = (z mod 256) * 256 + z / 256.
Proof.
  intros Hz. unfold is_u16 in Hz. unfold ntohs.
  change 0xff with (2 ^ 8 - 1). rewrite !land_ones_mod by lia.
  rewrite Z.shiftr_div_pow2 by lia. change (2 ^ 8) with 256.
  rewrite lor_shiftl_add by (change (2 ^ 8) with 256; lia || apply Z.mod_pos_bound; lia).
  rewrite (Z.mod_small (z / 256)) by (split; [apply Z.div_pos|apply Z.div_lt_upper_bound]; lia).
  done.
Qed.

Lemma ntohs_bound z : is_u16 z → is_u16 (ntohs z).
Proof.
  intros Hz. rewrite ntohs_arith by done. unfold is_u16 in *.
  pose proof (Z.mod_pos_bound z 256). pose proof (Z.div_pos z 256).
  pose proof (Z.div_lt_upper_bound z 256 256). lia.
Qed.

(** [ntohs] is its own inverse: [htons (ntohs z)] is [z]. *)
Lemma ntohs_involutive z : is_u16 z → ntohs (ntohs z) = z.
Proof.
  intros Hz. rewrite (ntohs_arith (ntohs z)) by by apply ntohs_bound.
  rewrite ntohs_arith by done. unfold is_u16 in Hz.
  pose proof (Z.mod_pos_bound z 256 ltac:(lia)).
  assert (0 ≤ z / 256 < 256) by (split; [apply Z.div_pos|apply Z.div_lt_upper_bound]; lia).
  pose proof (Z_div_mod_eq_full z 256) as Hdm.
  set (a := z mod 256) in *. set (b := z / 256) in *.
  replace (a * 256 + b) with (b + a * 256) by lia.
  rewrite Z.mod_add, Z.div_add, Z.mod_small, Z.div_small by lia. lia.
Qed.

Lemma ntohs_inj x y : is_u16 x → is_u16 y → ntohs x = ntohs y → x = y.
Proof.
  intros Hx Hy H. by rewrite <- (ntohs_involutive x), <- (ntohs_involutive y), H.
Qed.

(** A 16-bit field loaded and put in host order is its bytes, first byte most
    significant. *)
Lemma ntohs_bytes x y : is_u8 x → is_u8 y → ntohs (le_dec [x; y]) = x * 256 + y.
Proof.
  unfold is_u8. intros Hx Hy. simpl le_dec.
  replace (x + 256 * (y + 256 * 0)) with (x + y * 256) by lia.
  rewrite ntohs_arith by (unfold is_u16; lia).
  rewrite Z.mod_add, Z.div_add by lia.
  rewrite Z.mod_small, Z.div_small by lia. lia.
Qed.

Lemma le_dec_u16 off b :
  bytes_ok b → is_u16 (le_dec (slice off 2 b)).
Proof.
  intros Hb. pose proof (le_dec_bound (slice off 2 b) (bytes_ok_slice _ _ _ Hb)) as H.
  rewrite length_slice in H. unfold is_u16.
  assert (256 ^ Z.of_nat (2 `min` (length b - off))%nat ≤ 2 ^ 16); [|lia].
  change (2 ^ 16) with (256 ^ 2). apply Z.pow_le_mono_r; lia.
Qed.

Lemma le_dec_u32 off b :
  bytes_ok b → is_u32 (le_dec (slice off 4 b)).
Proof.
  intros Hb. pose proof (le_dec_bound (slice off 4 b) (bytes_ok_slice _ _ _ Hb)) as H.
  rewrite length_slice in H. unfold is_u32.
  assert (256 ^ Z.of_nat (4 `min` (length b - off))%nat ≤ 2 ^ 32); [|lia].
  change (2 ^ 32) with (256 ^ 4). apply Z.pow_le_mono_r; lia.
Qed.

Lemma le_dec_u8 off b :
  bytes_ok b → is_u8 (le_dec (slice off 1 b)).
Proof.
  intros Hb. pose proof (le_dec_bound (slice off 1 b) (bytes_ok_slice _ _ _ Hb)) as H.
  rewrite length_slice in H. unfold is_u8.
  assert (256 ^ Z.of_nat (1 `min` (length b - off))%nat ≤ 2 ^ 8); [|lia].
  change (2 ^ 8) with (256 ^ 1). apply Z.pow_le_mono_r; lia.
Qed.

#[export] Hint Resolve le_dec_u8 le_dec_u16 le_dec_u32 ntohs_bound : sr.

(** ** C strings *)

Lemma cstr_ok_cons n c s :
  cstr_ok (S n) (c :: s) → c ≠ 0 → cstr_ok n s.
Proof.
  intros [H|H] Hc; [left; simpl in *; lia|right].
  apply elem_of_cons in H as [Heq|H]; congruence.
Qed.

Lemma cstr_ok_nil n : cstr_ok (S n) [] → False.
Proof. intros [H|H]; [simpl in H; lia|by apply elem_of_nil in H]. Qed.

(** [strncmp] on two strings that are long enough compares what they say. *)
Lemma strncmp_eq_spec n a b :
  cstr_ok n a → cstr_ok n b →
  strncmp_eq n a b = Some (bool_decide (cname n a = cname n b)).
Proof.
  revert a b. induction n as [|n IH]; intros a b Ha Hb; [done|].
  destruct a as [|x a]; [by apply cstr_ok_nil in Ha|].
  destruct b as [|y b]; [by apply cstr_ok_nil in Hb|].
  simpl. destruct (Z.eqb_spec x y) as [->|Hne].
  - destruct (Z.eqb_spec y 0) as [->|Hy]; [done|].
    rewrite IH by eauto using cstr_ok_cons. f_equal. apply bool_decide_ext.
    split; [by intros ->|]. by intros [= ].
  - f_equal. symmetry. apply bool_decide_eq_false.
    destruct (Z.eqb_spec x 0), (Z.eqb_spec y 0); congruence.
Qed.

(** [strncpy] fills its destination, which then says the same. *)
Lemma strncpy_spec n s :
  cstr_ok n s →
  ∃ d, strncpy n s = Some d ∧ length d = n ∧ cname n d = cname n s.
Proof.
  revert s. induction n as [|n IH]; intros s Hs; [by exists []|].
  destruct s as [|c s]; [by apply cstr_ok_nil in Hs|]. simpl.
  destruct (Z.eqb_spec c 0) as [->|Hc].
  - exists (replicate (S n) 0). split; [done|]. split; [by rewrite length_replicate|done].
  - destruct (IH s) as (d & -> & Hl & Hd); [by eapply cstr_ok_cons|].
    exists (c :: d). simpl. rewrite Hl, Hd. by destruct (Z.eqb_spec c 0).
Qed.

(** A shorter copy of a copy is a copy of the string. *)
Lemma strncpy_copy m n s d : (m <= n)%nat → strncpy n s = Some d → strncpy m d = strncpy m s.
Proof.
  revert m s d. induction n as [|n IH]; intros [|m] s d Hm Hd; try done; [lia|].
  destruct s as [|c s]; [done|]. simpl in Hd |- *. destruct (Z.eqb_spec c 0) as [->|Hc].
  - injection Hd as <-. done.
  - destruct (strncpy n s) as [d'|] eqn:E; [|done]. injection Hd as <-. simpl.
    rewrite (proj2 (Z.eqb_neq _ _)) by done. by rewrite (IH m s d') by (done || lia).
Qed.

Lemma strncpy_bytes_ok n s d : strncpy n s = Some d → bytes_ok s → bytes_ok d.
Proof.
  revert s d. induction n as [|n IH]; intros s d H Hs; simpl in H.
  { injection H as <-. constructor. }
  destruct Hs as [|c s Hc Hs]; [done|].
  destruct (c =? 0); [injection H as <-; by apply (bytes_ok_replicate (S n))|].
  destruct (strncpy n s) as [d'|] eqn:E; [|done]. injection H as <-.
  constructor; [done|]. by eapply IH.
Qed.

Lemma cstr_ok_le m n s : (m <= n)%nat → cstr_ok n s → cstr_ok m s.
Proof. intros Hmn [H|H]; [left; lia|by right]. Qed.

Lemma cstr_ok_length n s : length s = n → cstr_ok n s.
Proof. intros <-. by left. Qed.

#[export] Hint Resolve cstr_ok_length : sr.

(** [c_str] reads up to the first NUL. *)
Lemma c_str_app w r : Forall (λ c, c ≠ 0) w → c_str (w ++ 0 :: r) = Some w.
Proof.
  induction 1 as [|c w Hc _ IH]; simpl; [done|]. rewrite IH. by destruct (Z.eqb_spec c 0).
Qed.

Lemma c_str_nul w r : c_str (w ++ 0 :: r) = Some w → Forall (λ c, c ≠ 0) w.
Proof.
  induction w as [|c w IH]; [done|]. cbn [app c_str].
  destruct (Z.eqb_spec c 0) as [->|Hc]; [done|].
  intros H. constructor; [done|]. apply IH.
  destruct (c_str (w ++ 0 :: r)); [|done]. simpl in H. by simplify_eq.
Qed.

Lemma c_str_some s : 0 ∈ s → ∃ w, c_str s = Some w.
Proof.
  induction s as [|c s IH]; [by intros ?%elem_of_nil|]. intros [<-|H]%elem_of_cons; simpl.
  - by exists [].
  - destruct (c =? 0); [by exists []|]. destruct (IH H) as [w ->]. by exists (c :: w).
Qed.

Lemma c_str_has_nul s w : c_str s = Some w → 0 ∈ s.
Proof.
  revert w. induction s as [|c s IH]; intros w H; [done|]. simpl in H.
  destruct (Z.eqb_spec c 0) as [->|]; [by left|]. right.
  destruct (c_str s) as [v|] eqn:E; [by eapply IH|done].
Qed.

(** A copy of a string that fits with its NUL is a string. *)
Lemma strncpy_string n s :
  0 ∈ take n s → ∃ d, strncpy n s = Some d ∧ 0 ∈ d.
Proof.
  revert s. induction n as [|n IH]; intros [|c s] H; try by apply elem_of_nil in H.
  cbn [take] in H. simpl. destruct (Z.eqb_spec c 0) as [->|Hc].
  { exists (replicate (S n) 0). split; [done|]. left. }
  apply elem_of_cons in H as [H|H]; [by subst|].
  destruct (IH s H) as (d & -> & Hd). exists (c :: d). split; [done|]. by right.
Qed.

#[global] Arguments strncmp_eq : simpl never.
#[global] Arguments strncpy : simpl never.
#[global] Arguments cname : simpl never.
#[global] Arguments le_enc : simpl never.
#[global] Arguments le_dec : simpl never.
#[global] Arguments slice : simpl never.
#[global] Arguments put : simpl never.
#[global] Arguments load : simpl never.
#[global] Arguments store : simpl never.
#[global] Arguments load_bytes : simpl never.
#[global] Arguments store_bytes : simpl never.

(** The name array [strncpy] makes of a string. *)
Definition name_copy (n : nat) (s : cstr) : buf := default [] (strncpy n s).

Lemma strncpy_text n w :
  0 ∉ w → (length w < n)%nat → strncpy n (w ++ [0]) = Some (w ++ replicate (n - length w) 0).
Proof.
  revert n. induction w as [|c w IH]; intros [|n] H0 Hl; cbn in Hl; try lia; [done|].
  apply not_elem_of_cons in H0 as [Hc H0]. unfold strncpy. fold strncpy. cbn [app length Nat.sub].
  rewrite (proj2 (Z.eqb_neq c 0)) by done. by rewrite (IH n) by (done || lia).
Qed.

(** A name that fits its array is read back from it. *)
Lemma c_str_text n w :
  0 ∉ w → (length w < n)%nat → c_str (name_copy n (w ++ [0])) = Some w.
Proof.
  intros H0 Hl. unfold name_copy. rewrite strncpy_text by done.
  change (c_str (w ++ replicate (n - length w) 0) = Some w).
  assert (∃ k, n - length w = S k)%nat as [k ->] by (exists (n - length w - 1)%nat; lia).
  clear Hl. induction w as [|c w IH]; [done|]. apply not_elem_of_cons in H0 as [Hc H0].
  cbn [app c_str]. rewrite (proj2 (Z.eqb_neq c 0)) by done.
  by rewrite IH.
Qed.

(** Conversion unfolds the updates of buffers last: a chain of them is compared
    as it stands. *)
Strategy 1000 [slice put le_enc le_dec].
