(* ===== verification/Dumper.v ===== *)
(** * The packet log ([sr_dumper.c], [sr_dumper.h])

    The log is a pcap file: a file header and, for every packet, a record
    header and the first bytes of the packet.  The structs are written as they
    are in memory, so every member is little-endian. *)

From S2P Require Export Memory.

Definition PCAP_VERSION_MAJOR : Z := 2.
Definition PCAP_VERSION_MINOR : Z := 4.
Definition TCPDUMP_MAGIC : Z := 0xa1b2c3d4.
Definition LINKTYPE_ETHERNET : Z := 1.

(** [struct pcap_pkthdr] *)
Record pcap_pkthdr := mk_pkthdr {
  h_sec : Z;
  h_usec : Z;
  h_caplen : Z;                  (* length of portion present *)
  h_len : Z                      (* length this packet (off wire) *)
}.

(** [struct pcap_file_header] *)
Record pcap_file_header := mk_file_header {
  magic : Z;
  version_major : Z;
  version_minor : Z;
  f_thiszone : Z;                (* gmt to local correction *)
  sigfigs : Z;                   (* accuracy of timestamps *)
  f_snaplen : Z;                 (* max length saved portion of each pkt *)
  f_linktype : Z
}.

(** Its bytes in memory. *)
Definition file_header_bytes (hdr : pcap_file_header) : buf :=
  le_enc 4 (magic hdr) ++ le_enc 2 (version_major hdr) ++ le_enc 2 (version_minor hdr) ++
  le_enc 4 (f_thiszone hdr) ++ le_enc 4 (sigfigs hdr) ++ le_enc 4 (f_snaplen hdr) ++
  le_enc 4 (f_linktype hdr).

Definition sf_write_header (linktype thiszone snaplen : Z) : buf :=
  file_header_bytes (mk_file_header TCPDUMP_MAGIC PCAP_VERSION_MAJOR PCAP_VERSION_MINOR
    thiszone 0 snaplen linktype).

(** The bytes of [struct pcap_sf_pkthdr]. *)
Definition sf_pkthdr (h : pcap_pkthdr) : buf :=
  le_enc 4 (h_sec h) ++ le_enc 4 (h_usec h) ++ le_enc 4 (h_caplen h) ++ le_enc 4 (h_len h).

(** What [sr_dump] writes; [None] when it reads past the end of the packet. *)
Definition sr_dump (h : pcap_pkthdr) (sp : buf) : option buf :=
  body ← load_bytes (Z.to_nat (h_caplen h)) 0 sp;
  Some (sf_pkthdr h ++ body).

(** ** Reading a log back *)

(** A reader of the records after the file header: the header's four numbers
    and the bytes captured. *)
Fixpoint read_records (fuel : nat) (b : buf) : option (list (pcap_pkthdr * buf)) :=
  match b, fuel with
  | [], _ => Some []
  | _, O => None
  | _, S fuel' =>
      sec ← load 4 0 b; usec ← load 4 4 b; caplen ← load 4 8 b; len ← load 4 12 b;
      body ← load_bytes (Z.to_nat caplen) 16 b;
      rest ← read_records fuel' (drop (16 + Z.to_nat caplen) b);
      Some ((mk_pkthdr sec usec caplen len, body) :: rest)
  end.

Lemma sr_dump_ok h sp :
  (Z.to_nat (h_caplen h) <= length sp)%nat →
  sr_dump h sp = Some (sf_pkthdr h ++ take (Z.to_nat (h_caplen h)) sp).
Proof. intros H. unfold sr_dump. rewrite load_bytes_ok by lia. done. Qed.

Lemma length_sf_pkthdr h : length (sf_pkthdr h) = 16%nat.
Proof. unfold sf_pkthdr. len. Qed.

Definition pkthdr_ok (h : pcap_pkthdr) : Prop :=
  is_u32 (h_sec h) ∧ is_u32 (h_usec h) ∧ is_u32 (h_caplen h) ∧ is_u32 (h_len h).

Lemma load_le_enc_app pre n z post off :
  off = length pre → 0 ≤ z < 256 ^ Z.of_nat n →
  load n off (pre ++ le_enc n z ++ post) = Some z.
Proof.
  intros -> Hz. rewrite load_ok by len. unfold slice.
  rewrite drop_app_length, take_app_length' by len. by rewrite le_dec_enc.
Qed.

(** Reading back one record leaves the rest of the file. *)
Lemma read_records_cons fuel h body rest :
  pkthdr_ok h → length body = Z.to_nat (h_caplen h) →
  read_records (S fuel) (sf_pkthdr h ++ body ++ rest) =
    (r ← read_records fuel rest; Some ((h, body) :: r)).
Proof.
  intros (H1 & H2 & H3 & H4) Hb. unfold is_u32 in *.
  change (2 ^ 32) with (256 ^ Z.of_nat 4) in *.
  remember (sf_pkthdr h ++ body ++ rest) as b eqn:Hbuf.
  assert (load 4 0 b = Some (h_sec h)) as E1.
  { subst b. unfold sf_pkthdr. rewrite <- !app_assoc. by apply (load_le_enc_app []). }
  assert (load 4 4 b = Some (h_usec h)) as E2.
  { subst b. unfold sf_pkthdr. rewrite <- !app_assoc. by apply load_le_enc_app; [len|]. }
  assert (load 4 8 b = Some (h_caplen h)) as E3.
  { subst b. unfold sf_pkthdr. rewrite <- !app_assoc, (app_assoc (le_enc 4 _)).
    by apply load_le_enc_app; [len|]. }
  assert (load 4 12 b = Some (h_len h)) as E4.
  { subst b. unfold sf_pkthdr. rewrite <- !app_assoc, (app_assoc (le_enc 4 _)), (app_assoc _ (le_enc 4 _)).
    by apply load_le_enc_app; [len|]. }
  assert (load_bytes (Z.to_nat (h_caplen h)) 16 b = Some body) as E5.
  { subst b. rewrite load_bytes_ok by (rewrite !length_app, length_sf_pkthdr; lia).
    unfold slice. rewrite drop_app_length' by by rewrite length_sf_pkthdr.
    by rewrite take_app_length' by lia. }
  assert (drop (16 + Z.to_nat (h_caplen h)) b = rest) as E6.
  { subst b. rewrite app_assoc, drop_app_length'; [done|].
    rewrite length_app, length_sf_pkthdr. lia. }
  destruct b as [|x b'].
  { apply (f_equal length) in Hbuf. rewrite !length_app, length_sf_pkthdr in Hbuf. simpl in Hbuf. lia. }
  cbn [read_records]. rewrite E1, E2, E3, E4. cbn [mbind option_bind].
  rewrite E5, E6. cbn [mbind option_bind]. by destruct h.
Qed.

(** A record goes to the file in two pieces, its header and then its body, and
    no lock is held between them.  When two threads log a packet at the same
    time, the header and body of the one can come between those of the other:
    what is read back then is not the two records. *)
Example log_records_mixed :
  let h := mk_pkthdr 7 0 16 16 in
  let a := replicate 16 9 in
  let b := concat (replicate 4 (le_enc 4 32)) in
  read_records 4 (sf_pkthdr h ++ a ++ sf_pkthdr h ++ b) = Some [(h, a); (h, b)] ∧
  read_records 4 (sf_pkthdr h ++ sf_pkthdr h ++ b ++ a) = None.
Proof. by vm_compute. Qed.
