(* ===== verification/Sha1.v ===== *)
(** * SHA-1 ([sha1.c], [sha1.h])

    The hash that answers the server's authentication challenge.  The context
    is fed byte by byte; the arrays are accessed with a bounds check, and [None]
    is an access out of bounds (or a padding loop that does not end).  The
    second half of the file is the standard (FIPS 180) as a function of the
    whole message, and the third relates the two: however the message is cut
    into inputs, the context computes the standard's digest. *)

From S2P Require Export Memory.

Record SHA1Context := mk_sha1 {
  Message_Digest : list Z;
  Length_Low : Z;
  Length_High : Z;
  Message_Block : buf;
  Message_Block_Index : nat;
  Computed : bool;
  Corrupted : bool
}.

Definition SHA1CircularShift (bits word : Z) : Z :=
  Z.lor (Z.land (u32 (Z.shiftl word bits)) 0xFFFFFFFF) (Z.shiftr word (32 - bits)).

Definition SHA1Reset (context : SHA1Context) : SHA1Context :=
  mk_sha1 [0x67452301; 0xEFCDAB89; 0x98BADCFE; 0x10325476; 0xC3D2E1F0] 0 0
    (Message_Block context) 0 false false.

(** ** Processing a block *)

(** The first loop: [W[t]] for [t < 16]. *)
Definition block_word (block : buf) (t : nat) : option Z :=
  a ← block !! (t * 4)%nat; b ← block !! (t * 4 + 1)%nat;
  c ← block !! (t * 4 + 2)%nat; d ← block !! (t * 4 + 3)%nat;
  Some (Z.lor (Z.lor (Z.lor (Z.shiftl a 24) (Z.shiftl b 16)) (Z.shiftl c 8)) d).

(** The second loop; the array is the list of the words written so far. *)
Fixpoint extend_words (n t : nat) (W : list Z) : option (list Z) :=
  match n with
  | O => Some W
  | S n' =>
      a ← W !! (t - 3)%nat; b ← W !! (t - 8)%nat; c ← W !! (t - 14)%nat; d ← W !! (t - 16)%nat;
      extend_words n' (S t) (W ++ [SHA1CircularShift 1 (Z.lxor (Z.lxor (Z.lxor a b) c) d)])
  end.

Definition message_words (block : buf) : option (list Z) :=
  W ← mapM (block_word block) (seq 0 16); extend_words 64 16 W.

Abbreviation regs := (Z * Z * Z * Z * Z)%type.

(** The functions of the four loops of rounds. *)
Definition f_choose (B C D : Z) : Z := Z.lor (Z.land B C) (Z.land (u32 (Z.lnot B)) D).
Definition f_parity (B C D : Z) : Z := Z.lxor (Z.lxor B C) D.
Definition f_majority (B C D : Z) : Z := Z.lor (Z.lor (Z.land B C) (Z.land B D)) (Z.land C D).

Definition sha1_round (f : Z → Z → Z → Z) (k w : Z) (r : regs) : regs :=
  let '(A, B, C, D, E) := r in
  let temp := Z.land (u32 (SHA1CircularShift 5 A + f B C D + E + w + k)) 0xFFFFFFFF in
  (temp, A, SHA1CircularShift 30 B, C, D).

(** A loop of [n] rounds from round [t] on. *)
Fixpoint sha1_rounds (f : Z → Z → Z → Z) (k : Z) (n t : nat) (W : list Z) (r : regs)
    : option regs :=
  match n with
  | O => Some r
  | S n' => w ← W !! t; sha1_rounds f k n' (S t) W (sha1_round f k w r)
  end.

Definition SHA1ProcessMessageBlock (context : SHA1Context) : option SHA1Context :=
  W ← message_words (Message_Block context);
  let H := Message_Digest context in
  a ← H !! 0%nat; b ← H !! 1%nat; c ← H !! 2%nat; d ← H !! 3%nat; e ← H !! 4%nat;
  r ← sha1_rounds f_choose 0x5A827999 20 0 W (a, b, c, d, e);
  r ← sha1_rounds f_parity 0x6ED9EBA1 20 20 W r;
  r ← sha1_rounds f_majority 0x8F1BBCDC 20 40 W r;
  r ← sha1_rounds f_parity 0xCA62C1D6 20 60 W r;
  let '(A, B, C, D, E) := r in
  let add x y := Z.land (u32 (x + y)) 0xFFFFFFFF in
  Some (mk_sha1 [add a A; add b B; add c C; add d D; add e E]
          (Length_Low context) (Length_High context) (Message_Block context) 0
          (Computed context) (Corrupted context)).

(** ** Input *)

(** [Message_Block[i] = v] *)
Definition set_block (i : nat) (v : Z) (c : SHA1Context) : option SHA1Context :=
  if (i <? length (Message_Block c))%nat then
    Some (mk_sha1 (Message_Digest c) (Length_Low c) (Length_High c)
            (<[i := v]> (Message_Block c)) (Message_Block_Index c) (Computed c) (Corrupted c))
  else None.

(** [Message_Block[Message_Block_Index++] = v] *)
Definition push_block (v : Z) (c : SHA1Context) : option SHA1Context :=
  c ← set_block (Message_Block_Index c) v c;
  Some (mk_sha1 (Message_Digest c) (Length_Low c) (Length_High c) (Message_Block c)
          (S (Message_Block_Index c)) (Computed c) (Corrupted c)).

(** The 64-bit length in its two 32-bit halves, eight bits further. *)
Definition count_byte (c : SHA1Context) : SHA1Context :=
  let low := Z.land (u32 (Length_Low c + 8)) 0xFFFFFFFF in
  let high := if low =? 0 then Z.land (u32 (Length_High c + 1)) 0xFFFFFFFF else Length_High c in
  let corrupted := if low =? 0 then if high =? 0 then true else Corrupted c else Corrupted c in
  mk_sha1 (Message_Digest c) low high (Message_Block c) (Message_Block_Index c)
    (Computed c) corrupted.

Definition input_byte (b : Z) (c : SHA1Context) : option SHA1Context :=
  c ← push_block (Z.land b 0xFF) c;
  let c := count_byte c in
  if (Message_Block_Index c =? 64)%nat then SHA1ProcessMessageBlock c else Some c.

Fixpoint input_loop (length : nat) (message_array : buf) (c : SHA1Context) : option SHA1Context :=
  match length with
  | O => Some c
  | S length' =>
      if Corrupted c then Some c
      else
        match message_array with
        | [] => None
        | b :: message_array' => c ← input_byte b c; input_loop length' message_array' c
        end
  end.

Definition corrupt (c : SHA1Context) : SHA1Context :=
  mk_sha1 (Message_Digest c) (Length_Low c) (Length_High c) (Message_Block c)
    (Message_Block_Index c) (Computed c) true.

Definition SHA1Input (context : SHA1Context) (message_array : buf) (length : nat)
    : option SHA1Context :=
  if (length =? 0)%nat then Some context
  else if Computed context || Corrupted context then Some (corrupt context)
  else input_loop length message_array context.

(** ** Padding and the result *)

(** [while (Message_Block_Index < bound) Message_Block[Message_Block_Index++] = 0] *)
Fixpoint fill_zeros (fuel bound : nat) (c : SHA1Context) : option SHA1Context :=
  if (Message_Block_Index c <? bound)%nat then
    match fuel with
    | O => None
    | S fuel' => c ← push_block 0 c; fill_zeros fuel' bound c
    end
  else Some c.

(** The index grows with every turn and is at most 64. *)
Definition fill_fuel : nat := 64.

(** The message length as the last 8 octets. *)
Definition store_length (c : SHA1Context) : option SHA1Context :=
  c ← set_block 56 (Z.land (Z.shiftr (Length_High c) 24) 0xFF) c;
  c ← set_block 57 (Z.land (Z.shiftr (Length_High c) 16) 0xFF) c;
  c ← set_block 58 (Z.land (Z.shiftr (Length_High c) 8) 0xFF) c;
  c ← set_block 59 (Z.land (Length_High c) 0xFF) c;
  c ← set_block 60 (Z.land (Z.shiftr (Length_Low c) 24) 0xFF) c;
  c ← set_block 61 (Z.land (Z.shiftr (Length_Low c) 16) 0xFF) c;
  c ← set_block 62 (Z.land (Z.shiftr (Length_Low c) 8) 0xFF) c;
  set_block 63 (Z.land (Length_Low c) 0xFF) c.

Definition SHA1PadMessage (context : SHA1Context) : option SHA1Context :=
  c ← (if (55 <? Message_Block_Index context)%nat then
         c ← push_block 0x80 context;
         c ← fill_zeros fill_fuel 64 c;
         c ← SHA1ProcessMessageBlock c;
         fill_zeros fill_fuel 56 c
       else
         c ← push_block 0x80 context;
         fill_zeros fill_fuel 56 c);
  c ← store_length c;
  SHA1ProcessMessageBlock c.

Definition mark_computed (c : SHA1Context) : SHA1Context :=
  mk_sha1 (Message_Digest c) (Length_Low c) (Length_High c) (Message_Block c)
    (Message_Block_Index c) true (Corrupted c).

Definition SHA1Result (context : SHA1Context) : option (bool * SHA1Context) :=
  if Corrupted context then Some (false, context)
  else if Computed context then Some (true, context)
  else c ← SHA1PadMessage context; Some (true, mark_computed c).

(** ** The standard *)

(** Rotation of a 32-bit word to the left. *)
Definition rotl (n x : Z) : Z := x * 2 ^ n mod 2 ^ 32 + x / 2 ^ (32 - n).

Definition fips_f (t : nat) (x y z : Z) : Z :=
  if (t <? 20)%nat then Z.lxor (Z.land x y) (Z.land (Z.lxor x 0xFFFFFFFF) z)
  else if (t <? 40)%nat then Z.lxor x (Z.lxor y z)
  else if (t <? 60)%nat then Z.lxor (Z.land x y) (Z.lxor (Z.land x z) (Z.land y z))
  else Z.lxor x (Z.lxor y z).

Definition fips_k (t : nat) : Z :=
  if (t <? 20)%nat then 0x5A827999 else if (t <? 40)%nat then 0x6ED9EBA1
  else if (t <? 60)%nat then 0x8F1BBCDC else 0xCA62C1D6.

(** A big-endian number. *)
Definition be_dec (b : buf) : Z := foldl (λ x y, x * 256 + y) 0 b.
Definition be_enc (n : nat) (z : Z) : buf := reverse (le_enc n z).

(** The message schedule, the latest word first. *)
Fixpoint fips_schedule (n : nat) (block : buf) : list Z :=
  match n with
  | O => []
  | S t =>
      let W := fips_schedule t block in
      let w := if (t <? 16)%nat then be_dec (slice (t * 4) 4 block)
               else rotl 1 (Z.lxor (nth 2 W 0) (Z.lxor (nth 7 W 0) (Z.lxor (nth 13 W 0) (nth 15 W 0))))
      in w :: W
  end.

Definition fips_step (r : regs) (t : nat) (w : Z) : regs :=
  let '(a, b, c, d, e) := r in
  ((rotl 5 a + fips_f t b c d + e + fips_k t + w) mod 2 ^ 32, a, rotl 30 b, c, d).

Fixpoint fips_rounds (t : nat) (W : list Z) (r : regs) : regs :=
  match W with
  | [] => r
  | w :: W' => fips_rounds (S t) W' (fips_step r t w)
  end.

Definition compress (H : regs) (block : buf) : regs :=
  let '(a, b, c, d, e) := H in
  let '(a', b', c', d', e') := fips_rounds 0 (reverse (fips_schedule 80 block)) H in
  ((a + a') mod 2 ^ 32, (b + b') mod 2 ^ 32, (c + c') mod 2 ^ 32, (d + d') mod 2 ^ 32,
   (e + e') mod 2 ^ 32).

Fixpoint hash_blocks (n : nat) (H : regs) (b : buf) : regs :=
  match n with
  | O => H
  | S n' => hash_blocks n' (compress H (take 64 b)) (drop 64 b)
  end.

Definition sha1_init : regs := (0x67452301, 0xEFCDAB89, 0x98BADCFE, 0x10325476, 0xC3D2E1F0).

(** The message, a one bit, zeros to 56 modulo 64 bytes, and the length in bits. *)
Definition sha1_pad (m : buf) : buf :=
  m ++ [0x80] ++ replicate (Z.to_nat ((55 - Z.of_nat (length m)) mod 64)) 0 ++
  be_enc 8 (8 * Z.of_nat (length m)).

Definition sha1 (m : buf) : regs :=
  let p := sha1_pad m in hash_blocks (length p / 64) sha1_init p.

(** The standard's example: the digest of [abc]. *)
Lemma sha1_abc :
  sha1 [97; 98; 99] = (0xA9993E36, 0x4706816A, 0xBA3E2571, 0x7850C26C, 0x9CD0D89D).
Proof. by vm_compute. Qed.

(** ** The word functions *)

Lemma land_u32_ones z : Z.land (u32 z) 0xFFFFFFFF = u32 z.
Proof.
  change 0xFFFFFFFF with (2 ^ 32 - 1). rewrite land_ones_mod by lia.
  apply u32_small, u32_bound.
Qed.

Lemma circular_shift_rotl n x :
  0 < n < 32 → is_u32 x → SHA1CircularShift n x = rotl n x.
Proof.
  intros Hn Hx. unfold SHA1CircularShift, rotl. rewrite land_u32_ones.
  rewrite Z.shiftr_div_pow2, Z.shiftl_mul_pow2 by lia. unfold u32, is_u32 in *.
  assert (2 ^ 32 = 2 ^ (32 - n) * 2 ^ n) as He by (rewrite <- Z.pow_add_r by lia; f_equal; lia).
  pose proof (Z.pow_pos_nonneg 2 n). pose proof (Z.pow_pos_nonneg 2 (32 - n)).
  rewrite He. rewrite Z.mul_mod_distr_r by lia.
  rewrite <- Z.shiftl_mul_pow2 at 1 by lia. rewrite lor_shiftl_add; [done|lia|].
  split; [apply Z.div_pos; lia|]. apply Z.div_lt_upper_bound; lia.
Qed.

Lemma rotl_bound n x : 0 < n < 32 → is_u32 x → is_u32 (rotl n x).
Proof.
  intros Hn Hx. rewrite <- circular_shift_rotl by done. unfold SHA1CircularShift.
  rewrite land_u32_ones. unfold is_u32 in *.
  assert (0 ≤ Z.shiftr x (32 - n) < 2 ^ 32).
  { rewrite Z.shiftr_div_pow2 by lia. pose proof (Z.pow_pos_nonneg 2 (32 - n)).
    split; [apply Z.div_pos; lia|]. apply Z.div_lt_upper_bound; [lia|]. nia. }
  pose proof (u32_bound (Z.shiftl x n)). unfold is_u32 in *. set (a := u32 _) in *.
  set (b := Z.shiftr _ _) in *.
  split; [apply Z.lor_nonneg; lia|].
  destruct (Z.eq_dec (Z.lor a b) 0) as [->|Hz]; [lia|].
  apply Z.log2_lt_pow2; [pose proof (proj2 (Z.lor_nonneg a b)); lia|].
  rewrite Z.log2_lor by lia.
  destruct (Z.eq_dec a 0) as [->|], (Z.eq_dec b 0) as [->|];
    apply Z.max_lub_lt; try (apply Z.log2_lt_pow2; lia); simpl; lia.
Qed.

Lemma u32_lnot x : is_u32 x → u32 (Z.lnot x) = Z.lxor x 0xFFFFFFFF.
Proof.
  intros Hx. unfold u32. rewrite <- Z.land_ones by lia.
  replace 0xFFFFFFFF with (Z.ones 32) by done. apply Z.bits_inj'. intros i Hi.
  rewrite Z.land_spec, Z.lnot_spec, Z.lxor_spec by done.
  destruct (Z.lt_ge_cases i 32).
  - rewrite Z.ones_spec_low by lia. by rewrite andb_true_r, xorb_true_r.
  - rewrite Z.ones_spec_high by lia. rewrite andb_false_r, xorb_false_r. symmetry.
    by apply testbit_u32.
Qed.

Lemma f_choose_fips t x y z :
  (t < 20)%nat → is_u32 x → f_choose x y z = fips_f t x y z.
Proof.
  intros Ht Hx. unfold f_choose, fips_f. rewrite (proj2 (Nat.ltb_lt _ _) Ht), u32_lnot by done.
  apply Z.bits_inj'; intros i Hi. rewrite Z.lor_spec, Z.lxor_spec, !Z.land_spec, Z.lxor_spec.
  assert (Z.testbit x i = true → Z.testbit 0xFFFFFFFF i = true) as Hone.
  { intros Hb. change 0xFFFFFFFF with (Z.ones 32). rewrite Z.ones_spec_low; [done|].
    split; [done|]. destruct (Z.lt_ge_cases i 32) as [|Hge]; [done|].
    by rewrite (testbit_u32 x i Hx Hge) in Hb. }
  destruct (Z.testbit x i); [rewrite Hone by done|];
    by destruct (Z.testbit y i), (Z.testbit z i), (Z.testbit 0xFFFFFFFF i).
Qed.

Lemma f_parity_fips t x y z :
  (20 <= t < 40)%nat ∨ (60 <= t)%nat → f_parity x y z = fips_f t x y z.
Proof.
  intros Ht. unfold f_parity, fips_f. repeat zcase; try lia; by rewrite Z.lxor_assoc.
Qed.

Lemma f_majority_fips t x y z :
  (40 <= t < 60)%nat → f_majority x y z = fips_f t x y z.
Proof.
  intros Ht. unfold f_majority, fips_f. repeat zcase; try lia.
  apply Z.bits_inj'; intros i Hi. rewrite !Z.lor_spec, !Z.lxor_spec, !Z.land_spec.
  by destruct (Z.testbit x i), (Z.testbit y i), (Z.testbit z i).
Qed.

(** ** Processing a block is the standard's compression *)

Lemma be_dec_bound_aux l x : bytes_ok l → 0 ≤ x →
  0 ≤ foldl (λ x y, x * 256 + y) x l < (x + 1) * 256 ^ Z.of_nat (length l).
Proof.
  intros Hl. revert x. induction Hl as [|y l Hy Hl IH]; intros x Hx; [simpl; lia|].
  simpl foldl. unfold is_u8 in Hy. destruct (IH (x * 256 + y)) as [H1 H2]; [lia|].
  cbn [length]. rewrite Nat2Z.inj_succ, Z.pow_succ_r by lia.
  split; [done|]. eapply Z.lt_le_trans; [done|].
  rewrite Z.mul_assoc. apply Z.mul_le_mono_nonneg_r; lia.
Qed.

Lemma be_dec_u32 l : length l = 4%nat → bytes_ok l → is_u32 (be_dec l).
Proof.
  intros Hl Hb. pose proof (be_dec_bound_aux l 0 Hb ltac:(lia)) as H. rewrite Hl in H.
  unfold is_u32, be_dec. change ((0 + 1) * 256 ^ Z.of_nat 4) with (2 ^ 32) in H. lia.
Qed.

Lemma slice_4 (b : buf) t :
  (t + 4 <= length b)%nat →
  ∃ w x y z, slice t 4 b = [w; x; y; z] ∧ b !! t = Some w ∧ b !! (t + 1)%nat = Some x ∧
    b !! (t + 2)%nat = Some y ∧ b !! (t + 3)%nat = Some z.
Proof.
  intros H. assert (length (slice t 4 b) = 4%nat) as Hl by len.
  pose proof (λ i Hi, lookup_slice t 4 b i Hi) as Hs.
  destruct (slice t 4 b) as [|w [|x [|y [|z [|]]]]] eqn:E; try discriminate Hl.
  exists w, x, y, z. split; [done|].
  rewrite <- (Hs 1%nat), <- (Hs 2%nat), <- (Hs 3%nat), <- (Nat.add_0_r t), <- (Hs 0%nat) by lia.
  done.
Qed.

Lemma block_word_be block t :
  bytes_ok block → (t * 4 + 4 <= length block)%nat →
  block_word block t = Some (be_dec (slice (t * 4) 4 block)).
Proof.
  intros Hb Hl. destruct (slice_4 block (t * 4) Hl) as (a & b & c & d & Hs & Ha & Hb' & Hc & Hd).
  unfold block_word. rewrite Ha, Hb', Hc, Hd. simpl.
  pose proof (bytes_ok_slice (t * 4) 4 block Hb) as Hw. rewrite Hs in *.
  unfold bytes_ok in Hw. rewrite !list.Forall_cons in Hw. destruct Hw as (Ba & Bb & Bc & Bd & _).
  f_equal. unfold be_dec. simpl foldl. unfold is_u8 in *.
  rewrite <- (Z.lor_assoc (Z.lor _ _)), <- (Z.lor_assoc (Z.shiftl a 24)).
  rewrite (lor_shiftl_add c d 8) by lia.
  rewrite (lor_shiftl_add b (c * 2 ^ 8 + d) 16) by lia.
  rewrite (lor_shiftl_add a _ 24) by lia. lia.
Qed.

Lemma length_fips_schedule n block : length (fips_schedule n block) = n.
Proof. induction n; simpl; auto. Qed.

Lemma nth_u32 l k : Forall is_u32 l → is_u32 (nth k l 0).
Proof.
  intros H. destruct (nth_in_or_default k l 0) as [Hin| ->]; [|done].
  rewrite list.Forall_forall in H. apply H. by apply list_elem_of_In.
Qed.

Lemma fips_schedule_u32 n block :
  bytes_ok block → length block = 64%nat → Forall is_u32 (fips_schedule n block).
Proof.
  intros Hb Hl. induction n as [|n IH]; [constructor|]. simpl. constructor; [|done].
  assert (∀ k, is_u32 (nth k (fips_schedule n block) 0)) as Hn.
  { intros k. by apply nth_u32. }
  destruct (Nat.ltb_spec n 16).
  - apply be_dec_u32; [rewrite length_slice; lia|by apply bytes_ok_slice].
  - apply rotl_bound; [lia|]. repeat apply lxor_u32; apply Hn.
Qed.

Lemma lookup_reverse_schedule (W : list Z) k t :
  length W = t → (k < t)%nat → reverse W !! (t - S k)%nat = Some (nth k W 0).
Proof.
  intros Hl Hk. rewrite reverse_lookup by lia.
  replace (length W - S (t - S k))%nat with k by lia.
  rewrite nth_lookup. by destruct (lookup_lt_is_Some_2 W k) as [x ->]; [lia|].
Qed.

Lemma extend_words_schedule n t block :
  bytes_ok block → length block = 64%nat → (16 <= t)%nat →
  extend_words n t (reverse (fips_schedule t block)) =
    Some (reverse (fips_schedule (n + t) block)).
Proof.
  intros Hb Hl. revert t. induction n as [|n IH]; intros t Ht; [done|].
  cbn [extend_words]. set (W := fips_schedule t block).
  assert (length W = t) as HW by apply length_fips_schedule.
  rewrite (lookup_reverse_schedule W 2), (lookup_reverse_schedule W 7),
    (lookup_reverse_schedule W 13), (lookup_reverse_schedule W 15) by lia.
  cbn [mbind option_bind].
  assert (∀ k, is_u32 (nth k W 0)) as Hn.
  { intros k. by apply nth_u32, fips_schedule_u32. }
  rewrite circular_shift_rotl by (lia || (repeat apply lxor_u32; apply Hn)).
  replace (S n + t)%nat with (n + S t)%nat by lia. rewrite <- IH by lia. f_equal.
  cbn [fips_schedule]. fold W. rewrite (proj2 (Nat.ltb_ge _ _)) by lia.
  rewrite reverse_cons. by rewrite !Z.lxor_assoc.
Qed.

Lemma init_words_schedule n block :
  bytes_ok block → length block = 64%nat → (n <= 16)%nat →
  mapM (block_word block) (seq 0 n) = Some (reverse (fips_schedule n block)).
Proof.
  intros Hb Hl. induction n as [|n IH]; intros Hn; [done|].
  rewrite seq_S, mapM_snoc, IH by lia. cbn [mbind option_bind Nat.add].
  rewrite block_word_be by (done || lia). cbn [mbind option_bind].
  cbn [fips_schedule]. rewrite (proj2 (Nat.ltb_lt _ _)) by lia. by rewrite reverse_cons.
Qed.

Lemma message_words_schedule block :
  bytes_ok block → length block = 64%nat →
  message_words block = Some (reverse (fips_schedule 80 block)).
Proof.
  intros Hb Hl. unfold message_words. rewrite init_words_schedule by done.
  cbn [mbind option_bind]. by rewrite extend_words_schedule by (done || lia).
Qed.

Definition regs_ok (r : regs) : Prop :=
  let '(a, b, c, d, e) := r in is_u32 a ∧ is_u32 b ∧ is_u32 c ∧ is_u32 d ∧ is_u32 e.

Lemma fips_step_ok r t w : regs_ok r → regs_ok (fips_step r t w).
Proof.
  destruct r as [[[[a b] c] d] e]. simpl. intros (Ha & Hb & Hc & Hd & He).
  split; [apply u32_bound|]. split; [done|]. split; [by apply rotl_bound|done].
Qed.

Lemma fips_rounds_ok t W r : regs_ok r → regs_ok (fips_rounds t W r).
Proof. revert t r. induction W as [|w W IH]; intros; [done|]. by apply IH, fips_step_ok. Qed.

Lemma fips_rounds_app t W1 W2 r :
  fips_rounds t (W1 ++ W2) r = fips_rounds (t + length W1) W2 (fips_rounds t W1 r).
Proof.
  revert t r. induction W1 as [|w W1 IH]; intros t r; simpl; [by rewrite Nat.add_0_r|].
  rewrite IH. f_equal. lia.
Qed.

(** A loop of rounds with the function and the constant of its range. *)
Lemma sha1_rounds_fips f k n t W r :
  (∀ t' x y z, (t <= t' < t + n)%nat → is_u32 x → f x y z = fips_f t' x y z) →
  (∀ t', (t <= t' < t + n)%nat → k = fips_k t') →
  (t + n <= length W)%nat → regs_ok r →
  sha1_rounds f k n t W r = Some (fips_rounds t (slice t n W) r).
Proof.
  revert t r. induction n as [|n IH]; intros t r Hf Hk Hl Hr; [done|].
  cbn [sha1_rounds]. destruct (lookup_lt_is_Some_2 W t) as [w Hw]; [lia|].
  rewrite Hw. cbn [mbind option_bind].
  assert (slice t (S n) W = w :: slice (S t) n W) as ->.
  { unfold slice. by rewrite (drop_S _ _ _ Hw). }
  cbn [fips_rounds].
  assert (sha1_round f k w r = fips_step r t w) as ->.
  { destruct r as [[[[a b] c] d] e]. destruct Hr as (Ha & Hb & Hc & Hd & He).
    unfold sha1_round, fips_step. rewrite land_u32_ones, !circular_shift_rotl by (done || lia).
    rewrite (Hf t), (Hk t) by (done || lia). unfold u32. do 5 f_equal. lia. }
  apply IH; [| |lia|by apply fips_step_ok].
  - intros t' x y z Ht'. apply Hf. lia.
  - intros t' Ht'. apply Hk. lia.
Qed.

Definition words_of (r : regs) : list Z := let '(a, b, c, d, e) := r in [a; b; c; d; e].

(** Consecutive ranges of a list. *)
Lemma slice_cat (W : buf) i m n : slice i m W ++ slice (i + m) n W = slice i (m + n) W.
Proof.
  unfold slice. rewrite <- drop_drop.
  rewrite <- (take_drop m (take (m + n) (drop i W))), take_take, Nat.min_l by lia.
  by rewrite skipn_firstn_comm, Nat.add_comm, Nat.add_sub.
Qed.

Lemma fips_rounds_slice t m n (W : buf) r :
  (t + m <= length W)%nat →
  fips_rounds (t + m) (slice (t + m) n W) (fips_rounds t (slice t m W) r) =
    fips_rounds t (slice t (m + n) W) r.
Proof.
  intros Hl. rewrite <- slice_cat, fips_rounds_app. do 2 f_equal.
  rewrite length_slice. lia.
Qed.

(** The block is consumed and the digest is the standard's. *)
Definition next_digest (c : SHA1Context) (H : regs) : SHA1Context :=
  mk_sha1 (words_of H) (Length_Low c) (Length_High c) (Message_Block c) 0
    (Computed c) (Corrupted c).

(** The four loops together are the eighty rounds. *)
Lemma four_loops (W : list Z) r :
  length W = 80%nat → regs_ok r →
  (r ← sha1_rounds f_choose 0x5A827999 20 0 W r;
   r ← sha1_rounds f_parity 0x6ED9EBA1 20 20 W r;
   r ← sha1_rounds f_majority 0x8F1BBCDC 20 40 W r;
   sha1_rounds f_parity 0xCA62C1D6 20 60 W r) = Some (fips_rounds 0 W r).
Proof.
  intros HW Hr.
  rewrite sha1_rounds_fips; [|intros; apply f_choose_fips; [lia|done]|
    intros t' Ht; unfold fips_k; by rewrite (proj2 (Nat.ltb_lt _ _)) by lia|lia|done].
  cbn [mbind option_bind].
  rewrite sha1_rounds_fips; [|intros; apply f_parity_fips; lia|
    intros t' Ht; unfold fips_k; repeat zcase; lia|lia|by apply fips_rounds_ok].
  cbn [mbind option_bind].
  rewrite sha1_rounds_fips; [|intros; apply f_majority_fips; lia|
    intros t' Ht; unfold fips_k; repeat zcase; lia|lia|by do 2 apply fips_rounds_ok].
  cbn [mbind option_bind].
  rewrite sha1_rounds_fips; [|intros; apply f_parity_fips; lia|
    intros t' Ht; unfold fips_k; repeat zcase; lia|lia|by do 3 apply fips_rounds_ok].
  rewrite (fips_rounds_slice 0 20 20), (fips_rounds_slice 0 40 20), (fips_rounds_slice 0 60 20)
    by lia.
  by rewrite slice_all.
Qed.

Lemma process_block_run c H :
  Message_Digest c = words_of H → regs_ok H →
  bytes_ok (Message_Block c) → length (Message_Block c) = 64%nat →
  SHA1ProcessMessageBlock c = Some (next_digest c (compress H (Message_Block c))).
Proof.
  intros HH Hr Hb Hl. unfold SHA1ProcessMessageBlock.
  rewrite message_words_schedule by done. unfold next_digest, compress. rewrite HH.
  assert (length (reverse (fips_schedule 80 (Message_Block c))) = 80%nat) as HW
    by by rewrite length_reverse, length_fips_schedule.
  revert HW. generalize (reverse (fips_schedule 80 (Message_Block c))). intros W HW.
  pose proof (four_loops W H HW Hr) as Hloops.
  destruct H as [[[[a b] c'] d] e]. cbn [words_of lookup list_lookup mbind option_bind].
  repeat match goal with
  | H : mbind _ _ = Some _ |- _ => apply bind_Some in H as (? & ? & H)
  end.
  repeat match goal with
  | H : ?x = Some _ |- context [?x] => rewrite H; cbn [mbind option_bind]
  end.
  destruct (fips_rounds 0 W _) as [[[[A B] C] D] E]. by rewrite !land_u32_ones.
Qed.

(** ** Feeding the context *)

Lemma compress_ok H b : regs_ok H → regs_ok (compress H b).
Proof.
  intros _. unfold compress. destruct H as [[[[? ?] ?] ?] ?].
  destruct (fips_rounds _ _ _) as [[[[? ?] ?] ?] ?]. simpl. repeat split; apply u32_bound.
Qed.

Lemma hash_blocks_ok n H b : regs_ok H → regs_ok (hash_blocks n H b).
Proof. revert H b. induction n as [|n IH]; intros; [done|]. by apply IH, compress_ok. Qed.

Lemma hash_blocks_S n H b :
  hash_blocks (S n) H b = compress (hash_blocks n H b) (slice (64 * n) 64 b).
Proof.
  revert H b. induction n as [|n IH]; intros H b; [done|].
  change (hash_blocks (S (S n)) H b) with (hash_blocks (S n) (compress H (take 64 b)) (drop 64 b)).
  rewrite IH. f_equal. unfold slice. rewrite drop_drop. do 2 f_equal. lia.
Qed.

(** Only the blocks that are hashed matter. *)
Lemma hash_blocks_app n H a b :
  (64 * n <= length a)%nat → hash_blocks n H (a ++ b) = hash_blocks n H a.
Proof.
  revert H a. induction n as [|n IH]; intros H a Hl; [done|]. cbn [hash_blocks].
  rewrite take_app_le, drop_app_le by lia. apply IH. rewrite length_drop. lia.
Qed.

(** [X] is what the current block holds; everything else is as in [c0]. *)
Record holds (c0 : SHA1Context) (X : buf) (c : SHA1Context) : Prop := {
  holds_digest : Message_Digest c = Message_Digest c0;
  holds_low : Length_Low c = Length_Low c0;
  holds_high : Length_High c = Length_High c0;
  holds_flags : Computed c = Computed c0 ∧ Corrupted c = Corrupted c0;
  holds_index : Message_Block_Index c = length X;
  holds_take : take (length X) (Message_Block c) = X;
  holds_len : length (Message_Block c) = 64%nat;
  holds_bytes : bytes_ok (Message_Block c)
}.

Lemma set_block_run i v c :
  (i < length (Message_Block c))%nat →
  set_block i v c =
    Some (mk_sha1 (Message_Digest c) (Length_Low c) (Length_High c)
            (<[i := v]> (Message_Block c)) (Message_Block_Index c) (Computed c) (Corrupted c)).
Proof. intros H. unfold set_block. by rewrite (proj2 (Nat.ltb_lt _ _) H). Qed.

Lemma push_block_run c0 X c v :
  holds c0 X c → (length X < 64)%nat → is_u8 v →
  ∃ c', push_block v c = Some c' ∧ holds c0 (X ++ [v]) c'.
Proof.
  intros [Hd Hlo Hhi Hf Hi Ht Hl Hb] HX Hv. unfold push_block.
  rewrite set_block_run by lia. eexists. split; [done|].
  split; cbn; try done; rewrite ?length_app, ?length_insert; cbn [length].
  - lia.
  - rewrite Hi. replace (length X + 1)%nat with (S (length X)) by lia.
    rewrite (take_S_r _ _ v) by (apply list_lookup_insert_eq; lia).
    by rewrite take_insert_ge, Ht by lia.
  - done.
  - apply Forall_insert; [done|]. done.
Qed.

Lemma fill_zeros_run fuel bound c0 X c :
  holds c0 X c → (length X <= bound <= 64)%nat → (bound - length X <= fuel)%nat →
  ∃ c', fill_zeros fuel bound c = Some c' ∧ holds c0 (X ++ replicate (bound - length X) 0) c'.
Proof.
  revert X c. induction fuel as [|fuel IH]; intros X c Hc HX Hfuel;
    cbn [fill_zeros]; rewrite (holds_index _ _ _ Hc).
  { rewrite (proj2 (Nat.ltb_ge _ _)) by lia. exists c. split; [done|].
    replace (bound - length X)%nat with 0%nat by lia. by rewrite app_nil_r. }
  destruct (Nat.ltb_spec (length X) bound) as [Hlt|Hge].
  - destruct (push_block_run c0 X c 0 Hc) as (c1 & -> & Hc1); [lia|done|].
    destruct (IH _ _ Hc1) as (c2 & H2 & Hc2); [len..|]. exists c2. split; [done|].
    replace (bound - length X)%nat with (S (bound - length (X ++ [0]))) by len.
    rewrite <- app_assoc in Hc2. done.
  - exists c. split; [done|]. replace (bound - length X)%nat with 0%nat by lia.
    by rewrite app_nil_r.
Qed.

Lemma holds_next c0 X c H :
  holds c0 X c → length X = 64%nat → Message_Digest c0 = words_of H → regs_ok H →
  SHA1ProcessMessageBlock c = Some (next_digest c (compress H X)) ∧
  holds (next_digest c0 (compress H X)) [] (next_digest c (compress H X)).
Proof.
  intros [Hd Hlo Hhi Hf Hi Ht Hl Hb] HX HH Hr. rewrite HX, <- Hl, firstn_all in Ht.
  split; [|by split]. rewrite <- Ht. apply process_block_run; congruence.
Qed.

(** The length octets complete the block. *)
Definition length_octets (high low : Z) : buf :=
  [Z.land (Z.shiftr high 24) 0xFF; Z.land (Z.shiftr high 16) 0xFF;
   Z.land (Z.shiftr high 8) 0xFF; Z.land high 0xFF;
   Z.land (Z.shiftr low 24) 0xFF; Z.land (Z.shiftr low 16) 0xFF;
   Z.land (Z.shiftr low 8) 0xFF; Z.land low 0xFF].

Lemma octet z n : 0 ≤ n → Z.land (Z.shiftr z n) 0xFF = (z / 2 ^ n) mod 256.
Proof.
  intros Hn. rewrite Z.shiftr_div_pow2 by done. change 0xFF with (2 ^ 8 - 1).
  by rewrite land_ones_mod.
Qed.

Lemma octet_0 z : Z.land z 0xFF = (z / 2 ^ 0) mod 256.
Proof. rewrite <- octet by done. by rewrite Z.shiftr_0_r. Qed.

(** The halves of a length of [l] bytes are its eight octets. *)
Lemma length_octets_be l :
  0 ≤ l < 2 ^ 61 → length_octets (l / 2 ^ 29) (8 * (l mod 2 ^ 29)) = be_enc 8 (8 * l).
Proof.
  intros Hl.
  assert (8 * l = (l / 2 ^ 29) * 2 ^ 32 + 8 * (l mod 2 ^ 29)) as He.
  { pose proof (Z_div_mod_eq_full l (2 ^ 29)). lia. }
  pose proof (Z.mod_pos_bound l (2 ^ 29) ltac:(lia)) as Hm.
  set (h := l / 2 ^ 29) in *. set (r := 8 * (l mod 2 ^ 29)) in *. rewrite He.
  assert (∀ n, 0 ≤ n → (h * 2 ^ 32 + r) / (2 ^ 32 * 2 ^ n) = h / 2 ^ n) as Hhi.
  { intros n Hn. rewrite <- Z.div_div by (try apply Z.pow_pos_nonneg; lia).
    rewrite Z.div_add_l by lia. rewrite (Z.div_small r) by lia. by rewrite Z.add_0_r. }
  assert (∀ n, 0 ≤ n ≤ 24 → ((h * 2 ^ 32 + r) / 2 ^ n) mod 256 = (r / 2 ^ n) mod 256) as Hlo.
  { intros n Hn. replace (h * 2 ^ 32) with (h * 2 ^ (24 - n) * 256 * 2 ^ n).
    - rewrite Z.div_add_l by (apply Z.pow_nonzero; lia).
      by rewrite Z.add_comm, Z.mod_add by lia.
    - replace (2 ^ 32) with (2 ^ (24 - n) * 2 ^ n * 256); [ring|].
      rewrite <- Z.pow_add_r by lia. by replace (24 - n + n) with 24 by lia. }
  unfold length_octets. rewrite !octet, (octet_0 h), (octet_0 r) by done.
  rewrite <- (Hhi 24), <- (Hhi 16), <- (Hhi 8), <- (Hhi 0), <- (Hlo 24), <- (Hlo 16),
    <- (Hlo 8), <- (Hlo 0) by lia.
  set (z := h * 2 ^ 32 + r).
  change (be_enc 8 z) with
    [z / 256 / 256 / 256 / 256 / 256 / 256 / 256 mod 256;
     z / 256 / 256 / 256 / 256 / 256 / 256 mod 256; z / 256 / 256 / 256 / 256 / 256 mod 256;
     z / 256 / 256 / 256 / 256 mod 256; z / 256 / 256 / 256 mod 256;
     z / 256 / 256 mod 256; z / 256 mod 256; z mod 256].
  rewrite !Z.div_div by done. by rewrite Z.pow_0_r, Z.div_1_r.
Qed.

Lemma store_length_run c0 X c :
  holds c0 X c → length X = 56%nat →
  ∃ c', store_length c = Some c' ∧
    Message_Block c' = X ++ length_octets (Length_High c0) (Length_Low c0) ∧
    Message_Digest c' = Message_Digest c0 ∧ Corrupted c' = Corrupted c0.
Proof.
  intros [Hd Hlo Hhi [Hf1 Hf2] Hi Ht Hl Hb] HX. rewrite HX in Ht.
  assert (∃ Y, Message_Block c = X ++ Y ∧ length Y = 8%nat) as (Y & HY & HYl).
  { exists (drop 56 (Message_Block c)). rewrite length_drop, Hl. split; [|done].
    rewrite <- Ht at 1. by rewrite take_drop. }
  destruct Y as [|? [|? [|? [|? [|? [|? [|? [|? []]]]]]]]]; try discriminate HYl.
  unfold store_length.
  do 8 (rewrite set_block_run by (cbn [Message_Block]; rewrite ?length_insert; lia);
        cbn [mbind option_bind Message_Digest Length_Low Length_High Message_Block
             Message_Block_Index Computed Corrupted]).
  eexists. split; [reflexivity|]. cbn. rewrite HY, Hlo, Hhi, Hd, Hf2. split; [|done].
  rewrite !insert_app_r_alt by lia. rewrite !HX. done.
Qed.

Lemma length_octets_ok high low : bytes_ok (length_octets high low).
Proof.
  assert (∀ z, is_u8 (Z.land z 0xFF)) as Hb.
  { intros z. change 0xFF with (2 ^ 8 - 1). rewrite land_ones_mod by lia. apply u8_bound. }
  unfold length_octets. bytes.
Qed.

Lemma finish_pad c0 X c H :
  holds c0 X c → length X = 56%nat → Message_Digest c0 = words_of H → regs_ok H →
  ∃ c', (c ← store_length c; SHA1ProcessMessageBlock c) = Some c' ∧
    Message_Digest c' =
      words_of (compress H (X ++ length_octets (Length_High c0) (Length_Low c0))) ∧
    Corrupted c' = Corrupted c0.
Proof.
  intros Hc HX HH Hr. destruct (store_length_run _ _ _ Hc HX) as (c1 & -> & Hb & Hd & Hf).
  cbn [mbind option_bind]. eexists. rewrite (process_block_run _ H).
  - split; [done|]. cbn. by rewrite Hb.
  - congruence.
  - done.
  - rewrite Hb. apply bytes_ok_app; [|apply length_octets_ok].
    rewrite <- (holds_take _ _ _ Hc). apply Forall_take, Hc.
  - rewrite Hb, length_app, HX. done.
Qed.

(** The context after the message [m]: the full blocks are hashed, the rest is
    in the block, and the length counter is exact. *)
Record absorbed (m : buf) (c : SHA1Context) : Prop := {
  absorbed_digest : Message_Digest c = words_of (hash_blocks (length m / 64) sha1_init m);
  absorbed_index : Message_Block_Index c = (length m mod 64)%nat;
  absorbed_rest : take (length m mod 64) (Message_Block c) = drop (64 * (length m / 64)) m;
  absorbed_block : length (Message_Block c) = 64%nat ∧ bytes_ok (Message_Block c);
  absorbed_low : Length_Low c = 8 * (Z.of_nat (length m) mod 2 ^ 29);
  absorbed_high : Length_High c = Z.of_nat (length m) / 2 ^ 29;
  absorbed_flags : Computed c = false ∧ Corrupted c = false
}.

Lemma sha1_init_ok : regs_ok sha1_init.
Proof. by vm_compute. Qed.

Lemma length_rest (m : buf) : length (drop (64 * (length m / 64)) m) = (length m mod 64)%nat.
Proof. rewrite length_drop. pose proof (Nat.div_mod_eq (length m) 64). lia. Qed.

Lemma absorbed_holds m c :
  absorbed m c → holds c (drop (64 * (length m / 64)) m) c.
Proof.
  intros [Hd Hi Hr [Hl Hb] Hlo Hhi Hf]. split; try done; rewrite length_rest; done.
Qed.

Lemma reset_absorbed c :
  length (Message_Block c) = 64%nat → bytes_ok (Message_Block c) → absorbed [] (SHA1Reset c).
Proof. intros Hl Hb. by split. Qed.

(** The counter of a message shorter than 2^61 bytes. *)
Lemma count_byte_run n c :
  Length_Low c = 8 * (n mod 2 ^ 29) → Length_High c = n / 2 ^ 29 →
  0 ≤ n < 2 ^ 61 - 1 →
  Length_Low (count_byte c) = 8 * ((n + 1) mod 2 ^ 29) ∧
  Length_High (count_byte c) = (n + 1) / 2 ^ 29 ∧
  Corrupted (count_byte c) = Corrupted c.
Proof.
  intros Hlo Hhi Hn. unfold count_byte. cbn [Length_Low Length_High Corrupted].
  rewrite Hlo, Hhi, !land_u32_ones. unfold u32.
  change (2 ^ 32) with 4294967296. change (2 ^ 29) with 536870912.
  change (2 ^ 61) with 2305843009213693952 in Hn.
  pose proof (Z_div_mod_eq_full n 536870912). pose proof (Z.mod_pos_bound n 536870912 ltac:(lia)).
  set (q := n / 536870912) in *. set (r := n mod 536870912) in *.
  destruct (Z.eq_dec r 536870911) as [Hr|Hr].
  - rewrite Hr. change ((8 * 536870911 + 8) mod 4294967296) with 0. change (0 =? 0) with true.
    cbv iota. replace (n + 1) with ((q + 1) * 536870912) by lia.
    rewrite Z.mod_mul, Z.div_mul, Z.mod_small by lia.
    rewrite (proj2 (Z.eqb_neq (q + 1) 0)) by lia. done.
  - rewrite (Z.mod_small (8 * r + 8)) by lia. rewrite (proj2 (Z.eqb_neq (8 * r + 8) 0)) by lia.
    replace (n + 1) with ((r + 1) + q * 536870912) by lia.
    rewrite Z.mod_add, Z.div_add, Z.mod_small, Z.div_small by lia. split; [lia|]. split; [lia|done].
Qed.

(** A byte was written and counted: a full block is hashed. *)
Lemma absorbed_snoc m b c :
  let q := (length m / 64)%nat in
  holds c (drop (64 * q) m ++ [b]) c →
  Message_Digest c = words_of (hash_blocks q sha1_init m) →
  Length_Low c = 8 * (Z.of_nat (length (m ++ [b])) mod 2 ^ 29) →
  Length_High c = Z.of_nat (length (m ++ [b])) / 2 ^ 29 →
  Computed c = false ∧ Corrupted c = false →
  ∃ c', (if (Message_Block_Index c =? 64)%nat then SHA1ProcessMessageBlock c else Some c)
          = Some c' ∧ absorbed (m ++ [b]) c'.
Proof.
  intros q Hc Hdig Hlo Hhi Hfl.
  pose proof (Nat.div_mod_eq (length m) 64) as Hdm. fold q in Hdm.
  pose proof (Nat.mod_upper_bound (length m) 64 ltac:(lia)) as Hlt.
  pose proof (length_rest m) as Hrest. fold q in Hrest.
  assert (drop (64 * q) (m ++ [b]) = drop (64 * q) m ++ [b]) as Hdrop by (apply drop_app_le; lia).
  set (rest := drop (64 * q) m) in *.
  rewrite (holds_index _ _ _ Hc), length_app. cbn [length].
  destruct (Nat.eqb_spec (length rest + 1) 64) as [Hfull|Hpart].
  - assert (length (m ++ [b]) = S q * 64)%nat as Hm by (rewrite length_app; cbn [length]; lia).
    assert (length (m ++ [b]) / 64 = S q)%nat as Hq by (rewrite Hm; by apply Nat.div_mul).
    assert (length (m ++ [b]) mod 64 = 0)%nat as Hr by (rewrite Hm; by apply Nat.Div0.mod_mul).
    destruct (holds_next _ _ _ (hash_blocks q sha1_init m) Hc) as [-> Hc3];
      [by rewrite length_app|done|apply hash_blocks_ok, sha1_init_ok|].
    eexists. split; [done|]. destruct Hc3. split; try done.
    + rewrite Hq, hash_blocks_S, hash_blocks_app by lia. cbn [Message_Digest next_digest].
      do 2 f_equal. unfold slice. rewrite Hdrop, firstn_all2; [done|].
      rewrite length_app. cbn [length]. lia.
    + rewrite Hr, Hq, drop_ge by lia. done.
  - assert (length (m ++ [b]) / 64 = q)%nat as Hq.
    { symmetry. apply (Nat.div_unique _ _ _ (length rest + 1)); rewrite ?length_app; cbn [length]; lia. }
    assert (length (m ++ [b]) mod 64 = length rest + 1)%nat as Hr.
    { symmetry. apply (Nat.mod_unique _ _ q); rewrite ?length_app; cbn [length]; lia. }
    eexists. split; [done|]. destruct Hc. rewrite length_app in *. cbn [length] in *.
    split; rewrite ?length_app; cbn [length]; try done.
    + by rewrite Hq, hash_blocks_app by lia.
    + by rewrite Hr.
    + by rewrite Hr, Hq, Hdrop.
Qed.

Lemma input_byte_run m b c :
  absorbed m c → is_u8 b → Z.of_nat (length m) < 2 ^ 61 - 1 →
  ∃ c', input_byte b c = Some c' ∧ absorbed (m ++ [b]) c'.
Proof.
  intros Hc Hb Hmax. pose proof (absorbed_holds _ _ Hc) as Hh.
  pose proof (Nat.mod_upper_bound (length m) 64 ltac:(lia)) as Hlt.
  pose proof (length_rest m) as Hrest. unfold input_byte.
  assert (Z.land b 0xFF = b) as ->.
  { change 0xFF with (2 ^ 8 - 1). rewrite land_ones_mod by lia. by apply u8_small. }
  destruct (push_block_run c _ c b Hh) as (c1 & -> & Hc1); [lia|done|].
  cbn [mbind option_bind]. cbv zeta.
  destruct (count_byte_run (Z.of_nat (length m)) c1) as (Hlo & Hhi & Hcor);
    [by rewrite (holds_low _ _ _ Hc1), (absorbed_low _ _ Hc)
    |by rewrite (holds_high _ _ _ Hc1), (absorbed_high _ _ Hc)|lia|].
  replace (Z.of_nat (length m) + 1) with (Z.of_nat (length (m ++ [b]))) in * by len.
  apply absorbed_snoc; try done.
  - destruct Hc1. by split.
  - cbn. rewrite (holds_digest _ _ _ Hc1). apply Hc.
  - rewrite Hcor. cbn. rewrite (proj1 (holds_flags _ _ _ Hc1)), (proj2 (holds_flags _ _ _ Hc1)).
    apply Hc.
Qed.

Lemma input_loop_run n data m c :
  absorbed m c → bytes_ok data → (n <= length data)%nat →
  Z.of_nat (length m) + Z.of_nat n < 2 ^ 61 →
  ∃ c', input_loop n data c = Some c' ∧ absorbed (m ++ take n data) c'.
Proof.
  revert data m c. induction n as [|n IH]; intros data m c Hc Hd Hn Hmax.
  { exists c. by rewrite take_0, app_nil_r. }
  destruct data as [|b data]; [simpl in Hn; lia|]. cbn [length] in Hn.
  apply list.Forall_cons in Hd as [Hb Hd]. cbn [input_loop].
  rewrite (proj2 (absorbed_flags _ _ Hc)).
  destruct (input_byte_run m b c Hc Hb) as (c1 & -> & Hc1); [lia|]. cbn [mbind option_bind].
  destruct (IH data (m ++ [b]) c1 Hc1 Hd) as (c2 & H2 & Hc2); [lia|len|].
  exists c2. split; [done|]. by rewrite <- app_assoc in Hc2.
Qed.

Lemma sha1_input_run m c data n :
  absorbed m c → bytes_ok data → (n <= length data)%nat →
  Z.of_nat (length m) + Z.of_nat n < 2 ^ 61 →
  ∃ c', SHA1Input c data n = Some c' ∧ absorbed (m ++ take n data) c'.
Proof.
  intros Hc Hd Hn Hmax. unfold SHA1Input. destruct (Nat.eqb_spec n 0) as [->|Hz].
  - exists c. by rewrite take_0, app_nil_r.
  - destruct (absorbed_flags _ _ Hc) as [-> ->]. by apply input_loop_run.
Qed.

(** The padded message is the full blocks, the rest, and the padding: one block
    or two. *)
Lemma sha1_pad_tail (m : buf) :
  let q := (length m / 64)%nat in
  let rest := drop (64 * q) m in
  let tail := be_enc 8 (8 * Z.of_nat (length m)) in
  sha1_pad m =
    if (55 <? length rest)%nat then
      take (64 * q) m ++ (rest ++ [0x80] ++ replicate (63 - length rest) 0) ++
      replicate 56 0 ++ tail
    else take (64 * q) m ++ (rest ++ [0x80] ++ replicate (55 - length rest) 0) ++ tail.
Proof.
  intros q rest tail. unfold sha1_pad. fold tail.
  pose proof (Nat.div_mod_eq (length m) 64) as Hdm. fold q in Hdm.
  pose proof (Nat.mod_upper_bound (length m) 64 ltac:(lia)) as Hlt.
  assert (length rest = (length m mod 64)%nat) as Hrest by apply length_rest.
  rewrite <- (take_drop (64 * q) m) at 1. fold rest.
  assert (∃ k, Z.of_nat (length m) = 64 * Z.of_nat q + Z.of_nat (length rest)) as [_ HL]
    by (exists 0; lia).
  rewrite HL. destruct (Nat.ltb_spec 55 (length rest)).
  - replace (Z.to_nat _) with (63 - length rest + 56)%nat.
    + by rewrite replicate_add, <- !app_assoc.
    + replace (55 - (64 * Z.of_nat q + Z.of_nat (length rest)))
        with (119 - Z.of_nat (length rest) + (- Z.of_nat q - 1) * 64) by lia.
      rewrite Z.mod_add, Z.mod_small by lia. lia.
  - replace (Z.to_nat _) with (55 - length rest)%nat; [by rewrite <- !app_assoc|].
    replace (55 - (64 * Z.of_nat q + Z.of_nat (length rest)))
      with (55 - Z.of_nat (length rest) + (- Z.of_nat q) * 64) by lia.
    rewrite Z.mod_add, Z.mod_small by lia. lia.
Qed.

Lemma length_be_enc n z : length (be_enc n z) = n.
Proof. unfold be_enc. by rewrite length_reverse, length_le_enc. Qed.

(** The blocks before the last ones are the message's. *)
Lemma hash_prefix q H (a b : buf) :
  length a = (64 * q)%nat → hash_blocks (S q) H (a ++ b) = compress (hash_blocks q H a) (take 64 b).
Proof.
  intros Hl. rewrite hash_blocks_S, hash_blocks_app by lia. f_equal.
  unfold slice. by rewrite drop_app_length' by done.
Qed.

Lemma sha1_pad_hash (m : buf) :
  let q := (length m / 64)%nat in
  let rest := drop (64 * q) m in
  let tail := be_enc 8 (8 * Z.of_nat (length m)) in
  let H := hash_blocks q sha1_init m in
  sha1 m =
    if (55 <? length rest)%nat then
      compress (compress H (rest ++ [0x80] ++ replicate (63 - length rest) 0))
        (replicate 56 0 ++ tail)
    else compress H ((rest ++ [0x80] ++ replicate (55 - length rest) 0) ++ tail).
Proof.
  intros q rest tail H. unfold sha1. rewrite sha1_pad_tail. cbv zeta. fold q rest tail.
  pose proof (length_rest m) as Hrest. fold q rest in Hrest.
  pose proof (Nat.div_mod_eq (length m) 64) as Hdm. fold q in Hdm.
  pose proof (Nat.mod_upper_bound (length m) 64 ltac:(lia)) as Hlt.
  assert (length tail = 8%nat) as Ht by apply length_be_enc.
  assert (length (take (64 * q) m) = 64 * q)%nat as Hq by (rewrite length_take; lia).
  assert (hash_blocks q sha1_init (take (64 * q) m) = H) as HH.
  { unfold H. rewrite <- (take_drop (64 * q) m) at 2. by rewrite hash_blocks_app by lia. }
  destruct (Nat.ltb_spec 55 (length rest)).
  - set (b1 := rest ++ [128] ++ _).
    assert (length b1 = 64)%nat as Hb1.
    { unfold b1. rewrite !length_app, length_replicate. cbn [length]. lia. }
    replace (length _ / 64)%nat with (S (S q)).
    2:{ rewrite !length_app, Hq, Hb1, length_replicate, Ht.
        replace (64 * q + (64 + (56 + 8)))%nat with (S (S q) * 64)%nat by lia.
        symmetry. by apply Nat.div_mul. }
    rewrite app_assoc, hash_prefix by (rewrite length_app; lia).
    rewrite hash_prefix, HH, !firstn_all2 by (rewrite ?length_app, ?length_replicate; lia).
    done.
  - set (b1 := rest ++ [128] ++ _).
    assert (length b1 = 56)%nat as Hb1.
    { unfold b1. rewrite !length_app, length_replicate. cbn [length]. lia. }
    replace (length _ / 64)%nat with (S q).
    2:{ rewrite !length_app, Hq, Hb1, Ht.
        replace (64 * q + (56 + 8))%nat with (S q * 64)%nat by lia.
        symmetry. by apply Nat.div_mul. }
    by rewrite hash_prefix, HH, firstn_all2 by (rewrite ?length_app; lia).
Qed.

Lemma pad_message_run m c :
  absorbed m c → Z.of_nat (length m) < 2 ^ 61 →
  ∃ c', SHA1PadMessage c = Some c' ∧ Message_Digest c' = words_of (sha1 m) ∧
    Corrupted c' = false.
Proof.
  intros Hc Hmax. pose proof (absorbed_holds _ _ Hc) as Hh.
  pose proof (length_rest m) as Hrest.
  pose proof (Nat.mod_upper_bound (length m) 64 ltac:(lia)) as Hlt.
  assert (length_octets (Length_High c) (Length_Low c) = be_enc 8 (8 * Z.of_nat (length m))) as Ho.
  { rewrite (absorbed_high _ _ Hc), (absorbed_low _ _ Hc). apply length_octets_be. lia. }
  pose proof (absorbed_digest _ _ Hc) as Hd.
  pose proof (hash_blocks_ok (length m / 64) sha1_init m sha1_init_ok) as HHok.
  rewrite (sha1_pad_hash m). cbv zeta.
  set (H := hash_blocks (length m / 64) sha1_init m) in *.
  set (rest := drop (64 * (length m / 64)) m) in *.
  unfold SHA1PadMessage. rewrite (holds_index _ _ _ Hh).
  destruct (push_block_run _ _ _ 0x80 Hh) as (c1 & Hp1 & Hc1); [lia|done|].
  destruct (Nat.ltb_spec 55 (length rest)) as [H55|H55]; rewrite Hp1; cbn [mbind option_bind].
  - destruct (fill_zeros_run fill_fuel 64 _ _ _ Hc1) as (c2 & -> & Hc2);
      [rewrite length_app; cbn [length]; lia|unfold fill_fuel; lia|]. cbn [mbind option_bind].
    rewrite length_app in Hc2. cbn [length] in Hc2. rewrite <- app_assoc in Hc2.
    replace (64 - (length rest + 1))%nat with (63 - length rest)%nat in Hc2 by lia.
    destruct (holds_next _ _ _ H Hc2) as [-> Hc3];
      [rewrite !length_app, length_replicate; cbn [length]; lia|done|done|].
    cbn [mbind option_bind].
    destruct (fill_zeros_run fill_fuel 56 _ _ _ Hc3) as (c4 & -> & Hc4);
      [cbn [length]; lia|unfold fill_fuel; cbn [length]; lia|]. cbn [mbind option_bind].
    change ([] ++ replicate (56 - length []) 0) with (replicate 56 0) in Hc4.
    pose proof (compress_ok _ (rest ++ [0x80] ++ replicate (63 - length rest) 0) HHok) as HH'.
    revert Hc4 HH'. generalize (compress H (rest ++ [0x80] ++ replicate (63 - length rest) 0)).
    intros H' Hc4 HH'.
    destruct (finish_pad _ _ _ H' Hc4 eq_refl eq_refl HH') as (c5 & H5 & Hd5 & Hf5).
    exists c5. split; [done|]. rewrite Hd5, Hf5. cbn [Length_High Length_Low Corrupted next_digest].
    rewrite Ho. split; [reflexivity|apply Hc].
  - destruct (fill_zeros_run fill_fuel 56 _ _ _ Hc1) as (c2 & -> & Hc2);
      [rewrite length_app; cbn [length]; lia|unfold fill_fuel; lia|]. cbn [mbind option_bind].
    rewrite length_app in Hc2. cbn [length] in Hc2. rewrite <- app_assoc in Hc2.
    replace (56 - (length rest + 1))%nat with (55 - length rest)%nat in Hc2 by lia.
    destruct (finish_pad _ _ _ _ Hc2 ltac:(rewrite !length_app, length_replicate; cbn [length]; lia)
                Hd HHok) as (c5 & H5 & Hd5 & Hf5).
    exists c5. split; [done|]. rewrite Hd5, Hf5, Ho. split; [done|apply Hc].
Qed.

Lemma sha1_result_run m c :
  absorbed m c → Z.of_nat (length m) < 2 ^ 61 →
  ∃ c', SHA1Result c = Some (true, c') ∧ Message_Digest c' = words_of (sha1 m) ∧
    Computed c' = true ∧ Corrupted c' = false.
Proof.
  intros Hc Hmax. unfold SHA1Result. destruct (absorbed_flags _ _ Hc) as [-> ->].
  destruct (pad_message_run m c Hc Hmax) as (c' & -> & Hd & Hf).
  exists (mark_computed c'). done.
Qed.
