(* ===== verification/Protocol.v ===== *)
(** * Packet headers ([sr_protocol.h])

    A packed struct is the list of its members with their sizes, as the header
    file declares them; the offset of a member is the sum of the sizes before
    it.  [rd] and [wr] are the member accesses [p->m] and [p->m = v] through a
    pointer at offset [base] of an object, [rdb] and [wrb] the [memcpy]s from
    and to an array member.  Multi-byte members keep the byte order they have
    in the packet: a load gives the raw little-endian number, as in C. *)

From Stdlib Require Import String.
From S2P Require Export Effects Memory.

#[local] Open Scope string_scope.

(** ** Layout *)

Record field := Field { f_off : nat; f_len : nat }.

Definition struct : Type := list (string * nat).

Fixpoint sizeof (s : struct) : nat :=
  match s with
  | [] => 0
  | (_, n) :: s' => n + sizeof s'
  end.

Fixpoint member_from (off : nat) (s : struct) (m : string) : field :=
  match s with
  | [] => Field off 0
  | (m', n) :: s' => if String.eqb m m' then Field off n else member_from (off + n) s' m
  end.

Definition member : struct → string → field := member_from 0.

Definition ETHER_ADDR_LEN : nat := 6.
Definition ICMP_DATA_SIZE : nat := 28.
Definition sr_IFACE_NAMELEN : nat := 32.
Definition INIT_TTL : Z := 255.

Definition sr_ethernet_hdr : struct :=
  [("ether_dhost", ETHER_ADDR_LEN); ("ether_shost", ETHER_ADDR_LEN); ("ether_type", 2%nat)].

(** The two bit-fields [ip_hl:4] and [ip_v:4] share the first byte; with the
    little-endian layout [ip_hl] is its low half. *)
Definition sr_ip_hdr : struct :=
  [("ip_hl_v", 1%nat); ("ip_tos", 1%nat); ("ip_len", 2%nat); ("ip_id", 2%nat); ("ip_off", 2%nat);
   ("ip_ttl", 1%nat); ("ip_p", 1%nat); ("ip_sum", 2%nat); ("ip_src", 4%nat); ("ip_dst", 4%nat)].

Definition sr_icmp_t11_hdr : struct :=
  [("icmp_type", 1%nat); ("icmp_code", 1%nat); ("icmp_sum", 2%nat); ("unused", 4%nat);
   ("data", ICMP_DATA_SIZE)].

Definition sr_icmp_t08_hdr : struct :=
  [("icmp_type", 1%nat); ("icmp_code", 1%nat); ("icmp_sum", 2%nat); ("icmp_id", 2%nat);
   ("icmp_seq", 2%nat)].

Definition sr_arp_hdr : struct :=
  [("ar_hrd", 2%nat); ("ar_pro", 2%nat); ("ar_hln", 1%nat); ("ar_pln", 1%nat); ("ar_op", 2%nat);
   ("ar_sha", ETHER_ADDR_LEN); ("ar_sip", 4%nat); ("ar_tha", ETHER_ADDR_LEN); ("ar_tip", 4%nat)].

Definition eth_size : nat := Eval compute in sizeof sr_ethernet_hdr.
Definition ip_size : nat := Eval compute in sizeof sr_ip_hdr.
Definition arp_size : nat := Eval compute in sizeof sr_arp_hdr.
Definition icmp_t11_size : nat := Eval compute in sizeof sr_icmp_t11_hdr.
Definition icmp_t08_size : nat := Eval compute in sizeof sr_icmp_t08_hdr.

Definition ether_dhost := Eval compute in member sr_ethernet_hdr "ether_dhost".
Definition ether_shost := Eval compute in member sr_ethernet_hdr "ether_shost".
Definition ether_type := Eval compute in member sr_ethernet_hdr "ether_type".

Definition ip_hl_v := Eval compute in member sr_ip_hdr "ip_hl_v".
Definition ip_tos := Eval compute in member sr_ip_hdr "ip_tos".
Definition ip_len := Eval compute in member sr_ip_hdr "ip_len".
Definition ip_id := Eval compute in member sr_ip_hdr "ip_id".
Definition ip_off := Eval compute in member sr_ip_hdr "ip_off".
Definition ip_ttl := Eval compute in member sr_ip_hdr "ip_ttl".
Definition ip_p := Eval compute in member sr_ip_hdr "ip_p".
Definition ip_sum := Eval compute in member sr_ip_hdr "ip_sum".
Definition ip_src := Eval compute in member sr_ip_hdr "ip_src".
Definition ip_dst := Eval compute in member sr_ip_hdr "ip_dst".

(** The first three members of the two ICMP structs are at the same offsets. *)
Definition icmp_type := Eval compute in member sr_icmp_t08_hdr "icmp_type".
Definition icmp_code := Eval compute in member sr_icmp_t08_hdr "icmp_code".
Definition icmp_sum := Eval compute in member sr_icmp_t08_hdr "icmp_sum".
Definition icmp_id := Eval compute in member sr_icmp_t08_hdr "icmp_id".
Definition icmp_seq := Eval compute in member sr_icmp_t08_hdr "icmp_seq".
Definition icmp_unused := Eval compute in member sr_icmp_t11_hdr "unused".
Definition icmp_data := Eval compute in member sr_icmp_t11_hdr "data".

Definition ar_hrd := Eval compute in member sr_arp_hdr "ar_hrd".
Definition ar_pro := Eval compute in member sr_arp_hdr "ar_pro".
Definition ar_hln := Eval compute in member sr_arp_hdr "ar_hln".
Definition ar_pln := Eval compute in member sr_arp_hdr "ar_pln".
Definition ar_op := Eval compute in member sr_arp_hdr "ar_op".
Definition ar_sha := Eval compute in member sr_arp_hdr "ar_sha".
Definition ar_sip := Eval compute in member sr_arp_hdr "ar_sip".
Definition ar_tha := Eval compute in member sr_arp_hdr "ar_tha".
Definition ar_tip := Eval compute in member sr_arp_hdr "ar_tip".

Definition ip_protocol_icmp : Z := 0x01.
Definition ip_protocol_tcp : Z := 0x06.
Definition ip_protocol_udp : Z := 0x11.

Definition ethertype_arp : Z := 0x0806.
Definition ethertype_ip : Z := 0x0800.

Definition arp_op_request : Z := 1.
Definition arp_op_reply : Z := 2.
Definition arp_hrd_ethernet : Z := 1.

(** ** Member accesses *)

(** What a member holds, for an object known to be large enough. *)
Definition get (base : nat) (f : field) (b : buf) : Z :=
  le_dec (slice (base + f_off f) (f_len f) b).

Definition getb (base : nat) (f : field) (b : buf) : buf :=
  slice (base + f_off f) (f_len f) b.

Definition set (base : nat) (f : field) (v : Z) (b : buf) : buf :=
  put (base + f_off f) (le_enc (f_len f) v) b.

Definition setb (base : nat) (f : field) (bs : buf) (b : buf) : buf :=
  put (base + f_off f) bs b.

Section access.
Context {E S : Type}.

Definition rd (base : nat) (f : field) (b : buf) : M E S Z :=
  lift OutOfBounds (load (f_len f) (base + f_off f) b).

Definition wr (base : nat) (f : field) (v : Z) (b : buf) : M E S buf :=
  lift OutOfBounds (store (f_len f) (base + f_off f) v b).

Definition rdb (base : nat) (f : field) (b : buf) : M E S buf :=
  lift OutOfBounds (load_bytes (f_len f) (base + f_off f) b).

Definition wrb (base : nat) (f : field) (bs : buf) (b : buf) : M E S buf :=
  lift OutOfBounds (store_bytes (base + f_off f) bs b).

(** The bit-fields of the first byte of the IP header: a store rewrites
    the other half of the byte with what it held. *)
Definition rd_ip_hl (base : nat) (b : buf) : M E S Z :=
  x ← rd base ip_hl_v b; mret (Z.land x 0xf).

Definition rd_ip_v (base : nat) (b : buf) : M E S Z :=
  x ← rd base ip_hl_v b; mret (Z.shiftr x 4).

Definition wr_ip_hl (base : nat) (v : Z) (b : buf) : M E S buf :=
  x ← rd base ip_hl_v b;
  wr base ip_hl_v (Z.lor (Z.land x 0xf0) (Z.land v 0xf)) b.

Definition wr_ip_v (base : nat) (v : Z) (b : buf) : M E S buf :=
  x ← rd base ip_hl_v b;
  wr base ip_hl_v (Z.lor (Z.shiftl (Z.land v 0xf) 4) (Z.land x 0xf)) b.
End access.

Strategy 900 [get getb set setb].

(** ** Accesses inside the object *)

Definition fits (base : nat) (f : field) (b : buf) : Prop :=
  (base + f_off f + f_len f <= length b)%nat.

Section access_rules.
Context {E S : Type}.

Lemma rd_ok base f b : fits base f b → rd (E:=E) (S:=S) base f b = mret (get base f b).
Proof. intros H. unfold rd. by rewrite load_ok. Qed.

Lemma wr_ok base f v b : fits base f b → wr (E:=E) (S:=S) base f v b = mret (set base f v b).
Proof. intros H. unfold wr. by rewrite store_ok. Qed.

Lemma rdb_ok base f b : fits base f b → rdb (E:=E) (S:=S) base f b = mret (getb base f b).
Proof. intros H. unfold rdb. by rewrite load_bytes_ok. Qed.

Lemma wrb_ok base f bs b :
  length bs = f_len f → fits base f b →
  wrb (E:=E) (S:=S) base f bs b = mret (setb base f bs b).
Proof. intros Hl H. unfold wrb. rewrite store_bytes_ok; [done|by rewrite Hl]. Qed.
End access_rules.

Lemma length_set base f v b : length (set base f v b) = length b.
Proof. unfold set. len. Qed.

Lemma length_setb base f bs b : length (setb base f bs b) = length b.
Proof. unfold setb. len. Qed.

Lemma length_getb base f b : fits base f b → length (getb base f b) = f_len f.
Proof. unfold fits, getb. intros. len. Qed.

#[export] Hint Rewrite length_set length_setb : len.

(** [fits] is arithmetic on the length of the buffer. *)
Ltac fits :=
  unfold fits, eth_size, ip_size, arp_size, icmp_t11_size, icmp_t08_size, ETHER_ADDR_LEN in *;
  autorewrite with len in *; simpl f_off in *; simpl f_len in *; lia.

Lemma bytes_ok_set base f v b : bytes_ok b → bytes_ok (set base f v b).
Proof. unfold set. auto with sr. Qed.

Lemma bytes_ok_setb base f bs b : bytes_ok bs → bytes_ok b → bytes_ok (setb base f bs b).
Proof. unfold setb. auto with sr. Qed.

Lemma bytes_ok_getb base f b : bytes_ok b → bytes_ok (getb base f b).
Proof. unfold getb. auto with sr. Qed.

#[export] Hint Resolve bytes_ok_set bytes_ok_setb bytes_ok_getb : sr.

Lemma get_bound base f b : bytes_ok b → 0 ≤ get base f b < 256 ^ Z.of_nat (f_len f).
Proof.
  intros Hb. unfold get.
  pose proof (le_dec_bound _ (bytes_ok_slice (base + f_off f) (f_len f) _ Hb)) as H.
  rewrite length_slice in H.
  assert (256 ^ Z.of_nat (f_len f `min` (length b - (base + f_off f)))%nat
          ≤ 256 ^ Z.of_nat (f_len f)); [apply Z.pow_le_mono_r; lia|lia].
Qed.

(** Reading back what was written, and what was not written. *)
Lemma get_set_same base f v b :
  fits base f b → 0 ≤ v < 256 ^ Z.of_nat (f_len f) → get base f (set base f v b) = v.
Proof.
  unfold fits, get, set. intros H Hv. rewrite slice_put_same by len.
  by apply le_dec_enc.
Qed.

Definition disjoint_fields (b1 : nat) (f1 : field) (b2 : nat) (f2 : field) : Prop :=
  (b1 + f_off f1 + f_len f1 <= b2 + f_off f2)%nat ∨
  (b2 + f_off f2 + f_len f2 <= b1 + f_off f1)%nat.

Lemma getb_set_ne base f base' f' v b :
  disjoint_fields base f base' f' → getb base f (set base' f' v b) = getb base f b.
Proof.
  unfold getb, set, disjoint_fields. intros [H|H].
  - by rewrite slice_put_before by len.
  - by rewrite slice_put_after by len.
Qed.

Lemma getb_setb_ne base f base' f' bs b :
  disjoint_fields base f base' f' → length bs = f_len f' →
  getb base f (setb base' f' bs b) = getb base f b.
Proof.
  unfold getb, setb, disjoint_fields. intros [H|H] Hl.
  - by rewrite slice_put_before by len.
  - by rewrite slice_put_after by len.
Qed.

Lemma getb_setb_same base f bs b :
  length bs = f_len f → fits base f b → getb base f (setb base f bs b) = bs.
Proof. unfold fits, getb, setb. intros H1 H2. by rewrite slice_put_same by len. Qed.

Lemma get_set_ne base f base' f' v b :
  disjoint_fields base f base' f' → get base f (set base' f' v b) = get base f b.
Proof. intros H. unfold get. f_equal. by apply getb_set_ne. Qed.

Lemma get_setb_ne base f base' f' bs b :
  disjoint_fields base f base' f' → length bs = f_len f' →
  get base f (setb base' f' bs b) = get base f b.
Proof. intros H1 H2. unfold get. f_equal. by apply getb_setb_ne. Qed.

(** ** Running member accesses

    [mem_step] performs the access at the head of a computation; the bounds
    are arithmetic. *)

Ltac mem_step :=
  first
    [ rewrite bind_mret | rewrite lift_some
    | rewrite rd_ok by fits | rewrite wr_ok by fits
    | rewrite rdb_ok by fits
    | rewrite wrb_ok by (first [done | fits]) ].
