(* ===== verification/Vnscommand.v ===== *)
(** * The messages of the server ([vnscommand.h])

    The commands and their layouts, as packed structs: [mLen] and [mType], the
    members of [c_base], come first in every one of them.  An array at the end
    that is declared with no element has the size 0, and its offset is that of
    the data behind the struct. *)

From Stdlib Require Import String.
From S2P Require Export Protocol.

#[local] Open Scope string_scope.

Definition VNSOPEN : Z := 1.
Definition VNSCLOSE : Z := 2.
Definition VNSPACKET : Z := 4.
Definition VNSBANNER : Z := 8.
Definition VNSHWINFO : Z := 16.
Definition VNS_RTABLE : Z := 32.
Definition VNS_OPEN_TEMPLATE : Z := 64.
Definition VNS_AUTH_REQUEST : Z := 128.
Definition VNS_AUTH_REPLY : Z := 256.
Definition VNS_AUTH_STATUS : Z := 512.

Definition HWINTERFACE : Z := 1.
Definition HWSPEED : Z := 2.
Definition HWSUBNET : Z := 4.
Definition HWINUSE : Z := 8.
Definition HWFIXEDIP : Z := 16.
Definition HWETHER : Z := 32.
Definition HWETHIP : Z := 64.
Definition HWMASK : Z := 128.

Definition IDSIZE : nat := 32.
Definition MAXHWENTRIES : nat := 256.

(** ** Layouts *)

Definition c_base : struct := [("mLen", 4%nat); ("mType", 4%nat)].

Definition c_open : struct :=
  (c_base ++ [("topoID", 2%nat); ("pad", 2%nat); ("mVirtualHostID", IDSIZE); ("mUID", IDSIZE);
              ("mPass", IDSIZE)])%list.

Definition c_close : struct := (c_base ++ [("mErrorMessage", 256%nat)])%list.

Definition c_hwrequest : struct := c_base.

Definition c_banner : struct := (c_base ++ [("mBannerMessage", 256%nat)])%list.

Definition c_packet_ethernet_header : struct :=
  (c_base ++ [("mInterfaceName", 16%nat); ("ether_dhost", 6%nat); ("ether_shost", 6%nat);
              ("ether_type", 2%nat)])%list.

Definition c_packet_header : struct := (c_base ++ [("mInterfaceName", 16%nat)])%list.

Definition c_hw_entry : struct := [("mKey", 4%nat); ("value", 32%nat)].

Definition c_hwinfo : struct := (c_base ++ [("mHWInfo", (MAXHWENTRIES * sizeof c_hw_entry)%nat)])%list.

Definition c_rtable : struct := (c_base ++ [("mVirtualHostID", IDSIZE); ("rtable", 0%nat)])%list.

(** A filter of [srcFilters]; the router sends none. *)
Definition c_src_filter : struct := [("ip", 4%nat); ("num_masked_bits", 1%nat)].

Definition c_open_template : struct :=
  (c_base ++ [("templateName", 30%nat); ("mVirtualHostID", IDSIZE); ("srcFilters", 0%nat)])%list.

Definition c_auth_request : struct := (c_base ++ [("salt", 0%nat)])%list.

Definition c_auth_reply : struct :=
  (c_base ++ [("usernameLen", 4%nat); ("username", 0%nat)])%list.

Definition c_auth_status : struct := (c_base ++ [("auth_ok", 1%nat); ("msg", 0%nat)])%list.

(** ** Sizes and members *)

Definition c_base_size : nat := Eval compute in sizeof c_base.
Definition c_open_size : nat := Eval compute in sizeof c_open.
Definition c_packet_ethernet_header_size : nat := Eval compute in sizeof c_packet_ethernet_header.
Definition c_packet_header_size : nat := Eval compute in sizeof c_packet_header.
Definition c_hw_entry_size : nat := Eval compute in sizeof c_hw_entry.
Definition c_open_template_size : nat := Eval compute in sizeof c_open_template.

Definition mLen := Eval compute in member c_base "mLen".
Definition mType := Eval compute in member c_base "mType".
Definition mInterfaceName := Eval compute in member c_packet_header "mInterfaceName".
Definition mErrorMessage := Eval compute in member c_close "mErrorMessage".
Definition mBannerMessage := Eval compute in member c_banner "mBannerMessage".
Definition topoID := Eval compute in member c_open "topoID".
Definition open_mVirtualHostID := Eval compute in member c_open "mVirtualHostID".
Definition mUID := Eval compute in member c_open "mUID".
Definition mKey := Eval compute in member c_hw_entry "mKey".
Definition hw_value := Eval compute in member c_hw_entry "value".
Definition mHWInfo := Eval compute in f_off (member c_hwinfo "mHWInfo").
Definition rtable_mVirtualHostID := Eval compute in member c_rtable "mVirtualHostID".
Definition rtable_text := Eval compute in member c_rtable "rtable".
Definition templateName := Eval compute in member c_open_template "templateName".
Definition template_mVirtualHostID := Eval compute in member c_open_template "mVirtualHostID".
Definition request_salt := Eval compute in member c_auth_request "salt".
Definition usernameLen := Eval compute in member c_auth_reply "usernameLen".
Definition reply_username := Eval compute in member c_auth_reply "username".
Definition status_auth_ok := Eval compute in member c_auth_status "auth_ok".
Definition status_msg := Eval compute in member c_auth_status "msg".

(** A goal about members of the messages, as offsets. *)
Ltac message_layout :=
  unfold rd, wr, rdb, wrb;
  cbn [mLen mType mInterfaceName mErrorMessage mBannerMessage topoID open_mVirtualHostID mUID
       mKey hw_value mHWInfo rtable_mVirtualHostID rtable_text templateName
       template_mVirtualHostID request_salt usernameLen reply_username status_auth_ok status_msg
       f_off f_len Nat.add].
