(* ===== verification/Utils.v ===== *)
(** * Packet utilities ([sr_utils.c]): the Internet checksum

    [cksum] is the C function, in 32-bit arithmetic; [rfc1071_sum] is the
    reference: the one's complement sum of the 16-bit words, with end-around
    carry at every addition. *)

From S2P Require Export Protocol.

(** ** [cksum] *)

(** [for (sum = 0; len >= 2; data += 2, len -= 2) sum += data[0] << 8 | data[1];]
    [if (len > 0) sum += data[0] << 8;] *)
Fixpoint cksum_loop (sum : Z) (data : buf) : Z :=
  match data with
  | d0 :: d1 :: data' => cksum_loop (u32 (sum + Z.lor (Z.shiftl d0 8) d1)) data'
  | [d0] => u32 (sum + Z.shiftl d0 8)
  | [] => sum
  end.

(** [while (sum > 0xffff) sum = (sum >> 16) + (sum & 0xffff);] *)
Fixpoint cksum_fold (fuel : nat) (sum : Z) : option Z :=
  if 0xffff <? sum then
    match fuel with
    | O => None
    | S fuel' => cksum_fold fuel' (u32 (Z.shiftr sum 16 + Z.land sum 0xffff))
    end
  else Some sum.

(** [sum = htons (~sum); return sum ? sum : 0xffff;] *)
Definition cksum_final (sum : Z) : Z :=
  let sum := htons (u16 (u32 (Z.lnot sum))) in
  if sum =? 0 then 0xffff else sum.

(** Two iterations of the folding loop are enough for a 32-bit sum
    ([cksum_fold_total]). *)
Definition cksum_fuel : nat := 2.

Section utils.
Context {E S : Type}.

(** [cksum (_data + off, len)] *)
Definition cksum (_data : buf) (off : nat) (len : Z) : M E S Z :=
  data ← lift OutOfBounds (load_bytes (Z.to_nat len) off _data);
  match cksum_fold cksum_fuel (cksum_loop 0 data) with
  | Some sum => mret (cksum_final sum)
  | None => throw OutOfFuel
  end.

Definition ethertype (b : buf) : M E S Z :=
  t ← rd 0 ether_type b; mret (ntohs t).

Definition ip_protocol (b : buf) : M E S Z := rd 0 ip_p b.
End utils.

(** The four numbers [print_addr_ip_int] prints, from the most significant
    octet of its host-order argument. *)
Definition print_addr_ip_int_octets (ip : Z) : list Z :=
  [Z.shiftr ip 24;
   Z.shiftr (u32 (Z.shiftl ip 8)) 24;
   Z.shiftr (u32 (Z.shiftl ip 16)) 24;
   Z.shiftr (u32 (Z.shiftl ip 24)) 24].

(** ** The reference checksum *)

(** The 16-bit words of a byte string, in network order; an odd last byte is
    padded with zero. *)
Fixpoint words (data : buf) : list Z :=
  match data with
  | d0 :: d1 :: data' => (d0 * 256 + d1) :: words data'
  | [d0] => [d0 * 256]
  | [] => []
  end.

(** One's complement addition: an end-around carry. *)
Definition oc_add (a b : Z) : Z :=
  if 0xffff <? a + b then a + b - 0xffff else a + b.

Definition rfc1071_sum (data : buf) : Z := foldl oc_add 0 (words data).

(** A header whose words, checksum included, sum to all ones is accepted. *)
Definition rfc1071_valid (data : buf) : bool := rfc1071_sum data =? 0xffff.

(** The checksum of a byte string as a value of the C code. *)
Definition cksum_of (data : buf) : Z :=
  cksum_final (rfc1071_sum data).

(** ** The integer sum of the words, and its one's complement residue *)

Definition wsum (data : buf) : Z := foldr Z.add 0 (words data).

Definition oc_norm (s : Z) : Z := if s =? 0 then 0 else (s - 1) mod 0xffff + 1.

Lemma oc_norm_bound s : 0 ≤ s → 0 ≤ oc_norm s ≤ 0xffff.
Proof.
  intros H. unfold oc_norm. zcase; [lia|].
  pose proof (Z.mod_pos_bound (s - 1) 0xffff ltac:(lia)). lia.
Qed.

Lemma oc_norm_small s : 0 ≤ s ≤ 0xffff → oc_norm s = s.
Proof. intros H. unfold oc_norm. zcase; [lia|]. rewrite Z.mod_small; lia. Qed.

Lemma oc_norm_sub s k : 0 < s - 0xffff * k → oc_norm (s - 0xffff * k) = oc_norm s ∨ s = 0.
Proof.
  intros H. unfold oc_norm. destruct (Z.eqb_spec s 0); [by right|left].
  zcase; [lia|]. f_equal.
  replace (s - 0xffff * k - 1) with (s - 1 + (- k) * 0xffff) by lia.
  apply Z.mod_add. lia.
Qed.

Lemma oc_norm_zero s : 0 ≤ s → oc_norm s = 0 → s = 0.
Proof.
  intros Hs. unfold oc_norm. zcase; [done|].
  pose proof (Z.mod_pos_bound (s - 1) 0xffff ltac:(lia)). lia.
Qed.

Lemma oc_norm_add a b : 0 ≤ a → 0 ≤ b ≤ 0xffff → oc_add (oc_norm a) b = oc_norm (a + b).
Proof.
  intros Ha Hb. unfold oc_add.
  destruct (Z.eq_dec a 0) as [->|Ha0].
  { change (oc_norm 0) with 0. rewrite !Z.add_0_l, oc_norm_small by lia. by zcase; [lia|]. }
  unfold oc_norm. do 2 (zcase; [lia|]).
  pose proof (Z.mod_pos_bound (a - 1) 0xffff ltac:(lia)).
  pose proof (Z_div_mod_eq_full (a - 1) 0xffff) as Hd.
  set (q := (a - 1) / 0xffff) in *. set (r := (a - 1) mod 0xffff) in *.
  replace (a + b - 1) with (r + b + q * 0xffff) by lia.
  rewrite Z.mod_add by lia.
  zcase.
  - replace (r + b) with (r + b - 0xffff + 1 * 0xffff) by lia.
    rewrite Z.mod_add, Z.mod_small by lia. lia.
  - rewrite Z.mod_small by lia. lia.
Qed.

Lemma words_ok data : bytes_ok data → Forall is_u16 (words data).
Proof.
  revert data. fix IH 1. intros [|d0 [|d1 data]] H; [constructor| |].
  - apply Forall_inv in H. unfold is_u8 in H. repeat constructor; unfold is_u16 in *; lia.
  - pose proof (Forall_inv H) as H0. apply Forall_inv_tail in H.
    pose proof (Forall_inv H) as H1. apply Forall_inv_tail in H.
    unfold is_u8 in *. constructor; [unfold is_u16; lia|by apply IH].
Qed.

Lemma wsum_nonneg data : bytes_ok data → 0 ≤ wsum data.
Proof.
  intros H%words_ok. unfold wsum. induction H as [|w ws Hw _ IH]; [done|].
  unfold is_u16 in Hw. simpl. lia.
Qed.

Lemma words_length data : (2 * length (words data) <= length data + 1)%nat.
Proof.
  revert data. fix IH 1. intros [|d0 [|d1 data]]; [simpl; lia|simpl; lia|].
  specialize (IH data). simpl. lia.
Qed.

(** The sum of the words of a buffer that fits in 32 bits. *)
Lemma wsum_bound data :
  bytes_ok data → Z.of_nat (length data) ≤ 131072 → wsum data < 2 ^ 32.
Proof.
  intros H%words_ok Hl. pose proof (words_length data) as Hw.
  assert (wsum data ≤ Z.of_nat (length (words data)) * 65535).
  { unfold wsum. clear - H. induction H as [|w ws Hw _ IH]; [simpl; lia|].
    unfold is_u16 in Hw. simpl foldr. simpl length. rewrite Nat2Z.inj_succ. lia. }
  assert (Z.of_nat (length (words data)) ≤ 65536) by lia. lia.
Qed.

Lemma rfc1071_sum_norm data : bytes_ok data → rfc1071_sum data = oc_norm (wsum data).
Proof.
  intros H%words_ok. unfold rfc1071_sum, wsum.
  assert (∀ a, 0 ≤ a → foldl oc_add (oc_norm a) (words data)
               = oc_norm (a + foldr Z.add 0 (words data))) as Hg.
  { induction H as [|w ws Hw _ IH]; intros a Ha; simpl; [f_equal; lia|].
    unfold is_u16 in Hw. rewrite oc_norm_add by lia. rewrite IH by lia. f_equal. lia. }
  rewrite <- (Z.add_0_l (foldr _ _ _)), <- Hg by lia. done.
Qed.

(** ** The C checksum computes the reference *)

Lemma u32_add_l a b : u32 (u32 a + b) = u32 (a + b).
Proof. unfold u32. by rewrite Zplus_mod_idemp_l. Qed.

Lemma cksum_loop_wsum data sum :
  bytes_ok data → is_u32 sum → cksum_loop sum data = u32 (sum + wsum data).
Proof.
  revert data sum. fix IH 1. intros [|d0 [|d1 data]] sum H Hs.
  - simpl. rewrite Z.add_0_r. by rewrite u32_small.
  - apply Forall_inv in H. simpl. rewrite Z.shiftl_mul_pow2 by lia.
    unfold wsum. simpl. f_equal. lia.
  - pose proof (Forall_inv H) as H0. apply Forall_inv_tail in H.
    pose proof (Forall_inv H) as H1. apply Forall_inv_tail in H.
    simpl. rewrite lor_shiftl_add by (unfold is_u8 in *; lia).
    rewrite IH by auto with sr. rewrite u32_add_l. unfold wsum. simpl. f_equal. lia.
Qed.

(** One folding step keeps the one's complement residue. *)
Lemma cksum_fold_step s :
  is_u32 s → 0xffff < s →
  u32 (Z.shiftr s 16 + Z.land s 0xffff) = s - 0xffff * (s / 65536) ∧
  0 < s - 0xffff * (s / 65536) ≤ 65536 + s / 65536.
Proof.
  intros Hs Hg. unfold is_u32 in Hs.
  change 0xffff with (2 ^ 16 - 1). rewrite land_ones_mod by lia.
  rewrite Z.shiftr_div_pow2 by lia. change (2 ^ 16) with 65536.
  pose proof (Z_div_mod_eq_full s 65536).
  pose proof (Z.mod_pos_bound s 65536 ltac:(lia)).
  assert (0 < s / 65536 < 65536)
    by (split; [apply Z.div_str_pos|apply Z.div_lt_upper_bound]; lia).
  rewrite u32_small by (unfold is_u32; lia). lia.
Qed.

Lemma cksum_fold_unfold fuel s :
  cksum_fold fuel s =
    if 0xffff <? s then
      match fuel with
      | O => None
      | S fuel' => cksum_fold fuel' (u32 (Z.shiftr s 16 + Z.land s 0xffff))
      end
    else Some s.
Proof. by destruct fuel. Qed.

(** The folding loop ends after at most two iterations on any 32-bit sum. *)
Lemma cksum_fold_total s :
  is_u32 s → cksum_fold cksum_fuel s = Some (oc_norm s).
Proof.
  intros Hs. unfold cksum_fuel. rewrite !cksum_fold_unfold.
  zcase; [|f_equal; symmetry; apply oc_norm_small; unfold is_u32 in Hs; lia].
  destruct (cksum_fold_step s Hs) as [-> Hb]; [lia|].
  destruct (oc_norm_sub s (s / 65536)) as [Hn| ->]; [lia| |lia].
  set (s1 := s - 0xffff * (s / 65536)) in *.
  assert (s / 65536 < 65536) by (apply Z.div_lt_upper_bound; unfold is_u32 in Hs; lia).
  assert (s1 ≤ 131070).
  { unfold s1. pose proof (Z_div_mod_eq_full s 65536).
    pose proof (Z.mod_pos_bound s 65536 ltac:(lia)). lia. }
  zcase; [|f_equal; rewrite <- Hn; symmetry; apply oc_norm_small; lia].
  destruct (cksum_fold_step s1) as [-> Hb1]; [unfold is_u32; lia|lia|].
  destruct (oc_norm_sub s1 (s1 / 65536)) as [Hn1|?]; [lia| |lia].
  assert (s1 / 65536 = 1) as Hd by (symmetry; apply (Z.div_unique_pos _ _ 1 (s1 - 65536)); lia).
  rewrite Hd in *. zcase; [lia|].
  f_equal. rewrite <- Hn, <- Hn1. symmetry. apply oc_norm_small. lia.
Qed.

(** On a byte range of the size of a packet [cksum] is the reference. *)
Lemma cksum_run {E S} data off len :
  bytes_ok data → 0 ≤ len ≤ 131072 → (off + Z.to_nat len <= length data)%nat →
  cksum (E:=E) (S:=S) data off len = mret (cksum_of (slice off (Z.to_nat len) data)).
Proof.
  intros Hb Hl Hf. unfold cksum. rewrite load_bytes_ok by done.
  rewrite lift_some, bind_mret.
  set (d := slice off (Z.to_nat len) data).
  assert (bytes_ok d) as Hd by (unfold d; auto with sr).
  assert (length d = Z.to_nat len) by (unfold d; len).
  rewrite cksum_loop_wsum by (done || (unfold is_u32; lia)).
  rewrite Z.add_0_l, u32_small
    by (unfold is_u32; pose proof (wsum_nonneg d Hd); pose proof (wsum_bound d Hd); lia).
  rewrite cksum_fold_total
    by (unfold is_u32; pose proof (wsum_nonneg d Hd); pose proof (wsum_bound d Hd); lia).
  unfold cksum_of. by rewrite rfc1071_sum_norm.
Qed.

(** ** The value of a checksum *)

Lemma u16_lnot s : 0 ≤ s ≤ 0xffff → u16 (u32 (Z.lnot s)) = 0xffff - s.
Proof.
  intros H. unfold u16, u32. unfold Z.lnot.
  replace (Z.pred (- s)) with ((2 ^ 32 - 1 - s) + (-1) * 2 ^ 32) by lia.
  rewrite Z.mod_add by lia. rewrite (Z.mod_small (2 ^ 32 - 1 - s)) by lia.
  replace (2 ^ 32 - 1 - s) with ((0xffff - s) + 65535 * 2 ^ 16) by lia.
  rewrite Z.mod_add by lia. apply Z.mod_small. lia.
Qed.

(** In host order: the complement of the sum, all ones where that is zero. *)
Lemma cksum_final_host s :
  0 ≤ s ≤ 0xffff →
  ntohs (cksum_final s) = if s =? 0xffff then 0xffff else 0xffff - s.
Proof.
  intros H. unfold cksum_final, htons. rewrite u16_lnot by done.
  assert (is_u16 (0xffff - s)) as Hu by (unfold is_u16; lia).
  destruct (Z.eqb_spec s 0xffff) as [->|Hne]; [done|].
  zcase; [|by apply ntohs_involutive].
  assert (0xffff - s = 0); [|lia].
  apply ntohs_inj; [done|unfold is_u16; lia|done].
Qed.

Lemma cksum_final_bound s : 0 ≤ s ≤ 0xffff → 0 < cksum_final s < 2 ^ 16.
Proof.
  intros H. unfold cksum_final. rewrite u16_lnot by done.
  assert (is_u16 (htons (0xffff - s))) as Hb by (apply ntohs_bound; unfold is_u16; lia).
  unfold is_u16 in Hb. zcase; lia.
Qed.

Lemma cksum_of_bound data : bytes_ok data → 0 < cksum_of data < 2 ^ 16.
Proof.
  intros H. unfold cksum_of. rewrite rfc1071_sum_norm by done.
  apply cksum_final_bound, oc_norm_bound. by apply wsum_nonneg.
Qed.

Lemma cksum_of_u16 data : bytes_ok data → is_u16 (cksum_of data).
Proof. intros H. pose proof (cksum_of_bound data H). unfold is_u16. lia. Qed.

#[export] Hint Resolve cksum_of_u16 cksum_of_bound : sr.

(** ** Storing a checksum in the range it covers *)

Lemma wsum_app a b : Nat.even (length a) = true → wsum (a ++ b) = wsum a + wsum b.
Proof.
  unfold wsum. revert a. fix IH 1. intros [|d0 [|d1 a]] H; [done|done|].
  simpl. rewrite IH by done. lia.
Qed.

(** Writing a 16-bit field at an even offset replaces its word in the sum. *)
Lemma wsum_set_word off v b :
  Nat.even off = true → (off + 2 <= length b)%nat → bytes_ok b → is_u16 v →
  wsum (put off (le_enc 2 v) b) = wsum b - ntohs (le_dec (slice off 2 b)) + ntohs v.
Proof.
  intros He Hl Hb Hv.
  assert (∀ c, bytes_ok c → length c = 2%nat → wsum c = ntohs (le_dec c)) as Hc.
  { intros c Hc Hlc. destruct c as [|x [|y [|]]]; try discriminate.
    pose proof (Forall_inv Hc). pose proof (Forall_inv (Forall_inv_tail Hc)).
    rewrite ntohs_bytes by done. unfold wsum. simpl. lia. }
  rewrite <- (take_drop off b) at 2.
  rewrite <- (take_drop 2 (drop off b)) at 1. rewrite put_fits by len.
  rewrite !wsum_app by (rewrite ?length_take, ?length_le_enc, ?length_drop, ?Nat.min_l by lia; done).
  change (take 2 (drop off b)) with (slice off 2 b).
  rewrite (Hc (le_enc 2 v)), (Hc (slice off 2 b)) by (auto with sr; len).
  rewrite drop_drop. change (length (le_enc 2 v)) with 2%nat.
  rewrite le_dec_enc by (change (256 ^ Z.of_nat 2) with (2 ^ 16); done). lia.
Qed.

(** Storing the checksum makes the reference accept the range. *)
Lemma seal_valid off d :
  Nat.even off = true → (off + 2 <= length d)%nat → bytes_ok d →
  rfc1071_valid (put off (le_enc 2 (cksum_of (put off (le_enc 2 0) d))) d) = true.
Proof.
  intros He Hl Hb. set (d0 := put off (le_enc 2 0) d).
  assert (bytes_ok d0) as Hb0 by (unfold d0; auto with sr).
  pose proof (cksum_of_bound d0 Hb0) as Hc.
  unfold rfc1071_valid. rewrite rfc1071_sum_norm by auto with sr.
  rewrite wsum_set_word by (done || unfold is_u16; lia).
  assert (wsum d - ntohs (le_dec (slice off 2 d)) = wsum d0) as ->.
  { unfold d0. rewrite wsum_set_word by done. change (ntohs 0) with 0. lia. }
  pose proof (wsum_nonneg d0 Hb0). pose proof (oc_norm_bound (wsum d0)).
  pose proof (ntohs_bound (cksum_of d0) ltac:(unfold is_u16; lia)) as Hu. unfold is_u16 in Hu.
  rewrite <- oc_norm_add by lia. unfold cksum_of. rewrite rfc1071_sum_norm by done.
  rewrite cksum_final_host by lia. apply Z.eqb_eq. unfold oc_add.
  destruct (Z.eqb_spec (oc_norm (wsum d0)) 0xffff); zcase; lia.
Qed.
