(* ===== verification/Instance.v ===== *)
(** * The router's data ([sr_router.h], [sr_if.h], [sr_rt.h], [sr_arpcache.h])

    The structs as records, the linked lists as lists (a node's [next] is the
    next element), the environment of a call, and the well-formedness of a
    router instance: what every operation finds and keeps. *)

From S2P Require Export Protocol.

(** ** Structs *)

(** [struct sr_if] *)
Record sr_if := mk_if {
  if_name : buf;                 (* char name[sr_IFACE_NAMELEN] *)
  if_addr : buf;                 (* unsigned char addr[ETHER_ADDR_LEN] *)
  if_ip : Z;                     (* uint32_t, network byte order *)
  if_speed : Z
}.

(** [struct sr_rt] *)
Record sr_rt := mk_rt {
  rt_dest : Z;
  rt_gw : Z;
  rt_mask : Z;
  rt_interface : buf             (* char interface[sr_IFACE_NAMELEN] *)
}.

(** [struct sr_packet] *)
Record sr_packet := mk_packet {
  pkt_buf : buf;
  pkt_len : Z;
  pkt_iface : buf
}.

(** [struct sr_arpentry] *)
Record sr_arpentry := mk_entry {
  ent_mac : buf;
  ent_ip : Z;
  ent_added : Z;                 (* time_t *)
  ent_valid : bool
}.

(** [struct sr_arpreq]; [req_addr] is the address of the node, by which the
    code tells requests apart. *)
Record sr_arpreq := mk_req {
  req_addr : nat;
  req_ip : Z;
  req_sent : Z;                  (* time_t *)
  req_times_sent : Z;            (* uint32_t *)
  req_packets : list sr_packet
}.

(** [struct sr_arpcache]; [next_addr] is the address the allocator gives to the
    next request node. *)
Record sr_arpcache := mk_cache {
  entries : list sr_arpentry;    (* entries[SR_ARPCACHE_SZ] *)
  requests : list sr_arpreq;
  next_addr : nat
}.

(** [struct sr_instance].  [logfile] is what was written to the log file, when
    one is open; [sent] is what was written to the socket to the server, one
    element per call of [write] or [send]. *)
Record sr_instance := mk_sr {
  user : buf;                    (* char user[32] *)
  host : buf;                    (* char host[32] *)
  template : buf;                (* char template[30] *)
  topo_id : Z;                   (* unsigned short *)
  if_list : list sr_if;
  routing_table : list sr_rt;
  cache : sr_arpcache;
  logfile : option buf;
  sent : list buf
}.

Definition SR_ARPCACHE_SZ : nat := 100.
(** [SR_ARPCACHE_TO] is 15.0; the clock is in whole seconds. *)
Definition SR_ARPCACHE_TO : Z := 15.

(** ** Member updates *)

Definition set_if_list (l : list sr_if) (s : sr_instance) : sr_instance :=
  mk_sr (user s) (host s) (template s) (topo_id s) l (routing_table s) (cache s)
    (logfile s) (sent s).
Definition set_routing_table (l : list sr_rt) (s : sr_instance) : sr_instance :=
  mk_sr (user s) (host s) (template s) (topo_id s) (if_list s) l (cache s)
    (logfile s) (sent s).
Definition set_cache (c : sr_arpcache) (s : sr_instance) : sr_instance :=
  mk_sr (user s) (host s) (template s) (topo_id s) (if_list s) (routing_table s) c
    (logfile s) (sent s).
Definition set_logfile (o : option buf) (s : sr_instance) : sr_instance :=
  mk_sr (user s) (host s) (template s) (topo_id s) (if_list s) (routing_table s)
    (cache s) o (sent s).
Definition set_sent (l : list buf) (s : sr_instance) : sr_instance :=
  mk_sr (user s) (host s) (template s) (topo_id s) (if_list s) (routing_table s)
    (cache s) (logfile s) l.

(** ** The environment of a call *)

(** The calls of [malloc] and [calloc], by the object they allocate. *)
Inductive alloc_site :=
  | AllocArpReply      (* sr_send_arp_reply: reply *)
  | AllocArpRequest    (* sr_send_arp_request: request *)
  | AllocSweepRequest  (* sr_arpcache_send_arp_request: request *)
  | AllocEchoReply     (* sr_send_icmp_echo_reply: reply *)
  | AllocIcmpError     (* sr_send_icmp_error: reply *)
  | AllocForward       (* sr_send_routed_ip_packet: forwarded_packet *)
  | AllocEntryCopy     (* sr_arpcache_lookup: copy *)
  | AllocReq           (* sr_arpcache_queuereq: req *)
  | AllocPacket        (* sr_arpcache_queuereq: new_pkt *)
  | AllocPacketBuf     (* sr_arpcache_queuereq: new_pkt->buf *)
  | AllocPacketIface   (* sr_arpcache_queuereq: new_pkt->iface *)
  | AllocVnsPacket     (* sr_send_packet: sr_pkt *)
  | AllocInterface     (* sr_add_interface *)
  | AllocRoute         (* sr_add_rt_entry *)
  | AllocCommand       (* sr_read_from_server_expect: buf *)
  | AllocAuthReply.    (* sr_handle_auth_request: buf *)

#[export] Instance alloc_site_eq_dec : EqDecision alloc_site.
Proof. solve_decision. Defined.

(** What the operating system answers while one message or one tick of the
    timer is handled. *)
Record env := mk_env {
  now : Z;                          (* time(NULL) *)
  timeofday : Z * Z;                (* gettimeofday: seconds, microseconds *)
  malloc_ok : alloc_site → bool;    (* the allocation does not fail *)
  write_result : Z → Z;             (* write(fd, buf, n), as a function of n *)
  fresh_if : sr_if;                 (* what an uninitialised struct sr_if holds *)
  inet_ntoa : Z → list Z            (* the text of an address *)
}.

Abbreviation R := (M env sr_instance).

Definition malloc (a : alloc_site) : R bool := e ← ask; mret (malloc_ok e a).

(** ** Well-formedness *)

Definition name_ok (n : buf) : Prop := length n = sr_IFACE_NAMELEN ∧ bytes_ok n.
Definition mac_ok (m : buf) : Prop := length m = ETHER_ADDR_LEN ∧ bytes_ok m.

Record if_wf (i : sr_if) : Prop := {
  if_wf_name : name_ok (if_name i);
  if_wf_addr : mac_ok (if_addr i);
  if_wf_ip : is_u32 (if_ip i)
}.

Record rt_wf (r : sr_rt) : Prop := {
  rt_wf_dest : is_u32 (rt_dest r);
  rt_wf_gw : is_u32 (rt_gw r);
  rt_wf_mask : is_u32 (rt_mask r);
  rt_wf_interface : name_ok (rt_interface r)
}.

(** Frames are far shorter than what a 32-bit length can wrap: the server's
    messages are at most 10000 bytes ([sr_read_from_server_expect]). *)
Definition MAX_FRAME : Z := 2 ^ 31.

(** A queued packet is at least an Ethernet frame. *)
Record pkt_wf (p : sr_packet) : Prop := {
  pkt_wf_bytes : bytes_ok (pkt_buf p);
  pkt_wf_len : Z.of_nat (length (pkt_buf p)) = pkt_len p;
  pkt_wf_max : pkt_len p < MAX_FRAME;
  pkt_wf_min : (eth_size <= length (pkt_buf p))%nat;
  pkt_wf_iface : name_ok (pkt_iface p)
}.

Record entry_wf (x : sr_arpentry) : Prop := {
  entry_wf_mac : mac_ok (ent_mac x);
  entry_wf_ip : is_u32 (ent_ip x)
}.

(** A pending request waits for something and was sent at most five times. *)
Record req_wf (r : sr_arpreq) : Prop := {
  req_wf_ip : is_u32 (req_ip r);
  req_wf_times : 0 ≤ req_times_sent r ≤ 5;
  req_wf_packets : Forall pkt_wf (req_packets r);
  req_wf_waiting : req_packets r ≠ []
}.

(** At most one valid entry and at most one pending request per address. *)
Record cache_wf (c : sr_arpcache) : Prop := {
  cache_wf_size : length (entries c) = SR_ARPCACHE_SZ;
  cache_wf_entries : Forall entry_wf (entries c);
  cache_wf_unique : ∀ i j x y,
    entries c !! i = Some x → entries c !! j = Some y →
    ent_valid x = true → ent_valid y = true → ent_ip x = ent_ip y → i = j;
  cache_wf_requests : Forall req_wf (requests c);
  cache_wf_req_ips : NoDup (req_ip <$> requests c);
  cache_wf_req_addrs : NoDup (req_addr <$> requests c);
  cache_wf_fresh : Forall (λ r, (req_addr r < next_addr c)%nat) (requests c)
}.

Record sr_wf (s : sr_instance) : Prop := {
  sr_wf_ifs : Forall if_wf (if_list s);
  sr_wf_rts : Forall rt_wf (routing_table s);
  sr_wf_cache : cache_wf (cache s)
}.

(** The allocations the code does not check. *)
Definition unchecked_allocs : list alloc_site :=
  [AllocEntryCopy; AllocReq; AllocPacket; AllocPacketBuf; AllocPacketIface; AllocVnsPacket].

Definition mallocs_checked (e : env) : Prop :=
  ∀ a, a ∈ unchecked_allocs → malloc_ok e a = true.

(** A frame as the handlers take it: the buffer has the length passed beside
    it. *)
Definition frame_ok (packet : buf) (len : Z) : Prop :=
  bytes_ok packet ∧ Z.of_nat (length packet) = len ∧ len < MAX_FRAME.
