(* ===== verification/Iface.v ===== *)
(** * Interfaces ([sr_if.c])

    The list of interfaces is built while the hardware information is read:
    [sr_add_interface] appends a node, [sr_set_ether_addr] and
    [sr_set_ether_ip] fill in the last one, and [sr_get_interface] finds a node
    by name. *)

From S2P Require Export Instance.

(** ** Operations *)

(** The walk of [sr_get_interface]: [!strncmp (if_walker->name, name,]
    [sr_IFACE_NAMELEN)]. *)
Fixpoint find_if (l : list sr_if) (name : cstr) : option (option sr_if) :=
  match l with
  | [] => Some None
  | i :: l' =>
      same ← strncmp_eq sr_IFACE_NAMELEN (if_name i) name;
      if same : bool then Some (Some i) else find_if l' name
  end.

Definition sr_get_interface (name : cstr) : R (option sr_if) :=
  l ← gets if_list;
  lift OutOfBounds (find_if l name).

(** The walk to the end of the list, [while (if_walker->next) ...], and an
    update of the node found there. *)
Fixpoint update_last {A} (f : A → A) (l : list A) : list A :=
  match l with
  | [] => []
  | [x] => [f x]
  | x :: l' => x :: update_last f l'
  end.

(** [malloc] does not clear the node: its other members hold what the
    environment's [fresh_if] says. *)
Definition sr_add_interface (name : cstr) : R unit :=
  ok ← malloc AllocInterface;
  assert ok;;
  e ← ask;
  n ← lift OutOfBounds (strncpy sr_IFACE_NAMELEN name);
  let node := mk_if n (if_addr (fresh_if e)) (if_ip (fresh_if e)) (if_speed (fresh_if e)) in
  modify (λ s, set_if_list (if_list s ++ [node]) s).

Definition sr_set_ether_addr (addr : buf) : R unit :=
  l ← gets if_list;
  assert (negb (bool_decide (l = [])));;
  a ← lift OutOfBounds (load_bytes ETHER_ADDR_LEN 0 addr);
  modify (λ s, set_if_list
    (update_last (λ i, mk_if (if_name i) a (if_ip i) (if_speed i)) (if_list s)) s).

Definition sr_set_ether_ip (ip_nbo : Z) : R unit :=
  l ← gets if_list;
  assert (negb (bool_decide (l = [])));;
  modify (λ s, set_if_list
    (update_last (λ i, mk_if (if_name i) (if_addr i) ip_nbo (if_speed i)) (if_list s)) s).

(** ** Finding an interface *)

(** The first interface whose name reads [nm]. *)
Definition iface_named (l : list sr_if) (nm : list Z) : option sr_if :=
  List.find (λ i, bool_decide (cname sr_IFACE_NAMELEN (if_name i) = nm)) l.

#[export] Instance sr_if_eq_dec : EqDecision sr_if.
Proof. solve_decision. Defined.

Lemma find_if_spec l name :
  Forall if_wf l → cstr_ok sr_IFACE_NAMELEN name →
  find_if l name = Some (iface_named l (cname sr_IFACE_NAMELEN name)).
Proof.
  intros Hl Hn. induction Hl as [|i l Hi _ IH]; [done|]. simpl.
  rewrite strncmp_eq_spec by (done || apply cstr_ok_length, (if_wf_name i Hi)).
  simpl. by destruct (bool_decide _).
Qed.

(** [sr_get_interface] finds the first interface of that name, on any name
    argument that is long enough or NUL-terminated. *)
Lemma sr_get_interface_run name e s :
  sr_wf s → cstr_ok sr_IFACE_NAMELEN name →
  sr_get_interface name e s =
    Ok (iface_named (if_list s) (cname sr_IFACE_NAMELEN name), s).
Proof.
  intros [Hif _ _] Hn. unfold sr_get_interface, gets, mbind, M_bind.
  by rewrite find_if_spec.
Qed.

Lemma iface_named_elem l nm i : iface_named l nm = Some i → i ∈ l.
Proof. intros [H _]%find_some. by apply list_elem_of_In. Qed.

Lemma iface_named_name l nm i :
  iface_named l nm = Some i → cname sr_IFACE_NAMELEN (if_name i) = nm.
Proof. intros [_ H]%find_some. by apply bool_decide_eq_true in H. Qed.

Lemma iface_named_wf l nm i : Forall if_wf l → iface_named l nm = Some i → if_wf i.
Proof. rewrite list.Forall_forall. intros Hl H. by eapply Hl, iface_named_elem. Qed.

(** Looking an interface up by its own name gives an interface of that name. *)
Lemma iface_named_self l i :
  i ∈ l → ∃ j, iface_named l (cname sr_IFACE_NAMELEN (if_name i)) = Some j.
Proof.
  intros H. unfold iface_named.
  destruct (List.find _ l) as [j|] eqn:E; [eauto|].
  eapply find_none in E; [|by apply list_elem_of_In].
  by apply bool_decide_eq_false in E.
Qed.

Lemma iface_named_none l nm :
  iface_named l nm = None ↔ Forall (λ i, cname sr_IFACE_NAMELEN (if_name i) ≠ nm) l.
Proof.
  unfold iface_named. rewrite list.Forall_forall. split.
  - intros H i Hi. eapply find_none in H; [|by apply list_elem_of_In].
    by apply bool_decide_eq_false in H.
  - intros H. destruct (List.find _ l) as [i|] eqn:E; [|done].
    apply find_some in E as [Hi E]. apply bool_decide_eq_true in E.
    apply list_elem_of_In in Hi. by apply H in Hi.
Qed.

Lemma iface_named_snoc l nm i :
  iface_named l nm = None → cname sr_IFACE_NAMELEN (if_name i) = nm →
  iface_named (l ++ [i]) nm = Some i.
Proof.
  induction l as [|j l IH]; unfold iface_named; simpl.
  - intros _ ->. by rewrite bool_decide_true.
  - destruct (bool_decide _); [done|]. apply IH.
Qed.

(** ** Building the list *)

Lemma update_last_snoc {A} (f : A → A) l x : update_last f (l ++ [x]) = l ++ [f x].
Proof.
  induction l as [|y l IH]; [done|]. simpl. rewrite IH. by destruct l.
Qed.

Lemma sr_add_interface_run name n e s :
  malloc_ok e AllocInterface = true → strncpy sr_IFACE_NAMELEN name = Some n →
  sr_add_interface name e s =
    Ok (tt, set_if_list (if_list s ++
      [mk_if n (if_addr (fresh_if e)) (if_ip (fresh_if e)) (if_speed (fresh_if e))]) s).
Proof.
  intros Hm Hn. unfold sr_add_interface, malloc, ask, mbind, M_bind. simpl.
  rewrite Hm. simpl. by rewrite Hn.
Qed.

Lemma sr_set_ether_ip_run ip e s l i :
  if_list s = l ++ [i] →
  sr_set_ether_ip ip e s =
    Ok (tt, set_if_list (l ++ [mk_if (if_name i) (if_addr i) ip (if_speed i)]) s).
Proof.
  intros Hl. unfold sr_set_ether_ip, gets, modify, mbind, M_bind. rewrite Hl.
  rewrite bool_decide_false by (by destruct l). simpl.
  by rewrite Hl, update_last_snoc.
Qed.

Lemma sr_set_ether_addr_run addr e s l i :
  if_list s = l ++ [i] → (ETHER_ADDR_LEN <= length addr)%nat →
  sr_set_ether_addr addr e s =
    Ok (tt, set_if_list (l ++
      [mk_if (if_name i) (take ETHER_ADDR_LEN addr) (if_ip i) (if_speed i)]) s).
Proof.
  intros Hl Ha. unfold sr_set_ether_addr, gets, modify, mbind, M_bind. rewrite Hl.
  rewrite bool_decide_false by (by destruct l). simpl.
  rewrite load_bytes_ok by done. simpl.
  by rewrite Hl, update_last_snoc.
Qed.
