(* ===== verification/Send.v ===== *)
(** * Sending a packet to the server ([sr_vns_comm.c], sending half)

    A frame is sent inside a message of the server's protocol: a header with
    the total length, the type [VNSPACKET] and the name of the interface, and
    then the frame.  The frame is logged first and is refused when its source
    address is not the interface's. *)

From S2P Require Export Vnscommand Dumper Iface.

(** The 16 of [strncpy (sr_pkt->mInterfaceName, iface, 16)]. *)
Definition VNS_NAMELEN : nat := 16.

Definition PACKET_DUMP_SIZE : Z := 1024.

(** [write (sr->sockfd, b, n)]: the environment says how many bytes are taken;
    those reach the server. *)
Definition sys_write (b : buf) : R Z :=
  e ← ask;
  let r := write_result e (Z.of_nat (length b)) in
  (if 0 <? r then modify (λ s, set_sent (sent s ++ [take (Z.to_nat r) b]) s) else mret tt);;
  mret r.

(** [len] is an [int]; [caplen] is unsigned. *)
Definition sr_log_packet (b : buf) (len : Z) : R unit :=
  log ← gets logfile;
  match log with
  | None => mret tt
  | Some l =>
      e ← ask;
      let size := Z.min PACKET_DUMP_SIZE len in
      let h := mk_pkthdr (timeofday e).1 (timeofday e).2 (u32 size)
                 (u32 (if size <? PACKET_DUMP_SIZE then size else PACKET_DUMP_SIZE)) in
      d ← lift OutOfBounds (sr_dump h b);
      modify (set_logfile (Some (l ++ d)))
  end.

(** The name of an interface that does not exist is printed. *)
Definition sr_ether_addrs_match_interface (b : buf) (name : cstr) : R bool :=
  iface ← sr_get_interface name;
  match iface with
  | None => lift OutOfBounds (c_str name);; mret false
  | Some iface =>
      shost ← rdb 0 ether_shost b;
      same ← lift OutOfBounds (memcmp_eq ETHER_ADDR_LEN shost (if_addr iface));
      mret same
  end.

(** Returns 0, or -1 when the packet was not sent.  The message buffer is
    written completely before it is read. *)
Definition sr_send_packet (b : buf) (len : Z) (iface : cstr) : R Z :=
  let total_len := u32 (len + Z.of_nat c_packet_header_size) in
  if len <? Z.of_nat eth_size then mret (-1)
  else
    ok ← malloc AllocVnsPacket;
    assert ok;;
    let sr_pkt := replicate (Z.to_nat len + c_packet_header_size) 0 in
    sr_pkt ← wr 0 mLen (htonl total_len) sr_pkt;
    sr_pkt ← wr 0 mType (htonl VNSPACKET) sr_pkt;
    name ← lift OutOfBounds (strncpy VNS_NAMELEN iface);
    sr_pkt ← wrb 0 mInterfaceName name sr_pkt;
    sr_pkt ← lift OutOfBounds (memcpy c_packet_header_size sr_pkt 0 b (Z.to_nat len));
    sr_log_packet b len;;
    same ← sr_ether_addrs_match_interface b iface;
    if negb same then mret (-1)
    else
      written ← sys_write (take (Z.to_nat total_len) sr_pkt);
      if written <? total_len then mret (-1) else mret 0.

(** [sr_arp_req_not_for_us]: an ARP request for another address than the
    receiving interface's. *)
Definition sr_arp_req_not_for_us (packet : buf) (len : Z) (interface : cstr) : R bool :=
  iface ← sr_get_interface interface;
  if len <? Z.of_nat (eth_size + arp_size) then mret false
  else
    match iface with
    | None => throw AssertFailed
    | Some iface =>
        t ← rd 0 ether_type packet;
        op ← rd eth_size ar_op packet;
        tip ← rd eth_size ar_tip packet;
        mret ((t =? htons ethertype_arp) && (op =? htons arp_op_request) &&
              negb (tip =? if_ip iface))
    end.

(** ** What a sent packet does *)

(** The message that carries a frame. *)
Definition vns_packet (name16 frame : buf) : buf :=
  le_enc 4 (htonl (Z.of_nat (length frame) + 24)) ++ le_enc 4 (htonl VNSPACKET) ++
  name16 ++ frame.

(** The log record of a frame. *)
Definition log_header (e : env) (frame : buf) : pcap_pkthdr :=
  let n := Z.min PACKET_DUMP_SIZE (Z.of_nat (length frame)) in
  mk_pkthdr (timeofday e).1 (timeofday e).2 n n.

Definition log_record (e : env) (frame : buf) : buf :=
  sf_pkthdr (log_header e frame) ++ take (Z.to_nat PACKET_DUMP_SIZE) frame.

Definition log_frame (e : env) (frame : buf) (s : sr_instance) : sr_instance :=
  match logfile s with
  | None => s
  | Some l => set_logfile (Some (l ++ log_record e frame)) s
  end.

(** The frame is logged and its message written to the server. *)
Definition emit (e : env) (name16 frame : buf) (s : sr_instance) : sr_instance :=
  set_sent (sent s ++ [vns_packet name16 frame]) (log_frame e frame s).

(** What sending leaves alone. *)
Record same_core (s s' : sr_instance) : Prop := {
  same_ifs : if_list s' = if_list s;
  same_rts : routing_table s' = routing_table s;
  same_cache : cache s' = cache s
}.

#[export] Instance same_core_equivalence : Equivalence same_core.
Proof.
  split.
  - by split.
  - intros s s' [? ? ?]. by split.
  - intros s1 s2 s3 [? ? ?] [? ? ?]. split; congruence.
Qed.

#[export] Instance sr_wf_proper : Proper (same_core ==> iff) sr_wf.
Proof.
  intros s s' [H1 H2 H3]. split; intros [? ? ?]; split; congruence.
Qed.

Lemma log_frame_core e frame s : same_core s (log_frame e frame s).
Proof. unfold log_frame. by destruct (logfile s). Qed.

Lemma emit_core e n frame s : same_core s (emit e n frame s).
Proof. unfold emit, log_frame. by destruct (logfile s). Qed.

#[export] Hint Resolve log_frame_core emit_core : sr.

Lemma log_frame_sent e frame s : sent (log_frame e frame s) = sent s.
Proof. unfold log_frame. by destruct (logfile s). Qed.

Lemma emit_sent e n frame s : sent (emit e n frame s) = sent s ++ [vns_packet n frame].
Proof. done. Qed.

(** ** Runs *)

Definition writes_ok (e : env) : Prop := ∀ n, write_result e n = n.

Lemma sr_log_packet_run b len e s :
  Z.of_nat (length b) = len → len < MAX_FRAME →
  sr_log_packet b len e s = Ok (tt, log_frame e b s).
Proof.
  intros Hl Hmax. unfold sr_log_packet, log_frame, gets, ask, modify, mbind, M_bind.
  destruct (logfile s) as [l|]; [|done]. unfold MAX_FRAME in Hmax.
  assert (u32 (Z.min PACKET_DUMP_SIZE len) = Z.min PACKET_DUMP_SIZE len) as Hu
    by (apply u32_small; unfold is_u32, PACKET_DUMP_SIZE; lia).
  assert ((if Z.min PACKET_DUMP_SIZE len <? PACKET_DUMP_SIZE then
    Z.min PACKET_DUMP_SIZE len else PACKET_DUMP_SIZE) = Z.min PACKET_DUMP_SIZE len) as -> by (zcase; lia).
  rewrite Hu, sr_dump_ok by (simpl; lia). simpl.
  unfold log_record, log_header. rewrite <- Hl. do 6 f_equal.
  destruct (Z.le_ge_cases PACKET_DUMP_SIZE (Z.of_nat (length b))).
  - by rewrite Z.min_l.
  - rewrite Z.min_r, !take_ge by lia. done.
Qed.

Lemma vns_header_build len name b :
  length name = VNS_NAMELEN → length b = Z.to_nat len → 0 ≤ len →
  put c_packet_header_size b
    (setb 0 mInterfaceName name (set 0 mType (htonl VNSPACKET)
      (set 0 mLen (htonl (len + 24)) (replicate (Z.to_nat len + c_packet_header_size) 0)))) =
  vns_packet name b.
Proof.
  intros Hn Hb Hl. unfold vns_packet, setb, set, c_packet_header_size, VNS_NAMELEN in *.
  cbn [Nat.add f_off f_len mLen mType mInterfaceName].
  rewrite put_0 by len. rewrite put_next by len. rewrite put_next by len.
  rewrite put_next by len. rewrite (drop_ge _ (length b)) by len.
  rewrite app_nil_r, <- !app_assoc, Hb, Z2Nat.id by done. done.
Qed.

Lemma length_vns_packet name b :
  length name = VNS_NAMELEN → length (vns_packet name b) = (length b + 24)%nat.
Proof. intros Hn. unfold vns_packet, VNS_NAMELEN in *. len. Qed.

(** What sending does, in every case. *)
Definition send_result (e : env) (name16 b : buf) (iface : cstr) (s : sr_instance)
    : Z * sr_instance :=
  let s1 := log_frame e b s in
  match iface_named (if_list s) (cname sr_IFACE_NAMELEN iface) with
  | Some i =>
      if bool_decide (getb 0 ether_shost b = if_addr i) then
        let m := vns_packet name16 b in
        let r := write_result e (Z.of_nat (length m)) in
        (if r <? Z.of_nat (length m) then -1 else 0,
         if 0 <? r then set_sent (sent s1 ++ [take (Z.to_nat r) m]) s1 else s1)
      else (-1, s1)
  | None => (-1, s1)
  end.

(** A name can be printed: a name that no interface has ends. *)
Definition printable (s : sr_instance) (name : cstr) : Prop :=
  iface_named (if_list s) (cname sr_IFACE_NAMELEN name) = None → 0 ∈ name.

Lemma printable_known s name i :
  iface_named (if_list s) (cname sr_IFACE_NAMELEN name) = Some i → printable s name.
Proof. intros H. unfold printable. by rewrite H. Qed.

Lemma printable_if s i : i ∈ if_list s → printable s (if_name i).
Proof. intros [j Hj]%iface_named_self. by eapply printable_known. Qed.
#[export] Hint Resolve printable_if : sr.

Lemma sr_ether_addrs_match_interface_run b name e s :
  sr_wf s → (eth_size <= length b)%nat → cstr_ok sr_IFACE_NAMELEN name → printable s name →
  sr_ether_addrs_match_interface b name e s =
    Ok (match iface_named (if_list s) (cname sr_IFACE_NAMELEN name) with
        | Some i => bool_decide (getb 0 ether_shost b = if_addr i)
        | None => false
        end, s).
Proof.
  intros Hs Hb Hn Hp. unfold sr_ether_addrs_match_interface.
  erewrite bind_run by by apply sr_get_interface_run.
  destruct (iface_named _ _) as [i|] eqn:E; [|by destruct (c_str_some _ (Hp E)) as [w ->]].
  pose proof (if_wf_addr _ (iface_named_wf _ _ _ (sr_wf_ifs _ Hs) E)) as [Ha _].
  assert (fits 0 ether_shost b) as Hf by (unfold fits, eth_size in *; simpl; lia).
  rewrite rdb_ok by done. rewrite bind_mret.
  assert (length (getb 0 ether_shost b) = ETHER_ADDR_LEN) as Hl by by apply length_getb.
  rewrite memcmp_eq_ok by lia. rewrite lift_some, bind_mret.
  rewrite !take_ge by lia. done.
Qed.

Lemma sys_write_run b e s :
  sys_write b e s =
    Ok (write_result e (Z.of_nat (length b)),
        let r := write_result e (Z.of_nat (length b)) in
        if 0 <? r then set_sent (sent s ++ [take (Z.to_nat r) b]) s else s).
Proof. unfold sys_write, ask, modify, mbind, M_bind. by destruct (0 <? _). Qed.

Lemma sr_send_packet_run b len iface e s :
  sr_wf s → frame_ok b len → (eth_size <= length b)%nat →
  cstr_ok sr_IFACE_NAMELEN iface → printable s iface → malloc_ok e AllocVnsPacket = true →
  ∃ name16, strncpy VNS_NAMELEN iface = Some name16 ∧ length name16 = VNS_NAMELEN ∧
    sr_send_packet b len iface e s = Ok (send_result e name16 b iface s).
Proof.
  intros Hs (Hbytes & Hl & Hmax) Hb Hi Hp Hm. unfold MAX_FRAME in Hmax.
  destruct (strncpy_spec VNS_NAMELEN iface) as (n & Hn & Hln & _).
  { eapply cstr_ok_le; [|done]. unfold VNS_NAMELEN, sr_IFACE_NAMELEN. lia. }
  exists n. split; [done|]. split; [done|]. unfold sr_send_packet.
  rewrite (if_false (len <? _)) by (apply Z.ltb_ge; lia).
  rewrite u32_small by (unfold is_u32, c_packet_header_size; lia).
  unfold malloc. rewrite (bind_run _ _ _ _ (malloc_ok e AllocVnsPacket) s) by done.
  rewrite Hm. unfold assert at 1. rewrite bind_mret.
  unfold VNS_NAMELEN, c_packet_header_size in *.
  rewrite Hn. repeat mem_step.
  rewrite memcpy_ok by (unfold eth_size in *; fits). repeat mem_step.
  erewrite bind_run by by apply sr_log_packet_run.
  rewrite (slice_all (Z.to_nat len) b) by lia.
  change (Z.of_nat 24) with 24.
  pose proof (vns_header_build len n b Hln ltac:(lia) ltac:(lia)) as Hv.
  unfold c_packet_header_size in Hv. rewrite Hv.
  assert (sr_wf (log_frame e b s)) as Hs1 by by rewrite <- log_frame_core.
  assert (printable (log_frame e b s) iface) as Hp1
    by (unfold printable; by rewrite (same_ifs _ _ (log_frame_core e b s))).
  erewrite bind_run by by apply sr_ether_addrs_match_interface_run.
  unfold send_result. rewrite (same_ifs _ _ (log_frame_core e b s)).
  destruct (iface_named _ _) as [i|]; [|done].
  destruct (bool_decide _); [|done]. cbn [negb].
  assert (Z.of_nat (length (vns_packet n b)) = len + 24) as Hlv
    by (rewrite length_vns_packet by done; lia).
  rewrite take_ge by lia. rewrite Hlv.
  rewrite (bind_run _ _ _ _ _ _ (sys_write_run _ e _)). rewrite Hlv.
  by destruct (_ <? len + 24).
Qed.

(** ** Sending, the returned status ignored

    Every caller ignores the status of [sr_send_packet]; [send] is what the
    call leaves. *)

Definition vns_name (iface : cstr) : buf := default [] (strncpy VNS_NAMELEN iface).

Definition send (e : env) (b : buf) (iface : cstr) (s : sr_instance) : sr_instance :=
  (send_result e (vns_name iface) b iface s).2.

Lemma length_vns_name iface : cstr_ok sr_IFACE_NAMELEN iface → length (vns_name iface) = VNS_NAMELEN.
Proof.
  intros Hi. unfold vns_name. destruct (strncpy_spec VNS_NAMELEN iface) as (n & -> & Hl & _); [|done].
  eapply cstr_ok_le; [|done]. unfold VNS_NAMELEN, sr_IFACE_NAMELEN. lia.
Qed.

Lemma sr_send_packet_bind {B} b len iface (k : R B) e s :
  sr_wf s → frame_ok b len → (eth_size <= length b)%nat →
  cstr_ok sr_IFACE_NAMELEN iface → printable s iface → mallocs_checked e →
  (sr_send_packet b len iface;; k) e s = k e (send e b iface s).
Proof.
  intros Hs Hb Hl Hi Hp Hm.
  destruct (sr_send_packet_run b len iface e s) as (n & Hn & _ & Hrun); try done.
  { apply Hm. unfold unchecked_allocs. by repeat constructor. }
  unfold send, vns_name. rewrite Hn. simpl. destruct (send_result e n b iface s) as [r s'].
  by rewrite (bind_run _ _ _ _ _ _ Hrun).
Qed.

Lemma send_core e b iface s : same_core s (send e b iface s).
Proof.
  unfold send, send_result. destruct (iface_named _ _); [|apply log_frame_core].
  destruct (bool_decide _); [|apply log_frame_core]. simpl.
  destruct (0 <? _); [|apply log_frame_core].
  transitivity (log_frame e b s); [apply log_frame_core|by split].
Qed.

(** Nothing is sent of an empty list of messages: the server sees at most one
    new message, a prefix of the frame's message. *)
Lemma send_sent e b iface s :
  sent (send e b iface s) = sent s ∨
  ∃ n, sent (send e b iface s) = sent s ++ [take n (vns_packet (vns_name iface) b)].
Proof.
  unfold send, send_result. destruct (iface_named _ _); simpl; [|left; apply log_frame_sent].
  destruct (bool_decide _); simpl; [|left; apply log_frame_sent].
  destruct (0 <? _); simpl; [|left; apply log_frame_sent].
  right. rewrite log_frame_sent. eauto.
Qed.

(** A frame with the interface's source address, to an interface that exists,
    over a connection that takes it. *)
Lemma send_emit e b iface s i :
  writes_ok e → cstr_ok sr_IFACE_NAMELEN iface →
  iface_named (if_list s) (cname sr_IFACE_NAMELEN iface) = Some i →
  getb 0 ether_shost b = if_addr i →
  send e b iface s = emit e (vns_name iface) b s.
Proof.
  intros Hw Hi Hn Hsh. unfold send, send_result. rewrite Hn, bool_decide_true by done.
  cbn [snd]. rewrite Hw. pose proof (length_vns_packet _ b (length_vns_name _ Hi)) as Hl.
  zcase; [|lia]. rewrite take_ge by lia. unfold emit. by rewrite log_frame_sent.
Qed.

Lemma send_wf e b iface s : sr_wf s → sr_wf (send e b iface s).
Proof. by rewrite <- send_core. Qed.

#[export] Hint Resolve send_core send_wf : sr.
