(* ===== verification/Conn.v ===== *)
(** * The process around the router: the connection, the files, the clock

    What the code that talks to the server works on: the router instance, the
    bytes the server has sent, the files.  A call of [recv] or [read] is
    answered as the environment decides: with some of the bytes, with an
    interruption by a signal, or with an error; the answers to come are part of
    the state, so every schedule of them is covered. *)

From stdpp Require Export gmap.
From S2P Require Export Send.

(** How a call of [recv] or [read] ends: with at most [k] bytes, with [EINTR],
    or with another error. *)
Inductive answer :=
  | Gives (k : nat)
  | Interrupted
  | Failed.

Record vns := mk_vns {
  router : sr_instance;
  incoming : buf;                (* sent by the server, not read yet *)
  answers : list answer;
  disk : gmap (list Z) buf;      (* the files by name *)
  closed : bool;                 (* [close (sr->sockfd)] was called *)
  turn : nat                     (* commands read so far *)
}.

Definition set_router (r : sr_instance) (s : vns) : vns :=
  mk_vns r (incoming s) (answers s) (disk s) (closed s) (turn s).
Definition set_input (i : buf) (l : list answer) (s : vns) : vns :=
  mk_vns (router s) i l (disk s) (closed s) (turn s).
Definition set_disk (d : gmap (list Z) buf) (s : vns) : vns :=
  mk_vns (router s) (incoming s) (answers s) d (closed s) (turn s).
Definition set_closed (s : vns) : vns :=
  mk_vns (router s) (incoming s) (answers s) (disk s) true (turn s).
Definition next_turn (s : vns) : vns :=
  mk_vns (router s) (incoming s) (answers s) (disk s) (closed s) (S (turn s)).

(** What the operating system answers during the session; [base] is the
    environment of the router's handlers, which may change from one command of
    the server to the next. *)
Record venv := mk_venv {
  base : nat → env;
  fopen_ok : list Z → bool;      (* the file can be opened *)
  host_found : bool;             (* gethostbyname *)
  socket_ok : bool;
  connect_ok : bool;
  passwd_name : option (list Z)  (* getpwuid: the user's login name *)
}.

Abbreviation V := (M venv vns).

(** A call of the router's code. *)
Definition on_sr {A} (m : R A) : V A := λ e s,
  match m (base e (turn s)) (router s) with
  | Ok (a, r) => Ok (a, set_router r s)
  | Fault f => Fault f
  end.

Definition close_socket : V unit := modify set_closed.

(** ** Reading from the socket *)

Inductive received :=
  | Data (bs : buf)
  | Eintr
  | Error.

Definition sys_recv (n : nat) : V received := λ e s,
  match answers s with
  | [] => Fault Blocked
  | Gives k :: l =>
      let m := (k `min` n)%nat in
      Ok (Data (take m (incoming s)), set_input (drop m (incoming s)) l s)
  | Interrupted :: l => Ok (Eintr, set_input (incoming s) l s)
  | Failed :: l => Ok (Error, set_input (incoming s) l s)
  end.

(** The two nested loops around [recv] and [read]: [want] bytes are read into
    [b] from [off] on; [None] when a call failed.  An interrupted call is
    repeated by the inner loop, a short one by the outer. *)
Fixpoint recv_loop (fuel off want bytes_read : nat) (b : buf) : V (option buf) :=
  if (bytes_read <? want)%nat then
    match fuel with
    | O => throw OutOfFuel
    | S fuel' =>
        r ← sys_recv (want - bytes_read);
        match r with
        | Eintr => recv_loop fuel' off want bytes_read b
        | Error => mret None
        | Data bs =>
            b ← lift OutOfBounds (store_bytes (off + bytes_read) bs b);
            recv_loop fuel' off want (bytes_read + length bs) b
        end
    end
  else mret (Some b).

(** Every turn of the loop takes one of the answers. *)
Definition recv_fuel : V nat := gets (λ s, S (length (answers s))).

(** ** Strings and files *)

(** [fgets (line, n + 1, fp)]: the line read and the rest of the file. *)
Fixpoint fgets (n : nat) (f : buf) : buf * buf :=
  match n, f with
  | S n', c :: f' =>
      if c =? 10 then ([c], f')
      else let '(l, rest) := fgets n' f' in (c :: l, rest)
  | _, _ => ([], f)
  end.

(** [fopen (fn, "r")] and [fopen (fn, "w")] *)
Definition fopen_read (fn : list Z) : V (option buf) :=
  e ← ask;
  d ← gets disk;
  mret (if fopen_ok e fn then d !! fn else None).

Definition write_file (fn : list Z) (contents : buf) : V bool :=
  e ← ask;
  if fopen_ok e fn then modify (λ s, set_disk (<[fn := contents]> (disk s)) s);; mret true
  else mret false.

(** ** What a schedule of answers supplies *)

(** The calls that bring at least one byte when there is one. *)
Definition gives (a : answer) : bool := match a with Gives (S _) => true | _ => false end.

Fixpoint supply (l : list answer) : nat :=
  match l with
  | [] => 0
  | a :: l' => (if gives a then 1 else 0) + supply l'
  end.

Definition no_failure (l : list answer) : Prop := Failed ∉ l.

Lemma on_sr_run {A} (m : R A) (a : A) r e s :
  m (base e (turn s)) (router s) = Ok (a, r) → on_sr m e s = Ok (a, set_router r s).
Proof. intros H. unfold on_sr. by rewrite H. Qed.

(** The loop gathers what it wants however the bytes come in pieces; while they
    do not come, it never returns. *)
Lemma recv_loop_total fuel off want got b e s :
  (length (answers s) < fuel)%nat → no_failure (answers s) →
  (got <= want)%nat → (off + want <= length b)%nat →
  (recv_loop fuel off want got b e s = Fault Blocked ∧
   ((supply (answers s) < want - got)%nat ∨ (length (incoming s) < want - got)%nat)) ∨
  (∃ l, recv_loop fuel off want got b e s =
      Ok (Some (put (off + got) (take (want - got) (incoming s)) b),
          set_input (drop (want - got) (incoming s)) l s) ∧
    no_failure l ∧ (supply (answers s) <= supply l + (want - got))%nat ∧
    (want - got <= length (incoming s))%nat).
Proof.
  revert got b s. induction fuel as [|fuel IH]; intros got b s Hf Hno Hgw Hb; [lia|].
  cbn [recv_loop]. destruct (Nat.ltb_spec got want) as [Hlt|Hge].
  2:{ right. exists (answers s). replace (want - got)%nat with 0%nat by lia.
      rewrite take_0, drop_0. unfold mret, M_ret. split; [|split; [done|lia]].
      rewrite put_fits by (cbn; lia). cbn. rewrite Nat.add_0_r, take_drop. by destruct s. }
  unfold mbind, M_bind, sys_recv. destruct (answers s) as [|a l] eqn:Ha.
  { left. split; [done|]. cbn. lia. }
  cbn [length] in Hf. unfold no_failure in Hno. rewrite not_elem_of_cons in Hno.
  destruct Hno as [Hna Hnl]. destruct a as [k| |]; [| |done].
  - remember (k `min` (want - got))%nat as m eqn:Hmk. remember (take m (incoming s)) as d eqn:Hd.
    assert (length d = m `min` length (incoming s))%nat as Hm by (rewrite Hd; by rewrite length_take).
    rewrite store_bytes_ok by lia. cbn [lift mret M_ret].
    destruct (IH (got + length d)%nat (put (off + got) d b)
      (set_input (drop m (incoming s)) l s)) as [[Hbl Hwhy]|(l' & Hl' & Hn' & Hs' & Hi')];
      cbn [answers incoming set_input] in *; rewrite ?length_drop, ?length_put in *; try lia; try done.
    + left. split; [done|]. cbn [supply]. destruct k; cbn [gives]; lia.
    + right. exists l'. unfold mret, M_ret. rewrite Hl'. cbn [supply].
      split; [|split; [done|split; [destruct k; cbn [gives]; lia|lia]]].
      assert (length d = m) as Hdm by lia. f_equal. f_equal.
      * f_equal. rewrite Nat.add_assoc, put_put_next.
        -- f_equal. rewrite Hdm, Hd. rewrite <- (take_drop m (take (want - got) (incoming s))), take_take.
           rewrite skipn_firstn_comm. f_equal; f_equal; lia.
        -- rewrite length_take, length_drop. lia.
      * unfold set_input. cbn. f_equal. rewrite drop_drop. f_equal. lia.
  - destruct (IH got b (set_input (incoming s) l s)) as [Hbl|Hok];
      cbn [answers incoming set_input supply gives] in *; try lia; try done.
    + by left.
    + by right.
Qed.

Lemma recv_loop_run fuel off want got b e s :
  (length (answers s) < fuel)%nat → no_failure (answers s) →
  (got <= want)%nat →
  (want - got <= supply (answers s))%nat → (want - got <= length (incoming s))%nat →
  (off + want <= length b)%nat →
  ∃ l, recv_loop fuel off want got b e s =
      Ok (Some (put (off + got) (take (want - got) (incoming s)) b),
          set_input (drop (want - got) (incoming s)) l s) ∧
    no_failure l ∧ (supply (answers s) <= supply l + (want - got))%nat.
Proof.
  intros Hf Hno Hgw Hsup Hin Hb.
  destruct (recv_loop_total fuel off want got b e s Hf Hno Hgw Hb)
    as [[_ [?|?]]|(l & H1 & H2 & H3 & _)]; [lia|lia|eauto].
Qed.

(** ** Calls that end

    A call that reads nothing from the socket and whose loops have enough fuel
    either returns or stops with a defect of its own. *)
Definition ends {A} (m : V A) : Prop :=
  ∀ e s, match m e s with Fault OutOfFuel | Fault Blocked => False | _ => True end.

Lemma ends_spec {A} (m : V A) e s :
  ends m → m e s ≠ Fault OutOfFuel ∧ m e s ≠ Fault Blocked.
Proof. intros H. specialize (H e s). split; intros Heq; by rewrite Heq in H. Qed.

Lemma ends_bind {A B} (m : V A) (k : A → V B) :
  ends m → (∀ a, ends (k a)) → ends (m ≫= k).
Proof.
  intros Hm Hk e s. specialize (Hm e s). unfold mbind, M_bind.
  destruct (m e s) as [[a s']|f]; [apply Hk|done].
Qed.

Lemma ends_mret {A} (a : A) : ends (mret a).
Proof. by intros e s. Qed.

Lemma ends_lift {A} u (o : option A) : ends (lift u o).
Proof. intros e s. by destruct o. Qed.

Lemma ends_fopen_read fn : ends (fopen_read fn).
Proof. by intros e s. Qed.

Lemma ends_modify (f : sr_instance → sr_instance) : ends (on_sr (modify f)).
Proof. by intros e s. Qed.

#[export] Hint Resolve ends_bind ends_mret ends_lift ends_fopen_read ends_modify : sr.

(** What [fgets] takes is gone from the file. *)
Lemma fgets_split n f l r : fgets n f = (l, r) → f = l ++ r.
Proof.
  revert f l r. induction n as [|n IH]; intros [|c f] l r H; simpl in H; simplify_eq; try done.
  destruct (c =? 10); [by simplify_eq|].
  destruct (fgets n f) as [l' r'] eqn:E. simplify_eq. simpl. f_equal. by apply IH.
Qed.
