(* ===== verification/Rt.v ===== *)
(** * The routing table ([sr_rt.c]) and its lookup

    [sr_add_rt_entry] appends a route; [sr_find_lpm_route] ([sr_router.c])
    walks the table for the matching route with the numerically largest mask.
    The lemmas show that with contiguous masks this is the longest matching
    prefix of the destination, the first one in the table among equals. *)

From S2P Require Export Instance.

(** ** Operations *)

Definition sr_add_rt_entry (dest gw mask : Z) (if_name : cstr) : R unit :=
  ok ← malloc AllocRoute;
  assert ok;;
  n ← lift OutOfBounds (strncpy sr_IFACE_NAMELEN if_name);
  modify (λ s, set_routing_table
    (routing_table s ++ [mk_rt dest gw mask n]) s).

Lemma sr_add_rt_entry_run dest gw mask name n e s :
  malloc_ok e AllocRoute = true → strncpy sr_IFACE_NAMELEN name = Some n →
  sr_add_rt_entry dest gw mask name e s =
    Ok (tt, set_routing_table (routing_table s ++ [mk_rt dest gw mask n]) s).
Proof.
  intros Hm Hn. unfold sr_add_rt_entry, malloc, ask, mbind, M_bind. simpl.
  rewrite Hm. simpl. by rewrite Hn.
Qed.

(** The loop of [sr_find_lpm_route]; a route matches when the address and the
    route's destination agree on the bits of its mask. *)
Definition rt_matches (ip : Z) (rt : sr_rt) : bool :=
  Z.land ip (rt_mask rt) =? Z.land (rt_dest rt) (rt_mask rt).

Fixpoint lpm_loop (rt : list sr_rt) (ip : Z) (best : option sr_rt) (best_mask : Z)
    : option sr_rt :=
  match rt with
  | [] => best
  | r :: rt' =>
      let mask := ntohl (rt_mask r) in
      if rt_matches ip r && (negb (bool_decide (is_Some best)) || (best_mask <? mask))
      then lpm_loop rt' ip (Some r) mask
      else lpm_loop rt' ip best best_mask
  end.

Definition lpm (table : list sr_rt) (ip : Z) : option sr_rt := lpm_loop table ip None 0.

Definition sr_find_lpm_route (ip : Z) : R (option sr_rt) :=
  table ← gets routing_table;
  mret (lpm table ip).

(** ** What the loop finds *)

Section lpm_loop.
Context (ip : Z).

(** The best match of the routes before and the route itself. *)
Definition mask_of (r : sr_rt) : Z := ntohl (rt_mask r).

Lemma lpm_loop_step r rt b :
  lpm_loop (r :: rt) ip (Some b) (mask_of b) =
    if rt_matches ip r && (mask_of b <? mask_of r)
    then lpm_loop rt ip (Some r) (mask_of r)
    else lpm_loop rt ip (Some b) (mask_of b).
Proof. done. Qed.

Lemma lpm_loop_start r rt m :
  lpm_loop (r :: rt) ip None m =
    if rt_matches ip r then lpm_loop rt ip (Some r) (mask_of r)
    else lpm_loop rt ip None m.
Proof.
  simpl. by rewrite andb_true_r.
Qed.

(** From a candidate [b]: the result is [b], or a later route with a larger
    mask that no earlier match reaches; no match has a larger mask. *)
Lemma lpm_loop_some rt b :
  ∃ r, lpm_loop rt ip (Some b) (mask_of b) = Some r ∧
    mask_of b ≤ mask_of r ∧
    (∀ r', r' ∈ rt → rt_matches ip r' = true → mask_of r' ≤ mask_of r) ∧
    (r = b ∨ ∃ pre post, rt = pre ++ r :: post ∧ rt_matches ip r = true ∧
       mask_of b < mask_of r ∧
       ∀ r', r' ∈ pre → rt_matches ip r' = true → mask_of r' < mask_of r).
Proof.
  revert b. induction rt as [|r0 rt IH]; intros b.
  { exists b. split; [done|]. split; [done|]. split; [|by left].
    intros r' H. by apply elem_of_nil in H. }
  rewrite lpm_loop_step. destruct (rt_matches ip r0) eqn:Hm; simpl.
  2:{ destruct (IH b) as (r & He & Hle & Hmax & Hr). exists r.
      split; [done|]. split; [done|]. split.
      - intros r' [->|Hin]%elem_of_cons Hm'; [congruence|eauto].
      - destruct Hr as [->|(pre & post & -> & Hmr & Hlt & Hpre)]; [by left|right].
        exists (r0 :: pre), post. split; [done|]. split; [done|]. split; [done|].
        intros r' [->|Hin]%elem_of_cons Hm'; [congruence|eauto]. }
  destruct (Z.ltb_spec (mask_of b) (mask_of r0)) as [Hlt|Hge].
  - destruct (IH r0) as (r & He & Hle & Hmax & Hr). exists r.
    split; [done|]. split; [lia|]. split.
    + intros r' [->|Hin]%elem_of_cons Hm'; [done|eauto].
    + right. destruct Hr as [->|(pre & post & -> & Hmr & Hlt' & Hpre)].
      * exists [], rt. split; [done|]. split; [done|]. split; [done|].
        intros r' H. by apply elem_of_nil in H.
      * exists (r0 :: pre), post. split; [done|]. split; [done|]. split; [lia|].
        intros r' [->|Hin]%elem_of_cons Hm'; [done|eauto].
  - destruct (IH b) as (r & He & Hle & Hmax & Hr). exists r.
    split; [done|]. split; [done|]. split.
    + intros r' [->|Hin]%elem_of_cons Hm'; [lia|eauto].
    + destruct Hr as [->|(pre & post & -> & Hmr & Hlt' & Hpre)]; [by left|right].
      exists (r0 :: pre), post. split; [done|]. split; [done|]. split; [done|].
      intros r' [->|Hin]%elem_of_cons Hm'; [lia|eauto].
Qed.
End lpm_loop.

(** The route [r] is the choice for [ip]: it matches, no matching route has a
    larger mask, and no earlier one an equal mask. *)
Definition best_route (table : list sr_rt) (ip : Z) (r : sr_rt) : Prop :=
  ∃ pre post, table = pre ++ r :: post ∧ rt_matches ip r = true ∧
    (∀ r', r' ∈ table → rt_matches ip r' = true → mask_of r' ≤ mask_of r) ∧
    (∀ r', r' ∈ pre → rt_matches ip r' = true → mask_of r' < mask_of r).

Lemma lpm_some table ip r : lpm table ip = Some r → best_route table ip r.
Proof.
  unfold lpm. generalize 0. induction table as [|r0 rt IH]; intros m H; [done|].
  rewrite lpm_loop_start in H. destruct (rt_matches ip r0) eqn:Hm0.
  - destruct (lpm_loop_some ip rt r0) as (r' & He & Hle & Hmax & Hr).
    rewrite He in H. injection H as ->.
    destruct Hr as [->|(pre & post & -> & Hmr & Hlt & Hpre)].
    + exists [], rt. split; [done|]. split; [done|]. split.
      * intros r' [->|Hin]%elem_of_cons Hm'; [done|eauto].
      * intros r' Hin. by apply elem_of_nil in Hin.
    + exists (r0 :: pre), post. split; [done|]. split; [done|]. split.
      * intros r' [->|Hin]%elem_of_cons Hm'; [lia|eauto].
      * intros r' [->|Hin]%elem_of_cons Hm'; [done|eauto].
  - destruct (IH _ H) as (pre & post & -> & Hm & Hmax & Hpre).
    exists (r0 :: pre), post. split; [done|]. split; [done|]. split.
    + intros r' [->|Hin]%elem_of_cons Hm'; [congruence|eauto].
    + intros r' [->|Hin]%elem_of_cons Hm'; [congruence|eauto].
Qed.

Lemma lpm_none table ip :
  lpm table ip = None ↔ Forall (λ r, rt_matches ip r = false) table.
Proof.
  unfold lpm. generalize 0. induction table as [|r0 rt IH]; intros m; [done|].
  rewrite lpm_loop_start, list.Forall_cons. destruct (rt_matches ip r0) eqn:Hm.
  - destruct (lpm_loop_some ip rt r0) as (r & -> & _). split; [done|by intros [? _]].
  - rewrite IH. split; [done|by intros [_ ?]].
Qed.

Lemma lpm_elem table ip r : lpm table ip = Some r → r ∈ table.
Proof.
  intros (pre & post & -> & _)%lpm_some. apply elem_of_app. right. by left.
Qed.

Lemma lpm_wf table ip r : Forall rt_wf table → lpm table ip = Some r → rt_wf r.
Proof. rewrite list.Forall_forall. intros Ht H%lpm_elem. by apply Ht. Qed.

(** ** Masks as prefix lengths *)

(** The bits of a byte-swapped 32-bit number: byte [3 - i/8] of [z]. *)
Lemma testbit_ntohl z i :
  0 ≤ i < 32 → Z.testbit (ntohl z) i = Z.testbit z (24 - 8 * (i / 8) + i mod 8).
Proof.
  intros Hi. unfold ntohl. change 0xff with (Z.ones 8).
  rewrite !Z.lor_spec, !Z.shiftl_spec by lia.
  rewrite !Z.land_spec, !Z.testbit_ones by lia.
  pose proof (Z.mod_pos_bound i 8 ltac:(lia)) as Hr.
  pose proof (Z_div_mod_eq_full i 8) as Hq.
  assert (i / 8 = 0 ∨ i / 8 = 1 ∨ i / 8 = 2 ∨ i / 8 = 3) as Hc by lia.
  set (r := i mod 8) in *. set (q := i / 8) in *.
  destruct Hc as [Hc|[Hc|[Hc|Hc]]]; rewrite Hc in *; rewrite Hq;
    repeat (match goal with
      | |- context [?a <=? ?b] => destruct (Z.leb_spec a b); try lia
      | |- context [?a <? ?b] => destruct (Z.ltb_spec a b); try lia
      end);
    simpl; rewrite ?andb_true_r, ?andb_false_r, ?orb_false_r, ?orb_false_l;
    rewrite ?Z.shiftr_spec by lia; f_equal; lia.
Qed.

Lemma ntohl_bound z : is_u32 (ntohl z).
Proof.
  assert (ntohl z = Z.land (ntohl z) (Z.ones 32)) as ->.
  { apply Z.bits_inj'. intros i Hi. rewrite (Z.land_spec (ntohl z)), Z.testbit_ones by lia.
    destruct (Z.ltb_spec i 32), (Z.leb_spec 0 i); try lia; simpl; [by rewrite andb_true_r|].
    rewrite andb_false_r. unfold ntohl. change 0xff with (Z.ones 8).
    rewrite !Z.lor_spec, !Z.shiftl_spec, !Z.land_spec, !Z.testbit_ones by lia.
    repeat match goal with
      | |- context [?a <? 8] => destruct (Z.ltb_spec a 8); try lia
      end. }
  rewrite Z.land_ones by lia. apply u32_bound.
Qed.

(** Two 32-bit numbers are equal when their 32 bits are. *)
Lemma u32_ext x y :
  is_u32 x → is_u32 y → (∀ i, 0 ≤ i < 32 → Z.testbit x i = Z.testbit y i) → x = y.
Proof.
  intros Hx Hy H. apply Z.bits_inj'. intros i Hi.
  destruct (Z.ltb_spec i 32); [apply H; lia|]. by rewrite !testbit_u32.
Qed.

Lemma ntohl_involutive z : is_u32 z → ntohl (ntohl z) = z.
Proof.
  intros Hz. apply u32_ext; [apply ntohl_bound|done|]. intros i Hi.
  pose proof (Z.mod_pos_bound i 8 ltac:(lia)). pose proof (Z_div_mod_eq_full i 8) as Hq.
  rewrite testbit_ntohl by done. set (q := i / 8) in *. set (r := i mod 8) in *.
  rewrite testbit_ntohl by lia.
  replace (24 - 8 * q + r) with (r + (3 - q) * 8) by lia.
  rewrite Z.div_add, Z.mod_add, Z.div_small, Z.mod_small by lia. f_equal. lia.
Qed.

Lemma ntohl_inj x y : is_u32 x → is_u32 y → ntohl x = ntohl y → x = y.
Proof. intros Hx Hy H. by rewrite <- (ntohl_involutive x), <- (ntohl_involutive y), H. Qed.

Lemma land_u32 a b : is_u32 a → is_u32 (Z.land a b).
Proof.
  intros Ha. assert (Z.land a b = Z.land (Z.land a b) (Z.ones 32)) as ->.
  { apply Z.bits_inj'. intros i Hi. rewrite !Z.land_spec, Z.testbit_ones by lia.
    destruct (Z.ltb_spec i 32), (Z.leb_spec 0 i); try lia; simpl.
    - by rewrite andb_true_r.
    - by rewrite testbit_u32. }
  rewrite Z.land_ones by lia. apply u32_bound.
Qed.

Lemma ntohl_land a b :
  is_u32 a → is_u32 b → ntohl (Z.land a b) = Z.land (ntohl a) (ntohl b).
Proof.
  intros Ha Hb. apply u32_ext; [apply ntohl_bound|apply land_u32, ntohl_bound|].
  intros i Hi. by rewrite testbit_ntohl, !Z.land_spec, !testbit_ntohl by done.
Qed.

(** The netmask of a prefix of [p] bits, in host order. *)
Definition prefix_mask (p : Z) : Z := 2 ^ 32 - 2 ^ (32 - p).

(** [r] is a route to a prefix of [p] bits. *)
Definition prefix_route (p : Z) (r : sr_rt) : Prop :=
  0 ≤ p ≤ 32 ∧ mask_of r = prefix_mask p.

(** [ip] and the destination of the route agree on their first [p] bits. *)
Definition in_prefix (p : Z) (r : sr_rt) (ip : Z) : Prop :=
  ntohl ip / 2 ^ (32 - p) = ntohl (rt_dest r) / 2 ^ (32 - p).

Lemma prefix_mask_shift p : 0 ≤ p ≤ 32 → prefix_mask p = Z.shiftl (Z.ones p) (32 - p).
Proof.
  intros Hp. unfold prefix_mask. rewrite Z.shiftl_mul_pow2, Z.ones_equiv by lia.
  replace 32 with (p + (32 - p)) at 1 by lia. rewrite Z.pow_add_r by lia. lia.
Qed.

Lemma land_prefix_mask a p :
  0 ≤ p ≤ 32 → is_u32 a → Z.land a (prefix_mask p) = Z.shiftl (a / 2 ^ (32 - p)) (32 - p).
Proof.
  intros Hp Ha. rewrite prefix_mask_shift, <- Z.shiftr_div_pow2 by lia.
  apply Z.bits_inj'. intros i Hi. rewrite Z.land_spec, !Z.shiftl_spec by lia.
  rewrite Z.testbit_ones by lia.
  destruct (Z.leb_spec 0 (i - (32 - p))); simpl.
  - rewrite Z.shiftr_spec by lia. replace (i - (32 - p) + (32 - p)) with i by lia.
    destruct (Z.ltb_spec (i - (32 - p)) p); [apply andb_true_r|].
    rewrite testbit_u32 by (done || lia). done.
  - rewrite andb_false_r. symmetry. apply Z.testbit_neg_r. lia.
Qed.

Lemma shiftl_inj a b n : 0 ≤ n → Z.shiftl a n = Z.shiftl b n → a = b.
Proof.
  intros Hn. rewrite !Z.shiftl_mul_pow2 by done.
  pose proof (Z.pow_pos_nonneg 2 n ltac:(lia) Hn). nia.
Qed.

(** The test on raw words is the test on the first bits of the addresses. *)
Lemma rt_matches_prefix p r ip :
  rt_wf r → is_u32 ip → prefix_route p r →
  rt_matches ip r = true ↔ in_prefix p r ip.
Proof.
  intros [Hd _ Hm _] Hip [Hp Hmask]. unfold rt_matches, in_prefix.
  rewrite Z.eqb_eq.
  assert (Z.land ip (rt_mask r) = Z.land (rt_dest r) (rt_mask r) ↔
    Z.land (ntohl ip) (prefix_mask p) = Z.land (ntohl (rt_dest r)) (prefix_mask p)) as ->.
  { rewrite <- Hmask. unfold mask_of. rewrite <- !ntohl_land by done. split.
    - by intros ->.
    - intros H. by apply ntohl_inj; auto using land_u32. }
  rewrite !land_prefix_mask by auto using ntohl_bound. split.
  - intros H. eapply shiftl_inj; [|done]. lia.
  - by intros ->.
Qed.

Lemma prefix_mask_mono p q :
  0 ≤ p ≤ 32 → 0 ≤ q ≤ 32 → prefix_mask p ≤ prefix_mask q ↔ p ≤ q.
Proof.
  intros Hp Hq. unfold prefix_mask. split; intros H.
  - assert (32 - q ≤ 32 - p); [|lia].
    apply (Z.pow_le_mono_r_iff 2); lia.
  - assert (2 ^ (32 - q) ≤ 2 ^ (32 - p)); [|lia]. apply Z.pow_le_mono_r; lia.
Qed.
