(* ===== verification/Print.v ===== *)
(** * Printing ([sr_utils.c], [sr_if.c], [sr_rt.c], [sr_arpcache.c])

    A function that prints is modelled by the text it prints.  Printing changes
    no state, but it reads: the members of a header, and the characters of a name
    up to its NUL.  The texts of addresses that the C library makes ([inet_ntoa],
    [inet_ntop], [ctime]) are the environment's or parameters. *)

From Stdlib Require Import String Ascii.
From S2P Require Export Utils Instance.

#[local] Open Scope list_scope.
#[local] Open Scope Z_scope.

(** ** Texts *)

Fixpoint chars (s : string) : list Z :=
  match s with
  | EmptyString => []
  | String c s' => Z.of_nat (nat_of_ascii c) :: chars s'
  end.

#[global] Arguments chars !s%_string.

Definition nl : list Z := [10].
Definition tab : list Z := [9].

(** Digits in base [b], the least significant first. *)
Fixpoint digits (fuel : nat) (b n : Z) : list Z :=
  match fuel with
  | O => []
  | S fuel' => n mod b :: (if n <? b then [] else digits fuel' b (n / b))
  end.

Definition digit_char (upper : bool) (d : Z) : Z :=
  if d <? 10 then 48 + d else (if upper then 55 else 87) + d.

(** [%d] of an [int] (ten digits are enough for 32 bits), and [%x] with a
    precision or a field width filled with zeros. *)
Definition text_d (n : Z) : list Z :=
  (if n <? 0 then [45] else []) ++ (digit_char false <$> reverse (digits 10 10 (Z.abs n))).

Definition text_x (upper : bool) (width : nat) (n : Z) : list Z :=
  let ds := digits 8 16 n in
  replicate (width - length ds) 48 ++ (digit_char upper <$> reverse ds).

(** A line: a label and a number. *)
Definition field_line (label : string) (n : Z) : list Z :=
  tab ++ chars label ++ text_d n ++ nl.
#[global] Arguments field_line label%_string n.

(** ** Addresses *)

(** [for (; pos < ETHER_ADDR_LEN; pos++) { if (pos > 0) ":"; "%02X" }] *)
Fixpoint colons (texts : list (list Z)) : list Z :=
  match texts with
  | [] => []
  | [t] => t
  | t :: texts' => (t ++ [58] ++ colons texts')
  end.

Section print.
Context {E S : Type}.

Definition print_addr_eth (addr : buf) : M E S (list Z) :=
  a ← lift OutOfBounds (load_bytes ETHER_ADDR_LEN 0 addr);
  mret (colons (text_x true 2 <$> a) ++ nl).

(** [inet_ntop] writes the text and its NUL into the 16 bytes of [buf]; the size
    it is told is 100. *)
Definition INET_ADDRSTRLEN : nat := 16.

Definition print_addr_ip (inet_ntop : Z → option (list Z)) (address : Z) : M E S (list Z) :=
  match inet_ntop address with
  | None => mret (chars "inet_ntop error on address conversion" ++ nl)
  | Some t =>
      if (INET_ADDRSTRLEN <? length t + 1)%nat then throw (Undefined OutOfBounds)
      else mret (t ++ nl)
  end.

Definition print_addr_ip_int (ip : Z) : list Z :=
  match print_addr_ip_int_octets ip with
  | [a; b; c; d] =>
      (text_d a ++ [46] ++ text_d b ++ [46] ++ text_d c ++ [46] ++ text_d d ++ nl)
  | _ => []
  end.

(** ** Headers; [off] is where the header starts in the object *)

Definition print_hdr_eth (b : buf) (off : nat) : M E S (list Z) :=
  dhost ← rdb off ether_dhost b;
  d ← print_addr_eth dhost;
  shost ← rdb off ether_shost b;
  s ← print_addr_eth shost;
  t ← rd off ether_type b;
  mret (chars "ETHERNET header:" ++ nl ++ tab ++ chars "destination: " ++ d ++
        tab ++ chars "source: " ++ s ++ field_line "type: " (ntohs t)).

Definition IP_RF : Z := 0x8000.
Definition IP_DF : Z := 0x4000.
Definition IP_MF : Z := 0x2000.
Definition IP_OFFMASK : Z := 0x1fff.

Definition fragment_flag (off : Z) : list Z :=
  if negb (Z.land off IP_DF =? 0) then (tab ++ chars "fragment flag: DF" ++ nl)
  else if negb (Z.land off IP_MF =? 0) then (tab ++ chars "fragment flag: MF" ++ nl)
  else if negb (Z.land off IP_RF =? 0) then (tab ++ chars "fragment flag: R" ++ nl)
  else [].

Definition print_hdr_ip (b : buf) (off : nat) : M E S (list Z) :=
  v ← rd_ip_v off b;
  hl ← rd_ip_hl off b;
  tos ← rd off ip_tos b;
  len ← rd off ip_len b;
  id ← rd off ip_id b;
  o ← rd off ip_off b;
  ttl ← rd off ip_ttl b;
  p ← rd off ip_p b;
  sum ← rd off ip_sum b;
  src ← rd off ip_src b;
  dst ← rd off ip_dst b;
  mret (chars "IP header:" ++ nl ++ field_line "version: " v ++ field_line "header length: " hl ++
        field_line "type of service: " tos ++ field_line "length: " (ntohs len) ++
        field_line "id: " (ntohs id) ++ fragment_flag (ntohs o) ++
        field_line "fragment offset: " (Z.land (ntohs o) IP_OFFMASK) ++ field_line "TTL: " ttl ++
        field_line "protocol: " p ++ field_line "checksum: " sum ++
        tab ++ chars "source: " ++ print_addr_ip_int (ntohl src) ++
        tab ++ chars "destination: " ++ print_addr_ip_int (ntohl dst)).

Definition print_hdr_icmp (b : buf) (off : nat) : M E S (list Z) :=
  type ← rd off icmp_type b;
  if (type =? 0) || (type =? 8) then
    code ← rd off icmp_code b;
    sum ← rd off icmp_sum b;
    id ← rd off icmp_id b;
    seq ← rd off icmp_seq b;
    mret (chars "ICMP Echo header:" ++ nl ++ field_line "type: " type ++ field_line "code: " code ++
          field_line "checksum: " sum ++ field_line "identifier: " id ++
          field_line "sequence number: " seq)
  else
    code ← rd off icmp_code b;
    sum ← rd off icmp_sum b;
    mret (chars "ICMP header:" ++ nl ++ field_line "type: " type ++ field_line "code: " code ++
          field_line "checksum: " sum).

Definition print_hdr_arp (b : buf) (off : nat) : M E S (list Z) :=
  hrd ← rd off ar_hrd b;
  pro ← rd off ar_pro b;
  hln ← rd off ar_hln b;
  pln ← rd off ar_pln b;
  op ← rd off ar_op b;
  sha ← rdb off ar_sha b;
  s ← print_addr_eth sha;
  sip ← rd off ar_sip b;
  tha ← rdb off ar_tha b;
  t ← print_addr_eth tha;
  tip ← rd off ar_tip b;
  mret (chars "ARP header" ++ nl ++ field_line "hardware type: " (ntohs hrd) ++
        field_line "protocol type: " (ntohs pro) ++
        field_line "hardware address length: " hln ++
        field_line "protocol address length: " pln ++ field_line "opcode: " (ntohs op) ++
        tab ++ chars "sender hardware address: " ++ s ++
        tab ++ chars "sender ip address: " ++ print_addr_ip_int (ntohl sip) ++
        tab ++ chars "target hardware address: " ++ t ++
        tab ++ chars "target ip address: " ++ print_addr_ip_int (ntohl tip)).

(** The length the ICMP branch asks for is that of the first three members
    only. *)
Definition print_hdrs (b : buf) (length : Z) : M E S (list Z) :=
  let minlength := Z.of_nat eth_size in
  if length <? minlength then
    mret (chars "Failed to print ETHERNET header, insufficient length" ++ nl)
  else
    ethtype ← ethertype b;
    eth ← print_hdr_eth b 0;
    if ethtype =? ethertype_ip then
      let minlength := minlength + Z.of_nat ip_size in
      if length <? minlength then
        mret (eth ++ chars "Failed to print IP header, insufficient length" ++ nl)
      else
        ip ← print_hdr_ip b eth_size;
        ip_proto ← ip_protocol (drop eth_size b);
        if ip_proto =? ip_protocol_icmp then
          let minlength := minlength + 4 in
          if length <? minlength then
            mret (eth ++ ip ++ chars "Failed to print ICMP header, insufficient length" ++ nl)
          else
            icmp ← print_hdr_icmp b (eth_size + ip_size);
            mret (eth ++ ip ++ icmp)
        else mret (eth ++ ip)
    else if ethtype =? ethertype_arp then
      let minlength := minlength + Z.of_nat arp_size in
      if length <? minlength then
        mret (eth ++ chars "Failed to print ARP header, insufficient length" ++ nl)
      else
        arp ← print_hdr_arp b eth_size;
        mret (eth ++ arp)
    else mret (eth ++ chars "Unrecognized Ethernet Type: " ++ text_d ethtype ++ nl).
End print.

(** ** The tables *)

(** [DebugMAC] *)
Definition DebugMAC (x : buf) : list Z := colons (text_x false 2 <$> take ETHER_ADDR_LEN x).

(** A loop over a list that prints every element. *)
Fixpoint print_all {A} (print : A → R (list Z)) (l : list A) : R (list Z) :=
  match l with
  | [] => mret []
  | x :: l' => t ← print x; ts ← print_all print l'; mret (t ++ ts)
  end.

Definition sr_print_if (iface : sr_if) : R (list Z) :=
  e ← ask;
  name ← lift OutOfBounds (c_str (if_name iface));
  mret (name ++ tab ++ chars "HWaddr" ++ DebugMAC (if_addr iface) ++ nl ++
        tab ++ chars "inet addr " ++ inet_ntoa e (if_ip iface) ++ nl).

Definition sr_print_if_list : R (list Z) :=
  l ← gets if_list;
  match l with
  | [] => mret (chars " Interface list empty " ++ nl)
  | _ => print_all sr_print_if l
  end.

Definition sr_print_routing_entry (entry : sr_rt) : R (list Z) :=
  e ← ask;
  name ← lift OutOfBounds (c_str (rt_interface entry));
  mret (inet_ntoa e (rt_dest entry) ++ tab ++ tab ++ inet_ntoa e (rt_gw entry) ++ tab ++
        inet_ntoa e (rt_mask entry) ++ tab ++ name ++ nl).

Definition table_header : list Z :=
  (chars "Destination" ++ tab ++ chars "Gateway" ++ tab ++ tab ++ chars "Mask" ++ tab ++
   chars "Iface" ++ nl).

Definition sr_print_routing_table : R (list Z) :=
  table ← gets routing_table;
  match table with
  | [] => mret (chars " *warning* Routing table empty " ++ nl)
  | _ =>
      texts ← print_all sr_print_routing_entry table;
      mret (table_header ++ texts)
  end.

(** The line of an entry; [ctime] makes the text of a time. *)
Definition dump_entry (ctime : Z → list Z) (cur : sr_arpentry) : list Z :=
  (concat (text_x false 1 <$> take ETHER_ADDR_LEN (ent_mac cur)) ++ chars "   " ++
   text_x false 8 (ntohl (ent_ip cur)) ++ chars "   " ++ take 24 (ctime (ent_added cur)) ++
   chars "   " ++ text_d (if ent_valid cur then 1 else 0) ++ nl).

Definition sr_arpcache_dump (ctime : Z → list Z) (cache : sr_arpcache) : list Z :=
  (nl ++ chars "MAC            IP         ADDED                      VALID" ++ nl ++
   chars "-----------------------------------------------------------" ++ nl ++
   concat (dump_entry ctime <$> take SR_ARPCACHE_SZ (entries cache)) ++ nl).

(** ** What printing needs

    Printing a table changes nothing, and it succeeds when the names it prints
    are terminated. *)

Definition if_named (i : sr_if) : Prop := 0 ∈ if_name i.
Definition rt_named (r : sr_rt) : Prop := 0 ∈ rt_interface r.

Lemma print_all_run {A} (print : A → R (list Z)) (l : list A) e s :
  Forall (λ x, ∃ t, print x e s = Ok (t, s)) l → ∃ t, print_all print l e s = Ok (t, s).
Proof.
  induction 1 as [|x l [t Ht] _ [ts Hts]]; [by exists []|]. exists (t ++ ts).
  cbn [print_all]. by rewrite (bind_run _ _ _ _ _ _ Ht), (bind_run _ _ _ _ _ _ Hts).
Qed.

Lemma sr_print_if_run i e s : if_named i → ∃ t, sr_print_if i e s = Ok (t, s).
Proof.
  intros H. destruct (c_str_some _ H) as [w Hw].
  unfold sr_print_if, ask, mbind, M_bind. rewrite Hw. by eexists.
Qed.

Lemma sr_print_if_list_run e s :
  Forall if_named (if_list s) → ∃ t, sr_print_if_list e s = Ok (t, s).
Proof.
  intros H. unfold sr_print_if_list, gets, mbind at 1, M_bind.
  destruct (if_list s) as [|i l]; [by eexists|]. apply print_all_run.
  eapply list.Forall_impl; [exact H|]. intros j. apply sr_print_if_run.
Qed.

Lemma sr_print_routing_entry_run r e s :
  rt_named r → ∃ t, sr_print_routing_entry r e s = Ok (t, s).
Proof.
  intros H. destruct (c_str_some _ H) as [w Hw].
  unfold sr_print_routing_entry, ask, mbind, M_bind. rewrite Hw. by eexists.
Qed.

Lemma sr_print_routing_table_run e s :
  Forall rt_named (routing_table s) → ∃ t, sr_print_routing_table e s = Ok (t, s).
Proof.
  intros H. unfold sr_print_routing_table, gets, mbind at 1, M_bind.
  destruct (routing_table s) as [|r l] eqn:Hl; [by eexists|].
  destruct (print_all_run sr_print_routing_entry (r :: l) e s) as [t Ht].
  - eapply list.Forall_impl; [exact H|]. intros q. apply sr_print_routing_entry_run.
  - rewrite (bind_run _ _ _ _ _ _ Ht). by eexists.
Qed.
