(* ===== verification/Config.v ===== *)
(** * Configuration: the routing table's file and its check

    [sr_load_rt] ([sr_rt.c]) reads the file line by line: four words, the first
    three of them addresses in dot notation; [sr_load_rt_wrap] and
    [sr_verify_routing_table] are in [sr_main.c].  Parsing an address is
    [inet_aton] of the C library, a parameter here. *)

From S2P Require Export Conn Rt Print.

(** ** Scanning a line *)

(** [isspace] *)
Definition is_space (c : Z) : bool := (c =? 32) || ((9 <=? c) && (c <=? 13)).

#[global] Arguments is_space : simpl never.

Fixpoint skip_space (l : list Z) : list Z :=
  match l with
  | c :: l' => if is_space c then skip_space l' else l
  | [] => []
  end.

(** A word and what follows it. *)
Fixpoint take_word (l : list Z) : list Z * list Z :=
  match l with
  | c :: l' =>
      if is_space c then ([], l) else let '(w, r) := take_word l' in (c :: w, r)
  | [] => ([], [])
  end.

(** The words that [n] conversions [%s] read; fewer when the line ends. *)
Fixpoint scan_words (n : nat) (l : list Z) : list (list Z) :=
  match n with
  | O => []
  | S n' =>
      match skip_space l with
      | [] => []
      | l' => let '(w, r) := take_word l' in w :: scan_words n' r
      end
  end.

(** The four arrays [dest], [gw], [mask] and [iface] hold their last words;
    [None] is an array that was never written. *)
Definition rt_words : Type := list (option (list Z)).

Definition WORD_SIZE : nat := 32.

(** [sscanf (line, "%s %s %s %s", ...)]: a conversion that fails leaves its
    array as it was; a word that does not fit overruns it. *)
Fixpoint assign_words (ws : list (list Z)) (vars : rt_words) : option rt_words :=
  match ws, vars with
  | w :: ws', _ :: vars' =>
      if (S (length w) <=? WORD_SIZE)%nat then cons (Some w) <$> assign_words ws' vars' else None
  | _, _ => Some vars
  end.

Definition sscanf_words (line : list Z) (vars : rt_words) : option rt_words :=
  assign_words (scan_words (length vars) line) vars.

Definition BUFSIZ : nat := Z.to_nat 8192.

Section load_rt.
(** [inet_aton (cp, inp)]: the address in network byte order, or failure. *)
Context (inet_aton : list Z → option Z).

(** The value of one of the arrays as an address. *)
Definition word_addr (w : option (list Z)) : V (option Z) :=
  w ← lift Uninitialised w;
  mret (inet_aton w).

(** The body of the loop on one line; [None] when [sr_load_rt] returns -1. *)
Definition load_line (line : buf) (vars : rt_words) (cleared : bool) : V (option rt_words) :=
  text ← lift OutOfBounds (c_str (line ++ [0]));
  vars ← lift OutOfBounds (sscanf_words text vars);
  dest ← word_addr (nth 0 vars None);
  match dest with
  | None => mret None
  | Some dest_addr =>
      gw ← word_addr (nth 1 vars None);
      match gw with
      | None => mret None
      | Some gw_addr =>
          mask ← word_addr (nth 2 vars None);
          match mask with
          | None => mret None
          | Some mask_addr =>
              (if cleared then mret tt else on_sr (modify (set_routing_table [])));;
              iface ← lift Uninitialised (nth 3 vars None);
              on_sr (sr_add_rt_entry dest_addr gw_addr mask_addr (iface ++ [0]));;
              mret (Some vars)
          end
      end
  end.

(** [while (fgets (line, BUFSIZ, fp) != 0)]; every line takes at least one
    character of the file. *)
Fixpoint load_lines (fuel : nat) (fp : buf) (vars : rt_words) (cleared : bool) : V Z :=
  match fgets (BUFSIZ - 1) fp with
  | ([], _) => mret 0
  | (line, fp') =>
      match fuel with
      | O => throw OutOfFuel
      | S fuel' =>
          r ← load_line line vars cleared;
          match r with
          | None => mret (-1)
          | Some vars' => load_lines fuel' fp' vars' true
          end
      end
  end.

(** [access] and [fopen] agree on whether the file can be read. *)
Definition sr_load_rt (filename : list Z) : V Z :=
  f ← fopen_read filename;
  match f with
  | None => mret (-1)
  | Some fp => load_lines (length fp) fp [None; None; None; None] false
  end.

Definition sr_load_rt_wrap (rtable : list Z) : V unit :=
  r ← sr_load_rt rtable;
  if negb (r =? 0) then throw (Exited 1)
  else on_sr sr_print_routing_table;; mret tt.

End load_rt.

(** ** Loading ends *)

Section load_rt_ends.
Context (inet_aton : list Z → option Z).

Lemma ends_add_route dest gw mask name : ends (on_sr (sr_add_rt_entry dest gw mask name)).
Proof.
  intros e s. unfold on_sr, sr_add_rt_entry, malloc, ask, mbind, M_bind. simpl.
  destruct (malloc_ok _ _); [simpl|done]. by destruct (strncpy _ _).
Qed.

Lemma load_line_ends line vars cleared : ends (load_line inet_aton line vars cleared).
Proof.
  unfold load_line, word_addr.
  repeat first [apply ends_bind; [|intros] | apply ends_lift | apply ends_mret | case_match
    | apply ends_modify | apply ends_add_route].
Qed.

Lemma load_lines_ends fuel fp vars cleared :
  (length fp <= fuel)%nat → ends (load_lines inet_aton fuel fp vars cleared).
Proof.
  revert fp vars cleared. induction fuel as [|fuel IH]; intros fp vars cleared Hf;
    unfold load_lines; fold load_lines;
    destruct (fgets (BUFSIZ - 1) fp) as [[|c l] fp'] eqn:E; try apply ends_mret;
    apply fgets_split in E; subst fp; cbn [app length] in Hf; [lia|].
  apply ends_bind; [apply load_line_ends|]. intros [vars'|]; [|apply ends_mret].
  apply IH. rewrite length_app in Hf. lia.
Qed.
End load_rt_ends.

(** ** Checking the table against the interfaces *)

Fixpoint rt_has_if (l : list sr_if) (name : buf) : option bool :=
  match l with
  | [] => Some false
  | i :: l' =>
      same ← strncmp_eq sr_IFACE_NAMELEN (if_name i) name;
      if same : bool then Some true else rt_has_if l' name
  end.

Fixpoint count_missing (l : list sr_if) (table : list sr_rt) (ret : Z) : option Z :=
  match table with
  | [] => Some ret
  | r :: table' =>
      found ← rt_has_if l (rt_interface r);
      count_missing l table' (if found : bool then ret else ret + 1)
  end.

Definition sr_verify_routing_table : R Z :=
  l ← gets if_list;
  table ← gets routing_table;
  match l, table with
  | [], _ | _, [] => mret 999
  | _, _ => lift OutOfBounds (count_missing l table 0)
  end.

(** ** What a file says *)

Lemma rt_has_if_spec l name :
  Forall if_wf l → name_ok name →
  rt_has_if l name =
    Some (bool_decide (is_Some (iface_named l (cname sr_IFACE_NAMELEN name)))).
Proof.
  intros Hl Hn. induction Hl as [|i l Hi _ IH]; [done|]. simpl.
  rewrite strncmp_eq_spec by (apply cstr_ok_length; first [exact (proj1 (if_wf_name i Hi)) | exact (proj1 Hn)]).
  simpl. unfold iface_named. simpl. destruct (bool_decide (cname _ _ = _)); [|apply IH].
  by rewrite bool_decide_true.
Qed.

(** The routes without an interface. *)
Definition orphans (s : sr_instance) : list sr_rt :=
  filter (λ r, iface_named (if_list s) (cname sr_IFACE_NAMELEN (rt_interface r)) = None)
    (routing_table s).

Lemma count_missing_spec l table ret :
  Forall if_wf l → Forall rt_wf table →
  count_missing l table ret =
    Some (ret + Z.of_nat (length (filter (λ r,
      iface_named l (cname sr_IFACE_NAMELEN (rt_interface r)) = None) table))).
Proof.
  intros Hl Ht. revert ret. induction Ht as [|r table Hr _ IH]; intros ret; simpl.
  { f_equal. simpl. lia. }
  rewrite rt_has_if_spec by (done || apply Hr). simpl. rewrite IH, filter_cons. f_equal.
  destruct (iface_named l _) as [i|]; simpl.
  - done.
  - lia.
Qed.

Lemma sr_verify_run e s :
  sr_wf s →
  sr_verify_routing_table e s =
    Ok (if bool_decide (if_list s = [] ∨ routing_table s = []) then 999
        else Z.of_nat (length (orphans s)), s).
Proof.
  intros [Hl Ht _]. unfold sr_verify_routing_table, gets, mbind, M_bind.
  destruct (if_list s) as [|i l] eqn:El; [by rewrite bool_decide_true by by left|].
  destruct (routing_table s) as [|r t] eqn:Et; [by rewrite bool_decide_true by by right|].
  rewrite bool_decide_false by (by intros [|]).
  rewrite count_missing_spec by done. unfold orphans. by rewrite El, Et.
Qed.

(** A word of the file: no space, no NUL, and it fits its array. *)
Definition word_ok (w : list Z) : Prop :=
  w ≠ [] ∧ Forall (λ c, is_space c = false ∧ c ≠ 0) w ∧ (length w < WORD_SIZE)%nat.

(** A line of the file, as it is written for a route. *)
Record rt_text := mk_text {
  t_dest : list Z; t_gw : list Z; t_mask : list Z; t_iface : list Z
}.

Definition text_ok (t : rt_text) : Prop :=
  word_ok (t_dest t) ∧ word_ok (t_gw t) ∧ word_ok (t_mask t) ∧ word_ok (t_iface t).

Definition text_body (t : rt_text) : list Z :=
  t_dest t ++ [32] ++ t_gw t ++ [32] ++ t_mask t ++ [32] ++ t_iface t.
Definition text_line (t : rt_text) : buf := text_body t ++ [10].

(** Between the words there may be other white space, as much as a word. *)
Definition sep_ok (a : list Z) : Prop :=
  a ≠ [] ∧ Forall (λ c, is_space c = true ∧ c ≠ 10) a ∧ (length a < WORD_SIZE)%nat.

Inductive line_of (t : rt_text) : buf → Prop :=
  | line_seps a b c : sep_ok a → sep_ok b → sep_ok c →
      line_of t (t_dest t ++ a ++ t_gw t ++ b ++ t_mask t ++ c ++ t_iface t ++ [10]).

Definition text_words (t : rt_text) : rt_words :=
  [Some (t_dest t); Some (t_gw t); Some (t_mask t); Some (t_iface t)].

Lemma take_word_app w c r :
  Forall (λ c, is_space c = false ∧ c ≠ 0) w → is_space c = true →
  take_word (w ++ c :: r) = (w, c :: r).
Proof.
  intros Hw Hc. induction Hw as [|x w [Hx _] _ IH]; simpl; [by rewrite Hc|].
  by rewrite Hx, IH.
Qed.

Lemma scan_words_step n w c r :
  word_ok w → is_space c = true → scan_words (S n) (w ++ c :: r) = w :: scan_words n (c :: r).
Proof.
  intros (Hne & Hw & _) Hc. pose proof (take_word_app w c r Hw Hc) as Ht.
  destruct w as [|x w]; [done|]. apply list.Forall_cons in Hw as [[Hx _] _].
  cbn [scan_words app skip_space]. rewrite Hx.
  change (x :: w ++ c :: r) with ((x :: w) ++ c :: r). by rewrite Ht.
Qed.

Lemma scan_words_space n a r :
  Forall (λ c, is_space c = true) a → scan_words n (a ++ r) = scan_words n r.
Proof.
  intros Ha. destruct n; [done|]. cbn [scan_words].
  assert (skip_space (a ++ r) = skip_space r) as ->; [|done].
  induction Ha as [|c a Hc _ IH]; [done|]. cbn [app skip_space]. by rewrite Hc.
Qed.

(** A word, the space behind it, and the rest. *)
Lemma scan_words_sep n w a r :
  word_ok w → sep_ok a → scan_words (S n) (w ++ a ++ r) = w :: scan_words n r.
Proof.
  intros Hw (Hne & Ha & _). destruct a as [|c a]; [done|].
  assert (Forall (λ c, is_space c = true) (c :: a)) as Hs.
  { eapply list.Forall_impl; [exact Ha|]. by intros x [? _]. }
  cbn [app]. rewrite scan_words_step by (done || by inversion Hs).
  change (c :: a ++ r) with ((c :: a) ++ r). by rewrite scan_words_space.
Qed.

Lemma fgets_line n w r :
  Forall (λ c, c ≠ 10) w → (S (length w) <= n)%nat → fgets n (w ++ 10 :: r) = (w ++ [10], r).
Proof.
  intros Hw. revert n. induction Hw as [|c w Hc _ IH]; intros [|n] Hn; simpl in *; try lia; [done|].
  rewrite IH by lia. by destruct (Z.eqb_spec c 10).
Qed.

(** A line with any spacing says its four words. *)
Lemma line_of_spec t l : text_ok t → line_of t l →
  ∃ body, l = body ++ [10] ∧ Forall (λ c, c ≠ 0) l ∧ Forall (λ c, c ≠ 10) body ∧
    (length body < 8 * WORD_SIZE)%nat ∧
    scan_words 4 l = [t_dest t; t_gw t; t_mask t; t_iface t].
Proof.
  intros (Hd & Hg & Hm & Hi) [a b c Ha Hb Hc].
  assert (∀ w, word_ok w → Forall (λ c, c ≠ 0) w ∧ Forall (λ c, c ≠ 10) w) as Hword.
  { intros w (_ & Hw & _). split; (eapply list.Forall_impl; [exact Hw|]); intros x [Hx H0];
      [done|]. by intros ->. }
  assert (∀ w, sep_ok w → Forall (λ c, c ≠ 0) w ∧ Forall (λ c, c ≠ 10) w) as Hsep.
  { intros w (_ & Hw & _). split; (eapply list.Forall_impl; [exact Hw|]); intros x [Hx H0];
      [by intros ->|done]. }
  exists (t_dest t ++ a ++ t_gw t ++ b ++ t_mask t ++ c ++ t_iface t).
  rewrite <- !app_assoc. split; [done|].
  assert (scan_words 4 (t_dest t ++ a ++ t_gw t ++ b ++ t_mask t ++ c ++ t_iface t ++ [10]) =
    [t_dest t; t_gw t; t_mask t; t_iface t]) as Hscan.
  { rewrite !scan_words_sep by done. rewrite scan_words_step by done. done. }
  apply Hword in Hd as Hd', Hg as Hg', Hm as Hm', Hi as Hi'.
  apply Hsep in Ha as Ha', Hb as Hb', Hc as Hc'.
  destruct Hd as (_ & _ & Hd), Hg as (_ & _ & Hg), Hm as (_ & _ & Hm), Hi as (_ & _ & Hi).
  destruct Ha as (_ & _ & Ha), Hb as (_ & _ & Hb), Hc as (_ & _ & Hc).
  rewrite !Forall_app, !length_app, list.Forall_singleton. unfold WORD_SIZE in *. intuition lia.
Qed.

Lemma sscanf_line t l a b c d :
  text_ok t → line_of t l → sscanf_words l [a; b; c; d] = Some (text_words t).
Proof.
  intros Ht Hl. destruct (line_of_spec t l Ht Hl) as (_ & _ & _ & _ & _ & Hs).
  unfold sscanf_words. cbn [length]. rewrite Hs.
  destruct Ht as ((_ & _ & Hd) & (_ & _ & Hg) & (_ & _ & Hm) & (_ & _ & Hi)).
  cbn [assign_words]. rewrite !leb_nat_true by done. done.
Qed.

Lemma text_line_of t : line_of t (text_line t).
Proof.
  unfold text_line, text_body. rewrite <- !app_assoc.
  assert (sep_ok [32]) by (split; [done|]; split; [by repeat constructor|]; apply Nat.leb_le; done).
  by apply (line_seps t [32] [32] [32]).
Qed.

Lemma text_lines_of ts : Forall2 line_of ts (text_line <$> ts).
Proof. induction ts; constructor; [apply text_line_of|done]. Qed.

Lemma length_lines ts ls : Forall2 line_of ts ls → (length ts <= length (concat ls))%nat.
Proof.
  induction 1 as [|t l ts ls Hl _ IH]; [done|]. cbn [concat length]. rewrite length_app.
  assert (1 <= length l)%nat; [|lia]. destruct Hl. rewrite !length_app. cbn [length]. lia.
Qed.

Section load_rt_run.
Context (inet_aton : list Z → option Z) (e : venv).

(** The route that a line stands for. *)
Definition text_route (t : rt_text) (r : sr_rt) : Prop :=
  inet_aton (t_dest t) = Some (rt_dest r) ∧ inet_aton (t_gw t) = Some (rt_gw r) ∧
  inet_aton (t_mask t) = Some (rt_mask r) ∧
  rt_interface r = name_copy sr_IFACE_NAMELEN (t_iface t ++ [0]).

(** The names of the loaded routes are terminated. *)
Lemma text_route_named t r : text_ok t → text_route t r → rt_named r.
Proof.
  intros (_ & _ & _ & (_ & _ & Hl)) (_ & _ & _ & Hr). unfold rt_named. rewrite Hr.
  destruct (strncpy_string sr_IFACE_NAMELEN (t_iface t ++ [0])) as (d & Hd & H0).
  - rewrite take_ge by (rewrite length_app; unfold sr_IFACE_NAMELEN, WORD_SIZE in *; cbn; lia).
    apply elem_of_app. right. left.
  - unfold name_copy. by rewrite Hd.
Qed.

Lemma text_routes_named ts rs :
  Forall text_ok ts → Forall2 text_route ts rs → Forall rt_named rs.
Proof.
  intros Hts Hrs. induction Hrs as [|t r ts rs Hr _ IH]; [constructor|].
  apply list.Forall_cons in Hts as [Ht Hts]. constructor; [by eapply text_route_named|by apply IH].
Qed.

Definition add_route (r : sr_rt) (cleared : bool) (s : vns) : vns :=
  set_router (set_routing_table
    ((if cleared then routing_table (router s) else []) ++ [r]) (router s)) s.

Lemma load_line_run t r l vars cleared s :
  text_ok t → line_of t l → text_route t r → length vars = 4%nat →
  malloc_ok (base e (turn s)) AllocRoute = true →
  load_line inet_aton l vars cleared e s =
    Ok (Some (text_words t), add_route r cleared s).
Proof.
  intros Ht Hl (Hd & Hg & Hm & Hi) Hv Hmal.
  destruct (line_of_spec t l Ht Hl) as (_ & _ & H0 & _).
  unfold load_line. rewrite c_str_app by done.
  destruct vars as [|a [|b [|c [|d []]]]]; try discriminate Hv.
  rewrite lift_some, bind_mret, (sscanf_line t), lift_some, bind_mret by done.
  cbn [text_words nth word_addr]. unfold word_addr.
  rewrite !lift_some, !bind_mret, Hd. cbv beta iota.
  rewrite bind_mret, Hg. cbv beta iota. rewrite bind_mret, Hm. cbv beta iota.
  destruct (strncpy_spec sr_IFACE_NAMELEN (t_iface t ++ [0])) as (nm & Hn & _ & _).
  { right. apply elem_of_app. right. by left. }
  unfold name_copy in Hi. rewrite Hn in Hi. cbn in Hi.
  destruct r as [d' g' m' n']. cbn in Hi. subst n'. cbn [rt_dest rt_gw rt_mask].
  set (s1 := if cleared then s else set_router (set_routing_table [] (router s)) s).
  rewrite (bind_run _ _ e s tt s1) by by destruct cleared.
  rewrite bind_mret.
  assert (base e (turn s1) = base e (turn s)) as Hb by by destruct cleared.
  rewrite (bind_run _ _ _ _ _ _
    (on_sr_run _ _ _ e s1 (sr_add_rt_entry_run _ _ _ _ _ _ _
       (eq_trans (f_equal (λ b, malloc_ok b AllocRoute) Hb) Hmal) Hn))).
  by destruct cleared.
Qed.

(** One turn of the loop, on a line of the file. *)
Lemma load_lines_step t l rest fuel vars cleared s :
  text_ok t → line_of t l →
  load_lines inet_aton (S fuel) (l ++ rest) vars cleared e s =
    (r ← load_line inet_aton l vars cleared;
     match r with
     | None => mret (-1)
     | Some vars' => load_lines inet_aton fuel rest vars' true
     end) e s.
Proof.
  intros Ht Hl. destruct (line_of_spec t l Ht Hl) as (body & Hlb & _ & H10 & Hlen & _).
  assert (fgets (BUFSIZ - 1) (l ++ rest) = (l, rest)) as Hget.
  { rewrite Hlb, <- app_assoc. cbn [app].
    by rewrite fgets_line by (done || (unfold BUFSIZ, WORD_SIZE in *; lia)). }
  cbn [load_lines]. rewrite Hget. by destruct l; [destruct body|].
Qed.

(** The router after the routes [rs] of a file: they take the table's place with
    the first of them. *)
Definition loaded (cleared : bool) (rs : list sr_rt) (s : vns) : vns :=
  match rs with
  | [] => s
  | _ => set_router (set_routing_table
           ((if cleared then routing_table (router s) else []) ++ rs) (router s)) s
  end.

Lemma loaded_cons cleared r rs s :
  loaded true rs (add_route r cleared s) = loaded cleared (r :: rs) s.
Proof.
  destruct rs as [|r' rs]; [done|]. unfold loaded, add_route, set_router, set_routing_table. cbn.
  by rewrite <- app_assoc.
Qed.

(** The lines of routes are taken one by one; what follows them is next. *)
Lemma load_lines_app ts rs ls rest fuel vars cleared s :
  Forall text_ok ts → Forall2 line_of ts ls → Forall2 text_route ts rs → length vars = 4%nat →
  malloc_ok (base e (turn s)) AllocRoute = true →
  ∃ vars' cleared', length vars' = 4%nat ∧ (rs = [] → cleared' = cleared) ∧
    load_lines inet_aton (length ts + fuel) (concat ls ++ rest) vars cleared e s =
      load_lines inet_aton fuel rest vars' cleared' e (loaded cleared rs s).
Proof.
  intros Hts Hls Hrs Hv Hmal. revert Hts ls Hls vars cleared s Hv Hmal.
  induction Hrs as [|t r ts rs Hr _ IH]; intros Hts ls Hls vars cleared s Hv Hmal.
  { inversion Hls; subst. by exists vars, cleared. }
  inversion Hls as [|? l ? ls' Hl Hls']; subst. apply list.Forall_cons in Hts as [Ht Hts].
  destruct (IH Hts ls' Hls' (text_words t) true (add_route r cleared s) eq_refl Hmal)
    as (vars' & cleared' & Hv' & _ & IH').
  exists vars', cleared'. split; [done|]. split; [done|].
  cbn [concat length Nat.add]. rewrite <- app_assoc.
  rewrite (load_lines_step t) by (done || exact Hl).
  rewrite (bind_run _ _ _ _ _ _ (load_line_run t r l vars cleared s Ht Hl Hr Hv Hmal)).
  cbv beta iota. by rewrite IH', loaded_cons.
Qed.

Lemma load_lines_run ts rs ls fuel vars cleared s :
  Forall text_ok ts → Forall2 line_of ts ls → Forall2 text_route ts rs → length vars = 4%nat →
  malloc_ok (base e (turn s)) AllocRoute = true →
  (length ts <= fuel)%nat →
  load_lines inet_aton fuel (concat ls) vars cleared e s = Ok (0, loaded cleared rs s).
Proof.
  intros Hts Hls Hrs Hv Hmal Hf. replace fuel with (length ts + (fuel - length ts))%nat by lia.
  rewrite <- (app_nil_r (concat ls)).
  destruct (load_lines_app ts rs ls [] (fuel - length ts) vars cleared s Hts Hls Hrs Hv Hmal)
    as (vars' & cleared' & _ & _ & ->).
  by destruct (fuel - length ts)%nat.
Qed.

(** A line with an address that cannot be read: nothing is entered. *)
Definition bad_address (t : rt_text) : Prop :=
  inet_aton (t_dest t) = None ∨ inet_aton (t_gw t) = None ∨ inet_aton (t_mask t) = None.

Lemma load_line_refused t l vars cleared s :
  text_ok t → line_of t l → bad_address t → length vars = 4%nat →
  load_line inet_aton l vars cleared e s = Ok (None, s).
Proof.
  unfold bad_address. intros Ht Hl Hbad Hv.
  destruct (line_of_spec t l Ht Hl) as (_ & _ & H0 & _).
  unfold load_line. rewrite c_str_app by done.
  destruct vars as [|a [|b [|c [|d []]]]]; try discriminate Hv.
  rewrite lift_some, bind_mret, (sscanf_line t), lift_some, bind_mret by done.
  cbn [text_words nth word_addr]. unfold word_addr. rewrite !lift_some, !bind_mret.
  destruct (inet_aton (t_dest t)); [|done]. rewrite bind_mret.
  destruct (inet_aton (t_gw t)); [|done]. rewrite bind_mret.
  destruct (inet_aton (t_mask t)); [|done]. by destruct Hbad as [|[|]].
Qed.

Lemma load_lines_refused t l rest fuel vars cleared s :
  text_ok t → line_of t l → bad_address t → length vars = 4%nat →
  load_lines inet_aton (S fuel) (l ++ rest) vars cleared e s = Ok (-1, s).
Proof.
  intros Ht Hl Hbad Hv. rewrite (load_lines_step t) by done.
  by rewrite (bind_run _ _ _ _ _ _ (load_line_refused t l vars cleared s Ht Hl Hbad Hv)).
Qed.

(** Reading the file of a table puts exactly its routes in place of the old
    ones; an empty file leaves them. *)
Lemma sr_load_rt_lines_run fn ts rs ls s :
  Forall text_ok ts → Forall2 line_of ts ls → Forall2 text_route ts rs →
  fopen_ok e fn = true → disk s !! fn = Some (concat ls) →
  malloc_ok (base e (turn s)) AllocRoute = true →
  sr_load_rt inet_aton fn e s =
    Ok (0, loaded false rs s).
Proof.
  intros Hts Hls Hrs Hfn Hd Hm.
  unfold sr_load_rt, fopen_read, ask, gets, mbind, M_bind, mret, M_ret.
  rewrite Hfn, Hd. by rewrite (load_lines_run ts rs ls) by eauto using length_lines.
Qed.

Lemma sr_load_rt_run fn ts rs s :
  Forall text_ok ts → Forall2 text_route ts rs →
  fopen_ok e fn = true → disk s !! fn = Some (concat (text_line <$> ts)) →
  malloc_ok (base e (turn s)) AllocRoute = true →
  sr_load_rt inet_aton fn e s =
    Ok (0, loaded false rs s).
Proof. intros. by apply (sr_load_rt_lines_run fn ts rs (text_line <$> ts)); [|apply text_lines_of|..]. Qed.

Lemma sr_load_rt_refused_run fn ts rs ls t l rest s :
  Forall text_ok ts → Forall2 line_of ts ls → Forall2 text_route ts rs →
  text_ok t → line_of t l → bad_address t →
  fopen_ok e fn = true → disk s !! fn = Some (concat ls ++ l ++ rest) →
  malloc_ok (base e (turn s)) AllocRoute = true →
  sr_load_rt inet_aton fn e s = Ok (-1, loaded false rs s).
Proof.
  intros Hts Hls Hrs Ht Hl Hbad Hfn Hd Hm.
  unfold sr_load_rt, fopen_read, ask, gets, mbind, M_bind, mret, M_ret. rewrite Hfn, Hd.
  assert (length (concat ls ++ l ++ rest) =
    length ts + S (length (concat ls ++ l ++ rest) - S (length ts)))%nat as ->.
  { pose proof (length_lines ts ls Hls). rewrite !length_app.
    assert (1 <= length l)%nat; [|lia]. destruct Hl. rewrite !length_app. cbn [length]. lia. }
  edestruct (load_lines_app ts rs ls (l ++ rest)) as (vars & cleared & Hv & _ & ->); try done.
  by apply (load_lines_refused t).
Qed.

Lemma sr_load_rt_unreadable fn s :
  fopen_ok e fn = false ∨ disk s !! fn = None → sr_load_rt inet_aton fn e s = Ok (-1, s).
Proof.
  intros H. unfold sr_load_rt, fopen_read, ask, gets, mbind, M_bind, mret, M_ret.
  destruct (fopen_ok e fn) eqn:E; [|done]. by destruct H as [? | ->].
Qed.

Lemma load_rt_wrap_refused fn s s' :
  sr_load_rt inet_aton fn e s = Ok (-1, s') → sr_load_rt_wrap inet_aton fn e s = Fault (Exited 1).
Proof. intros H. unfold sr_load_rt_wrap. by rewrite (bind_run _ _ _ _ _ _ H). Qed.
End load_rt_run.

(** The verdict of the check. *)
Lemma verify_ok s :
  ((if bool_decide (if_list s = [] ∨ routing_table s = []) then 999
    else Z.of_nat (length (orphans s))) =? 0) =
  bool_decide (if_list s ≠ [] ∧ routing_table s ≠ [] ∧ orphans s = []).
Proof.
  destruct (bool_decide (_ ∨ _)) eqn:E.
  - apply bool_decide_eq_true in E. symmetry. apply bool_decide_eq_false. naive_solver.
  - apply bool_decide_eq_false in E.
    destruct (orphans s) as [|r l]; cbn [length].
    + symmetry. apply bool_decide_eq_true. naive_solver.
    + rewrite (proj2 (Z.eqb_neq _ _)) by lia. symmetry. apply bool_decide_eq_false. naive_solver.
Qed.
