(* ===== verification/ArpCache.v ===== *)
(** * The ARP cache ([sr_arpcache.c])

    The cache holds up to [SR_ARPCACHE_SZ] mappings from IP to MAC addresses and
    a queue of pending ARP requests, each with the packets that wait for its
    answer.  Every operation of this file runs under the cache's lock; the
    sweep over the pending requests, which calls back into the router, is in
    the file Sweep. *)

From stdpp Require Import gmap.
From S2P Require Export Instance.

(** ** Looking a mapping up *)

(** [for (i = 0; i < SR_ARPCACHE_SZ; i++) if (valid && ip == ip) entry = ...;]
    there is no [break]: the last match is kept. *)
Fixpoint lookup_loop (l : list sr_arpentry) (ip : Z) (entry : option sr_arpentry)
    : option sr_arpentry :=
  match l with
  | [] => entry
  | x :: l' =>
      lookup_loop l' ip (if ent_valid x && (ent_ip x =? ip) then Some x else entry)
  end.

(** The result is a copy in memory of its own. *)
Definition sr_arpcache_lookup (ip : Z) : R (option sr_arpentry) :=
  c ← gets cache;
  match lookup_loop (entries c) ip None with
  | None => mret None
  | Some entry =>
      ok ← malloc AllocEntryCopy;
      if ok : bool then mret (Some entry) else throw (Undefined NullDeref)
  end.

(** ** Queueing a packet behind a request *)

Fixpoint find_req (ip : Z) (l : list sr_arpreq) : option sr_arpreq :=
  match l with
  | [] => None
  | r :: l' => if req_ip r =? ip then Some r else find_req ip l'
  end.

(** An update of the node at an address. *)
Definition update_req (a : nat) (f : sr_arpreq → sr_arpreq) (c : sr_arpcache) : sr_arpcache :=
  mk_cache (entries c)
    ((λ r, if (req_addr r =? a)%nat then f r else r) <$> requests c) (next_addr c).

Definition push_packet (p : sr_packet) (r : sr_arpreq) : sr_arpreq :=
  mk_req (req_addr r) (req_ip r) (req_sent r) (req_times_sent r) (p :: req_packets r).

(** [calloc (1, sizeof (struct sr_arpreq))], put at the front of the queue. *)
Definition push_req (ip : Z) (c : sr_arpcache) : sr_arpcache :=
  mk_cache (entries c) (mk_req (next_addr c) ip 0 0 [] :: requests c) (S (next_addr c)).

Definition modify_cache (f : sr_arpcache → sr_arpcache) : R unit :=
  modify (λ s, set_cache (f (cache s)) s).

Definition malloc_unchecked (a : alloc_site) : R unit :=
  ok ← malloc a;
  if ok : bool then mret tt else throw (Undefined NullDeref).

(** Returns the address of the request.  [packet] and [iface] are pointers that
    may be null. *)
Definition sr_arpcache_queuereq (ip : Z) (packet : option buf) (packet_len : Z)
    (iface : option cstr) : R nat :=
  c ← gets cache;
  req ← match find_req ip (requests c) with
        | Some r => mret (req_addr r)
        | None =>
            malloc_unchecked AllocReq;;
            modify_cache (push_req ip);;
            mret (next_addr c)
        end;
  match packet, iface with
  | Some packet, Some iface =>
      if packet_len =? 0 then mret req
      else
        malloc_unchecked AllocPacket;;
        malloc_unchecked AllocPacketBuf;;
        b ← lift OutOfBounds (load_bytes (Z.to_nat packet_len) 0 packet);
        malloc_unchecked AllocPacketIface;;
        n ← lift OutOfBounds (strncpy sr_IFACE_NAMELEN iface);
        modify_cache (update_req req (push_packet (mk_packet b packet_len n)));;
        mret req
  | _, _ => mret req
  end.

(** ** Inserting a mapping *)

(** The walk that takes the request for [ip] off the queue. *)
Fixpoint unlink_ip (ip : Z) (l : list sr_arpreq) : option sr_arpreq * list sr_arpreq :=
  match l with
  | [] => (None, [])
  | r :: l' =>
      if req_ip r =? ip then (Some r, l')
      else let '(o, l'') := unlink_ip ip l' in (o, r :: l'')
  end.

(** The slot to write: the valid entry of [ip], or else the first free one. *)
Fixpoint insert_slot (i : nat) (l : list sr_arpentry) (ip : Z) (slot : option nat)
    : option nat :=
  match l with
  | [] => slot
  | x :: l' =>
      if ent_valid x && (ent_ip x =? ip) then Some i
      else insert_slot (S i) l' ip
             (if bool_decide (slot = None) && negb (ent_valid x) then Some i else slot)
  end.

Definition insert_entries (l : list sr_arpentry) (mac : buf) (ip t : Z) : list sr_arpentry :=
  match insert_slot 0 l ip None with
  | Some slot => <[slot := mk_entry mac ip t true]> l
  | None => l
  end.

(** The request taken off the queue belongs to the caller. *)
Definition sr_arpcache_insert (mac : buf) (ip : Z) : R (option sr_arpreq) :=
  e ← ask;
  c ← gets cache;
  m ← lift OutOfBounds (load_bytes ETHER_ADDR_LEN 0 mac);
  let '(req, rest) := unlink_ip ip (requests c) in
  modify_cache (λ c, mk_cache (insert_entries (entries c) m ip (now e)) rest (next_addr c));;
  mret req.

(** ** Destroying a request *)

Fixpoint unlink_addr (a : nat) (l : list sr_arpreq) : list sr_arpreq :=
  match l with
  | [] => []
  | r :: l' => if (req_addr r =? a)%nat then l' else r :: unlink_addr a l'
  end.

(** A request that is not on the queue is only freed. *)
Definition sr_arpreq_destroy (entry : option nat) : R unit :=
  match entry with
  | None => mret tt
  | Some a =>
      modify_cache (λ c, mk_cache (entries c) (unlink_addr a (requests c)) (next_addr c))
  end.

(** Following a pointer to a request that should be on the queue. *)
Fixpoint req_at (a : nat) (l : list sr_arpreq) : option sr_arpreq :=
  match l with
  | [] => None
  | r :: l' => if (req_addr r =? a)%nat then Some r else req_at a l'
  end.

Definition deref_req (a : nat) : R sr_arpreq :=
  c ← gets cache;
  lift UseAfterFree (req_at a (requests c)).

(** ** Start and expiry *)

Definition zero_entry : sr_arpentry := mk_entry (replicate ETHER_ADDR_LEN 0) 0 0 false.

Definition sr_arpcache_init : R unit :=
  modify_cache (λ c, mk_cache (replicate SR_ARPCACHE_SZ zero_entry) [] (next_addr c)).

(** [sr_arpcache_timeout] invalidates the entries older than the time-out. *)
Definition expire (curtime : Z) (x : sr_arpentry) : sr_arpentry :=
  if ent_valid x && (SR_ARPCACHE_TO <? curtime - ent_added x)
  then mk_entry (ent_mac x) (ent_ip x) (ent_added x) false else x.

Definition expire_entries (curtime : Z) (c : sr_arpcache) : sr_arpcache :=
  mk_cache (expire curtime <$> entries c) (requests c) (next_addr c).

(** ** Valid entries *)

Definition valid_at (l : list sr_arpentry) (i : nat) (ip : Z) (x : sr_arpentry) : Prop :=
  l !! i = Some x ∧ ent_valid x = true ∧ ent_ip x = ip.

Definition unique_valid (l : list sr_arpentry) : Prop :=
  ∀ i j x y, l !! i = Some x → l !! j = Some y →
    ent_valid x = true → ent_valid y = true → ent_ip x = ent_ip y → i = j.

Lemma lookup_loop_none l ip entry :
  (∀ i x, ¬ valid_at l i ip x) → lookup_loop l ip entry = entry.
Proof.
  revert entry. induction l as [|x l IH]; intros entry H; [done|]. simpl.
  rewrite IH; [|intros i y Hy; by apply (H (S i) y)].
  destruct (ent_valid x) eqn:Hv; [|done]. simpl.
  destruct (Z.eqb_spec (ent_ip x) ip); [|done]. exfalso. by apply (H O x).
Qed.

(** With at most one valid entry per address, the loop returns that entry. *)
Lemma lookup_loop_some l ip entry i x :
  unique_valid l → valid_at l i ip x → lookup_loop l ip entry = Some x.
Proof.
  revert entry i. induction l as [|y l IH]; intros entry i Hu (Hi & Hv & Hip); [done|].
  simpl. destruct i as [|i].
  - injection Hi as ->. rewrite Hv, (proj2 (Z.eqb_eq _ _) Hip). simpl.
    apply lookup_loop_none. intros j z (Hj & Hvz & Hz).
    assert (0 = S j)%nat; [|done]. by apply (Hu _ _ x z); [..|congruence].
  - eapply IH; [|by split]. intros j k z w Hj Hk Hz Hw Hzw.
    assert (S j = S k); [|lia]. by eapply (Hu (S j) (S k)).
Qed.

Lemma lookup_loop_valid l ip x :
  lookup_loop l ip None = Some x → ∃ i, valid_at l i ip x.
Proof.
  assert (∀ entry, lookup_loop l ip entry = Some x →
    entry = Some x ∨ ∃ i, valid_at l i ip x) as H.
  { induction l as [|y l IH]; intros entry H; [by left|]. simpl in H.
    apply IH in H as [H|(i & H)]; [|right; by exists (S i)].
    destruct (ent_valid y) eqn:Hv; simpl in H; [|by left].
    destruct (Z.eqb_spec (ent_ip y) ip); [|by left].
    injection H as ->. right. by exists O. }
  intros Hl. destruct (H None Hl) as [|?]; [done|eauto].
Qed.

(** ** The slot of an insertion *)

Abbreviation holds_ip ip := (λ x : sr_arpentry, ent_valid x && (ent_ip x =? ip) = true).
Abbreviation is_free := (λ x : sr_arpentry, ent_valid x = false).

Lemma insert_slot_find k l ip slot :
  insert_slot k l ip slot =
    match list_find (holds_ip ip) l with
    | Some (i, _) => Some (k + i)%nat
    | None =>
        match slot with
        | Some s => Some s
        | None => (λ p, (k + p.1)%nat) <$> list_find is_free l
        end
    end.
Proof.
  revert k slot. induction l as [|x l IH]; intros k slot; [by destruct slot|].
  simpl. destruct (ent_valid x) eqn:Hv, (Z.eqb_spec (ent_ip x) ip) as [He|He]; simpl.
  - f_equal. lia.
  - rewrite andb_false_r, IH.
    destruct (list_find (holds_ip ip) l) as [[i y]|]; simpl; [f_equal; lia|].
    destruct slot; [done|]. destruct (list_find is_free l) as [[i y]|]; simpl; [f_equal; lia|done].
  - rewrite andb_true_r, IH.
    destruct (list_find (holds_ip ip) l) as [[i y]|]; simpl; [f_equal; lia|].
    destruct slot; simpl; [done|]. f_equal. lia.
  - rewrite andb_true_r, IH.
    destruct (list_find (holds_ip ip) l) as [[i y]|]; simpl; [f_equal; lia|].
    destruct slot; simpl; [done|]. f_equal. lia.
Qed.

(** The slot holds the address already, or nothing holds it and it is free. *)
Lemma insert_slot_some l ip i :
  insert_slot 0 l ip None = Some i →
  ∃ x, l !! i = Some x ∧
    (valid_at l i ip x ∨ (ent_valid x = false ∧ ∀ j y, ¬ valid_at l j ip y)).
Proof.
  rewrite insert_slot_find. destruct (list_find (holds_ip ip) l) as [[j y]|] eqn:E.
  - intros [= <-]. apply list_find_Some in E as (Hj & Hy & _).
    apply andb_prop in Hy as [Hv Hip]. apply Z.eqb_eq in Hip.
    exists y. split; [done|]. by left.
  - destruct (list_find is_free l) as [[j y]|] eqn:E'; [|done]. intros [= <-].
    apply list_find_Some in E' as (Hj & Hv & _). exists y. split; [done|].
    right. split; [done|]. intros k z (Hk & Hz & Hip).
    apply list_find_None in E. rewrite Forall_lookup in E.
    apply (E _ _ Hk). by rewrite Hz, (proj2 (Z.eqb_eq _ _) Hip).
Qed.

Lemma insert_slot_none l ip :
  insert_slot 0 l ip None = None →
  (∀ j y, ¬ valid_at l j ip y) ∧ Forall (λ x, ent_valid x = true) l.
Proof.
  rewrite insert_slot_find. destruct (list_find (holds_ip ip) l) as [[j y]|] eqn:E; [done|].
  destruct (list_find is_free l) as [[j y]|] eqn:E'; [done|]. intros _. split.
  - intros k z (Hk & Hz & Hip). apply list_find_None in E. rewrite Forall_lookup in E.
    apply (E _ _ Hk). by rewrite Hz, (proj2 (Z.eqb_eq _ _) Hip).
  - apply list_find_None in E'. eapply list.Forall_impl; [exact E'|].
    intros x. simpl. by destruct (ent_valid x).
Qed.

Lemma insert_entries_unique l mac ip t :
  unique_valid l → unique_valid (insert_entries l mac ip t).
Proof.
  intros Hu. unfold insert_entries.
  destruct (insert_slot 0 l ip None) as [k|] eqn:E; [|done].
  apply insert_slot_some in E as (x0 & Hk & Hx0).
  assert (∀ j y, l !! j = Some y → ent_valid y = true → ent_ip y = ip → j = k) as Hother.
  { intros j y Hj Hv Hip. destruct Hx0 as [(_ & Hv0 & Hip0)|[_ Hno]].
    - apply (Hu j k y x0); congruence.
    - exfalso. by apply (Hno j y). }
  intros i j x y Hi Hj Hx Hy Hxy.
  rewrite list_lookup_insert in Hi, Hj.
  case_decide; case_decide; simplify_eq/=; destruct_and?; subst; try done.
  - by eapply Hother.
  - symmetry. by eapply Hother.
  - by eapply Hu.
Qed.

Lemma insert_entries_length l mac ip t : length (insert_entries l mac ip t) = length l.
Proof. unfold insert_entries. destruct (insert_slot _ _ _ _); [apply length_insert|done]. Qed.

Lemma insert_entries_wf l mac ip t :
  Forall entry_wf l → mac_ok mac → is_u32 ip → Forall entry_wf (insert_entries l mac ip t).
Proof.
  intros Hl Hm Hip. unfold insert_entries.
  destruct (insert_slot _ _ _ _); [|done]. apply Forall_insert; [done|by split].
Qed.

(** ** The mappings as a finite map *)

Definition valid_pairs (l : list sr_arpentry) : list (Z * sr_arpentry) :=
  (λ x, (ent_ip x, x)) <$> filter (λ x, ent_valid x = true) l.

Definition arp_map (l : list sr_arpentry) : gmap Z sr_arpentry := list_to_map (valid_pairs l).

Lemma elem_of_valid_pairs l ip x :
  (ip, x) ∈ valid_pairs l ↔ ∃ i, valid_at l i ip x.
Proof.
  unfold valid_pairs, valid_at. rewrite list_elem_of_fmap. split.
  - intros (y & [= -> ->] & [Hv Hy]%list_elem_of_filter).
    apply list_elem_of_lookup in Hy as [i Hi]. eauto.
  - intros (i & Hi & Hv & <-). exists x. split; [done|].
    apply list_elem_of_filter. split; [done|]. by eapply list_elem_of_lookup_2.
Qed.

Lemma unique_valid_tail x l : unique_valid (x :: l) → unique_valid l.
Proof.
  intros Hu i j y z Hi Hj Hy Hz Hyz. assert (S i = S j); [|lia].
  by eapply (Hu (S i) (S j)).
Qed.

Lemma valid_pairs_nodup l : unique_valid l → NoDup (valid_pairs l).*1.
Proof.
  intros Hu. induction l as [|x l IH]; [constructor|].
  specialize (IH (unique_valid_tail _ _ Hu)). unfold valid_pairs in *. simpl.
  rewrite filter_cons. case_decide as Hv; [|done]. simpl. constructor; [|done].
  intros Hin. apply list_elem_of_fmap in Hin as ([ip y] & Hip & Hy). simpl in Hip. subst.
  apply (elem_of_valid_pairs l) in Hy as (i & Hi & Hvy & Heq).
  assert (0 = S i)%nat; [|done]. by eapply (Hu O (S i)).
Qed.

Lemma arp_map_lookup l ip x :
  unique_valid l → arp_map l !! ip = Some x ↔ ∃ i, valid_at l i ip x.
Proof.
  intros Hu. rewrite <- elem_of_valid_pairs. symmetry. apply elem_of_list_to_map.
  by apply valid_pairs_nodup.
Qed.

Lemma arp_map_size l : unique_valid l →
  size (arp_map l) = length (filter (λ x, ent_valid x = true) l).
Proof.
  intros Hu. unfold arp_map. rewrite map_size_list_to_map by by apply valid_pairs_nodup.
  unfold valid_pairs. by rewrite length_fmap.
Qed.

(** The lookup of the code is the lookup of the map. *)
Lemma lookup_loop_map l ip : unique_valid l → lookup_loop l ip None = arp_map l !! ip.
Proof.
  intros Hu. destruct (arp_map l !! ip) as [x|] eqn:E.
  - apply arp_map_lookup in E as [i Hi]; [|done]. by eapply lookup_loop_some.
  - apply lookup_loop_none. intros i x Hx.
    assert (arp_map l !! ip = Some x) by (apply arp_map_lookup; eauto). congruence.
Qed.

(** There is room for [ip]: it is mapped already, or a slot is free. *)
Definition has_room (l : list sr_arpentry) (ip : Z) : Prop :=
  is_Some (arp_map l !! ip) ∨ (size (arp_map l) < length l)%nat.

Lemma insert_slot_room l ip :
  unique_valid l → is_Some (insert_slot 0 l ip None) ↔ has_room l ip.
Proof.
  intros Hu. unfold has_room. rewrite arp_map_size by done. split.
  - intros [i Hi]. apply insert_slot_some in Hi as (x & Hi & [Hx|[Hv Hno]]).
    + left. exists x. apply arp_map_lookup; eauto.
    + right. apply length_filter_lt with x; [by eapply list_elem_of_lookup_2|congruence].
  - intros H. destruct (insert_slot 0 l ip None) eqn:E; [done|].
    apply insert_slot_none in E as [Hno Hall]. exfalso. destruct H as [[x Hx]|H].
    + apply arp_map_lookup in Hx as [i Hx]; [|done]. by eapply Hno.
    + rewrite filter_all in H by done. lia.
Qed.

(** Insertion is insertion in the map when there is room, and nothing when
    there is not. *)
Lemma insert_entries_map l mac ip t :
  unique_valid l → has_room l ip →
  arp_map (insert_entries l mac ip t) = <[ip := mk_entry mac ip t true]> (arp_map l).
Proof.
  intros Hu Hr. pose proof (insert_entries_unique l mac ip t Hu) as Hu'.
  apply insert_slot_room in Hr as [k E]; [|done].
  apply map_eq. intros ip'. apply option_eq. intros x.
  rewrite arp_map_lookup by done. unfold insert_entries in *. rewrite E in *.
  apply insert_slot_some in E as (x0 & Hk & Hx0). pose proof (lookup_lt_Some _ _ _ Hk) as Hlt.
  rewrite lookup_insert_Some, (arp_map_lookup l) by done. unfold valid_at. split.
  - intros (i & Hi & Hv & Hip). rewrite list_lookup_insert in Hi.
    case_decide as Hc; [left; by simplify_eq/=|]. right.
    split; [|eauto]. intros <-. destruct Hx0 as [(_ & Hv0 & Hip0)|[_ Hno]].
    + assert (k = i) as Hki by (apply (Hu k i x0 x); congruence). tauto.
    + by apply (Hno i x).
  - intros [[<- <-]|(Hne & i & Hi & Hv & Hip)].
    + exists k. by rewrite list_lookup_insert_eq by done.
    + exists i. split; [|done]. rewrite list_lookup_insert_ne; [done|].
      intros ->. rewrite Hk in Hi. simplify_eq. destruct Hx0 as [(_ & _ & ?)|[? _]]; congruence.
Qed.

Lemma insert_entries_full l mac ip t :
  unique_valid l → ¬ has_room l ip → insert_entries l mac ip t = l.
Proof.
  intros Hu Hr. unfold insert_entries.
  destruct (insert_slot 0 l ip None) eqn:E; [|done]. exfalso. apply Hr.
  apply insert_slot_room; [done|]. by rewrite E.
Qed.

(** ** The queue of requests *)

Lemma find_req_some ip l r : find_req ip l = Some r → r ∈ l ∧ req_ip r = ip.
Proof.
  induction l as [|r0 l IH]; [done|]. simpl. destruct (Z.eqb_spec (req_ip r0) ip).
  - intros [= ->]. split; [left|done].
  - intros H. destruct (IH H). split; [by right|done].
Qed.

Lemma find_req_none ip l : find_req ip l = None ↔ ip ∉ req_ip <$> l.
Proof.
  induction l as [|r0 l IH]; simpl.
  - split; [intros _ H; by apply elem_of_nil in H|done].
  - rewrite not_elem_of_cons. destruct (Z.eqb_spec (req_ip r0) ip); [naive_solver|].
    rewrite IH. naive_solver.
Qed.

Lemma req_at_some a l r : req_at a l = Some r → r ∈ l ∧ req_addr r = a.
Proof.
  induction l as [|r0 l IH]; [done|]. simpl. destruct (Nat.eqb_spec (req_addr r0) a).
  - intros [= ->]. split; [left|done].
  - intros H. destruct (IH H). split; [by right|done].
Qed.

Lemma req_at_elem a l r :
  NoDup (req_addr <$> l) → r ∈ l → req_addr r = a → req_at a l = Some r.
Proof.
  intros Hn Hr <-. induction l as [|r0 l IH]; [by apply elem_of_nil in Hr|].
  csimpl in *. apply list.NoDup_cons in Hn as [Hni Hn]. apply elem_of_cons in Hr as [->|Hr].
  - by rewrite Nat.eqb_refl.
  - destruct (Nat.eqb_spec (req_addr r0) (req_addr r)) as [He|]; [|by apply IH].
    exfalso. apply Hni. rewrite He. by apply list_elem_of_fmap_2.
Qed.

Lemma unlink_ip_spec ip l :
  NoDup (req_ip <$> l) →
  unlink_ip ip l = (find_req ip l, filter (λ r, req_ip r ≠ ip) l).
Proof.
  induction l as [|r l IH]; intros Hn; [done|]. simpl in *.
  apply list.NoDup_cons in Hn as [Hni Hn]. rewrite filter_cons.
  destruct (Z.eqb_spec (req_ip r) ip) as [He|He].
  - rewrite decide_False by naive_solver. rewrite filter_all; [done|].
    apply list.Forall_forall. intros r' Hr' He'. apply Hni. rewrite He, <- He'.
    by apply list_elem_of_fmap_2.
  - rewrite decide_True by done. by rewrite IH.
Qed.

Lemma unlink_addr_spec a l :
  NoDup (req_addr <$> l) → unlink_addr a l = filter (λ r, req_addr r ≠ a) l.
Proof.
  induction l as [|r l IH]; intros Hn; [done|]. simpl in *.
  apply list.NoDup_cons in Hn as [Hni Hn]. rewrite filter_cons.
  destruct (Nat.eqb_spec (req_addr r) a) as [He|He].
  - rewrite decide_False by naive_solver. rewrite filter_all; [done|].
    apply list.Forall_forall. intros r' Hr' He'. apply Hni. rewrite He, <- He'.
    by apply list_elem_of_fmap_2.
  - rewrite decide_True by done. by rewrite IH.
Qed.

(** What [sr_arpcache_queuereq] does to the cache when it returns. *)
Definition queue_packet (ip : Z) (p : sr_packet) (c : sr_arpcache) : sr_arpcache :=
  match find_req ip (requests c) with
  | Some r => update_req (req_addr r) (push_packet p) c
  | None =>
      mk_cache (entries c) (mk_req (next_addr c) ip 0 0 [p] :: requests c)
        (S (next_addr c))
  end.

Definition queue_addr (ip : Z) (c : sr_arpcache) : nat :=
  match find_req ip (requests c) with
  | Some r => req_addr r
  | None => next_addr c
  end.

Lemma update_req_absent a f c :
  a ∉ req_addr <$> requests c → update_req a f c = c.
Proof.
  intros Ha. unfold update_req. destruct c as [es rs n]. simpl in *. f_equal.
  induction rs as [|r rs IH]; [done|]. simpl in *. apply not_elem_of_cons in Ha as [Hr Ha].
  destruct (Nat.eqb_spec (req_addr r) a); [congruence|]. f_equal. by apply IH.
Qed.

Lemma cache_wf_fresh_addr c : cache_wf c → next_addr c ∉ req_addr <$> requests c.
Proof.
  intros Hc Hin. apply list_elem_of_fmap in Hin as (r & He & Hr).
  pose proof (cache_wf_fresh c Hc) as Hf. rewrite list.Forall_forall in Hf.
  specialize (Hf r Hr). lia.
Qed.

Lemma update_req_push f ip c :
  cache_wf c →
  update_req (next_addr c) f (push_req ip c) =
    mk_cache (entries c) (f (mk_req (next_addr c) ip 0 0 []) :: requests c)
      (S (next_addr c)).
Proof.
  intros Hc. pose proof (update_req_absent _ f _ (cache_wf_fresh_addr _ Hc)) as Hu.
  unfold update_req, push_req in *. destruct c as [es rs na]. csimpl in *.
  injection Hu as Hu. by rewrite Nat.eqb_refl, Hu.
Qed.

Lemma sr_arpcache_queuereq_run ip packet len iface e s :
  cache_wf (cache s) → mallocs_checked e → frame_ok packet len → 0 < len →
  cstr_ok sr_IFACE_NAMELEN iface →
  ∃ n, strncpy sr_IFACE_NAMELEN iface = Some n ∧
    sr_arpcache_queuereq ip (Some packet) len (Some iface) e s =
      Ok (queue_addr ip (cache s),
          set_cache (queue_packet ip (mk_packet packet len n) (cache s)) s).
Proof.
  intros Hc Hm (Hb & Hl & _) Hpos Hi.
  destruct (strncpy_spec _ _ Hi) as (n & Hn & _). exists n. split; [done|].
  assert (∀ a, a ∈ unchecked_allocs → ∀ s, malloc_unchecked a e s = Ok (tt, s)) as Hok.
  { intros a Ha s'. unfold malloc_unchecked, malloc, ask, mbind, M_bind. simpl.
    by rewrite (Hm a Ha). }
  unfold sr_arpcache_queuereq, queue_addr, queue_packet.
  rewrite (proj2 (Z.eqb_neq len 0)) by lia.
  rewrite Hn, load_bytes_ok by lia.
  unfold gets, modify_cache, modify, mbind, M_bind.
  destruct (find_req ip (requests (cache s))) as [r|] eqn:E; simpl;
    rewrite slice_all by lia;
    repeat (rewrite Hok by (unfold unchecked_allocs; set_solver); simpl).
  - done.
  - by rewrite update_req_push.
Qed.

(** ** Preservation of the well-formedness *)

(** An update of one request that keeps its address and its IP. *)
Lemma update_req_wf a f c :
  cache_wf c →
  (∀ r, r ∈ requests c → req_addr r = a →
     req_addr (f r) = a ∧ req_ip (f r) = req_ip r ∧ req_wf (f r)) →
  cache_wf (update_req a f c).
Proof.
  intros [H1 H2 H3 H4 H5 H6 H7] Hf.
  set (g := λ r, if (req_addr r =? a)%nat then f r else r).
  assert (∀ r, r ∈ requests c → req_addr (g r) = req_addr r ∧ req_ip (g r) = req_ip r) as Hg.
  { intros r Hr. unfold g. destruct (Nat.eqb_spec (req_addr r) a) as [He|]; [|done].
    destruct (Hf r Hr He) as (? & ? & _). split; congruence. }
  constructor; simpl; try done.
  - apply list.Forall_forall. intros r' Hr'. apply list_elem_of_fmap in Hr' as (r & -> & Hr).
    destruct (Nat.eqb_spec (req_addr r) a) as [He|]; [by apply Hf|].
    rewrite list.Forall_forall in H4. auto.
  - rewrite <- list_fmap_compose, (list_fmap_ext _ req_ip); [done|].
    intros i r Hi. apply Hg. by eapply list_elem_of_lookup_2.
  - rewrite <- list_fmap_compose, (list_fmap_ext _ req_addr); [done|].
    intros i r Hi. apply Hg. by eapply list_elem_of_lookup_2.
  - apply list.Forall_forall. intros r' Hr'. apply list_elem_of_fmap in Hr' as (r & -> & Hr).
    fold (g r). rewrite (proj1 (Hg r Hr)). rewrite list.Forall_forall in H7. auto.
Qed.

Lemma push_packet_wf p r : pkt_wf p → req_wf r → req_wf (push_packet p r).
Proof. intros Hp [? ? ? ?]. constructor; simpl; auto. Qed.

Lemma queue_packet_wf ip p c :
  cache_wf c → is_u32 ip → pkt_wf p → cache_wf (queue_packet ip p c).
Proof.
  intros Hc Hip Hp. unfold queue_packet. destruct (find_req ip (requests c)) as [r|] eqn:E.
  - apply update_req_wf; [done|]. intros r' Hr' <-. split; [done|]. split; [done|].
    apply push_packet_wf; [done|]. pose proof (cache_wf_requests c Hc) as Hr.
    rewrite list.Forall_forall in Hr. auto.
  - apply find_req_none in E. pose proof (cache_wf_fresh_addr c Hc) as Hfr.
    destruct Hc as [H1 H2 H3 H4 H5 H6 H7]. constructor; csimpl; try done.
    + constructor; [|done]. constructor; simpl; [done|lia|auto|done].
    + by apply list.NoDup_cons.
    + by apply list.NoDup_cons.
    + constructor; [simpl; lia|]. eapply list.Forall_impl; [exact H7|]. simpl. lia.
Qed.

Lemma cache_wf_filter_reqs (P : sr_arpreq → Prop) `{∀ r, Decision (P r)} c :
  cache_wf c → cache_wf (mk_cache (entries c) (filter P (requests c)) (next_addr c)).
Proof.
  intros [H1 H2 H3 H4 H5 H6 H7].
  assert (filter P (requests c) `sublist_of` requests c) as Hs by apply sublist_filter.
  constructor; simpl; try done.
  - by apply Forall_filter.
  - eapply sublist_NoDup; [exact H5|by apply fmap_sublist].
  - eapply sublist_NoDup; [exact H6|by apply fmap_sublist].
  - by apply Forall_filter.
Qed.

Lemma insert_wf c mac ip t rs :
  cache_wf c → mac_ok mac → is_u32 ip →
  cache_wf (mk_cache (entries c) rs (next_addr c)) →
  cache_wf (mk_cache (insert_entries (entries c) mac ip t) rs (next_addr c)).
Proof.
  intros Hc Hm Hip [H1 H2 H3 H4 H5 H6 H7]. constructor; simpl in *; try done.
  - by rewrite insert_entries_length.
  - by apply insert_entries_wf.
  - by apply insert_entries_unique.
Qed.

Lemma expire_wf t c : cache_wf c → cache_wf (expire_entries t c).
Proof.
  intros [H1 H2 H3 H4 H5 H6 H7]. constructor; simpl; try done.
  - by rewrite length_fmap.
  - apply list.Forall_fmap. eapply list.Forall_impl; [exact H2|]. intros x [? ?].
    unfold expire. simpl. by case_match.
  - intros i j x y Hi Hj Hx Hy Hxy.
    apply list_lookup_fmap_Some in Hi as (x0 & -> & Hi).
    apply list_lookup_fmap_Some in Hj as (y0 & -> & Hj).
    unfold expire in *. repeat case_match; try done. by eapply H3.
Qed.

Lemma zero_entry_wf : entry_wf zero_entry.
Proof. split; [split; [done|by apply bytes_ok_replicate]|done]. Qed.

Lemma init_cache_wf n : cache_wf (mk_cache (replicate SR_ARPCACHE_SZ zero_entry) [] n).
Proof.
  constructor; cbn [entries requests next_addr].
  - apply length_replicate.
  - apply list.Forall_replicate, zero_entry_wf.
  - intros i j x y Hi _ Hx. by apply list_elem_of_lookup_2, elem_of_replicate in Hi as [-> _].
  - constructor.
  - constructor.
  - constructor.
  - constructor.
Qed.

(** ** Runs of the operations *)

Lemma sr_arpcache_lookup_run ip e s :
  cache_wf (cache s) → mallocs_checked e →
  sr_arpcache_lookup ip e s = Ok (arp_map (entries (cache s)) !! ip, s).
Proof.
  intros Hc Hm. unfold sr_arpcache_lookup, gets, malloc, ask, mbind, M_bind.
  rewrite lookup_loop_map by exact (cache_wf_unique _ Hc).
  destruct (arp_map _ !! ip); [|done]. simpl.
  by rewrite Hm by (unfold unchecked_allocs; set_solver).
Qed.

(** The cache after an insertion: the mapping is there if there was room, and
    no request for the address is on the queue. *)
Definition insert_cache (mac : buf) (ip t : Z) (c : sr_arpcache) : sr_arpcache :=
  mk_cache (insert_entries (entries c) mac ip t)
    (filter (λ r, req_ip r ≠ ip) (requests c)) (next_addr c).

Lemma sr_arpcache_insert_run mac ip e s :
  cache_wf (cache s) → length mac = ETHER_ADDR_LEN →
  sr_arpcache_insert mac ip e s =
    Ok (find_req ip (requests (cache s)), set_cache (insert_cache mac ip (now e) (cache s)) s).
Proof.
  intros Hc Hm. unfold sr_arpcache_insert, ask, gets, modify_cache, modify, mbind, M_bind.
  rewrite load_bytes_ok, slice_all by lia. simpl.
  by rewrite unlink_ip_spec by exact (cache_wf_req_ips _ Hc).
Qed.

Lemma insert_cache_wf mac ip t c :
  cache_wf c → mac_ok mac → is_u32 ip → cache_wf (insert_cache mac ip t c).
Proof.
  intros Hc Hm Hip. apply insert_wf; try done. by apply cache_wf_filter_reqs.
Qed.

Definition remove_req (a : nat) (c : sr_arpcache) : sr_arpcache :=
  mk_cache (entries c) (filter (λ r, req_addr r ≠ a) (requests c)) (next_addr c).

Lemma sr_arpreq_destroy_run a e s :
  cache_wf (cache s) →
  sr_arpreq_destroy (Some a) e s = Ok (tt, set_cache (remove_req a (cache s)) s).
Proof.
  intros Hc. unfold sr_arpreq_destroy, modify_cache, modify, remove_req.
  by rewrite unlink_addr_spec by exact (cache_wf_req_addrs _ Hc).
Qed.

Lemma remove_req_absent a c :
  cache_wf c → a ∉ req_addr <$> requests c → remove_req a c = c.
Proof.
  intros Hc Ha. unfold remove_req. rewrite filter_all; [by destruct c|].
  apply list.Forall_forall. intros r Hr <-. apply Ha. by apply list_elem_of_fmap_2.
Qed.

Lemma deref_req_run a r e s :
  req_at a (requests (cache s)) = Some r → deref_req a e s = Ok (r, s).
Proof. intros H. unfold deref_req, gets, mbind, M_bind. by rewrite H. Qed.

(** ** The request a packet was queued behind *)

Lemma req_at_update a f c r :
  req_at a (requests c) = Some r → req_addr (f r) = a →
  req_at a (requests (update_req a f c)) = Some (f r).
Proof.
  unfold update_req. simpl. induction (requests c) as [|r0 l IH]; [done|].
  simpl. destruct (Nat.eqb_spec (req_addr r0) a) as [He|Hne]; simpl.
  - intros [= ->] Hf. by rewrite Hf, Nat.eqb_refl.
  - rewrite (proj2 (Nat.eqb_neq _ _) Hne). apply IH.
Qed.

Lemma update_update a f g c :
  (∀ r, req_addr (f r) = req_addr r) →
  update_req a g (update_req a f c) = update_req a (λ r, g (f r)) c.
Proof.
  intros Hf. unfold update_req. simpl. f_equal.
  induction (requests c) as [|r l IH]; [done|]. simpl. f_equal; [|done].
  destruct (req_addr r =? a)%nat eqn:E; [by rewrite Hf, E|by rewrite E].
Qed.

(** The number of times the address was asked for. *)
Definition times_asked (ip : Z) (c : sr_arpcache) : Z :=
  match find_req ip (requests c) with
  | Some r => req_times_sent r
  | None => 0
  end.

Lemma req_at_queued ip p c :
  cache_wf c →
  ∃ r, req_at (queue_addr ip c) (requests (queue_packet ip p c)) = Some r ∧
    req_ip r = ip ∧ req_times_sent r = times_asked ip c.
Proof.
  intros Hc. unfold queue_addr, queue_packet, times_asked.
  destruct (find_req ip (requests c)) as [r|] eqn:E.
  - pose proof (find_req_some _ _ _ E) as [Hin Hip]. exists (push_packet p r).
    split; [|done]. apply req_at_update; [|done].
    by apply req_at_elem; [apply Hc| |].
  - eexists. simpl. rewrite Nat.eqb_refl. done.
Qed.

(** An update of a request that keeps its address. *)
Lemma find_req_update a f ip l r :
  find_req ip l = Some r → (∀ r, req_ip (f r) = req_ip r) →
  find_req ip ((λ r, if (req_addr r =? a)%nat then f r else r) <$> l) =
    Some (if (req_addr r =? a)%nat then f r else r).
Proof.
  intros Hr Hf. induction l as [|r0 l IH]; [done|]. simpl in *.
  destruct (req_addr r0 =? a)%nat eqn:Ea; rewrite ?Hf; destruct (req_ip r0 =? ip).
  - injection Hr as ->. by rewrite Ea.
  - by apply IH.
  - injection Hr as ->. by rewrite Ea.
  - by apply IH.
Qed.

Lemma find_req_update_none a f ip l :
  find_req ip l = None → (∀ r, req_ip (f r) = req_ip r) →
  find_req ip ((λ r, if (req_addr r =? a)%nat then f r else r) <$> l) = None.
Proof.
  intros Hr Hf. induction l as [|r0 l IH]; [done|]. simpl in *.
  destruct (req_addr r0 =? a)%nat; rewrite ?Hf; destruct (req_ip r0 =? ip); by auto.
Qed.
