(* ===== verification/Router.v ===== *)
(** * The router ([sr_router.c])

    The handlers of a received frame, function by function.  A packet is passed
    as its buffer and its length; a function that writes into the packet it was
    lent returns the packet as it leaves it.  Buffers allocated by [malloc] and
    then wholly overwritten start as zeros. *)

From S2P Require Export Utils Send Rt ArpCache.

(** ** Lookups *)

Definition sr_is_router_ip (ip : Z) : R bool :=
  l ← gets if_list;
  mret (existsb (λ i, if_ip i =? ip) l).

Fixpoint find_mac (l : list sr_if) (mac : buf) : option (option sr_if) :=
  match l with
  | [] => Some None
  | i :: l' =>
      same ← memcmp_eq ETHER_ADDR_LEN (if_addr i) mac;
      if same : bool then Some (Some i) else find_mac l' mac
  end.

Definition sr_find_iface_by_mac (mac : buf) : R (option sr_if) :=
  l ← gets if_list;
  lift OutOfBounds (find_mac l mac).

(** [eth_hdr] is the start of [packet]. *)
Definition sr_find_icmp_source_iface (packet : buf) (ip_src : Z) : R (option sr_if) :=
  shost ← rdb 0 ether_shost packet;
  iface ← sr_find_iface_by_mac shost;
  match iface with
  | Some i => mret (Some i)
  | None =>
      dhost ← rdb 0 ether_dhost packet;
      iface ← sr_find_iface_by_mac dhost;
      match iface with
      | Some i => mret (Some i)
      | None =>
          route ← sr_find_lpm_route ip_src;
          match route with
          | None => mret None
          | Some route => sr_get_interface (rt_interface route)
          end
      end
  end.

(** ** Validation

    The checksum field is cleared for the computation and then written back. *)
Definition sr_valid_ip_packet (packet : buf) (len : Z) : R (bool * buf) :=
  if len <? Z.of_nat (eth_size + ip_size) then mret (false, packet)
  else
    hl ← rd_ip_hl eth_size packet;
    let ip_header_len := hl * 4 in
    v ← rd_ip_v eth_size packet;
    tot ← rd eth_size ip_len packet;
    if negb (v =? 4) || (ip_header_len <? Z.of_nat ip_size)
       || (len <? Z.of_nat eth_size + ip_header_len)
       || (ntohs tot <? ip_header_len)
       || (len <? Z.of_nat eth_size + ntohs tot)
    then mret (false, packet)
    else
      received_sum ← rd eth_size ip_sum packet;
      packet ← wr eth_size ip_sum 0 packet;
      computed_sum ← cksum packet eth_size ip_header_len;
      packet ← wr eth_size ip_sum received_sum packet;
      mret (received_sum =? computed_sum, packet).

(** ** ARP *)

Definition broadcast : buf := replicate ETHER_ADDR_LEN 0xff.

(** [arp_hdr] is at offset [eth_size] of [packet]. *)
Definition sr_send_arp_reply (packet : buf) (interface : cstr) : R unit :=
  let len := Z.of_nat (eth_size + arp_size) in
  ok ← malloc AllocArpReply;
  out_iface ← sr_get_interface interface;
  match ok : bool, out_iface with
  | true, Some out =>
      let reply := replicate (eth_size + arp_size) 0 in
      sha ← rdb eth_size ar_sha packet;
      reply ← wrb 0 ether_dhost sha reply;
      reply ← wrb 0 ether_shost (if_addr out) reply;
      reply ← wr 0 ether_type (htons ethertype_arp) reply;
      reply ← wr eth_size ar_hrd (htons arp_hrd_ethernet) reply;
      reply ← wr eth_size ar_pro (htons ethertype_ip) reply;
      reply ← wr eth_size ar_hln (Z.of_nat ETHER_ADDR_LEN) reply;
      reply ← wr eth_size ar_pln 4 reply;
      reply ← wr eth_size ar_op (htons arp_op_reply) reply;
      reply ← wrb eth_size ar_sha (if_addr out) reply;
      reply ← wr eth_size ar_sip (if_ip out) reply;
      reply ← wrb eth_size ar_tha sha reply;
      sip ← rd eth_size ar_sip packet;
      reply ← wr eth_size ar_tip sip reply;
      sr_send_packet reply len interface;;
      mret tt
  | _, _ => mret tt
  end.

Definition sr_send_arp_request (ip : Z) (iface : cstr) : R unit :=
  let len := Z.of_nat (eth_size + arp_size) in
  ok ← malloc AllocArpRequest;
  out_iface ← sr_get_interface iface;
  match ok : bool, out_iface with
  | true, Some out =>
      let request := replicate (eth_size + arp_size) 0 in
      request ← wrb 0 ether_dhost broadcast request;
      request ← wrb 0 ether_shost (if_addr out) request;
      request ← wr 0 ether_type (htons ethertype_arp) request;
      request ← wr eth_size ar_hrd (htons arp_hrd_ethernet) request;
      request ← wr eth_size ar_pro (htons ethertype_ip) request;
      request ← wr eth_size ar_hln (Z.of_nat ETHER_ADDR_LEN) request;
      request ← wr eth_size ar_pln 4 request;
      request ← wr eth_size ar_op (htons arp_op_request) request;
      request ← wrb eth_size ar_sha (if_addr out) request;
      request ← wr eth_size ar_sip (if_ip out) request;
      request ← wrb eth_size ar_tha (replicate ETHER_ADDR_LEN 0) request;
      request ← wr eth_size ar_tip ip request;
      sr_send_packet request len iface;;
      mret tt
  | _, _ => mret tt
  end.

(** The body of the loop over the packets of a request that was answered. *)
Definition send_queued (sha : buf) (queued_pkt : sr_packet) : R unit :=
  out_iface ← sr_get_interface (pkt_iface queued_pkt);
  match out_iface with
  | None => mret tt
  | Some out =>
      b ← wrb 0 ether_dhost sha (pkt_buf queued_pkt);
      b ← wrb 0 ether_shost (if_addr out) b;
      sr_send_packet b (pkt_len queued_pkt) (pkt_iface queued_pkt);;
      mret tt
  end.

Definition sr_cache_arp_mapping (packet : buf) : R unit :=
  sha ← rdb eth_size ar_sha packet;
  sip ← rd eth_size ar_sip packet;
  req ← sr_arpcache_insert sha sip;
  match req with
  | None => mret tt
  | Some req =>
      for_each (req_packets req) (send_queued sha);;
      sr_arpreq_destroy (Some (req_addr req))
  end.

Definition sr_handle_arp (packet : buf) (len : Z) (interface : cstr) : R unit :=
  if len <? Z.of_nat (eth_size + arp_size) then mret tt
  else
    recv_iface ← sr_get_interface interface;
    sip ← rd eth_size ar_sip packet;
    match recv_iface with
    | None => mret tt
    | Some recv =>
        if sip =? 0 then mret tt
        else
          op ← rd eth_size ar_op packet;
          tip ← rd eth_size ar_tip packet;
          if ntohs op =? arp_op_request then
            sr_cache_arp_mapping packet;;
            if tip =? if_ip recv then sr_send_arp_reply packet interface else mret tt
          else if ntohs op =? arp_op_reply then
            mine ← sr_is_router_ip tip;
            if negb mine then mret tt else sr_cache_arp_mapping packet
          else mret tt
    end.

(** ** Sending an IP packet towards its destination *)

(** An access through a pointer to a queued request. *)
Definition write_req (a : nat) (f : sr_arpreq → sr_arpreq) : R unit :=
  deref_req a;; modify_cache (update_req a f).

Definition set_req_sent (t : Z) (r : sr_arpreq) : sr_arpreq :=
  mk_req (req_addr r) (req_ip r) t (req_times_sent r) (req_packets r).

Definition incr_times_sent (r : sr_arpreq) : sr_arpreq :=
  mk_req (req_addr r) (req_ip r) (req_sent r) (u32 (req_times_sent r + 1)) (req_packets r).

(** What is done with the request the packet was queued on, after the cache's
    lock was released. *)
Definition ask_next_hop (req : nat) (iface : cstr) : R unit :=
  r ← deref_req req;
  if req_times_sent r =? 0 then
    sr_send_arp_request (req_ip r) iface;;
    e ← ask;
    write_req req (set_req_sent (now e));;
    write_req req incr_times_sent
  else mret tt.

Definition sr_send_routed_ip_packet (packet : buf) (len : Z) : R unit :=
  dst ← rd eth_size ip_dst packet;
  route ← sr_find_lpm_route dst;
  match route with
  | None => mret tt
  | Some route =>
      out_iface ← sr_get_interface (rt_interface route);
      match out_iface with
      | None => mret tt
      | Some out =>
          ok ← malloc AllocForward;
          if negb ok then mret tt
          else
            fwd ← lift OutOfBounds
              (memcpy 0 (replicate (Z.to_nat len) 0) 0 packet (Z.to_nat len));
            fwd ← wrb 0 ether_shost (if_addr out) fwd;
            dst ← rd eth_size ip_dst packet;
            let next_hop_ip := if negb (rt_gw route =? 0) then rt_gw route else dst in
            entry ← sr_arpcache_lookup next_hop_ip;
            match entry with
            | Some entry =>
                fwd ← wrb 0 ether_dhost (ent_mac entry) fwd;
                fwd ← wrb 0 ether_shost (if_addr out) fwd;
                sr_send_packet fwd len (if_name out);;
                mret tt
            | None =>
                req ← sr_arpcache_queuereq next_hop_ip (Some fwd) len (Some (if_name out));
                ask_next_hop req (if_name out)
            end
      end
  end.

(** ** ICMP *)

Definition sr_send_icmp_echo_reply (packet : buf) (len : Z) (interface : cstr) : R unit :=
  ok ← malloc AllocEchoReply;
  out_iface ← sr_get_interface interface;
  match ok : bool, out_iface with
  | true, Some out =>
      reply ← lift OutOfBounds
        (memcpy 0 (replicate (Z.to_nat len) 0) 0 packet (Z.to_nat len));
      hl ← rd_ip_hl eth_size reply;
      let ip_header_len := hl * 4 in
      let icmp := (eth_size + Z.to_nat ip_header_len)%nat in
      tot ← rd eth_size ip_len reply;
      let icmp_len := ntohs tot - ip_header_len in
      shost ← rdb 0 ether_shost packet;
      reply ← wrb 0 ether_dhost shost reply;
      reply ← wrb 0 ether_shost (if_addr out) reply;
      old_src ← rd eth_size ip_src reply;
      dst ← rd eth_size ip_dst reply;
      reply ← wr eth_size ip_src dst reply;
      reply ← wr eth_size ip_dst old_src reply;
      reply ← wr eth_size ip_ttl INIT_TTL reply;
      reply ← wr eth_size ip_sum 0 reply;
      c ← cksum reply eth_size ip_header_len;
      reply ← wr eth_size ip_sum c reply;
      reply ← wr icmp icmp_type 0 reply;
      reply ← wr icmp icmp_code 0 reply;
      reply ← wr icmp icmp_sum 0 reply;
      c ← cksum reply icmp icmp_len;
      reply ← wr icmp icmp_sum c reply;
      sr_send_packet reply len interface;;
      mret tt
  | _, _ => mret tt
  end.

(** The Ethernet and IP headers of an error, and its ICMP message with the start
    of the packet it is about. *)
Definition fill_icmp_ip (packet : buf) (out : sr_if) (old_src : Z) (reply : buf) : R buf :=
  shost ← rdb 0 ether_shost packet;
  reply ← wrb 0 ether_dhost shost reply;
  reply ← wrb 0 ether_shost (if_addr out) reply;
  reply ← wr 0 ether_type (htons ethertype_ip) reply;
  reply ← wr_ip_v eth_size 4 reply;
  reply ← wr_ip_hl eth_size (Z.of_nat ip_size / 4) reply;
  reply ← wr eth_size ip_tos 0 reply;
  reply ← wr eth_size ip_len (htons (Z.of_nat (ip_size + icmp_t11_size))) reply;
  reply ← wr eth_size ip_id 0 reply;
  reply ← wr eth_size ip_off 0 reply;
  reply ← wr eth_size ip_ttl INIT_TTL reply;
  reply ← wr eth_size ip_p ip_protocol_icmp reply;
  reply ← wr eth_size ip_src (if_ip out) reply;
  reply ← wr eth_size ip_dst old_src reply;
  reply ← wr eth_size ip_sum 0 reply;
  c ← cksum reply eth_size (Z.of_nat ip_size);
  wr eth_size ip_sum c reply.

Definition fill_icmp_data (packet : buf) (old_ip_len type code : Z) (reply : buf) : R buf :=
  let icmp := (eth_size + ip_size)%nat in
  reply ← wr icmp icmp_type type reply;
  reply ← wr icmp icmp_code code reply;
  reply ← wr icmp icmp_unused 0 reply;
  let icmp_data_len := Z.min old_ip_len (Z.of_nat ICMP_DATA_SIZE) in
  reply ← lift OutOfBounds
    (memcpy (icmp + f_off icmp_data) reply eth_size packet (Z.to_nat icmp_data_len));
  reply ← wr icmp icmp_sum 0 reply;
  c ← cksum reply icmp (Z.of_nat icmp_t11_size);
  wr icmp icmp_sum c reply.

Definition sr_send_icmp_error (packet : buf) (len : Z) (type code : Z) : R buf :=
  '(valid, packet) ← sr_valid_ip_packet packet len;
  if negb valid then mret packet
  else
    tot ← rd eth_size ip_len packet;
    let old_ip_len := ntohs tot in
    old_src ← rd eth_size ip_src packet;
    out_iface ← sr_find_icmp_source_iface packet old_src;
    match out_iface with
    | None => mret packet
    | Some out =>
        let reply_len := (eth_size + ip_size + icmp_t11_size)%nat in
        ok ← malloc AllocIcmpError;
        if negb ok then mret packet
        else
          let reply := replicate reply_len 0 in
          reply ← fill_icmp_ip packet out old_src reply;
          reply ← fill_icmp_data packet old_ip_len type code reply;
          sr_send_routed_ip_packet reply (Z.of_nat reply_len);;
          mret packet
    end.

(** ** IP *)

Definition sr_forward_ip_packet (packet : buf) (len : Z) : R buf :=
  dst ← rd eth_size ip_dst packet;
  route ← sr_find_lpm_route dst;
  match route with
  | None => sr_send_icmp_error packet len 3 0
  | Some _ => sr_send_routed_ip_packet packet len;; mret packet
  end.

(** The branch of [sr_handle_ip] for a packet to the router itself. *)
Definition handle_ip_local (packet : buf) (len : Z) (interface : cstr) (ip_header_len : Z)
    : R buf :=
  p ← rd eth_size ip_p packet;
  tot ← rd eth_size ip_len packet;
  if (p =? ip_protocol_icmp) && (ip_header_len + Z.of_nat icmp_t08_size <=? ntohs tot) then
    let icmp := (eth_size + Z.to_nat ip_header_len)%nat in
    let icmp_len := ntohs tot - ip_header_len in
    received_sum ← rd icmp icmp_sum packet;
    packet ← wr icmp icmp_sum 0 packet;
    type ← rd icmp icmp_type packet;
    echo ← (if type =? 8 then c ← cksum packet icmp icmp_len; mret (received_sum =? c)
            else mret false);
    packet ← wr icmp icmp_sum received_sum packet;
    if echo : bool then sr_send_icmp_echo_reply packet len interface;; mret packet
    else mret packet
  else if (p =? ip_protocol_tcp) || (p =? ip_protocol_udp) then
    sr_send_icmp_error packet len 3 3
  else mret packet.

Definition sr_handle_ip (packet : buf) (len : Z) (interface : cstr) : R buf :=
  '(valid, packet) ← sr_valid_ip_packet packet len;
  if negb valid then mret packet
  else
    hl ← rd_ip_hl eth_size packet;
    let ip_header_len := hl * 4 in
    dst ← rd eth_size ip_dst packet;
    mine ← sr_is_router_ip dst;
    if mine : bool then handle_ip_local packet len interface ip_header_len
    else
      ttl ← rd eth_size ip_ttl packet;
      if ttl <=? 1 then sr_send_icmp_error packet len 11 0
      else
        packet ← wr eth_size ip_ttl (u8 (ttl - 1)) packet;
        packet ← wr eth_size ip_sum 0 packet;
        c ← cksum packet eth_size ip_header_len;
        packet ← wr eth_size ip_sum c packet;
        sr_forward_ip_packet packet len.

(** ** The entry point

    Returns the lent buffer as the handlers leave it. *)
Definition sr_handlepacket (packet : buf) (len : Z) (interface : cstr) : R buf :=
  if len <? Z.of_nat eth_size then mret packet
  else
    t ← ethertype packet;
    if t =? ethertype_arp then sr_handle_arp packet len interface;; mret packet
    else if t =? ethertype_ip then sr_handle_ip packet len interface
    else mret packet.

Definition sr_init : R unit := sr_arpcache_init.
