(* ===== verification/Vns.v ===== *)
(** * The session with the server ([sr_vns_comm.c], [sr_main.c])

    Reading a command and dispatching it, the answers to the server, the
    connection, the main loop and [main].  A command is the buffer it was read
    into; its members are those of [Vnscommand]. *)

From S2P Require Export Sha1 Config Router.

(** ** Hardware information *)

(** The body of the loop of [sr_handle_hwinfo]: the keys [HWFIXEDIP],
    [HWSPEED], [HWSUBNET] and [HWMASK] and unknown keys have no effect. *)
Definition handle_hw_entry (hwinfo : buf) (i : nat) : R unit :=
  let entry := drop (mHWInfo + c_hw_entry_size * i) hwinfo in
  key ← rd 0 mKey entry;
  let value := drop (f_off hw_value) entry in
  if ntohl key =? HWINTERFACE then sr_add_interface value
  else if ntohl key =? HWETHIP then
    ip ← lift OutOfBounds (load 4 0 value); sr_set_ether_ip ip
  else if ntohl key =? HWETHER then sr_set_ether_addr value
  else mret tt.

Definition sr_handle_hwinfo (hwinfo : buf) : R Z :=
  mlen ← rd 0 mLen hwinfo;
  let num_entries := i32 (u32 (u64 (ntohl mlen - 8) / Z.of_nat c_hw_entry_size)) in
  for_each (seq 0 (Z.to_nat num_entries)) (handle_hw_entry hwinfo);;
  sr_print_if_list;;
  mret num_entries.

(** ** The routing table from the server *)

(** The characters of [rtable.]. *)
Definition rtable_prefix : list Z := [114; 116; 97; 98; 108; 101; 46].

Definition sr_handle_rtable (rtable : buf) : V bool :=
  id ← lift OutOfBounds (c_str (drop (f_off rtable_mVirtualHostID) rtable));
  if (7 + IDSIZE + 1 <? length rtable_prefix + length id + 1)%nat
  then throw (Undefined OutOfBounds)                           (* strcat overruns fn *)
  else
    mlen ← rd 0 mLen rtable;
    let n := u32 (ntohl mlen - 8 - Z.of_nat IDSIZE) in
    e ← ask;
    let fn := rtable_prefix ++ id in
    if fopen_ok e fn then
      if Z.of_nat (length rtable) <? Z.of_nat (f_off rtable_text) + n then throw (Undefined OutOfBounds)
      else write_file fn (slice (f_off rtable_text) (Z.to_nat n) rtable)
    else mret false.

(** ** Authentication *)

Definition AUTH_KEY_LEN : nat := 64.
Definition SHA1_LEN : nat := 20.
Definition auth_key_file : list Z := [97; 117; 116; 104; 95; 107; 101; 121].

(** The context on the stack, as [SHA1Reset] leaves it. *)
Definition fresh_sha1 : SHA1Context :=
  SHA1Reset (mk_sha1 [] 0 0 (replicate 64 0) 0 false false).

Definition digest_bytes (words : list Z) : buf := concat ((λ w, le_enc 4 (htonl w)) <$> words).

Definition send_buf (b : buf) : V Z := on_sr (sys_write b).

(** The reply of [len] bytes is built in the buffer [b]; [strcpy] writes the NUL
    where the digest begins. *)
Definition fill_auth_reply (len : nat) (name : list Z) (digest : list Z) (b : buf) : V buf :=
  b ← wr 0 mLen (htonl (Z.of_nat len)) b;
  b ← wr 0 mType (htonl VNS_AUTH_REPLY) b;
  b ← wr 0 usernameLen (htonl (Z.of_nat (length name))) b;
  b ← wrb 0 reply_username (name ++ [0]) b;
  lift OutOfBounds (store_bytes (f_off reply_username + length name) (digest_bytes digest) b).

Definition sr_handle_auth_request (req : buf) : V bool :=
  f ← fopen_read auth_key_file;
  match f with
  | None => mret false
  | Some fp =>
      match fgets AUTH_KEY_LEN fp with
      | ([], _) => mret false
      | (line, _) =>
          let auth_key := line ++ [0] in
          mlen ← rd 0 mLen req;
          c ← lift OutOfBounds (SHA1Input fresh_sha1 (drop (f_off request_salt) req)
                                  (Z.to_nat (u32 (ntohl mlen - Z.of_nat c_base_size))));
          c ← lift Uninitialised (SHA1Input c auth_key AUTH_KEY_LEN);
          '(ok, c) ← lift OutOfBounds (SHA1Result c);
          if negb ok then mret false
          else
            name ← on_sr (gets user);
            name ← lift OutOfBounds (c_str name);
            let len := (12 + length name + SHA1_LEN)%nat in
            ok ← on_sr (malloc AllocAuthReply);
            if negb ok then mret false
            else
              b ← fill_auth_reply len name (Message_Digest c) (replicate len 0);
              sent ← send_buf b;
              mret (sent =? Z.of_nat len)
      end
  end.

(** The user's name, and the message of a failure, are printed. *)
Definition sr_handle_auth_status (status : buf) : V bool :=
  auth_ok ← rd 0 status_auth_ok status;
  u ← on_sr (gets user);
  lift OutOfBounds (c_str u);;
  if auth_ok =? 0 then
    lift OutOfBounds (c_str (drop (f_off status_msg) status));; mret false
  else mret true.

(** ** Reading and dispatching a command *)

(** The arguments of the router's handlers: the frame behind the header, its
    length, and the interface's name. *)
Definition vns_frame (b : buf) : buf := drop c_packet_header_size b.
Definition vns_frame_len (len : Z) : Z :=
  u32 (len - Z.of_nat c_packet_ethernet_header_size + Z.of_nat eth_size).
Definition vns_interface (b : buf) : cstr := drop c_base_size b.

Definition handle_vnspacket (len : Z) (b : buf) : R unit :=
  drop_it ← sr_arp_req_not_for_us (vns_frame b) (vns_frame_len len) (vns_interface b);
  if drop_it : bool then mret tt
  else
    mlen ← rd 0 mLen b;
    sr_log_packet (vns_frame b)
      (i32 (u32 (u64 (ntohl mlen - Z.of_nat c_packet_header_size))));;
    sr_handlepacket (vns_frame b) (vns_frame_len len) (vns_interface b);;
    mret tt.

(** The [switch]: what [sr_read_from_server_expect] returns for the command.
    A message of the server that is printed must be a string. *)
Definition handle_command (command len : Z) (b : buf) : V Z :=
  if command =? VNSPACKET then on_sr (handle_vnspacket len b);; mret 1
  else if command =? VNSCLOSE then
    lift OutOfBounds (c_str (drop (f_off mErrorMessage) b));; mret 0
  else if command =? VNSBANNER then
    lift OutOfBounds (c_str (drop (f_off mBannerMessage) b));; mret 1
  else if command =? VNSHWINFO then
    on_sr (sr_handle_hwinfo b);;
    r ← on_sr sr_verify_routing_table;
    mret (if r =? 0 then 1 else -1)
  else if command =? VNS_RTABLE then
    ok ← sr_handle_rtable b; mret (if ok : bool then 1 else -1)
  else if command =? VNS_AUTH_REQUEST then
    ok ← sr_handle_auth_request b; mret (if ok : bool then 1 else -1)
  else if command =? VNS_AUTH_STATUS then
    ok ← sr_handle_auth_status b; mret (if ok : bool then 1 else -1)
  else mret 1.

(** The command's type is checked against the expected one and dispatched. *)
Definition dispatch (expected_cmd len : Z) (b : buf) : V Z :=
  c ← lift OutOfBounds (load 4 4 b);
  let command := ntohl c in
  b ← lift OutOfBounds (store 4 4 command b);
  if negb (expected_cmd =? 0) && negb (command =? expected_cmd) && negb (command =? VNSCLOSE)
  then mret (-1)
  else handle_command command len b.

(** What reading a command gives: a command of [len] bytes, or the value that is
    returned at once. *)
Inductive command :=
  | Command (len : Z) (b : buf)
  | NoCommand (ret : Z).

(** The rest of a command of [len] bytes. *)
Definition read_body (len : Z) : V command :=
  ok ← on_sr (malloc AllocCommand);
  if negb ok then mret (NoCommand (-1))
  else
    b ← lift OutOfBounds (store 4 0 (htonl len) (replicate (Z.to_nat len) 0));
    fuel ← recv_fuel;
    r ← recv_loop fuel 4 (Z.to_nat (len - 4)) 0 b;
    match r with
    | None => close_socket;; mret (NoCommand (-1))
    | Some b => mret (Command len b)
    end.

Definition read_command : V command :=
  modify next_turn;;
  fuel ← recv_fuel;
  l ← recv_loop fuel 0 4 0 (replicate 4 0);
  match l with
  | None => mret (NoCommand (-1))
  | Some l =>
      let len := i32 (ntohl (le_dec l)) in
      if (10000 <? len) || (len <? 0) then close_socket;; mret (NoCommand (-1))
      else read_body len
  end.

Definition sr_read_from_server_expect (expected_cmd : Z) : V Z :=
  c ← read_command;
  match c with
  | Command len b => dispatch expected_cmd len b
  | NoCommand ret => mret ret
  end.

Definition sr_read_from_server : V Z := sr_read_from_server_expect 0.

(** ** Connecting *)

(** The message [VNSOPEN], cleared before it is filled. *)
Definition open_message : V buf :=
  s ← on_sr (gets id);
  b ← wr 0 mLen (htonl (Z.of_nat c_open_size)) (replicate c_open_size 0);
  b ← wr 0 mType (htonl VNSOPEN) b;
  b ← wr 0 topoID (htons (topo_id s)) b;
  h ← lift OutOfBounds (strncpy IDSIZE (host s));
  b ← wrb 0 open_mVirtualHostID h b;
  u ← lift OutOfBounds (strncpy IDSIZE (user s));
  wrb 0 mUID u b.

(** The message [VNS_OPEN_TEMPLATE], every byte of which is written. *)
Definition open_template_message : V buf :=
  s ← on_sr (gets id);
  b ← wr 0 mLen (htonl (Z.of_nat c_open_template_size)) (replicate c_open_template_size 0);
  b ← wr 0 mType (htonl VNS_OPEN_TEMPLATE) b;
  t ← lift OutOfBounds (strncpy 30 (template s));
  b ← wrb 0 templateName t b;
  h ← lift OutOfBounds (strncpy IDSIZE (host s));
  wrb 0 template_mVirtualHostID h b.

(** Opening the session, and the routing table when a template was asked for. *)
Definition request_session : V Z :=
  s ← on_sr (gets id);
  t ← lift OutOfBounds (c_str (template s));
  let templated := (0 <? length t)%nat in
  b ← (if templated then open_template_message else open_message);
  n ← send_buf b;
  if negb (n =? Z.of_nat (length b)) then mret (-1)
  else if templated then
    r ← sr_read_from_server_expect VNS_RTABLE;
    mret (if r =? 1 then 0 else -1)
  else mret 0.

(** From the established connection on: authentication, then the session. *)
Definition open_session : V Z :=
  a ← sr_read_from_server_expect VNS_AUTH_REQUEST;
  if negb (a =? 1) then mret (-1)
  else
    st ← sr_read_from_server_expect VNS_AUTH_STATUS;
    if negb (st =? 1) then mret (-1) else request_session.

Definition sr_connect_to_server : V Z :=
  e ← ask;
  if negb (host_found e) then mret (-1)
  else if negb (socket_ok e) then mret (-1)
  else if negb (connect_ok e) then close_socket;; mret (-1)
  else open_session.

(** ** The program *)

(** [while (sr_read_from_server (&sr) == 1);]: every turn takes at least one
    answer of the socket. *)
Fixpoint main_loop (fuel : nat) : V unit :=
  match fuel with
  | O => throw OutOfFuel
  | S fuel' =>
      r ← sr_read_from_server;
      if r =? 1 then main_loop fuel' else mret tt
  end.

(** ** The start of the program ([sr_main.c])

    The options [main] collects from the command line.  [opt_server] and
    [opt_port] go to the network calls only. *)
Record options := mk_options {
  opt_host : list Z;
  opt_user : option (list Z);
  opt_server : list Z;
  opt_port : Z;
  opt_rtable : list Z;
  opt_template : option (list Z);
  opt_topo : Z;
  opt_logfile : option (list Z)
}.

(** [vrhost], [localhost], port 8888, the file [rtable], topology 0. *)
Definition default_options : options :=
  mk_options [118; 114; 104; 111; 115; 116] None
    [108; 111; 99; 97; 108; 104; 111; 115; 116] 8888
    [114; 116; 97; 98; 108; 101] None 0 None.

(** [atoi]: white space, a sign, decimal digits; [None] when the number is not
    an [int]. *)
Fixpoint atoi_digits (acc : Z) (l : list Z) : Z :=
  match l with
  | c :: l' => if (48 <=? c) && (c <=? 57) then atoi_digits (acc * 10 + (c - 48)) l' else acc
  | [] => acc
  end.

Definition atoi (l : list Z) : option Z :=
  let v := match skip_space l with
           | 45 :: l' => - atoi_digits 0 l'
           | 43 :: l' => atoi_digits 0 l'
           | l' => atoi_digits 0 l'
           end in
  if (- 2 ^ 31 <=? v) && (v <? 2 ^ 31) then Some v else None.

(** One turn of the loop over [getopt]: the option's letter and its argument. *)
Definition main_option (c : Z) (optarg : list Z) (o : options) : V options :=
  let '(mk_options h u sv p r t n l) := o in
  if c =? 104 then throw (Exited 0)                                        (* h *)
  else if c =? 112 then                                                    (* p *)
    p ← lift OutOfBounds (atoi optarg); mret (mk_options h u sv (u32 p) r t n l)
  else if c =? 116 then                                                    (* t *)
    n ← lift OutOfBounds (atoi optarg); mret (mk_options h u sv p r t (u32 n) l)
  else if c =? 118 then mret (mk_options optarg u sv p r t n l)            (* v *)
  else if c =? 117 then mret (mk_options h (Some optarg) sv p r t n l)     (* u *)
  else if c =? 115 then mret (mk_options h u optarg p r t n l)             (* s *)
  else if c =? 108 then mret (mk_options h u sv p r t n (Some optarg))     (* l *)
  else if c =? 114 then mret (mk_options h u sv p optarg t n l)            (* r *)
  else if c =? 84 then mret (mk_options h u sv p r (Some optarg) n l)      (* T *)
  else mret o.

Fixpoint main_options (args : list (Z * list Z)) (o : options) : V options :=
  match args with
  | [] => mret o
  | (c, optarg) :: args' => o ← main_option c optarg o; main_options args' o
  end.

Definition set_names (u h t : buf) (topo : Z) (s : sr_instance) : sr_instance :=
  mk_sr u h t topo (if_list s) (routing_table s) (cache s) (logfile s) (sent s).

Definition set_user (u : buf) (s : sr_instance) : sr_instance :=
  set_names u (host s) (template s) (topo_id s) s.
Definition set_host (h : buf) (s : sr_instance) : sr_instance :=
  set_names (user s) h (template s) (topo_id s) s.
Definition set_template (t : buf) (s : sr_instance) : sr_instance :=
  set_names (user s) (host s) t (topo_id s) s.
Definition set_topo (n : Z) (s : sr_instance) : sr_instance :=
  set_names (user s) (host s) (template s) n s.

(** [sr.user[0] = 0]: the rest of the array is what it was. *)
Definition sr_init_instance : R unit :=
  s ← gets id;
  u ← lift OutOfBounds (store_bytes 0 [0] (user s));
  h ← lift OutOfBounds (store_bytes 0 [0] (host s));
  modify (λ s, set_logfile None (set_routing_table [] (set_if_list []
    (set_names u h (template s) 0 s)))).

(** The characters of [something_silly]. *)
Definition something_silly : list Z :=
  [115; 111; 109; 101; 116; 104; 105; 110; 103; 95; 115; 105; 108; 108; 121; 0].

Definition sr_set_user : V unit :=
  e ← ask;
  u ← lift OutOfBounds
        (strncpy 32 (match passwd_name e with Some n => n ++ [0] | None => something_silly end));
  on_sr (modify (set_user u)).

(** [sr_dump_open]: [-] is the standard output. *)
Definition sr_dump_open (fname : list Z) (thiszone snaplen : Z) : V (option buf) :=
  e ← ask;
  mret (if bool_decide (fname = [45]) || fopen_ok e fname
        then Some (sf_write_header LINKTYPE_ETHERNET thiszone snaplen) else None).

Section sr_main.
Context (inet_aton : list Z → option Z).

(** The log file that [main] opens. *)
Definition open_log (o : options) : V unit :=
  match opt_logfile o with
  | None => mret tt
  | Some fname =>
      l ← sr_dump_open fname 0 PACKET_DUMP_SIZE;
      match l with
      | None => throw (Exited 1)
      | Some l => on_sr (modify (set_logfile (Some l)))
      end
  end.

(** The options that [main] puts into the instance. *)
Definition set_options (o : options) : V unit :=
  on_sr (modify (set_topo (u16 (opt_topo o))));;
  h ← lift OutOfBounds (strncpy 32 (opt_host o ++ [0]));
  on_sr (modify (set_host h));;
  (match opt_user o with
   | None => sr_set_user
   | Some u => u ← lift OutOfBounds (strncpy 32 (u ++ [0])); on_sr (modify (set_user u))
   end);;
  open_log o.

(** [main] up to the connection. *)
Definition main_setup (o : options) : V unit :=
  on_sr sr_init_instance;;
  (match opt_template o with
   | None =>
       s ← on_sr (gets id);
       t ← lift OutOfBounds (store_bytes 0 [0] (template s));
       on_sr (modify (set_template t));;
       sr_load_rt_wrap inet_aton (opt_rtable o)
   | Some name =>
       t ← lift OutOfBounds (strncpy 30 (name ++ [0]));
       on_sr (modify (set_template t))
   end);;
  set_options o.

(** [main] around its loop; [args] is what [getopt] finds on the command line.
    Both branches of the test on the name [rtable.vrhost] load the file the
    option names. *)
Definition main_around (loop : V unit) (args : list (Z * list Z)) : V Z :=
  o ← main_options args default_options;
  main_setup o;;
  u ← on_sr (gets user);
  lift OutOfBounds (c_str u);;                                 (* printed with %s *)
  r ← sr_connect_to_server;
  if r =? -1 then mret 1
  else
    sr_load_rt_wrap inet_aton (opt_rtable o);;
    on_sr sr_init;;
    loop;;
    mret 0.

(** [main]; [fuel] bounds the turns of the main loop. *)
Definition sr_main (args : list (Z * list Z)) (fuel : nat) : V Z :=
  main_around (main_loop fuel) args.
End sr_main.
