(* ===== verification/RouterSpec.v ===== *)
(** * What the router does with a frame

    Pure functions on the router's state that say, branch by branch, what each
    handler of the file Router leaves behind, and the lemmas that the handlers
    run without a fault and do exactly that: the refinement of the handlers by
    their specification.  The invariant [sr_wf] is kept by each. *)

From S2P Require Export Router.

(** ** Lookups *)

Definition is_router_ip (s : sr_instance) (ip : Z) : bool :=
  existsb (λ i, if_ip i =? ip) (if_list s).

Definition iface_by_mac (l : list sr_if) (mac : buf) : option sr_if :=
  List.find (λ i, bool_decide (if_addr i = mac)) l.

(** The interface a name argument names. *)
Definition named (s : sr_instance) (iface : cstr) : option sr_if :=
  iface_named (if_list s) (cname sr_IFACE_NAMELEN iface).

Definition icmp_source (s : sr_instance) (packet : buf) (ip : Z) : option sr_if :=
  match iface_by_mac (if_list s) (getb 0 ether_shost packet) with
  | Some i => Some i
  | None =>
      match iface_by_mac (if_list s) (getb 0 ether_dhost packet) with
      | Some i => Some i
      | None => rt ← lpm (routing_table s) ip; named s (rt_interface rt)
      end
  end.

Lemma sr_is_router_ip_run ip e s : sr_is_router_ip ip e s = Ok (is_router_ip s ip, s).
Proof. done. Qed.

Lemma sr_find_lpm_route_run ip e s :
  sr_find_lpm_route ip e s = Ok (lpm (routing_table s) ip, s).
Proof. done. Qed.

Lemma find_mac_spec l mac :
  Forall if_wf l → length mac = ETHER_ADDR_LEN → find_mac l mac = Some (iface_by_mac l mac).
Proof.
  intros Hl Hm. induction Hl as [|i l Hi _ IH]; [done|]. simpl.
  destruct (if_wf_addr _ Hi) as [Ha _].
  rewrite memcmp_eq_ok by lia. simpl. rewrite !take_ge by lia.
  by destruct (bool_decide _).
Qed.

Lemma sr_find_iface_by_mac_run mac e s :
  sr_wf s → length mac = ETHER_ADDR_LEN →
  sr_find_iface_by_mac mac e s = Ok (iface_by_mac (if_list s) mac, s).
Proof.
  intros Hs Hm. unfold sr_find_iface_by_mac, gets, mbind, M_bind.
  by rewrite find_mac_spec by (apply Hs || done).
Qed.

Lemma named_wf s iface i : sr_wf s → named s iface = Some i → if_wf i.
Proof. intros Hs. apply iface_named_wf, Hs. Qed.

Lemma named_name_printable s iface i : named s iface = Some i → printable s (if_name i).
Proof. intros H. by eapply printable_if, iface_named_elem. Qed.
#[export] Hint Resolve named_name_printable : sr.

Lemma iface_by_mac_wf l mac i : Forall if_wf l → iface_by_mac l mac = Some i → if_wf i.
Proof.
  intros Hl H%find_some. destruct H as [H%list_elem_of_In _].
  rewrite list.Forall_forall in Hl. auto.
Qed.

Lemma named_run iface e s :
  sr_wf s → cstr_ok sr_IFACE_NAMELEN iface →
  sr_get_interface iface e s = Ok (named s iface, s).
Proof. apply sr_get_interface_run. Qed.

Lemma named_core s s' iface : same_core s s' → named s' iface = named s iface.
Proof. intros H. unfold named. by rewrite (same_ifs _ _ H). Qed.

(** A name array of an interface or of a route can be passed as a string. *)
Lemma name_ok_cstr n : name_ok n → cstr_ok sr_IFACE_NAMELEN n.
Proof. intros [? _]. by left; lia. Qed.

Lemma if_name_cstr i : if_wf i → cstr_ok sr_IFACE_NAMELEN (if_name i).
Proof. intros H. by apply name_ok_cstr, if_wf_name. Qed.

Lemma rt_interface_cstr r : rt_wf r → cstr_ok sr_IFACE_NAMELEN (rt_interface r).
Proof. intros H. by apply name_ok_cstr, rt_wf_interface. Qed.

#[export] Hint Resolve named_wf if_name_cstr rt_interface_cstr name_ok_cstr : sr.

Lemma icmp_source_wf s packet ip i : sr_wf s → icmp_source s packet ip = Some i → if_wf i.
Proof.
  intros Hs. unfold icmp_source.
  destruct (iface_by_mac _ _) eqn:E1; [intros [= <-]; by eapply iface_by_mac_wf; [apply Hs|]|].
  destruct (iface_by_mac _ (getb 0 ether_dhost packet)) eqn:E2;
    [intros [= <-]; by eapply iface_by_mac_wf; [apply Hs|]|].
  destruct (lpm _ _); simpl; [|done]. by apply named_wf.
Qed.

Lemma sr_find_icmp_source_iface_run packet ip e s :
  sr_wf s → (eth_size <= length packet)%nat →
  sr_find_icmp_source_iface packet ip e s = Ok (icmp_source s packet ip, s).
Proof.
  intros Hs Hl. unfold sr_find_icmp_source_iface, icmp_source, eth_size in *.
  assert (length (getb 0 ether_shost packet) = ETHER_ADDR_LEN) by (apply length_getb; fits).
  assert (length (getb 0 ether_dhost packet) = ETHER_ADDR_LEN) by (apply length_getb; fits).
  repeat mem_step. erewrite bind_run by by apply sr_find_iface_by_mac_run.
  destruct (iface_by_mac _ _); [done|].
  repeat mem_step. erewrite bind_run by by apply sr_find_iface_by_mac_run.
  destruct (iface_by_mac _ _); [done|].
  rewrite (bind_run _ _ _ _ _ _ (sr_find_lpm_route_run _ _ _)).
  destruct (lpm _ _) as [rt|] eqn:E; [|done]. simpl. apply named_run; [done|].
  apply rt_interface_cstr. eapply lpm_wf; [apply Hs|done].
Qed.

(** A checksum over a range inside a buffer. *)
Ltac ck_step := rewrite cksum_run by (first [lia | solve [auto 40 with sr] | len]).

(** ** Valid IP packets *)

Definition ip_hlen (packet : buf) : Z := Z.land (get eth_size ip_hl_v packet) 0xf * 4.
Definition ip_total (packet : buf) : Z := ntohs (get eth_size ip_len packet).

(** The IP header of a frame. *)
Definition ip_header (packet : buf) : buf := slice eth_size (Z.to_nat (ip_hlen packet)) packet.

(** The header and the packet lie inside the frame. *)
Definition ip_format (packet : buf) : bool :=
  (Z.of_nat (eth_size + ip_size) <=? Z.of_nat (length packet)) &&
  (Z.shiftr (get eth_size ip_hl_v packet) 4 =? 4) &&
  (Z.of_nat ip_size <=? ip_hlen packet) &&
  (Z.of_nat eth_size + ip_hlen packet <=? Z.of_nat (length packet)) &&
  (ip_hlen packet <=? ip_total packet) &&
  (Z.of_nat eth_size + ip_total packet <=? Z.of_nat (length packet)).

(** The checksum the header should carry. *)
Definition ip_cksum (packet : buf) : Z :=
  cksum_of (slice eth_size (Z.to_nat (ip_hlen packet)) (set eth_size ip_sum 0 packet)).

Definition valid_ip (packet : buf) : bool :=
  ip_format packet && (get eth_size ip_sum packet =? ip_cksum packet).

(** What the format says, as arithmetic. *)
Record ip_layout (packet : buf) : Prop := {
  layout_frame : (eth_size + ip_size <= length packet)%nat;
  layout_hlen : 20 ≤ ip_hlen packet ≤ 60;
  layout_header : Z.of_nat eth_size + ip_hlen packet ≤ Z.of_nat (length packet);
  layout_total : ip_hlen packet ≤ ip_total packet < 2 ^ 16;
  layout_packet : Z.of_nat eth_size + ip_total packet ≤ Z.of_nat (length packet)
}.

Lemma ip_hlen_bound packet : 0 ≤ ip_hlen packet ≤ 60.
Proof.
  unfold ip_hlen. change 0xf with (2 ^ 4 - 1). rewrite land_ones_mod by lia.
  pose proof (Z.mod_pos_bound (get eth_size ip_hl_v packet) (2 ^ 4) ltac:(lia)).
  change (2 ^ 4) with 16 in *. lia.
Qed.

Lemma ip_total_bound packet : bytes_ok packet → is_u16 (ip_total packet).
Proof. intros H. apply ntohs_bound. by apply le_dec_u16. Qed.

Lemma ip_format_layout packet : bytes_ok packet → ip_format packet = true → ip_layout packet.
Proof.
  intros Hb H. unfold ip_format in H. bools.
  pose proof (ip_hlen_bound packet). pose proof (ip_total_bound packet Hb) as Ht.
  unfold is_u16 in *. split; unfold ip_size, eth_size in *; lia.
Qed.

Lemma valid_ip_layout packet : bytes_ok packet → valid_ip packet = true → ip_layout packet.
Proof. intros Hb [H _]%andb_prop. by apply ip_format_layout. Qed.

Lemma put_get_restore base f v b :
  bytes_ok b → fits base f b → set base f (get base f b) (set base f v b) = b.
Proof.
  intros Hb Hf. unfold set, get, fits in *.
  rewrite put_put_same by len.
  replace (le_enc (f_len f) (le_dec (slice (base + f_off f) (f_len f) b)))
    with (slice (base + f_off f) (f_len f) b); [apply put_slice_id; lia|].
  symmetry. rewrite <- (le_enc_dec (slice (base + f_off f) (f_len f) b)) by auto with sr.
  f_equal; [len|]. by rewrite le_enc_dec by auto with sr.
Qed.

(** The check leaves the packet as it was, and is [valid_ip]. *)
Lemma sr_valid_ip_packet_run packet len e s :
  frame_ok packet len → sr_valid_ip_packet packet len e s = Ok ((valid_ip packet, packet), s).
Proof.
  intros (Hb & Hl & Hmax). unfold sr_valid_ip_packet, valid_ip.
  destruct (Z.ltb_spec len (Z.of_nat (eth_size + ip_size))) as [Hlt|Hge].
  { unfold ip_format. rewrite (proj2 (Z.leb_gt _ _)) by lia. done. }
  unfold eth_size, ip_size in Hge.
  unfold rd_ip_hl, rd_ip_v, eth_size. repeat mem_step.
  fold eth_size. fold (ip_hlen packet). fold (ip_total packet).
  match goal with |- (if ?c then _ else _) _ _ = _ =>
    assert (c = negb (ip_format packet)) as -> end.
  { unfold ip_format. rewrite !negb_andb, <- !Z.ltb_antisym, Hl.
    rewrite (proj2 (Z.ltb_ge len (Z.of_nat (eth_size + ip_size)))) by done. done. }
  destruct (ip_format packet) eqn:Hf; [|done]. cbn [negb].
  apply ip_format_layout in Hf as [? ? Hh ? ?]; [|done].
  unfold eth_size in *. repeat mem_step.
  ck_step.
  repeat mem_step. rewrite put_get_restore by (done || fits). done.
Qed.

(** ** Frames *)

(** The frame with new Ethernet addresses. *)
Definition readdress (dhost shost b : buf) : buf := dhost ++ shost ++ drop 12 b.

(** An Ethernet frame with an ARP packet. *)
Definition arp_frame (dhost shost : buf) (op : Z) (sha : buf) (sip : Z) (tha : buf) (tip : Z)
    : buf :=
  dhost ++ shost ++ [8; 6] ++
  [0; 1] ++ [8; 0] ++ [6] ++ [4] ++ [0; op] ++ sha ++ le_enc 4 sip ++ tha ++ le_enc 4 tip.

(** The program of the two ARP senders, as one function of what they write. *)
Definition arp_build (dhost shost : buf) (op : Z) (sha : buf) (sip : Z) (tha : buf) (tip : Z)
    : buf :=
  set eth_size ar_tip tip (setb eth_size ar_tha tha (set eth_size ar_sip sip
    (setb eth_size ar_sha sha (set eth_size ar_op (htons op) (set eth_size ar_pln 4
    (set eth_size ar_hln (Z.of_nat ETHER_ADDR_LEN) (set eth_size ar_pro (htons ethertype_ip)
    (set eth_size ar_hrd (htons arp_hrd_ethernet) (set 0 ether_type (htons ethertype_arp)
    (setb 0 ether_shost shost (setb 0 ether_dhost dhost
      (replicate (eth_size + arp_size) 0)))))))))))).

Lemma arp_build_frame dhost shost op sha sip tha tip :
  length dhost = 6%nat → length shost = 6%nat → length sha = 6%nat → length tha = 6%nat →
  op = arp_op_request ∨ op = arp_op_reply →
  arp_build dhost shost op sha sip tha tip = arp_frame dhost shost op sha sip tha tip.
Proof.
  intros H1 H2 H3 H4 Hop. unfold arp_build, arp_frame, set, setb.
  assert (length (replicate (eth_size + arp_size) 0) = 42%nat) as Hz by done.
  revert Hz. generalize (replicate (eth_size + arp_size) 0). intros z Hz.
  cbn [Nat.add f_off f_len ether_dhost ether_shost ether_type ar_hrd ar_pro ar_hln ar_pln
       ar_op ar_sha ar_sip ar_tha ar_tip eth_size arp_size].
  rewrite put_0 by len. do 11 rewrite put_next by len.
  rewrite (drop_ge _ (length (le_enc 4 tip))) by len.
  rewrite app_nil_r, <- !app_assoc.
  assert (le_enc 2 (htons op) = [0; op]) as -> by (by destruct Hop as [-> | ->]).
  reflexivity.
Qed.

Lemma arp_frame_ok dhost shost op sha sip tha tip :
  mac_ok dhost → mac_ok shost → mac_ok sha → mac_ok tha → is_u8 op →
  length (arp_frame dhost shost op sha sip tha tip) = 42%nat ∧
  bytes_ok (arp_frame dhost shost op sha sip tha tip).
Proof.
  intros [L1 ?] [L2 ?] [L3 ?] [L4 ?] Hop. unfold ETHER_ADDR_LEN in *.
  unfold arp_frame. split; [len|bytes].
Qed.

Lemma readdress_build dhost shost b :
  length dhost = 6%nat → length shost = 6%nat → (eth_size <= length b)%nat →
  setb 0 ether_shost shost (setb 0 ether_dhost dhost b) = readdress dhost shost b.
Proof.
  intros H1 H2 H3. unfold setb, readdress, eth_size in *.
  cbn [Nat.add f_off ether_dhost ether_shost].
  rewrite put_0 by len. rewrite put_next by len.
  rewrite <- app_assoc, drop_drop. do 3 f_equal. lia.
Qed.

(** Setting the source address before is of no consequence. *)
Lemma readdress_shost dhost shost x b :
  length dhost = 6%nat → length x = 6%nat → (eth_size <= length b)%nat →
  readdress dhost shost (setb 0 ether_shost x b) = readdress dhost shost b.
Proof.
  intros H1 H2 H3. unfold readdress, setb, eth_size in *. do 2 f_equal.
  cbn [Nat.add f_off ether_shost]. rewrite put_fits by lia.
  rewrite app_assoc, drop_app_ge by len.
  replace (12 - length (take 6 b ++ x))%nat with O by len.
  rewrite drop_0. f_equal. lia.
Qed.

Lemma length_readdress dhost shost b :
  length dhost = 6%nat → length shost = 6%nat → (12 <= length b)%nat →
  length (readdress dhost shost b) = length b.
Proof. intros. unfold readdress. len. Qed.

Lemma readdress_frame dhost shost b len :
  mac_ok dhost → mac_ok shost → (eth_size <= length b)%nat → frame_ok b len →
  frame_ok (readdress dhost shost b) len ∧ (eth_size <= length (readdress dhost shost b))%nat.
Proof.
  intros [L1 ?] [L2 ?] L3 (L4 & L5 & L6). unfold ETHER_ADDR_LEN, eth_size in *.
  rewrite length_readdress by lia. split; [|lia]. split; [|split; [|done]].
  - unfold readdress. auto with sr.
  - rewrite length_readdress by lia. done.
Qed.

Lemma readdress_getb dhost shost b :
  length dhost = 6%nat → length shost = 6%nat →
  getb 0 ether_dhost (readdress dhost shost b) = dhost ∧
  getb 0 ether_shost (readdress dhost shost b) = shost.
Proof.
  intros H1 H2. unfold getb, slice, readdress. cbn [Nat.add f_off f_len ether_dhost ether_shost].
  rewrite drop_0. split.
  - by rewrite take_app_length'.
  - by rewrite drop_app_length', take_app_length'.
Qed.

(** ** ARP *)

(** The reply to the request in [packet], from the interface [out]. *)
Definition arp_reply_frame (out : sr_if) (packet : buf) : buf :=
  let sha := getb eth_size ar_sha packet in
  arp_frame sha (if_addr out) arp_op_reply (if_addr out) (if_ip out) sha
    (get eth_size ar_sip packet).

(** The broadcast request for [ip] on the interface [out]. *)
Definition arp_request_frame (out : sr_if) (ip : Z) : buf :=
  arp_frame broadcast (if_addr out) arp_op_request (if_addr out) (if_ip out)
    (replicate ETHER_ADDR_LEN 0) ip.

Definition arp_reply (e : env) (packet : buf) (iface : cstr) (s : sr_instance) : sr_instance :=
  match malloc_ok e AllocArpReply, named s iface with
  | true, Some out => send e (arp_reply_frame out packet) iface s
  | _, _ => s
  end.

Definition arp_request (e : env) (site : alloc_site) (ip : Z) (iface : cstr) (s : sr_instance)
    : sr_instance :=
  match malloc_ok e site, named s iface with
  | true, Some out => send e (arp_request_frame out ip) iface s
  | _, _ => s
  end.

(** A packet that waited for the address [sha]. *)
Definition send_waiting (e : env) (sha : buf) (s : sr_instance) (p : sr_packet) : sr_instance :=
  match named s (pkt_iface p) with
  | Some out => send e (readdress sha (if_addr out) (pkt_buf p)) (pkt_iface p) s
  | None => s
  end.

(** The sender's mapping is cached, and what waited for it is sent. *)
Definition learn (e : env) (packet : buf) (s : sr_instance) : sr_instance :=
  let sha := getb eth_size ar_sha packet in
  let sip := get eth_size ar_sip packet in
  let s1 := set_cache (insert_cache sha sip (now e) (cache s)) s in
  match find_req sip (requests (cache s)) with
  | Some req => foldl (send_waiting e sha) s1 (req_packets req)
  | None => s1
  end.

Definition handle_arp (e : env) (packet : buf) (iface : cstr) (s : sr_instance) : sr_instance :=
  if (length packet <? eth_size + arp_size)%nat then s
  else
    match named s iface with
    | None => s
    | Some recv =>
        if get eth_size ar_sip packet =? 0 then s
        else
          let op := ntohs (get eth_size ar_op packet) in
          let tip := get eth_size ar_tip packet in
          if op =? arp_op_request then
            let s1 := learn e packet s in
            if tip =? if_ip recv then arp_reply e packet iface s1 else s1
          else if op =? arp_op_reply then
            if is_router_ip s tip then learn e packet s else s
          else s
    end.

Lemma arp_reply_core e packet iface s : same_core s (arp_reply e packet iface s).
Proof.
  unfold arp_reply. destruct (malloc_ok _ _); [|done]. by destruct (named _ _); [apply send_core|].
Qed.

Lemma arp_request_core e site ip iface s : same_core s (arp_request e site ip iface s).
Proof.
  unfold arp_request. destruct (malloc_ok _ _); [|done].
  by destruct (named _ _); [apply send_core|].
Qed.

#[export] Hint Resolve arp_reply_core arp_request_core : sr.

Lemma malloc_run a e s : malloc a e s = Ok (malloc_ok e a, s).
Proof. done. Qed.

Lemma arp_build_bind {B} dhost shost op sha sip tha tip len iface out (k : R B) e s :
  sr_wf s → mallocs_checked e → cstr_ok sr_IFACE_NAMELEN iface → named s iface = Some out →
  mac_ok dhost → mac_ok shost → mac_ok sha → mac_ok tha →
  op = arp_op_request ∨ op = arp_op_reply → len = Z.of_nat (eth_size + arp_size) →
  (sr_send_packet (arp_build dhost shost op sha sip tha tip) len iface;; k) e s =
    k e (send e (arp_frame dhost shost op sha sip tha tip) iface s).
Proof.
  intros Hs Hm Hi Hout H1 H2 H3 H4 Hop ->.
  rewrite arp_build_frame by (done || apply H1 || apply H2 || apply H3 || apply H4).
  destruct (arp_frame_ok dhost shost op sha sip tha tip H1 H2 H3 H4) as [Hl Hb].
  { by destruct Hop as [-> | ->]. }
  apply sr_send_packet_bind; try done.
  - split; [done|]. rewrite Hl. done.
  - rewrite Hl. unfold eth_size. lia.
  - by eapply printable_known.
Qed.

Lemma getb_mac_ok base f b :
  f_len f = ETHER_ADDR_LEN → fits base f b → bytes_ok b → mac_ok (getb base f b).
Proof. intros Hf Hb Hok. split; [by rewrite length_getb|auto with sr]. Qed.

Lemma sr_send_arp_reply_run packet iface e s :
  sr_wf s → mallocs_checked e → cstr_ok sr_IFACE_NAMELEN iface →
  bytes_ok packet → (eth_size + arp_size <= length packet)%nat →
  sr_send_arp_reply packet iface e s = Ok (tt, arp_reply e packet iface s).
Proof.
  intros Hs Hm Hi Hb Hl. unfold sr_send_arp_reply, arp_reply.
  rewrite (bind_run _ _ _ _ _ _ (malloc_run _ _ _)).
  rewrite (bind_run _ _ _ _ _ _ (named_run _ _ _ Hs Hi)).
  destruct (malloc_ok _ _); [|done]. destruct (named s iface) as [out|] eqn:Ho; [|done].
  pose proof (if_wf_addr _ (named_wf _ _ _ Hs Ho)) as Ha. pose proof (proj1 Ha) as Hal.
  assert (mac_ok (getb eth_size ar_sha packet)) as Hsha by (apply getb_mac_ok; [done|fits|done]).
  pose proof (proj1 Hsha) as Hshal.
  repeat mem_step. eapply arp_build_bind; eauto.
Qed.

Lemma broadcast_ok : mac_ok broadcast.
Proof. split; [done|by apply bytes_ok_replicate]. Qed.

Lemma zero_mac_ok : mac_ok (replicate ETHER_ADDR_LEN 0).
Proof. split; [done|by apply bytes_ok_replicate]. Qed.

#[export] Hint Resolve broadcast_ok zero_mac_ok : sr.

Lemma sr_send_arp_request_run ip iface e s :
  sr_wf s → mallocs_checked e → cstr_ok sr_IFACE_NAMELEN iface →
  sr_send_arp_request ip iface e s = Ok (tt, arp_request e AllocArpRequest ip iface s).
Proof.
  intros Hs Hm Hi. unfold sr_send_arp_request, arp_request.
  rewrite (bind_run _ _ _ _ _ _ (malloc_run _ _ _)).
  rewrite (bind_run _ _ _ _ _ _ (named_run _ _ _ Hs Hi)).
  destruct (malloc_ok _ _); [|done]. destruct (named s iface) as [out|] eqn:Ho; [|done].
  pose proof (if_wf_addr _ (named_wf _ _ _ Hs Ho)) as Ha. pose proof (proj1 Ha) as Hal.
  repeat mem_step. eapply arp_build_bind; eauto with sr.
Qed.

Lemma send_waiting_run sha p e s :
  sr_wf s → mallocs_checked e → mac_ok sha → pkt_wf p →
  send_queued sha p e s = Ok (tt, send_waiting e sha s p) ∧ sr_wf (send_waiting e sha s p).
Proof.
  intros Hs Hm Hsha [Hb Hl Hmax Hmin Hn]. unfold send_queued, send_waiting.
  rewrite (bind_run _ _ _ _ _ _ (named_run _ _ _ Hs (name_ok_cstr _ Hn))).
  destruct (named s (pkt_iface p)) as [out|] eqn:Ho; [|done]. split; [|auto with sr].
  pose proof (if_wf_addr _ (named_wf _ _ _ Hs Ho)) as Ha.
  pose proof (proj1 Ha) as Hal. pose proof (proj1 Hsha) as Hsl.
  repeat mem_step. rewrite readdress_build by done.
  destruct (readdress_frame sha (if_addr out) (pkt_buf p) (pkt_len p)) as [Hf Hlr]; try done.
  rewrite sr_send_packet_bind by (by eapply printable_known || auto with sr). done.
Qed.

(** Everything waiting is sent, in the order of the list. *)
Lemma send_all_waiting_run sha l e s :
  sr_wf s → mallocs_checked e → mac_ok sha → Forall pkt_wf l →
  for_each l (send_queued sha) e s = Ok (tt, foldl (send_waiting e sha) s l) ∧
  sr_wf (foldl (send_waiting e sha) s l).
Proof.
  intros Hs Hm Hsha Hl.
  apply (for_each_run l _ (λ p s, send_waiting e sha s p) sr_wf); [done|].
  intros p s' Hp Hs'. rewrite list.Forall_forall in Hl. apply send_waiting_run; auto.
Qed.

Lemma send_waiting_core e sha s p : same_core s (send_waiting e sha s p).
Proof. unfold send_waiting. by destruct (named _ _); [apply send_core|]. Qed.

Lemma send_all_waiting_core e sha l s : same_core s (foldl (send_waiting e sha) s l).
Proof.
  revert s. induction l as [|p l IH]; intros s; [done|]. simpl.
  transitivity (send_waiting e sha s p); [apply send_waiting_core|apply IH].
Qed.

Lemma set_cache_wf s c : sr_wf s → cache_wf c → sr_wf (set_cache c s).
Proof. intros [? ? ?] Hc. by split. Qed.

#[export] Hint Resolve set_cache_wf insert_cache_wf : sr.

(** A request taken off the queue by the insertion is no longer on it: freeing
    it changes nothing. *)
Lemma insert_cache_absent mac ip t r c :
  cache_wf c → find_req ip (requests c) = Some r →
  req_addr r ∉ req_addr <$> requests (insert_cache mac ip t c).
Proof.
  intros Hc Hr Hin. apply find_req_some in Hr as [Hr Hip].
  apply list_elem_of_fmap in Hin as (r' & He & [Hne Hr']%list_elem_of_filter).
  assert (r' = r) as ->; [|done].
  pose proof (req_at_elem _ _ r (cache_wf_req_addrs _ Hc) Hr eq_refl) as H1.
  pose proof (req_at_elem _ _ r' (cache_wf_req_addrs _ Hc) Hr' (eq_sym He)) as H2. congruence.
Qed.

Lemma learn_run packet e s :
  sr_wf s → mallocs_checked e → bytes_ok packet → (eth_size + arp_size <= length packet)%nat →
  sr_cache_arp_mapping packet e s = Ok (tt, learn e packet s) ∧ sr_wf (learn e packet s).
Proof.
  intros Hs Hm Hb Hl. unfold sr_cache_arp_mapping, learn.
  assert (mac_ok (getb eth_size ar_sha packet)) as Hsha by (apply getb_mac_ok; [done|fits|done]).
  assert (is_u32 (get eth_size ar_sip packet)) as Hsip by by apply le_dec_u32.
  pose proof (sr_wf_cache _ Hs) as Hc.
  repeat mem_step. set (sha := getb eth_size ar_sha packet) in *.
  set (sip := get eth_size ar_sip packet) in *.
  rewrite (bind_run _ _ _ _ _ _ (sr_arpcache_insert_run sha sip e s Hc (proj1 Hsha))).
  set (s1 := set_cache (insert_cache sha sip (now e) (cache s)) s).
  assert (sr_wf s1) as Hs1 by (unfold s1; auto with sr).
  destruct (find_req sip (requests (cache s))) as [req|] eqn:E; [|done].
  pose proof (find_req_some _ _ _ E) as [Hreq _].
  pose proof (cache_wf_requests _ Hc) as Hrs. rewrite list.Forall_forall in Hrs.
  destruct (send_all_waiting_run sha (req_packets req) e s1) as [Hrun Hwf]; try done.
  { by apply req_wf_packets, Hrs. }
  split; [|done]. rewrite (bind_run _ _ _ _ _ _ Hrun).
  rewrite sr_arpreq_destroy_run by apply Hwf.
  pose proof (send_all_waiting_core e sha (req_packets req) s1) as Hcore.
  rewrite remove_req_absent.
  - by destruct (foldl _ s1 _).
  - apply Hwf.
  - rewrite (same_cache _ _ Hcore). by apply insert_cache_absent.
Qed.

Lemma handle_arp_run packet len iface e s :
  sr_wf s → mallocs_checked e → cstr_ok sr_IFACE_NAMELEN iface → frame_ok packet len →
  sr_handle_arp packet len iface e s = Ok (tt, handle_arp e packet iface s) ∧
  sr_wf (handle_arp e packet iface s).
Proof.
  intros Hs Hm Hi (Hb & Hl & Hmax). unfold sr_handle_arp, handle_arp.
  destruct (Nat.ltb_spec (length packet) (eth_size + arp_size)) as [Hlt|Hge].
  { by rewrite (proj2 (Z.ltb_lt _ _)) by lia. }
  rewrite (proj2 (Z.ltb_ge _ _)) by lia.
  rewrite (bind_run _ _ _ _ _ _ (named_run _ _ _ Hs Hi)).
  repeat mem_step. destruct (named s iface) as [recv|]; [|done].
  destruct (_ =? 0); [done|]. repeat mem_step.
  destruct (learn_run packet e s Hs Hm Hb Hge) as [Hrun Hwf].
  destruct (_ =? arp_op_request).
  - rewrite (bind_run _ _ _ _ _ _ Hrun). destruct (_ =? if_ip recv); [|done].
    rewrite sr_send_arp_reply_run by done. split; [done|].
    by rewrite <- arp_reply_core.
  - destruct (_ =? arp_op_reply); [|done].
    erewrite bind_run by apply sr_is_router_ip_run.
    by destruct (is_router_ip _ _).
Qed.

(** ** Sending an IP packet towards its destination *)

Definition next_hop (rt : sr_rt) (packet : buf) : Z :=
  if rt_gw rt =? 0 then get eth_size ip_dst packet else rt_gw rt.

(** A request that was just sent. *)
Definition mark_sent (t : Z) (r : sr_arpreq) : sr_arpreq := incr_times_sent (set_req_sent t r).

(** The next hop [nh] is not resolved: the frame is queued behind the request
    for it, which is sent the first time. *)
Definition wait_for (e : env) (nh : Z) (frame : buf) (name : cstr) (s : sr_instance)
    : sr_instance :=
  let p := mk_packet frame (Z.of_nat (length frame)) (name_copy sr_IFACE_NAMELEN name) in
  let s1 := set_cache (queue_packet nh p (cache s)) s in
  if times_asked nh (cache s) =? 0 then
    let s2 := arp_request e AllocArpRequest nh name s1 in
    set_cache (update_req (queue_addr nh (cache s)) (mark_sent (now e)) (cache s2)) s2
  else s1.

Definition route_out (e : env) (packet : buf) (s : sr_instance) : sr_instance :=
  match lpm (routing_table s) (get eth_size ip_dst packet) with
  | None => s
  | Some rt =>
      match named s (rt_interface rt), malloc_ok e AllocForward with
      | Some out, true =>
          let nh := next_hop rt packet in
          match arp_map (entries (cache s)) !! nh with
          | Some x => send e (readdress (ent_mac x) (if_addr out) packet) (if_name out) s
          | None => wait_for e nh (setb 0 ether_shost (if_addr out) packet) (if_name out) s
          end
      | _, _ => s
      end
  end.

Lemma write_req_run a f r e s :
  req_at a (requests (cache s)) = Some r →
  write_req a f e s = Ok (tt, set_cache (update_req a f (cache s)) s).
Proof. intros H. unfold write_req. by rewrite (bind_run _ _ _ _ _ _ (deref_req_run _ _ _ _ H)). Qed.

Lemma mark_req_run a r e s :
  req_at a (requests (cache s)) = Some r → req_addr r = a →
  (write_req a (set_req_sent (now e));; write_req a incr_times_sent) e s =
    Ok (tt, set_cache (update_req a (mark_sent (now e)) (cache s)) s).
Proof.
  intros Hr Ha. rewrite (bind_run _ _ _ _ _ _ (write_req_run _ _ _ _ _ Hr)).
  erewrite write_req_run by (apply req_at_update; [exact Hr|done]).
  cbn [cache set_cache]. by rewrite update_update.
Qed.

Lemma req_at_addr a l r : req_at a l = Some r → req_addr r = a.
Proof. intros H. by destruct (req_at_some _ _ _ H). Qed.

Lemma mark_sent_wf t r : req_times_sent r = 0 → req_wf r → req_wf (mark_sent t r).
Proof.
  intros H0 [? ? ? ?]. constructor; simpl; try done. rewrite H0. by split.
Qed.

Lemma arp_request_cache e site ip iface s : cache (arp_request e site ip iface s) = cache s.
Proof. apply arp_request_core. Qed.

(** A copy of a frame with another source address can wait in the queue. *)
Lemma waiting_pkt_wf frame len name :
  frame_ok frame len → (eth_size <= length frame)%nat → name_ok name →
  pkt_wf (mk_packet frame len (name_copy sr_IFACE_NAMELEN name)).
Proof.
  intros (Hb & Hl & Hmax) Hmin Hn. unfold name_copy.
  destruct (strncpy_spec sr_IFACE_NAMELEN name) as (d & Hd & Hld & _); [by apply name_ok_cstr|].
  rewrite Hd. constructor; simpl; try done. split; [done|].
  eapply strncpy_bytes_ok; [done|apply Hn].
Qed.

Lemma wait_for_run nh frame len out e s :
  sr_wf s → mallocs_checked e → frame_ok frame len → (eth_size <= length frame)%nat →
  if_wf out → is_u32 nh →
  (req ← sr_arpcache_queuereq nh (Some frame) len (Some (if_name out));
   ask_next_hop req (if_name out)) e s = Ok (tt, wait_for e nh frame (if_name out) s) ∧
  sr_wf (wait_for e nh frame (if_name out) s).
Proof.
  intros Hs Hm Hf Hmin Ho Hnh. pose proof (if_name_cstr _ Ho) as Hn.
  pose proof (sr_wf_cache _ Hs) as Hc. unfold wait_for.
  destruct (sr_arpcache_queuereq_run nh frame len (if_name out) e s) as (n & Hcopy & Hrun);
    try done.
  { destruct Hf as (_ & Hl & _). unfold eth_size in Hmin. lia. }
  rewrite (bind_run _ _ _ _ _ _ Hrun). clear Hrun.
  pose proof (waiting_pkt_wf frame len (if_name out) Hf Hmin (if_wf_name _ Ho)) as Hp.
  unfold name_copy in *. rewrite Hcopy in *. simpl default in *.
  rewrite (proj1 (proj2 Hf)). set (p := mk_packet frame len n) in *.
  set (a := queue_addr nh (cache s)).
  set (s1 := set_cache (queue_packet nh p (cache s)) s).
  assert (sr_wf s1) as Hs1 by (unfold s1; apply set_cache_wf, queue_packet_wf; done).
  destruct (req_at_queued nh p (cache s) Hc) as (r & Hr & Hip & Ht).
  unfold ask_next_hop.
  rewrite (bind_run _ _ _ _ _ _ (deref_req_run a r e s1 Hr)). rewrite Ht, Hip.
  destruct (Z.eqb_spec (times_asked nh (cache s)) 0) as [H0|]; [|done].
  rewrite (bind_run _ _ _ _ _ _ (sr_send_arp_request_run nh (if_name out) e s1 Hs1 Hm Hn)).
  set (s2 := arp_request e AllocArpRequest nh (if_name out) s1).
  assert (cache s2 = cache s1) as Hc2 by apply arp_request_cache.
  rewrite (bind_run ask _ e s2 e s2 eq_refl).
  rewrite (mark_req_run a r) by (rewrite ?Hc2; done || by eapply req_at_addr).
  split; [done|]. apply set_cache_wf.
  - unfold s2. by rewrite <- arp_request_core.
  - rewrite Hc2. apply update_req_wf; [apply Hs1|]. intros r' Hr' Ha'.
    split; [done|]. split; [done|]. apply mark_sent_wf.
    + pose proof (req_at_elem a _ r' (cache_wf_req_addrs _ (sr_wf_cache _ Hs1)) Hr' Ha') as H1.
      assert (Some r' = Some r) as [= ->] by (rewrite <- H1; exact Hr). by rewrite Ht.
    + pose proof (cache_wf_requests _ (sr_wf_cache _ Hs1)) as Hrs.
      rewrite list.Forall_forall in Hrs. auto.
Qed.

Lemma setb_frame base f bs b len :
  frame_ok b len → bytes_ok bs → frame_ok (setb base f bs b) len.
Proof. intros (H1 & H2 & H3) Hbs. split; [auto with sr|]. by rewrite length_setb. Qed.

Lemma set_frame base f v b len : frame_ok b len → frame_ok (set base f v b) len.
Proof. intros (H1 & H2 & H3). split; [auto with sr|]. by rewrite length_set. Qed.

#[export] Hint Resolve setb_frame set_frame : sr.

(** A copy of a whole packet. *)
Lemma copy_packet {E S} packet len :
  Z.of_nat (length packet) = len →
  lift (E:=E) (S:=S) OutOfBounds (memcpy 0 (replicate (Z.to_nat len) 0) 0 packet (Z.to_nat len)) =
    mret packet.
Proof.
  intros Hl. rewrite memcpy_ok by len. rewrite slice_all by lia.
  rewrite put_0 by len. rewrite drop_ge by len. by rewrite app_nil_r.
Qed.

Lemma next_hop_u32 rt packet : rt_wf rt → bytes_ok packet → is_u32 (next_hop rt packet).
Proof.
  intros Hr Hb. unfold next_hop. destruct (_ =? 0); [by apply le_dec_u32|apply Hr].
Qed.

Lemma arp_map_wf c ip x : cache_wf c → arp_map (entries c) !! ip = Some x → entry_wf x.
Proof.
  intros Hc H. apply arp_map_lookup in H as (i & Hi & _); [|exact (cache_wf_unique _ Hc)].
  pose proof (cache_wf_entries _ Hc) as He. rewrite list.Forall_forall in He.
  apply He. by eapply list_elem_of_lookup_2.
Qed.

Lemma route_out_run packet len e s :
  sr_wf s → mallocs_checked e → frame_ok packet len → (eth_size + ip_size <= length packet)%nat →
  sr_send_routed_ip_packet packet len e s = Ok (tt, route_out e packet s) ∧
  sr_wf (route_out e packet s).
Proof.
  intros Hs Hm Hf Hl. unfold sr_send_routed_ip_packet, route_out.
  assert (eth_size <= length packet)%nat as Hle by lia.
  repeat mem_step. erewrite bind_run by apply sr_find_lpm_route_run.
  destruct (lpm _ _) as [rt|] eqn:Ert; [|done].
  assert (rt_wf rt) as Hrt by (eapply lpm_wf; [apply Hs|done]).
  erewrite bind_run by (apply named_run; auto with sr).
  destruct (named s (rt_interface rt)) as [out|] eqn:Eo; [|done].
  pose proof (named_wf _ _ _ Hs Eo) as Ho. pose proof (if_wf_addr _ Ho) as Ha.
  pose proof (proj1 Ha) as Hal. pose proof (proj2 Ha).
  erewrite bind_run by apply malloc_run. destruct (malloc_ok e AllocForward); [|done].
  cbn [negb]. rewrite copy_packet by apply Hf. repeat mem_step.
  replace (if negb (rt_gw rt =? 0) then rt_gw rt else get eth_size ip_dst packet)
    with (next_hop rt packet) by (unfold next_hop; by destruct (_ =? 0)).
  rewrite (bind_run _ _ _ _ _ _ (sr_arpcache_lookup_run _ e s (sr_wf_cache _ Hs) Hm)).
  destruct (arp_map _ !! _) as [x|] eqn:Ex.
  - pose proof (entry_wf_mac _ (arp_map_wf _ _ _ (sr_wf_cache _ Hs) Ex)) as Hx.
    pose proof (proj1 Hx). repeat mem_step.
    rewrite readdress_build, readdress_shost by (done || by rewrite length_setb).
    destruct (readdress_frame (ent_mac x) (if_addr out) packet len) as [Hf' Hl']; try done.
    rewrite sr_send_packet_bind by eauto with sr.
    split; [done|auto with sr].
  - apply wait_for_run; try done.
    + auto with sr.
    + by rewrite length_setb.
    + by apply next_hop_u32; [|apply Hf].
Qed.

(** ** ICMP errors *)

(** An IP header without options, of a packet that is not a fragment. *)
Definition ip_head (total p : Z) : buf :=
  [69; 0] ++ le_enc 2 (htons total) ++ [0; 0; 0; 0] ++ [INIT_TTL; p].

Definition ip_bytes (ck total p src dst : Z) : buf :=
  ip_head total p ++ le_enc 2 ck ++ le_enc 4 src ++ le_enc 4 dst.

(** An ICMP message of the errors' format. *)
Definition icmp_bytes (ck type code : Z) (data : buf) : buf :=
  [type; code] ++ le_enc 2 ck ++ [0; 0; 0; 0] ++ data.

(** The start of the packet an error is about, padded to the message's size. *)
Definition icmp_quote (packet : buf) : buf :=
  let n := Z.to_nat (Z.min (ip_total packet) (Z.of_nat ICMP_DATA_SIZE)) in
  slice eth_size n packet ++ replicate (ICMP_DATA_SIZE - n) 0.

Definition icmp_error_frame (out : sr_if) (packet : buf) (type code : Z) : buf :=
  let src := if_ip out in
  let dst := get eth_size ip_src packet in
  let data := icmp_quote packet in
  getb 0 ether_shost packet ++ if_addr out ++ [8; 0] ++
  ip_bytes (cksum_of (ip_bytes 0 56 ip_protocol_icmp src dst)) 56 ip_protocol_icmp src dst ++
  icmp_bytes (cksum_of (icmp_bytes 0 type code data)) type code data.

Lemma length_ip_bytes ck total p src dst : length (ip_bytes ck total p src dst) = 20%nat.
Proof. unfold ip_bytes, ip_head. len. Qed.

Lemma length_icmp_bytes ck type code data :
  length (icmp_bytes ck type code data) = (8 + length data)%nat.
Proof. unfold icmp_bytes. len. Qed.

#[export] Hint Rewrite length_ip_bytes length_icmp_bytes : len.

(** The two bit-field stores of the first header byte, on a cleared byte. *)
Lemma wr_ip_v_zero pre n :
  length pre = eth_size →
  (wr_ip_v eth_size 4 (pre ++ replicate (S n) 0) : R buf) = mret (pre ++ [64] ++ replicate n 0).
Proof.
  intros Hp. unfold wr_ip_v. repeat mem_step. unfold get, set. cbn [f_off f_len ip_hl_v].
  change (replicate (S n) 0) with ([0] ++ replicate n 0). unfold eth_size in *.
  rewrite (slice_seg _ 1) by len. by rewrite put_seg by len.
Qed.

Lemma wr_ip_hl_v pre n :
  length pre = eth_size →
  (wr_ip_hl eth_size 5 (pre ++ [64] ++ replicate n 0) : R buf) = mret (pre ++ [69] ++ replicate n 0).
Proof.
  intros Hp. unfold wr_ip_hl. repeat mem_step. unfold get, set. cbn [f_off f_len ip_hl_v].
  unfold eth_size in *. rewrite (slice_seg _ 1) by len. by rewrite put_seg by len.
Qed.

(** The other members of the header, in the order of the code. *)
Lemma ip_fill pre total p src dst :
  length pre = eth_size → is_u8 p →
  set eth_size ip_sum 0 (set eth_size ip_dst dst (set eth_size ip_src src
    (set eth_size ip_p p (set eth_size ip_ttl INIT_TTL (set eth_size ip_off 0
    (set eth_size ip_id 0 (set eth_size ip_len (htons total) (set eth_size ip_tos 0
      (pre ++ [69] ++ replicate 55 0))))))))) =
  pre ++ ip_bytes 0 total p src dst ++ replicate 36 0.
Proof.
  intros Hp Hu. unfold set. cbn [f_off f_len ip_tos ip_len ip_id ip_off ip_ttl ip_p ip_sum ip_src ip_dst].
  unfold eth_size in *. rewrite (app_assoc pre).
  rewrite (put_zeros _ _ _ _ 54) by len. rewrite (app_assoc _ (le_enc 1 0)).
  rewrite (put_zeros _ _ _ _ 52) by len. rewrite (app_assoc _ (le_enc 2 (htons total))).
  rewrite (put_zeros _ _ _ _ 50) by len. rewrite (app_assoc _ (le_enc 2 0)).
  rewrite (put_zeros _ _ _ _ 48) by len. rewrite (app_assoc _ (le_enc 2 0)).
  rewrite (put_zeros _ _ _ _ 47) by len. rewrite (app_assoc _ (le_enc 1 INIT_TTL)).
  rewrite (put_zeros _ _ _ _ 46) by len. rewrite (app_assoc _ (le_enc 1 p)).
  rewrite (put_zeros_skip _ _ _ 2 _ 40) by len.
  rewrite (app_assoc _ (replicate 2 0)), (app_assoc _ (le_enc 4 src)).
  rewrite (put_zeros _ _ _ _ 36) by len.
  rewrite <- (app_assoc _ (le_enc 4 src)), <- (app_assoc _ (replicate 2 0)).
  rewrite put_seg by len.
  assert (le_enc 1 p = [p]) as -> by (unfold le_enc; rewrite Z.mod_small by (unfold is_u8 in *; lia); done).
  unfold ip_bytes, ip_head. rewrite <- !app_assoc. done.
Qed.

Lemma icmp_fill pre type code q :
  length pre = (eth_size + ip_size)%nat → is_u8 type → is_u8 code →
  (length q <= ICMP_DATA_SIZE)%nat →
  set (eth_size + ip_size) icmp_sum 0
    (put (eth_size + ip_size + f_off icmp_data) q
    (set (eth_size + ip_size) icmp_unused 0 (set (eth_size + ip_size) icmp_code code
    (set (eth_size + ip_size) icmp_type type (pre ++ replicate 36 0))))) =
  pre ++ icmp_bytes 0 type code (q ++ replicate (ICMP_DATA_SIZE - length q) 0).
Proof.
  intros Hp Ht Hc Hq. unfold set, ICMP_DATA_SIZE in *.
  cbn [f_off f_len icmp_type icmp_code icmp_sum icmp_unused icmp_data].
  unfold eth_size, ip_size in *.
  rewrite (put_zeros _ _ _ _ 35) by len. rewrite (app_assoc _ (le_enc 1 type)).
  rewrite (put_zeros _ _ _ _ 34) by len. rewrite (app_assoc _ (le_enc 1 code)).
  rewrite (put_zeros_skip _ _ _ 2 _ 28) by len.
  rewrite (app_assoc _ (replicate 2 0)), (app_assoc _ (le_enc 4 0)).
  rewrite (put_zeros _ _ _ _ (28 - length q)) by len.
  rewrite <- (app_assoc _ (le_enc 4 0)), <- (app_assoc _ (replicate 2 0)).
  rewrite put_seg by len.
  assert (∀ x, is_u8 x → le_enc 1 x = [x]) as H1.
  { intros x Hx. unfold le_enc. rewrite Z.mod_small by (unfold is_u8 in *; lia). done. }
  rewrite !H1 by done. unfold icmp_bytes. rewrite <- !app_assoc. done.
Qed.

(** Writing the checksum into a message that was built without it. *)
Lemma set_ip_sum pre c c0 total p src dst post :
  length pre = eth_size →
  set eth_size ip_sum c (pre ++ ip_bytes c0 total p src dst ++ post) =
  pre ++ ip_bytes c total p src dst ++ post.
Proof.
  intros Hp. unfold set, ip_bytes. cbn [f_off f_len ip_sum]. unfold eth_size in *.
  rewrite <- !app_assoc. rewrite !(app_assoc pre). rewrite put_seg; [done|len|len].
Qed.

Lemma set_icmp_sum pre c type code data :
  length pre = (eth_size + ip_size)%nat →
  set (eth_size + ip_size) icmp_sum c (pre ++ icmp_bytes 0 type code data) =
  pre ++ icmp_bytes c type code data.
Proof.
  intros Hp. unfold set, icmp_bytes. cbn [f_off f_len icmp_sum]. unfold eth_size, ip_size in *.
  rewrite !(app_assoc pre). by rewrite put_seg by len.
Qed.

Definition icmp_error (e : env) (packet : buf) (type code : Z) (s : sr_instance) : sr_instance :=
  if valid_ip packet then
    match icmp_source s packet (get eth_size ip_src packet), malloc_ok e AllocIcmpError with
    | Some out, true => route_out e (icmp_error_frame out packet type code) s
    | _, _ => s
    end
  else s.

Lemma length_icmp_quote packet :
  ip_layout packet → length (icmp_quote packet) = ICMP_DATA_SIZE.
Proof.
  intros [? ? ? ? ?]. unfold icmp_quote, eth_size, ICMP_DATA_SIZE in *. len.
Qed.

Lemma ip_bytes_ok ck total p src dst : is_u8 p → bytes_ok (ip_bytes ck total p src dst).
Proof.
  intros Hp. unfold ip_bytes, ip_head. bytes.
Qed.

Lemma icmp_bytes_ok ck type code data :
  is_u8 type → is_u8 code → bytes_ok data → bytes_ok (icmp_bytes ck type code data).
Proof.
  intros Ht Hc Hd. unfold icmp_bytes. bytes.
Qed.

Lemma icmp_quote_ok packet : bytes_ok packet → bytes_ok (icmp_quote packet).
Proof.
  intros H. unfold icmp_quote. apply bytes_ok_app; [auto with sr|by apply bytes_ok_replicate].
Qed.

#[export] Hint Resolve ip_bytes_ok icmp_bytes_ok icmp_quote_ok : sr.

Lemma icmp_error_frame_ok out packet type code :
  if_wf out → bytes_ok packet → ip_layout packet → is_u8 type → is_u8 code →
  frame_ok (icmp_error_frame out packet type code) 70.
Proof.
  intros Ho Hb Hl Ht Hc. destruct (if_wf_addr _ Ho) as [Ha Hab].
  pose proof (length_icmp_quote _ Hl) as Hq. destruct Hl as [Hfr _ _ _ _].
  assert (mac_ok (getb 0 ether_shost packet)) as [Hs Hsb]
    by (apply getb_mac_ok; [done|fits|done]).
  unfold icmp_error_frame, ICMP_DATA_SIZE, ETHER_ADDR_LEN in *.
  split; [bytes|split; [len|done]].
Qed.

(** The checksum of a segment. *)
Lemma cksum_seg {E S} pre mid post off len :
  off = length pre → 0 ≤ len ≤ 131072 → Z.to_nat len = length mid → bytes_ok mid →
  cksum (E:=E) (S:=S) (pre ++ mid ++ post) off len = mret (cksum_of mid).
Proof.
  intros Ho Hl Hm Hb. unfold cksum. rewrite load_bytes_ok by (subst; len).
  rewrite lift_some, bind_mret, slice_seg by done.
  pose proof (cksum_run (E:=E) (S:=S) mid 0 len Hb Hl ltac:(lia)) as H.
  unfold cksum in H. rewrite load_bytes_ok, lift_some, bind_mret, slice_all in H by lia. done.
Qed.

Lemma eth_fill dhost shost type n :
  length dhost = 6%nat → length shost = 6%nat →
  set 0 ether_type type (setb 0 ether_shost shost (setb 0 ether_dhost dhost
    (replicate (eth_size + n) 0))) = (dhost ++ shost ++ le_enc 2 type) ++ replicate n 0.
Proof.
  intros H1 H2. unfold set, setb. cbn [f_off f_len ether_dhost ether_shost ether_type Nat.add].
  unfold eth_size. change (put 0 dhost (replicate (14 + n) 0)) with
    (put 0 dhost ([] ++ replicate (14 + n) 0)).
  rewrite (put_zeros _ _ [] _ (8 + n)), app_nil_l by len.
  rewrite (put_zeros _ _ _ _ (2 + n)) by len. rewrite (app_assoc dhost).
  rewrite (put_zeros _ _ _ _ n) by len. by rewrite <- !app_assoc.
Qed.

(** The headers of an error as the handler fills them in. *)
Definition icmp_error_head (out : sr_if) (packet : buf) : buf :=
  let src := if_ip out in
  let dst := get eth_size ip_src packet in
  (getb 0 ether_shost packet ++ if_addr out ++ [8; 0]) ++
  ip_bytes (cksum_of (ip_bytes 0 56 ip_protocol_icmp src dst)) 56 ip_protocol_icmp src dst.

Lemma length_icmp_error_head out packet :
  (eth_size <= length packet)%nat → mac_ok (if_addr out) →
  length (icmp_error_head out packet) = (eth_size + ip_size)%nat.
Proof.
  intros Hl [Ha _]. assert (length (getb 0 ether_shost packet) = 6%nat) by (apply length_getb; fits).
  unfold icmp_error_head, eth_size, ip_size, ETHER_ADDR_LEN in *. len.
Qed.

Lemma fill_icmp_ip_run packet out e s :
  (eth_size <= length packet)%nat → if_wf out →
  fill_icmp_ip packet out (get eth_size ip_src packet)
    (replicate (eth_size + ip_size + icmp_t11_size) 0) e s =
  Ok (icmp_error_head out packet ++ replicate 36 0, s).
Proof.
  intros Hl Ho. pose proof (proj1 (if_wf_addr _ Ho)) as Ha. unfold fill_icmp_ip.
  assert (length (getb 0 ether_shost packet) = 6%nat) as Hsh by (apply length_getb; fits).
  set (pre := getb 0 ether_shost packet ++ if_addr out ++ [8; 0]).
  assert (length pre = eth_size) as Hpre by (unfold pre, eth_size, ETHER_ADDR_LEN in *; len).
  repeat mem_step.
  change (replicate (eth_size + ip_size + icmp_t11_size) 0)
    with (replicate (eth_size + 56) 0).
  rewrite eth_fill by done. change (le_enc 2 (htons ethertype_ip)) with [8; 0].
  change (Z.of_nat ip_size / 4) with 5. fold pre. rewrite (wr_ip_v_zero pre 55) by done.
  rewrite bind_mret, wr_ip_hl_v by done. rewrite bind_mret.
  assert (length (pre ++ [69] ++ replicate 55 0) = 70%nat) by (unfold eth_size in *; len).
  repeat mem_step. rewrite ip_fill by done.
  set (post := replicate 36 0). set (src := if_ip out). set (dst := get eth_size ip_src packet).
  change (Z.of_nat (ip_size + icmp_t11_size)) with 56.
  assert (length (pre ++ ip_bytes 0 56 ip_protocol_icmp src dst ++ post) = 70%nat)
    by (unfold post, eth_size in *; len).
  rewrite cksum_seg by (done || unfold ip_size; bytes || len).
  repeat mem_step. rewrite set_ip_sum by done. unfold icmp_error_head. by rewrite <- app_assoc.
Qed.

Lemma fill_icmp_data_run packet head type code e s :
  bytes_ok packet → ip_layout packet → length head = (eth_size + ip_size)%nat →
  is_u8 type → is_u8 code →
  fill_icmp_data packet (ip_total packet) type code (head ++ replicate 36 0) e s =
  Ok (head ++ icmp_bytes (cksum_of (icmp_bytes 0 type code (icmp_quote packet))) type code
        (icmp_quote packet), s).
Proof.
  intros Hb Hl Hpre2 Ht Hc. unfold fill_icmp_data.
  pose proof (layout_hlen _ Hl). pose proof (layout_total _ Hl). pose proof (layout_packet _ Hl).
  set (n := Z.to_nat (ip_total packet `min` Z.of_nat ICMP_DATA_SIZE)).
  assert (n <= ICMP_DATA_SIZE /\ eth_size + n <= length packet)%nat as [Hn1 Hn2]
    by (unfold n, eth_size in *; lia).
  assert (length (head ++ replicate 36 0) = 70%nat) by (rewrite length_app, Hpre2; done).
  repeat mem_step.
  set (q := slice eth_size n packet).
  assert (length q = n) as Hq by (unfold q; len).
  rewrite memcpy_ok by (fits || (unfold ICMP_DATA_SIZE in *; fits)). fold q.
  repeat mem_step. rewrite icmp_fill by (done || lia).
  assert (q ++ replicate (ICMP_DATA_SIZE - length q) 0 = icmp_quote packet) as -> by (by rewrite Hq).
  pose proof (length_icmp_quote _ Hl) as Hql.
  rewrite <- (app_nil_r (icmp_bytes 0 _ _ _)).
  rewrite cksum_seg by (done || bytes || (unfold icmp_t11_size, ICMP_DATA_SIZE in *; len)).
  rewrite app_nil_r. repeat mem_step. by rewrite set_icmp_sum by done.
Qed.

Lemma icmp_error_run packet len type code e s :
  sr_wf s → mallocs_checked e → frame_ok packet len → is_u8 type → is_u8 code →
  sr_send_icmp_error packet len type code e s =
    Ok (packet, icmp_error e packet type code s) ∧
  sr_wf (icmp_error e packet type code s).
Proof.
  intros Hs Hm Hf Ht Hc. unfold sr_send_icmp_error, icmp_error.
  rewrite (bind_run _ _ _ _ _ _ (sr_valid_ip_packet_run packet len e s Hf)).
  destruct (valid_ip packet) eqn:Hv; [|done]. cbn [negb].
  pose proof (valid_ip_layout _ (proj1 Hf) Hv) as Hl. pose proof (layout_frame _ Hl).
  assert (eth_size <= length packet)%nat as Hle by (unfold eth_size in *; lia).
  repeat mem_step. fold (ip_total packet).
  erewrite bind_run by by apply sr_find_icmp_source_iface_run.
  destruct (icmp_source s packet (get eth_size ip_src packet)) as [out|] eqn:Eo; [|done].
  erewrite bind_run by apply malloc_run. destruct (malloc_ok e AllocIcmpError); [|done].
  cbn [negb]. pose proof (icmp_source_wf _ _ _ _ Hs Eo) as Ho.
  pose proof (length_icmp_error_head out packet Hle (if_wf_addr _ Ho)) as Hhd.
  rewrite (bind_run _ _ _ _ _ _ (fill_icmp_ip_run packet out e s Hle Ho)).
  rewrite (bind_run _ _ _ _ _ _
    (fill_icmp_data_run packet _ type code e s (proj1 Hf) Hl Hhd Ht Hc)).
  replace (icmp_error_head out packet ++ _) with (icmp_error_frame out packet type code)
    by (unfold icmp_error_frame, icmp_error_head; by rewrite <- !app_assoc).
  pose proof (icmp_error_frame_ok out packet type code Ho (proj1 Hf) Hl Ht Hc) as Hfr.
  destruct (route_out_run (icmp_error_frame out packet type code) 70 e s) as [Hrun Hwf]; try done.
  { destruct Hfr as (_ & Hlen & _). unfold eth_size, ip_size. lia. }
  split; [|done]. by rewrite (bind_run _ _ _ _ _ _ Hrun).
Qed.

(** ** Echo replies *)

Ltac dj := unfold disjoint_fields, eth_size, ip_size; simpl; lia.

(** The packet with the header checksum recomputed. *)
Definition reseal_ip (b : buf) : buf :=
  set eth_size ip_sum (ip_cksum b) (set eth_size ip_sum 0 b).

(** Where the payload of an IP packet starts. *)
Definition payload_off (b : buf) : nat := eth_size + Z.to_nat (ip_hlen b).
Definition payload_len (b : buf) : Z := ip_total b - ip_hlen b.

(** The checksum the ICMP message of an IP packet should carry. *)
Definition icmp_cksum (b : buf) : Z :=
  cksum_of (slice (payload_off b) (Z.to_nat (payload_len b)) (set (payload_off b) icmp_sum 0 b)).

Definition reseal_icmp (b : buf) : buf :=
  set (payload_off b) icmp_sum (icmp_cksum b) (set (payload_off b) icmp_sum 0 b).

(** The IP packet goes back to its source with a fresh TTL. *)
Definition turn_ip (b : buf) : buf :=
  reseal_ip (set eth_size ip_ttl INIT_TTL
    (set eth_size ip_dst (get eth_size ip_src b)
      (set eth_size ip_src (get eth_size ip_dst b) b))).

(** The message becomes an echo reply. *)
Definition turn_icmp (b : buf) : buf :=
  reseal_icmp (set (payload_off b) icmp_code 0 (set (payload_off b) icmp_type 0 b)).

Definition echo_reply_frame (out : sr_if) (packet : buf) : buf :=
  turn_icmp (turn_ip (readdress (getb 0 ether_shost packet) (if_addr out) packet)).

Definition echo_reply (e : env) (packet : buf) (iface : cstr) (s : sr_instance) : sr_instance :=
  match malloc_ok e AllocEchoReply, named s iface with
  | true, Some out => send e (echo_reply_frame out packet) iface s
  | _, _ => s
  end.

(** The members the layout is read from. *)
Lemma ip_hlen_set base f v b :
  disjoint_fields eth_size ip_hl_v base f → ip_hlen (set base f v b) = ip_hlen b.
Proof. intros H. unfold ip_hlen. by rewrite get_set_ne. Qed.

Lemma ip_total_set base f v b :
  disjoint_fields eth_size ip_len base f → ip_total (set base f v b) = ip_total b.
Proof. intros H. unfold ip_total. by rewrite get_set_ne. Qed.

Lemma get_readdress base f dhost shost b :
  length dhost = 6%nat → length shost = 6%nat → (12 <= base + f_off f)%nat → (12 <= length b)%nat →
  get base f (readdress dhost shost b) = get base f b.
Proof.
  intros H1 H2 H3 H4. unfold get, readdress, slice. do 2 f_equal.
  rewrite app_assoc, drop_app_ge by len. rewrite drop_drop. f_equal. len.
Qed.

Lemma ip_hlen_readdress dhost shost b :
  length dhost = 6%nat → length shost = 6%nat → (12 <= length b)%nat →
  ip_hlen (readdress dhost shost b) = ip_hlen b.
Proof. intros. unfold ip_hlen. by rewrite get_readdress by (done || (unfold eth_size; simpl; lia)). Qed.

Lemma ip_total_readdress dhost shost b :
  length dhost = 6%nat → length shost = 6%nat → (12 <= length b)%nat →
  ip_total (readdress dhost shost b) = ip_total b.
Proof. intros. unfold ip_total. by rewrite get_readdress by (done || (unfold eth_size; simpl; lia)). Qed.

Lemma ip_hlen_reseal b : ip_hlen (reseal_ip b) = ip_hlen b.
Proof. unfold reseal_ip. by rewrite !ip_hlen_set by dj. Qed.

Lemma ip_total_reseal b : ip_total (reseal_ip b) = ip_total b.
Proof. unfold reseal_ip. by rewrite !ip_total_set by dj. Qed.

Lemma ip_hlen_turn b : ip_hlen (turn_ip b) = ip_hlen b.
Proof. unfold turn_ip. by rewrite ip_hlen_reseal, !ip_hlen_set by dj. Qed.

Lemma ip_total_turn b : ip_total (turn_ip b) = ip_total b.
Proof. unfold turn_ip. by rewrite ip_total_reseal, !ip_total_set by dj. Qed.

Lemma length_reseal_ip b : length (reseal_ip b) = length b.
Proof. unfold reseal_ip. by rewrite !length_set. Qed.

Lemma length_turn_ip b : length (turn_ip b) = length b.
Proof. unfold turn_ip. by rewrite length_reseal_ip, !length_set. Qed.

Lemma length_reseal_icmp b : length (reseal_icmp b) = length b.
Proof. unfold reseal_icmp. by rewrite !length_set. Qed.

Lemma length_turn_icmp b : length (turn_icmp b) = length b.
Proof. unfold turn_icmp. by rewrite length_reseal_icmp, !length_set. Qed.

#[export] Hint Rewrite length_reseal_ip length_turn_ip length_reseal_icmp length_turn_icmp : len.

Lemma reseal_ip_ok b : bytes_ok b → bytes_ok (reseal_ip b).
Proof. intros. unfold reseal_ip. auto with sr. Qed.

Lemma turn_ip_ok b : bytes_ok b → bytes_ok (turn_ip b).
Proof. intros. unfold turn_ip. auto 10 using reseal_ip_ok with sr. Qed.

Lemma turn_icmp_ok b : bytes_ok b → bytes_ok (turn_icmp b).
Proof. intros. unfold turn_icmp, reseal_icmp. auto 10 with sr. Qed.

Lemma readdress_ok dhost shost b :
  bytes_ok dhost → bytes_ok shost → bytes_ok b → bytes_ok (readdress dhost shost b).
Proof. intros. unfold readdress. auto with sr. Qed.

#[export] Hint Resolve reseal_ip_ok turn_ip_ok turn_icmp_ok readdress_ok : sr.

Lemma ip_hlen_icmp b f v :
  20 ≤ ip_hlen b → ip_hlen (set (payload_off b) f v b) = ip_hlen b.
Proof. intros H. apply ip_hlen_set. unfold disjoint_fields, payload_off, eth_size. simpl. lia. Qed.

Lemma turn_ip_unfold b n :
  n = Z.to_nat (ip_hlen b) →
  turn_ip b =
    let b0 := set eth_size ip_sum 0 (set eth_size ip_ttl INIT_TTL
      (set eth_size ip_dst (get eth_size ip_src b)
        (set eth_size ip_src (get eth_size ip_dst b) b))) in
    set eth_size ip_sum (cksum_of (slice eth_size n b0)) b0.
Proof. intros ->. unfold turn_ip, reseal_ip, ip_cksum. by rewrite !ip_hlen_set by dj. Qed.

Lemma turn_icmp_unfold b icmp n :
  20 ≤ ip_hlen b → icmp = payload_off b → n = Z.to_nat (payload_len b) →
  turn_icmp b =
    let b0 := set icmp icmp_sum 0 (set icmp icmp_code 0 (set icmp icmp_type 0 b)) in
    set icmp icmp_sum (cksum_of (slice icmp n b0)) b0.
Proof.
  intros Hh -> ->. simpl. unfold turn_icmp, reseal_icmp, icmp_cksum, payload_len, payload_off.
  assert (20 ≤ ip_hlen b → ∀ f v x, ip_hlen x = ip_hlen b →
    ip_hlen (set (eth_size + Z.to_nat (ip_hlen b)) f v x) = ip_hlen b ∧
    ip_total (set (eth_size + Z.to_nat (ip_hlen b)) f v x) = ip_total x) as Hset.
  { intros H f v x Hx. rewrite ip_hlen_set, ip_total_set; [done|..];
      unfold disjoint_fields, eth_size; simpl; lia. }
  specialize (Hset Hh). pose proof (λ f v x Hx, proj1 (Hset f v x Hx)) as H1.
  pose proof (λ f v x Hx, proj2 (Hset f v x Hx)) as H2.
  by rewrite !H1, !H2 by auto.
Qed.

Lemma sr_send_icmp_echo_reply_run packet len iface e s :
  sr_wf s → mallocs_checked e → cstr_ok sr_IFACE_NAMELEN iface → frame_ok packet len →
  ip_layout packet → 8 ≤ payload_len packet →
  sr_send_icmp_echo_reply packet len iface e s = Ok (tt, echo_reply e packet iface s).
Proof.
  intros Hs Hm Hi Hf Hl Hp. unfold sr_send_icmp_echo_reply, echo_reply.
  erewrite bind_run by apply malloc_run. erewrite bind_run by by apply named_run.
  destruct (malloc_ok _ _); [|done]. destruct (named s iface) as [out|] eqn:Ho; [|done].
  destruct (if_wf_addr _ (named_wf _ _ _ Hs Ho)) as [Ha Hab].
  pose proof Hf as (Hb & Hlen & Hmax). pose proof (layout_frame _ Hl) as Hfr.
  assert (length (getb 0 ether_shost packet) = 6%nat) as Hsh by (apply length_getb; fits).
  rewrite copy_packet by done. unfold rd_ip_hl. repeat mem_step.
  fold (ip_hlen packet). fold (ip_total packet).
  rewrite readdress_build by (done || lia).
  assert (12 <= length packet)%nat as H12 by (unfold eth_size in *; lia).
  pose proof (ip_hlen_readdress _ (if_addr out) packet Hsh Ha H12) as Hh.
  pose proof (ip_total_readdress _ (if_addr out) packet Hsh Ha H12) as Ht.
  pose proof (length_readdress _ (if_addr out) packet Hsh Ha H12) as Hlr.
  assert (bytes_ok (readdress (getb 0 ether_shost packet) (if_addr out) packet)) as Hbr
    by auto with sr.
  unfold echo_reply_frame.
  set (r := readdress (getb 0 ether_shost packet) (if_addr out) packet) in *.
  destruct Hl as [_ Hl1 Hl2 Hl3 Hl4]. unfold payload_len in Hp.
  ck_step. repeat mem_step. rewrite <- (turn_ip_unfold r) by by rewrite Hh.
  assert (length (turn_ip r) = length packet) as Hlt by by rewrite length_turn_ip.
  repeat mem_step. ck_step. repeat mem_step.
  rewrite <- (turn_icmp_unfold (turn_ip r));
    [|by rewrite ip_hlen_turn, Hh; lia|by unfold payload_off; rewrite ip_hlen_turn, Hh
     |by unfold payload_len; rewrite ip_hlen_turn, ip_total_turn, Hh, Ht].
  rewrite sr_send_packet_bind; [done|done| |len|done|by eapply printable_known|done].
  split; [auto with sr|]. split; [|done]. by rewrite length_turn_icmp, Hlt.
Qed.

(** ** Received IP packets *)

(** A packet on its way: one hop less. *)
Definition dec_ttl (b : buf) : buf :=
  reseal_ip (set eth_size ip_ttl (u8 (get eth_size ip_ttl b - 1)) b).

(** An echo request with the right checksum, for the router. *)
Definition is_echo_request (b : buf) : bool :=
  (get (payload_off b) icmp_type b =? 8) &&
  (get (payload_off b) icmp_sum b =? icmp_cksum b).

(** A packet for the router itself. *)
Definition deliver (e : env) (packet : buf) (iface : cstr) (s : sr_instance) : sr_instance :=
  let p := get eth_size ip_p packet in
  if (p =? ip_protocol_icmp) && (Z.of_nat icmp_t08_size <=? payload_len packet) then
    if is_echo_request packet then echo_reply e packet iface s else s
  else if (p =? ip_protocol_tcp) || (p =? ip_protocol_udp) then icmp_error e packet 3 3 s
  else s.

Definition forward (e : env) (packet : buf) (s : sr_instance) : sr_instance :=
  match lpm (routing_table s) (get eth_size ip_dst packet) with
  | None => icmp_error e packet 3 0 s
  | Some _ => route_out e packet s
  end.

(** The new state, and the packet as the handler leaves it. *)
Definition handle_ip (e : env) (packet : buf) (iface : cstr) (s : sr_instance)
    : buf * sr_instance :=
  if negb (valid_ip packet) then (packet, s)
  else if is_router_ip s (get eth_size ip_dst packet) then
    (packet, deliver e packet iface s)
  else if get eth_size ip_ttl packet <=? 1 then (packet, icmp_error e packet 11 0 s)
  else (dec_ttl packet, forward e (dec_ttl packet) s).

Definition frame_type (packet : buf) : Z := ntohs (get 0 ether_type packet).

Definition handle_frame (e : env) (packet : buf) (iface : cstr) (s : sr_instance)
    : buf * sr_instance :=
  if (length packet <? eth_size)%nat then (packet, s)
  else if frame_type packet =? ethertype_arp then (packet, handle_arp e packet iface s)
  else if frame_type packet =? ethertype_ip then handle_ip e packet iface s
  else (packet, s).

Lemma forward_run packet len e s :
  sr_wf s → mallocs_checked e → frame_ok packet len → (eth_size + ip_size <= length packet)%nat →
  sr_forward_ip_packet packet len e s = Ok (packet, forward e packet s) ∧
  sr_wf (forward e packet s).
Proof.
  intros Hs Hm Hf Hl. unfold sr_forward_ip_packet, forward. repeat mem_step.
  erewrite bind_run by apply sr_find_lpm_route_run.
  destruct (lpm _ _); [|by apply icmp_error_run].
  destruct (route_out_run packet len e s Hs Hm Hf Hl) as [Hrun Hwf].
  by rewrite (bind_run _ _ _ _ _ _ Hrun).
Qed.

Lemma echo_reply_core e packet iface s : same_core s (echo_reply e packet iface s).
Proof.
  unfold echo_reply. destruct (malloc_ok _ _); [|done]. by destruct (named _ _); [apply send_core|].
Qed.

(** The test for an echo request puts the checksum field back. *)
Lemma deliver_run packet len iface e s :
  sr_wf s → mallocs_checked e → cstr_ok sr_IFACE_NAMELEN iface → frame_ok packet len →
  ip_layout packet →
  handle_ip_local packet len iface (ip_hlen packet) e s = Ok (packet, deliver e packet iface s) ∧
  sr_wf (deliver e packet iface s).
Proof.
  intros Hs Hm Hi Hf Hl. pose proof Hf as (Hb & Hlen & _).
  destruct (Hl) as [Hfr Hl1 Hl2 Hl3 Hl4].
  unfold handle_ip_local, deliver.
  rewrite (rd_ok eth_size ip_p), bind_mret, (rd_ok eth_size ip_len), bind_mret by fits.
  fold (ip_total packet).
  replace (ip_hlen packet + Z.of_nat icmp_t08_size <=? ip_total packet)
    with (Z.of_nat icmp_t08_size <=? payload_len packet)
    by (unfold payload_len; do 2 zcase; done || lia).
  destruct (get eth_size ip_p packet =? ip_protocol_icmp); cbn [andb].
  2:{ destruct (_ || _); [by apply icmp_error_run|done]. }
  destruct (Z.leb_spec (Z.of_nat icmp_t08_size) (payload_len packet)) as [Hp|].
  2:{ destruct (_ || _); [by apply icmp_error_run|done]. }
  unfold payload_len in *. unfold is_echo_request, icmp_cksum, payload_len.
  change (eth_size + Z.to_nat (ip_hlen packet))%nat with (payload_off packet).
  assert (payload_off packet + 8 <= length packet)%nat as Hoff
    by (unfold payload_off, icmp_t08_size, eth_size in *; lia).
  repeat mem_step. rewrite get_set_ne by dj.
  destruct (_ =? 8); cbn [andb].
  - rewrite cksum_run by (lia || (auto with sr; fail) || (unfold payload_off; len)).
    repeat mem_step. rewrite put_get_restore by (done || fits).
    destruct (_ =? cksum_of _); [|done].
    rewrite (bind_run _ _ _ _ _ _ (sr_send_icmp_echo_reply_run packet len iface e s Hs Hm Hi Hf Hl Hp)).
    split; [done|]. by rewrite <- echo_reply_core.
  - repeat mem_step. by rewrite put_get_restore by (done || fits).
Qed.

Lemma handle_ip_run packet len iface e s :
  sr_wf s → mallocs_checked e → cstr_ok sr_IFACE_NAMELEN iface → frame_ok packet len →
  sr_handle_ip packet len iface e s = Ok (handle_ip e packet iface s) ∧
  sr_wf (handle_ip e packet iface s).2.
Proof.
  intros Hs Hm Hi Hf. pose proof Hf as (Hb & Hlen & Hmax). unfold sr_handle_ip, handle_ip.
  rewrite (bind_run _ _ _ _ _ _ (sr_valid_ip_packet_run packet len e s Hf)).
  destruct (valid_ip packet) eqn:Hv; [|done]. cbn [negb].
  pose proof (valid_ip_layout _ Hb Hv) as Hl. destruct (Hl) as [Hfr Hl1 Hl2 Hl3 Hl4].
  unfold rd_ip_hl. repeat mem_step. fold (ip_hlen packet).
  erewrite bind_run by apply sr_is_router_ip_run.
  destruct (is_router_ip _ _).
  { by destruct (deliver_run packet len iface e s). }
  repeat mem_step. destruct (_ <=? 1).
  { by destruct (icmp_error_run packet len 11 0 e s). }
  repeat mem_step. ck_step. repeat mem_step.
  replace (set eth_size ip_sum _ _) with (dec_ttl packet)
    by (unfold dec_ttl, reseal_ip, ip_cksum; by rewrite ip_hlen_set by dj).
  assert (length (dec_ttl packet) = length packet) as Hld by (unfold dec_ttl; len).
  destruct (forward_run (dec_ttl packet) len e s) as [Hrun Hwf]; try done.
  { split; [unfold dec_ttl; auto with sr|]. by rewrite Hld. }
  { by rewrite Hld. }
Qed.

(** The entry point does what [handle_frame] says, on every frame. *)
Lemma handle_frame_run packet len iface e s :
  sr_wf s → mallocs_checked e → cstr_ok sr_IFACE_NAMELEN iface → frame_ok packet len →
  sr_handlepacket packet len iface e s = Ok (handle_frame e packet iface s) ∧
  sr_wf (handle_frame e packet iface s).2.
Proof.
  intros Hs Hm Hi Hf. pose proof Hf as (Hb & Hlen & _). unfold sr_handlepacket, handle_frame.
  destruct (Nat.ltb_spec (length packet) eth_size).
  { by rewrite (proj2 (Z.ltb_lt _ _)) by lia. }
  rewrite (proj2 (Z.ltb_ge _ _)) by lia. unfold ethertype. repeat mem_step.
  fold (frame_type packet). destruct (_ =? ethertype_arp).
  { destruct (handle_arp_run packet len iface e s) as [Hrun Hwf]; try done.
    by rewrite (bind_run _ _ _ _ _ _ Hrun). }
  destruct (_ =? ethertype_ip); [by apply handle_ip_run|done].
Qed.
