(* ===== verification/Packets.v ===== *)
(** * The packets the router makes

    The checksums the handlers write make packets that the handlers' own
    validation, and the reference checksum of RFC 1071, accept; and what the
    members of a forwarded packet, an echo reply and an ICMP error are. *)

From S2P Require Export RouterSpec.

(** ** Validity by the reference checksum *)

Lemma ip_header_set_sum packet v :
  ip_layout packet →
  slice eth_size (Z.to_nat (ip_hlen packet)) (set eth_size ip_sum v packet) =
  put 10 (le_enc 2 v) (ip_header packet).
Proof.
  intros [H1 H2 H3 _ _]. unfold set, ip_header, eth_size in *. cbn [f_off f_len ip_sum].
  by rewrite slice_put_inside by len.
Qed.

Lemma ip_sum_of_header packet :
  ip_layout packet → get eth_size ip_sum packet = le_dec (slice 10 2 (ip_header packet)).
Proof.
  intros [H1 H2 H3 _ _]. unfold get, ip_header, eth_size in *. cbn [f_off f_len ip_sum].
  by rewrite slice_slice by lia.
Qed.

(** A 16-bit sum of all ones is where the two checks part: the complement of
    the rest of the header is 0, which the code never computes. *)
Lemma cksum_check_arith n x :
  1 ≤ n ≤ 0xffff → 0 ≤ x ≤ 0xffff →
  x = (if n =? 0xffff then 0xffff else 0xffff - n) ↔ oc_add n x = 0xffff ∧ x ≠ 0.
Proof. intros Hn Hx. unfold oc_add. zcase; zcase; lia. Qed.

Lemma wsum_first_byte x b : bytes_ok (x :: b) → 0 < x → 0 < wsum (x :: b).
Proof.
  intros Hb Hx. pose proof (Forall_inv Hb) as H0. pose proof (Forall_inv_tail Hb) as Ht.
  unfold wsum, is_u8 in *. destruct b as [|y b]; simpl; [lia|].
  pose proof (Forall_inv Ht) as H1. pose proof (wsum_nonneg b (Forall_inv_tail Ht)) as H2.
  unfold wsum, is_u8 in *. lia.
Qed.

(** The first byte of a header with version 4 is not zero. *)
Lemma ip_header_first packet :
  bytes_ok packet → ip_format packet = true →
  ∃ x b, put 10 (le_enc 2 0) (ip_header packet) = x :: b ∧ 0 < x.
Proof.
  intros Hb Hf. pose proof (ip_format_layout _ Hb Hf) as [H1 H2 H3 _ _].
  unfold ip_format in Hf. bools.
  assert (put 10 (le_enc 2 0) (ip_header packet) !! O = ip_header packet !! O) as Hd0
    by (apply lookup_put_ne; len).
  assert (length (ip_header packet) = Z.to_nat (ip_hlen packet)) as Hl
    by (unfold ip_header, eth_size in *; len).
  destruct (put 10 (le_enc 2 0) (ip_header packet)) as [|x b] eqn:E.
  { apply (f_equal length) in E. rewrite length_put, Hl in E. simpl in E. lia. }
  exists x, b. split; [done|]. simpl in Hd0. unfold ip_header in Hd0.
  rewrite lookup_slice, Nat.add_0_r in Hd0 by lia. symmetry in Hd0.
  destruct (Z.le_gt_cases x 0) as [Hx|]; [|done].
  pose proof (Forall_lookup_1 _ _ _ _ Hb Hd0) as Hxb. unfold is_u8 in Hxb.
  assert (x = 0) as -> by lia. exfalso.
  assert (get eth_size ip_hl_v packet = 0) as Hz; [|rewrite Hz in *; done].
  unfold get, slice, eth_size in *. cbn [f_off f_len ip_hl_v Nat.add].
  destruct (drop 14 packet) as [|y l] eqn:Ed.
  - apply (f_equal length) in Ed. rewrite length_drop in Ed. simpl in Ed. lia.
  - assert (drop 14 packet !! O = Some y) as Hy by by rewrite Ed.
    rewrite lookup_drop, Nat.add_0_r in Hy. assert (y = 0) as -> by congruence. done.
Qed.

(** The code accepts a header exactly when the reference does and its checksum
    field is not zero. *)
Lemma valid_ip_rfc1071 packet :
  bytes_ok packet →
  valid_ip packet = true ↔
    ip_format packet = true ∧ rfc1071_valid (ip_header packet) = true ∧
    get eth_size ip_sum packet ≠ 0.
Proof.
  intros Hb. unfold valid_ip. rewrite andb_true_iff.
  destruct (ip_format packet) eqn:Hf; [|by split; intros [? _]].
  pose proof (ip_format_layout _ Hb Hf) as Hl.
  destruct (ip_header_first packet Hb Hf) as (x & b & Hx & Hx0).
  assert (bytes_ok (ip_header packet)) as Hhb by (unfold ip_header; auto with sr).
  assert (length (ip_header packet) = Z.to_nat (ip_hlen packet)) as Hlh.
  { destruct Hl. unfold ip_header, eth_size in *. len. }
  assert (10 + 2 <= length (ip_header packet))%nat as H12 by (destruct Hl; lia).
  unfold ip_cksum. rewrite ip_header_set_sum, ip_sum_of_header by done.
  unfold cksum_of, rfc1071_valid. rewrite !rfc1071_sum_norm by auto with sr.
  pose proof (wsum_set_word 10 0 (ip_header packet) eq_refl H12 Hhb ltac:(done)) as Hw.
  set (f := le_dec (slice 10 2 (ip_header packet))) in *.
  set (S0 := wsum (put 10 (le_enc 2 0) (ip_header packet))) in *.
  assert (is_u16 f) as Hfu by by apply le_dec_u16.
  assert (0 < S0) as HS0.
  { unfold S0. rewrite Hx. apply wsum_first_byte; [|done]. rewrite <- Hx. auto with sr. }
  pose proof (ntohs_bound f Hfu) as Hx16. unfold is_u16 in Hx16.
  assert (1 ≤ oc_norm S0 ≤ 0xffff) as Hn.
  { pose proof (oc_norm_bound S0 ltac:(lia)). pose proof (oc_norm_zero S0 ltac:(lia)). lia. }
  replace (wsum (ip_header packet)) with (S0 + ntohs f)
    by (rewrite Hw; change (ntohs 0) with 0; lia).
  rewrite <- oc_norm_add by lia. rewrite !Z.eqb_eq.
  pose proof (cksum_check_arith (oc_norm S0) (ntohs f) Hn ltac:(lia)) as Ha.
  rewrite <- cksum_final_host in Ha by lia.
  assert (is_u16 (cksum_final (oc_norm S0))) as Hcu.
  { pose proof (cksum_final_bound (oc_norm S0) ltac:(lia)). unfold is_u16. lia. }
  assert (ntohs f = 0 ↔ f = 0) as Hz.
  { split; [|by intros ->]. intros H. apply ntohs_inj; [done|done|by rewrite H]. }
  split.
  - intros [_ H]. split; [done|]. rewrite H in Ha at 1. destruct (proj1 Ha eq_refl). tauto.
  - intros (_ & H1 & H2). split; [done|]. apply ntohs_inj; [done|done|]. apply Ha. tauto.
Qed.

(** ** Recomputed checksums *)

Lemma ip_format_set base f v b :
  disjoint_fields eth_size ip_hl_v base f → disjoint_fields eth_size ip_len base f →
  ip_format (set base f v b) = ip_format b.
Proof.
  intros H1 H2. unfold ip_format, ip_hlen, ip_total.
  by rewrite !length_set, !get_set_ne by done.
Qed.

Lemma ip_cksum_set_sum v b :
  ip_cksum (set eth_size ip_sum v b) = ip_cksum b.
Proof.
  unfold ip_cksum. rewrite ip_hlen_set by dj. unfold set. by rewrite put_put_same by done.
Qed.

Lemma ip_cksum_u16 b : bytes_ok b → is_u16 (ip_cksum b).
Proof. intros Hb. apply cksum_of_u16. auto with sr. Qed.

Lemma reseal_ip_valid b :
  bytes_ok b → ip_format b = true → valid_ip (reseal_ip b) = true.
Proof.
  intros Hb Hf. pose proof (ip_format_layout _ Hb Hf) as Hl.
  unfold valid_ip, reseal_ip. rewrite !ip_format_set, Hf by dj. cbn [andb].
  rewrite !ip_cksum_set_sum. apply Z.eqb_eq, get_set_same.
  - destruct Hl. fits.
  - change (256 ^ Z.of_nat (f_len ip_sum)) with (2 ^ 16). by apply ip_cksum_u16.
Qed.

Lemma get_reseal_ne base f b :
  disjoint_fields base f eth_size ip_sum → get base f (reseal_ip b) = get base f b.
Proof. intros H. unfold reseal_ip. by rewrite !get_set_ne. Qed.

(** A byte outside a member. *)
Lemma lookup_set_ne base f v b i :
  (i < base + f_off f)%nat ∨ (base + f_off f + f_len f <= i)%nat →
  set base f v b !! i = b !! i.
Proof. intros H. unfold set. apply lookup_put_ne. rewrite length_le_enc. lia. Qed.

(** ** Forwarded packets *)

Lemma dec_ttl_ttl b :
  bytes_ok b → ip_layout b → 1 < get eth_size ip_ttl b →
  get eth_size ip_ttl (dec_ttl b) = get eth_size ip_ttl b - 1.
Proof.
  intros Hb Hl Ht. unfold dec_ttl. rewrite get_reseal_ne by dj.
  pose proof (get_bound eth_size ip_ttl b Hb) as Hg.
  change (256 ^ Z.of_nat (f_len ip_ttl)) with 256 in Hg.
  rewrite u8_small by (unfold is_u8; lia). apply get_set_same.
  - destruct Hl. fits.
  - change (256 ^ Z.of_nat (f_len ip_ttl)) with 256. lia.
Qed.

Lemma dec_ttl_valid b : bytes_ok b → ip_format b = true → valid_ip (dec_ttl b) = true.
Proof.
  intros Hb Hf. apply reseal_ip_valid; [auto with sr|]. by rewrite ip_format_set by dj.
Qed.

Lemma dec_ttl_lookup b i :
  i ≠ 22%nat → i ≠ 24%nat → i ≠ 25%nat → dec_ttl b !! i = b !! i.
Proof.
  intros H1 H2 H3. unfold dec_ttl, reseal_ip.
  rewrite !lookup_set_ne; [done|unfold eth_size; simpl; lia..].
Qed.

Lemma dec_ttl_get base f b :
  disjoint_fields base f eth_size ip_ttl → disjoint_fields base f eth_size ip_sum →
  get base f (dec_ttl b) = get base f b.
Proof. intros H1 H2. unfold dec_ttl. by rewrite get_reseal_ne, get_set_ne. Qed.

Lemma dec_ttl_ok b : bytes_ok b → bytes_ok (dec_ttl b).
Proof. intros. unfold dec_ttl. auto with sr. Qed.

Lemma length_dec_ttl b : length (dec_ttl b) = length b.
Proof. unfold dec_ttl. len. Qed.

#[export] Hint Resolve dec_ttl_ok : sr.
#[export] Hint Rewrite length_dec_ttl : len.

(** ** New hardware addresses *)

Section readdress.
Context (dhost shost b : buf).
Context (Hd : length dhost = 6%nat) (Hsh : length shost = 6%nat) (Hl : (12 <= length b)%nat).

(** Behind the two addresses the frame is what it was. *)
Lemma slice_readdress off n :
  (12 <= off)%nat → slice off n (readdress dhost shost b) = slice off n b.
Proof.
  intros Ho. unfold readdress, slice. f_equal.
  rewrite app_assoc, drop_app_ge by len. rewrite drop_drop. f_equal. len.
Qed.

Lemma getb_readdress base f :
  (12 <= base + f_off f)%nat → getb base f (readdress dhost shost b) = getb base f b.
Proof. apply slice_readdress. Qed.

Lemma payload_off_readdress : payload_off (readdress dhost shost b) = payload_off b.
Proof. unfold payload_off. by rewrite ip_hlen_readdress. Qed.

Lemma ip_header_readdress : ip_header (readdress dhost shost b) = ip_header b.
Proof. unfold ip_header. by rewrite ip_hlen_readdress, slice_readdress by (done || unfold eth_size; lia). Qed.

Lemma ip_format_readdress : ip_format (readdress dhost shost b) = ip_format b.
Proof.
  unfold ip_format. rewrite ip_hlen_readdress, ip_total_readdress, length_readdress by (done || lia).
  by rewrite get_readdress by (done || unfold eth_size; simpl; lia).
Qed.

Lemma valid_ip_readdress :
  bytes_ok dhost → bytes_ok shost → bytes_ok b → valid_ip b = true →
  valid_ip (readdress dhost shost b) = true.
Proof.
  intros Hdb Hsb Hb Hv. apply valid_ip_rfc1071; [auto with sr|].
  rewrite ip_format_readdress, ip_header_readdress.
  rewrite get_readdress by (done || unfold eth_size; simpl; lia). by apply valid_ip_rfc1071.
Qed.
End readdress.

(** ** ICMP errors *)

Section icmp_error_frame.
Context (out : sr_if) (packet : buf) (type code : Z).
Context (Hout : if_wf out) (Hb : bytes_ok packet) (Hl : ip_layout packet).
Context (Ht : is_u8 type) (Hc : is_u8 code).

Let F := icmp_error_frame out packet type code.
Let pre := getb 0 ether_shost packet ++ if_addr out ++ [8; 0].
Let hdr c := ip_bytes c 56 ip_protocol_icmp (if_ip out) (get eth_size ip_src packet).
Let msg c := icmp_bytes c type code (icmp_quote packet).

Lemma error_pre : length pre = eth_size.
Proof.
  unfold pre. rewrite !length_app, length_getb by (destruct Hl; fits).
  by rewrite (proj1 (if_wf_addr _ Hout)).
Qed.

Lemma error_frame_split : F = pre ++ hdr (cksum_of (hdr 0)) ++ msg (cksum_of (msg 0)).
Proof. unfold F, icmp_error_frame, pre. by rewrite <- !app_assoc. Qed.

Lemma error_frame_get f :
  (f_off f + f_len f <= 20)%nat →
  get eth_size f F = le_dec (slice (f_off f) (f_len f) (hdr (cksum_of (hdr 0)))).
Proof.
  intros Hf. unfold get. f_equal.
  rewrite <- (slice_slice eth_size 20) by done. f_equal.
  rewrite error_frame_split. apply slice_seg; [by rewrite error_pre|done].
Qed.

Lemma error_frame_hlen : ip_hlen F = 20.
Proof. unfold ip_hlen. by rewrite error_frame_get by (simpl; lia). Qed.

Lemma error_frame_total : ip_total F = 56.
Proof. unfold ip_total. by rewrite error_frame_get by (simpl; lia). Qed.

Lemma error_frame_length : length F = 70%nat.
Proof.
  pose proof (icmp_error_frame_ok out packet type code Hout Hb Hl Ht Hc) as (_ & H & _).
  unfold F. lia.
Qed.

Lemma error_frame_format : ip_format F = true.
Proof.
  unfold ip_format. rewrite error_frame_hlen, error_frame_total, error_frame_length.
  by rewrite error_frame_get by (simpl; lia).
Qed.

Lemma get_le_enc_sum c : is_u16 c → le_dec (slice 10 2 (hdr c)) = c.
Proof. intros Hu. apply (le_dec_enc 2). exact Hu. Qed.

Lemma error_frame_valid : valid_ip F = true.
Proof.
  unfold valid_ip. rewrite error_frame_format. cbn [andb]. apply Z.eqb_eq.
  rewrite error_frame_get by (simpl; lia). cbn [f_off f_len ip_sum].
  rewrite get_le_enc_sum by (by apply cksum_of_u16, ip_bytes_ok).
  unfold ip_cksum. rewrite error_frame_hlen, error_frame_split.
  unfold hdr. rewrite set_ip_sum by apply error_pre.
  f_equal. symmetry. apply slice_seg; [by rewrite error_pre|done].
Qed.

Lemma error_frame_payload :
  slice (payload_off F) 36 F = msg (cksum_of (msg 0)).
Proof.
  unfold payload_off. rewrite error_frame_hlen, error_frame_split, app_assoc.
  rewrite <- (app_nil_r (msg _)) at 1. apply slice_seg.
  - rewrite length_app, error_pre. unfold hdr. by rewrite length_ip_bytes.
  - unfold msg. by rewrite length_icmp_bytes, length_icmp_quote.
Qed.

Lemma error_frame_msg f :
  (f_off f + f_len f <= 36)%nat →
  getb (payload_off F) f F = slice (f_off f) (f_len f) (msg (cksum_of (msg 0))).
Proof.
  intros Hf. unfold getb. rewrite <- error_frame_payload.
  by rewrite slice_slice by done.
Qed.

(** The members of the message, and its checksum by the reference. *)
Lemma error_frame_icmp :
  get (payload_off F) icmp_type F = type ∧ get (payload_off F) icmp_code F = code ∧
  getb (payload_off F) icmp_data F = icmp_quote packet ∧
  rfc1071_valid (slice (payload_off F) 36 F) = true.
Proof.
  assert (∀ x, is_u8 x → le_dec [x] = x) as Hd by (intros; unfold le_dec; lia).
  unfold get. fold (getb (payload_off F) icmp_type F) (getb (payload_off F) icmp_code F).
  rewrite !error_frame_msg by (simpl; lia). repeat split.
  - by apply (Hd type).
  - by apply (Hd code).
  - unfold msg, icmp_bytes. rewrite !app_assoc. rewrite <- (app_nil_r (_ ++ _)), <- app_assoc.
    apply slice_seg; [done|]. by rewrite length_icmp_quote.
  - rewrite error_frame_payload.
    assert (∀ c, msg c = put 2 (le_enc 2 c) (msg 0)) as Hm
      by (intros c; unfold msg, icmp_bytes; by rewrite put_seg).
    assert (bytes_ok (msg 0)) as Hmb by (unfold msg; auto with sr).
    pose proof (seal_valid 2 (msg 0) eq_refl ltac:(unfold msg; len) Hmb) as Hs.
    by rewrite <- (Hm 0), <- (Hm (cksum_of (msg 0))) in Hs.
Qed.

(** Where it goes, and from whom. *)
Lemma error_frame_addrs :
  getb 0 ether_shost F = if_addr out ∧
  get eth_size ip_p F = ip_protocol_icmp ∧ get eth_size ip_ttl F = INIT_TTL ∧
  get eth_size ip_src F = if_ip out ∧ get eth_size ip_dst F = get eth_size ip_src packet.
Proof.
  rewrite !error_frame_get by (simpl; lia). split.
  - rewrite error_frame_split. unfold getb, pre. rewrite <- !app_assoc.
    apply slice_seg; [|by rewrite (proj1 (if_wf_addr _ Hout))].
    rewrite length_getb by (destruct Hl; fits). done.
  - split; [done|]. split; [done|]. split.
    + apply (le_dec_enc 4), (if_wf_ip _ Hout).
    + apply (le_dec_enc 4). by apply le_dec_u32.
Qed.
End icmp_error_frame.

(** ** Echo replies *)

Lemma get_set_below base f base' f' v b :
  (base + f_off f + f_len f <= base')%nat → get base f (set base' f' v b) = get base f b.
Proof. intros H. apply get_set_ne. left. lia. Qed.

Lemma turn_icmp_get base f b :
  (base + f_off f + f_len f <= 34)%nat → 20 ≤ ip_hlen b →
  get base f (turn_icmp b) = get base f b.
Proof.
  intros H Hh. rewrite (turn_icmp_unfold b (payload_off b) (Z.to_nat (payload_len b)) Hh eq_refl eq_refl).
  simpl. rewrite !get_set_below by (unfold payload_off, eth_size; lia). done.
Qed.

Section echo_reply_frame.
Context (out : sr_if) (packet : buf).
Context (Hout : if_wf out) (Hb : bytes_ok packet) (Hv : valid_ip packet = true).
Context (Hp : 8 ≤ payload_len packet).

Let F := echo_reply_frame out packet.
Let r := readdress (getb 0 ether_shost packet) (if_addr out) packet.
Let Hl : ip_layout packet := valid_ip_layout _ Hb Hv.

Lemma echo_shost : length (getb 0 ether_shost packet) = 6%nat.
Proof. apply length_getb. destruct Hl. fits. Qed.

Lemma echo_r_length : length r = length packet.
Proof.
  destruct Hl. apply length_readdress; [apply echo_shost|apply (if_wf_addr _ Hout)|].
  unfold eth_size in *. lia.
Qed.

Lemma echo_r_ok : bytes_ok r.
Proof. unfold r. destruct (if_wf_addr _ Hout). auto with sr. Qed.

Lemma echo_r_get base f : (12 <= base + f_off f)%nat → get base f r = get base f packet.
Proof.
  intros H. destruct Hl. apply get_readdress; [apply echo_shost|apply (if_wf_addr _ Hout)|done|].
  unfold eth_size in *. lia.
Qed.

Lemma echo_r_hlen : ip_hlen r = ip_hlen packet.
Proof. unfold ip_hlen. by rewrite echo_r_get by (unfold eth_size; simpl; lia). Qed.

Lemma echo_r_total : ip_total r = ip_total packet.
Proof. unfold ip_total. by rewrite echo_r_get by (unfold eth_size; simpl; lia). Qed.

Lemma echo_hlen : ip_hlen F = ip_hlen packet.
Proof.
  destruct Hl. unfold F, echo_reply_frame, ip_hlen. rewrite turn_icmp_get; fold r.
  - fold (ip_hlen (turn_ip r)). rewrite ip_hlen_turn. apply echo_r_hlen.
  - unfold eth_size. simpl. lia.
  - rewrite ip_hlen_turn, echo_r_hlen. lia.
Qed.

Lemma echo_get base f :
  (base + f_off f + f_len f <= 34)%nat → get base f F = get base f (turn_ip r).
Proof.
  intros H. destruct Hl. apply turn_icmp_get; [done|]. rewrite ip_hlen_turn, echo_r_hlen. lia.
Qed.

Lemma echo_total : ip_total F = ip_total packet.
Proof.
  unfold ip_total. rewrite echo_get by (unfold eth_size; simpl; lia).
  fold (ip_total (turn_ip r)). rewrite ip_total_turn. apply echo_r_total.
Qed.

Lemma echo_length : length F = length packet.
Proof. unfold F, echo_reply_frame. rewrite length_turn_icmp, length_turn_ip. apply echo_r_length. Qed.

(** The members of the IP header. *)
Lemma echo_ip :
  get eth_size ip_src F = get eth_size ip_dst packet ∧
  get eth_size ip_dst F = get eth_size ip_src packet ∧
  get eth_size ip_ttl F = INIT_TTL.
Proof.
  rewrite !echo_get by (unfold eth_size; simpl; lia).
  assert (fits eth_size ip_src r ∧ fits eth_size ip_dst r ∧ fits eth_size ip_ttl r) as (?&?&?)
    by (destruct Hl; pose proof echo_r_length; repeat split; fits).
  assert (∀ f, f_len f = 4%nat → 0 ≤ get eth_size f r < 256 ^ Z.of_nat (f_len f)) as Hg
    by (intros; apply get_bound, echo_r_ok).
  unfold turn_ip. rewrite !get_reseal_ne by dj. split; [|split].
  - rewrite 2 get_set_ne by dj. rewrite get_set_same by (done || by apply (Hg ip_dst)).
    apply echo_r_get. unfold eth_size. simpl. lia.
  - rewrite get_set_ne by dj. rewrite get_set_same; [|fits|by apply (Hg ip_src)].
    apply echo_r_get. unfold eth_size. simpl. lia.
  - apply get_set_same; [fits|done].
Qed.

Lemma echo_format_turn : ip_format (turn_ip r) = true.
Proof.
  unfold turn_ip, reseal_ip. rewrite !ip_format_set by dj.
  rewrite <- (proj1 (andb_prop _ _ Hv)).
  unfold ip_format. rewrite echo_r_hlen, echo_r_total, echo_r_length.
  by rewrite echo_r_get by (unfold eth_size; simpl; lia).
Qed.

Lemma echo_payload_off : payload_off F = payload_off packet.
Proof. unfold payload_off. by rewrite echo_hlen. Qed.

Lemma echo_payload_len : payload_len F = payload_len packet.
Proof. unfold payload_len. by rewrite echo_hlen, echo_total. Qed.

Lemma echo_bounds :
  (34 <= payload_off packet /\ payload_off packet + 8 <= length packet)%nat ∧
  (payload_off packet + Z.to_nat (payload_len packet) <= length packet)%nat.
Proof. destruct Hl. unfold payload_len, payload_off, eth_size in *. lia. Qed.

(** The frame as one update of a message whose checksum field is clear. *)
Lemma echo_unfold :
  let icmp := payload_off packet in
  let b0 := set icmp icmp_sum 0 (set icmp icmp_code 0 (set icmp icmp_type 0 (turn_ip r))) in
  F = set icmp icmp_sum
    (cksum_of (slice icmp (Z.to_nat (payload_len packet)) b0)) b0.
Proof.
  destruct Hl. unfold F, echo_reply_frame. fold r. apply turn_icmp_unfold.
  - rewrite ip_hlen_turn, echo_r_hlen. lia.
  - unfold payload_off. by rewrite ip_hlen_turn, echo_r_hlen.
  - unfold payload_len. by rewrite ip_hlen_turn, ip_total_turn, echo_r_hlen, echo_r_total.
Qed.

Lemma echo_turn_valid : valid_ip (turn_ip r) = true.
Proof.
  pose proof echo_format_turn as Hf. unfold turn_ip, reseal_ip in Hf.
  rewrite !(ip_format_set eth_size ip_sum) in Hf by dj.
  apply reseal_ip_valid; [|done]. pose proof echo_r_ok. auto with sr.
Qed.

Lemma echo_format : ip_format F = true.
Proof.
  rewrite <- echo_format_turn. unfold ip_format.
  rewrite echo_hlen, echo_total, echo_length, !echo_get by (unfold eth_size; simpl; lia).
  by rewrite ip_hlen_turn, ip_total_turn, length_turn_ip, echo_r_hlen, echo_r_total, echo_r_length.
Qed.

Lemma echo_ok : bytes_ok F.
Proof. pose proof echo_r_ok. unfold F, echo_reply_frame. fold r. auto with sr. Qed.

Lemma echo_header : ip_header F = ip_header (turn_ip r).
Proof.
  unfold ip_header. rewrite echo_hlen, ip_hlen_turn, echo_r_hlen, echo_unfold.
  pose proof (layout_hlen _ Hl). unfold set.
  rewrite !slice_put_before by (unfold payload_off; lia). done.
Qed.

Lemma echo_valid : valid_ip F = true.
Proof.
  pose proof echo_turn_valid as Ht. unfold valid_ip in *. apply andb_prop in Ht as [_ Ht].
  rewrite echo_format. cbn [andb]. rewrite echo_get by (unfold eth_size; simpl; lia).
  rewrite <- Ht. f_equal. unfold ip_cksum.
  pose proof echo_r_ok as Hr.
  rewrite !ip_header_set_sum; [by rewrite echo_header|..].
  - apply ip_format_layout; [auto with sr|apply echo_format_turn].
  - apply ip_format_layout; [apply echo_ok|apply echo_format].
Qed.

(** The message is an echo reply with the right checksum, and the rest of the
    packet is the request's. *)
Lemma echo_icmp :
  get (payload_off packet) icmp_type F = 0 ∧ get (payload_off packet) icmp_code F = 0 ∧
  rfc1071_valid (slice (payload_off packet) (Z.to_nat (payload_len packet)) F) = true.
Proof.
  pose proof echo_bounds as [[_ H1] H2]. pose proof echo_r_length as Hlr.
  assert (length (turn_ip r) = length packet) as Hlt by by rewrite length_turn_ip.
  rewrite echo_unfold. cbv zeta.
  set (b1 := set (payload_off packet) icmp_code 0 (set (payload_off packet) icmp_type 0 (turn_ip r))).
  assert (length b1 = length packet) as Hb1 by (unfold b1; len).
  assert (bytes_ok b1) as Hok by (pose proof echo_r_ok; unfold b1; auto with sr).
  split; [|split].
  - rewrite !get_set_ne by dj. unfold b1. rewrite get_set_ne by dj.
    apply get_set_same; [fits|done].
  - rewrite !get_set_ne by dj. unfold b1. apply get_set_same; [fits|done].
  - unfold set at 1 2. cbn [f_off f_len icmp_sum].
    rewrite !slice_put_inside by len.
    replace (payload_off packet + 2 - payload_off packet)%nat with 2%nat by lia.
    unfold set at 1. cbn [f_off f_len icmp_sum]. rewrite slice_put_inside by len.
    replace (payload_off packet + 2 - payload_off packet)%nat with 2%nat by lia.
    rewrite put_put_same by done. apply seal_valid; [done|len|auto with sr].
Qed.

(** The Ethernet addresses. *)
Lemma echo_eth :
  getb 0 ether_dhost F = getb 0 ether_shost packet ∧ getb 0 ether_shost F = if_addr out.
Proof.
  rewrite echo_unfold. cbv zeta. pose proof echo_bounds as [[? _] _].
  assert (∀ f, (f_off f + f_len f <= 12)%nat → getb 0 f (turn_ip r) = getb 0 f r) as Ht.
  { intros f H'. unfold turn_ip, reseal_ip.
    rewrite !getb_set_ne; [done|left; unfold eth_size; simpl; lia..]. }
  rewrite !getb_set_ne by (left; simpl; lia). rewrite !Ht by (simpl; lia).
  apply readdress_getb; [apply echo_shost|apply (if_wf_addr _ Hout)].
Qed.

Lemma echo_lookup i :
  (34 <= i)%nat → (i < payload_off packet ∨ payload_off packet + 4 <= i)%nat →
  F !! i = packet !! i.
Proof.
  intros H1 H2. rewrite echo_unfold. cbv zeta.
  rewrite !lookup_set_ne by (cbn [f_off f_len icmp_type icmp_code icmp_sum]; lia).
  unfold turn_ip, reseal_ip.
  rewrite !lookup_set_ne by (unfold eth_size; simpl; lia).
  unfold r, readdress. rewrite app_assoc, lookup_app_r.
  - rewrite lookup_drop, length_app, echo_shost, (proj1 (if_wf_addr _ Hout)). f_equal.
    unfold ETHER_ADDR_LEN. lia.
  - rewrite length_app, echo_shost, (proj1 (if_wf_addr _ Hout)). unfold ETHER_ADDR_LEN. lia.
Qed.
End echo_reply_frame.
