(* ===== verification/Sweep.v ===== *)
(** * The timer ([sr_arpcache.c]: [sr_arpcache_sweepreqs], [sr_arpcache_timeout])

    Once a second the timer thread takes the cache's lock, invalidates the old
    entries and sweeps over the pending requests: a request is sent again or,
    after five times, its packets are answered with ICMP errors and it is
    destroyed.  The sweep calls back into the router, which may queue packets
    and put new requests in front of the list it walks. *)

From stdpp Require Import gmap.
From S2P Require Export Packets.

(** ** Definitions *)

Definition sr_arpcache_send_arp_request (ip : Z) (iface : cstr) : R unit :=
  let len := Z.of_nat (eth_size + arp_size) in
  ok ← malloc AllocSweepRequest;
  out_iface ← sr_get_interface iface;
  match ok : bool, out_iface with
  | true, Some out =>
      let request := replicate (eth_size + arp_size) 0 in
      request ← wrb 0 ether_dhost broadcast request;
      request ← wrb 0 ether_shost (if_addr out) request;
      request ← wr 0 ether_type (htons ethertype_arp) request;
      request ← wr eth_size ar_hrd (htons arp_hrd_ethernet) request;
      request ← wr eth_size ar_pro (htons ethertype_ip) request;
      request ← wr eth_size ar_hln (Z.of_nat ETHER_ADDR_LEN) request;
      request ← wr eth_size ar_pln 4 request;
      request ← wr eth_size ar_op (htons arp_op_request) request;
      request ← wrb eth_size ar_sha (if_addr out) request;
      request ← wr eth_size ar_sip (if_ip out) request;
      request ← wrb eth_size ar_tha (replicate ETHER_ADDR_LEN 0) request;
      request ← wr eth_size ar_tip ip request;
      sr_send_packet request len iface;;
      mret tt
  | _, _ => mret tt
  end.

(** [req->next] of the node at an address. *)
Fixpoint next_req (a : nat) (l : list sr_arpreq) : option nat :=
  match l with
  | [] => None
  | r :: l' => if (req_addr r =? a)%nat then req_addr <$> head l' else next_req a l'
  end.

Definition next_of (a : nat) : R (option nat) :=
  c ← gets cache; mret (next_req a (requests c)).

(** The loop over the packets of a request that was given up: packets put in
    front of the list meanwhile are not visited. *)
Definition give_up_packet (pkt : sr_packet) : R unit :=
  sr_send_icmp_error (pkt_buf pkt) (pkt_len pkt) 3 1;; mret tt.

(** The body of the loop for one request. *)
Definition sweep_req (t : Z) (a : nat) : R unit :=
  r ← deref_req a;
  if 1 <=? t - req_sent r then
    if 5 <=? req_times_sent r then
      for_each (req_packets r) give_up_packet;;
      sr_arpreq_destroy (Some a)
    else
      match req_packets r with
      | pkt :: _ =>
          sr_arpcache_send_arp_request (req_ip r) (pkt_iface pkt);;
          write_req a (set_req_sent t);;
          write_req a incr_times_sent
      | [] => mret tt
      end
  else mret tt.

Fixpoint sweep_loop (fuel : nat) (t : Z) (req : option nat) : R unit :=
  match req with
  | None => mret tt
  | Some a =>
      match fuel with
      | O => throw OutOfFuel
      | S fuel' =>
          next ← next_of a;
          sweep_req t a;;
          sweep_loop fuel' t next
      end
  end.

(** As many rounds as there are requests are enough
    ([sr_arpcache_sweepreqs_correct]). *)
Definition sr_arpcache_sweepreqs : R unit :=
  c ← gets cache;
  e ← ask;
  sweep_loop (length (requests c)) (now e) (req_addr <$> head (requests c)).

(** One round of the timer thread. *)
Definition timeout_tick : R unit :=
  e ← ask;
  modify_cache (expire_entries (now e));;
  sr_arpcache_sweepreqs.

(** ** Specification *)

Definition abandon (e : env) (s : sr_instance) (p : sr_packet) : sr_instance :=
  icmp_error e (pkt_buf p) 3 1 s.

Definition sweep_one (e : env) (s : sr_instance) (a : nat) : sr_instance :=
  match req_at a (requests (cache s)) with
  | None => s
  | Some r =>
      if 1 <=? now e - req_sent r then
        if 5 <=? req_times_sent r then
          let s1 := foldl (abandon e) s (req_packets r) in
          set_cache (remove_req a (cache s1)) s1
        else
          match req_packets r with
          | p :: _ =>
              let s1 := arp_request e AllocSweepRequest (req_ip r) (pkt_iface p) s in
              set_cache (update_req a (mark_sent (now e)) (cache s1)) s1
          | [] => s
          end
      else s
  end.

Definition addrs (s : sr_instance) : list nat := req_addr <$> requests (cache s).

(** Every request that is on the queue at the start is visited once, in the
    order of the queue. *)
Definition sweep (e : env) (s : sr_instance) : sr_instance :=
  foldl (sweep_one e) s (addrs s).

Definition tick (e : env) (s : sr_instance) : sr_instance :=
  sweep e (set_cache (expire_entries (now e) (cache s)) s).

(** ** What the calls back into the router do to the queue *)

(** The queue after a call: some requests in front of the old ones, which keep
    their identity, their address and, once they were sent, their clock and
    count; one that was not sent may have been sent once, at the time [t] of the
    call; packets may have been put in front of theirs.  The mappings and the
    router's configuration are the same. *)
Record older (t : Z) (r r' : sr_arpreq) : Prop := {
  older_addr : req_addr r' = req_addr r;
  older_ip : req_ip r' = req_ip r;
  older_clock : req_times_sent r ≠ 0 →
    req_sent r' = req_sent r ∧ req_times_sent r' = req_times_sent r;
  older_asked : req_times_sent r ≠ 0 → req_times_sent r' ≠ 0;
  older_first : req_times_sent r = 0 →
    (req_times_sent r' = 0 ∧ req_sent r' = req_sent r) ∨ (req_times_sent r' = 1 ∧ req_sent r' = t);
  older_packets : ∃ extra, req_packets r' = extra ++ req_packets r
}.

#[export] Instance older_preorder t : PreOrder (older t).
Proof.
  split.
  - intros r. split; try done; [by left|by exists []].
  - intros r1 r2 r3 [A1 B1 C1 D1 F1 (x1 & E1)] [A2 B2 C2 D2 F2 (x2 & E2)].
    split; [congruence..| | | |].
    + intros H. destruct (C1 H), (C2 (D1 H)). split; congruence.
    + auto.
    + intros H. destruct (F1 H) as [[H1 H2]|[H1 H2]].
      * destruct (F2 H1) as [[H3 H4]|]; [left; split; congruence|by right].
      * destruct C2 as [H3 H4]; [lia|]. right. split; congruence.
    + exists (x2 ++ x1). by rewrite E2, E1, app_assoc.
Qed.

Record grows (t : Z) (s s' : sr_instance) : Prop := {
  grows_requests : ∃ new old,
    requests (cache s') = new ++ old ∧ Forall2 (older t) (requests (cache s)) old ∧
    Forall (λ r, (next_addr (cache s) <= req_addr r)%nat) new;
  grows_entries : entries (cache s') = entries (cache s);
  grows_next : (next_addr (cache s) <= next_addr (cache s'))%nat
}.

Lemma older_all t (l : list sr_arpreq) : Forall2 (older t) l l.
Proof. apply Forall_Forall2_diag, list.Forall_forall. by intros. Qed.

#[export] Instance grows_preorder t : PreOrder (grows t).
Proof.
  split.
  - intros s. split; [|done..]. exists [], (requests (cache s)).
    split; [done|]. split; [apply older_all|done].
  - intros s1 s2 s3 [(n1 & o1 & A1 & B1 & F1) C1 N1] [(n2 & o2 & A2 & B2 & F2) C2 N2].
    split; [|congruence|lia]. rewrite A1 in B2.
    apply Forall2_app_inv_l in B2 as (k1 & k2 & B3 & B4 & ->).
    exists (n2 ++ k1), k2. split; [by rewrite A2, app_assoc|]. split; [by transitivity o1|].
    apply Forall_app. split.
    + eapply list.Forall_impl; [exact F2|]. intros r Hr. simpl in Hr. lia.
    + clear - F1 B3. induction B3 as [|r r' l l' Hr _ IH]; [done|].
      apply list.Forall_cons in F1 as [F F1]. constructor; [|by apply IH].
      by rewrite (older_addr _ _ _ Hr).
Qed.

Lemma same_core_grows t s s' : same_core s s' → grows t s s'.
Proof.
  intros [_ _ Hc]. split; [|by rewrite Hc..]. exists [], (requests (cache s)).
  split; [by rewrite Hc|]. split; [apply older_all|done].
Qed.

(** An update of a request that keeps what [older] asks. *)
Lemma update_grows t a f s :
  (∀ r, req_at a (requests (cache s)) = Some r → older t r (f r)) →
  NoDup (req_addr <$> requests (cache s)) →
  grows t s (set_cache (update_req a f (cache s)) s).
Proof.
  intros Hf Hn. split; [|done..]. eexists [], _. split; [done|]. split; [|done].
  apply Forall2_fmap_r, Forall_Forall2_diag, list.Forall_forall. intros r Hr.
  unfold compose. destruct (Nat.eqb_spec (req_addr r) a) as [He|]; [|reflexivity].
  apply Hf. by apply req_at_elem.
Qed.

Lemma push_packet_older t p r : older t r (push_packet p r).
Proof. split; try done; [by left|by exists [p]]. Qed.

Lemma queue_packet_grows t ip p s :
  cache_wf (cache s) → grows t s (set_cache (queue_packet ip p (cache s)) s).
Proof.
  intros Hc. unfold queue_packet. destruct (find_req ip (requests (cache s))) as [r|] eqn:E.
  - apply update_grows; [|apply Hc]. intros; apply push_packet_older.
  - split; [|done|simpl; lia]. exists [mk_req (next_addr (cache s)) ip 0 0 [p]], (requests (cache s)).
    split; [done|]. split; [apply older_all|]. by constructor.
Qed.

Lemma mark_sent_older t r : req_wf r → req_times_sent r = 0 → older t r (mark_sent t r).
Proof. intros Hr H0. split; try done; [right; simpl; by rewrite H0|by exists []]. Qed.

Lemma wait_for_grows e nh frame len out s :
  sr_wf s → frame_ok frame len → (eth_size <= length frame)%nat → if_wf out → is_u32 nh →
  grows (now e) s (wait_for e nh frame (if_name out) s).
Proof.
  intros Hs Hf Hmin Ho Hnh. pose proof (sr_wf_cache _ Hs) as Hc.
  pose proof (waiting_pkt_wf frame len _ Hf Hmin (if_wf_name _ Ho)) as Hp.
  destruct Hf as (_ & Hl & _). unfold wait_for. rewrite Hl. set (p := mk_packet _ _ _) in *.
  pose proof (queue_packet_grows (now e) nh p s Hc) as Hg.
  destruct (Z.eqb_spec (times_asked nh (cache s)) 0) as [H0|]; [|done].
  set (s1 := set_cache (queue_packet nh p (cache s)) s) in *.
  transitivity s1; [done|].
  transitivity (arp_request e AllocArpRequest nh (if_name out) s1);
    [apply same_core_grows, arp_request_core|].
  assert (cache_wf (cache s1)) as Hc1 by by apply queue_packet_wf.
  destruct (req_at_queued nh p (cache s) Hc) as (r & Hr & _ & Ht).
  apply update_grows; rewrite arp_request_cache; [|apply Hc1].
  intros r' Hr'. assert (r' = r) as -> by (unfold s1 in Hr'; cbn [cache set_cache] in Hr'; congruence).
  apply mark_sent_older; [|by rewrite Ht].
  pose proof (cache_wf_requests _ Hc1) as Hrs. rewrite list.Forall_forall in Hrs.
  by apply Hrs, (req_at_some _ _ _ Hr').
Qed.

Lemma route_out_grows e packet len s :
  sr_wf s → frame_ok packet len → (eth_size + ip_size <= length packet)%nat →
  grows (now e) s (route_out e packet s).
Proof.
  intros Hs Hf Hl. unfold route_out. destruct (lpm _ _) as [rt|] eqn:Er; [|reflexivity].
  destruct (named s _) as [out|] eqn:Eo; [|reflexivity].
  destruct (malloc_ok _ _); [|reflexivity].
  destruct (_ !! _); [apply same_core_grows, send_core|].
  pose proof (named_wf _ _ _ Hs Eo) as Ho. destruct (if_wf_addr _ Ho).
  apply wait_for_grows with len; auto with sr.
  - rewrite length_setb. lia.
  - apply next_hop_u32; [by eapply lpm_wf; [apply Hs|]|apply Hf].
Qed.

Lemma icmp_error_grows e packet len type code s :
  sr_wf s → frame_ok packet len → is_u8 type → is_u8 code →
  grows (now e) s (icmp_error e packet type code s).
Proof.
  intros Hs Hf Ht Hc. unfold icmp_error. destruct (valid_ip packet) eqn:Hv; [|reflexivity].
  destruct (icmp_source _ _ _) as [out|] eqn:Eo; [|reflexivity].
  destruct (malloc_ok _ _); [|reflexivity].
  pose proof (icmp_error_frame_ok out packet type code (icmp_source_wf _ _ _ _ Hs Eo)
    (proj1 Hf) (valid_ip_layout _ (proj1 Hf) Hv) Ht Hc) as HF.
  apply route_out_grows with 70; [done|done|]. destruct HF as (_ & H & _).
  unfold eth_size, ip_size. lia.
Qed.

(** ** Runs *)

Lemma sr_arpcache_send_arp_request_run ip iface e s :
  sr_wf s → mallocs_checked e → cstr_ok sr_IFACE_NAMELEN iface →
  sr_arpcache_send_arp_request ip iface e s =
    Ok (tt, arp_request e AllocSweepRequest ip iface s).
Proof.
  intros Hs Hm Hi. unfold sr_arpcache_send_arp_request, arp_request.
  rewrite (bind_run _ _ _ _ _ _ (malloc_run _ _ _)).
  rewrite (bind_run _ _ _ _ _ _ (named_run _ _ _ Hs Hi)).
  destruct (malloc_ok _ _); [|done]. destruct (named s iface) as [out|] eqn:Ho; [|done].
  pose proof (if_wf_addr _ (named_wf _ _ _ Hs Ho)) as Ha. pose proof (proj1 Ha) as Hal.
  repeat mem_step. eapply arp_build_bind; eauto with sr.
Qed.

Lemma pkt_frame p : pkt_wf p → frame_ok (pkt_buf p) (pkt_len p).
Proof. intros [? ? ? ? ?]. done. Qed.

(** Giving a packet up: an invariant of the loop over the packets. *)
Lemma give_up_run p e s :
  sr_wf s → mallocs_checked e → pkt_wf p →
  give_up_packet p e s = Ok (tt, abandon e s p) ∧ sr_wf (abandon e s p) ∧
  grows (now e) s (abandon e s p).
Proof.
  intros Hs Hm Hp. unfold give_up_packet, abandon.
  destruct (icmp_error_run (pkt_buf p) (pkt_len p) 3 1 e s Hs Hm (pkt_frame _ Hp)) as [Hrun Hwf];
    [by split..|].
  rewrite (bind_run _ _ _ _ _ _ Hrun). split; [done|]. split; [done|].
  by apply icmp_error_grows with (pkt_len p); [|apply pkt_frame| |].
Qed.

Lemma give_up_all_run l e s :
  sr_wf s → mallocs_checked e → Forall pkt_wf l →
  for_each l give_up_packet e s = Ok (tt, foldl (abandon e) s l) ∧
  sr_wf (foldl (abandon e) s l) ∧ grows (now e) s (foldl (abandon e) s l).
Proof.
  intros Hs Hm Hl.
  apply (for_each_run l _ (λ p s, abandon e s p) (λ s', sr_wf s' ∧ grows (now e) s s')).
  - by split.
  - intros p s' Hp [Hs' Hg]. rewrite list.Forall_forall in Hl.
    destruct (give_up_run p e s' Hs' Hm (Hl p Hp)) as (H1 & H2 & H3).
    split; [done|]. split; [done|]. by transitivity s'.
Qed.

Lemma grows_addrs t s s' : grows t s s' → ∃ new, addrs s' = new ++ addrs s.
Proof.
  intros [(new & old & H1 & H2 & _) _ _]. exists (req_addr <$> new).
  unfold addrs. rewrite H1, fmap_app. f_equal. clear H1.
  induction H2 as [|r r' l l' Hr _ IH]; [done|]. csimpl. by rewrite IH, (older_addr _ _ _ Hr).
Qed.

Lemma mark_sent_again_wf t r : req_times_sent r < 5 → req_wf r → req_wf (mark_sent t r).
Proof.
  intros H5 [? ? ? ?]. constructor; simpl; try done.
  rewrite u32_small by (unfold is_u32; lia). lia.
Qed.

Lemma sr_wf_requests s r : sr_wf s → r ∈ requests (cache s) → req_wf r.
Proof.
  intros Hs. pose proof (cache_wf_requests _ (sr_wf_cache _ Hs)) as Hr.
  rewrite list.Forall_forall in Hr. apply Hr.
Qed.

(** Sending a request again. *)
Lemma resend_run r p l e s :
  sr_wf s → mallocs_checked e → req_at (req_addr r) (requests (cache s)) = Some r →
  req_packets r = p :: l → req_times_sent r < 5 →
  let s1 := arp_request e AllocSweepRequest (req_ip r) (pkt_iface p) s in
  let s2 := set_cache (update_req (req_addr r) (mark_sent (now e)) (cache s1)) s1 in
  (sr_arpcache_send_arp_request (req_ip r) (pkt_iface p);;
   write_req (req_addr r) (set_req_sent (now e));;
   write_req (req_addr r) incr_times_sent) e s = Ok (tt, s2) ∧ sr_wf s2.
Proof.
  intros Hs Hm Hr Hp H5. cbv zeta.
  pose proof (req_at_some _ _ _ Hr) as [Hin _].
  pose proof (sr_wf_requests _ _ Hs Hin) as Hrwf.
  assert (pkt_wf p) as Hpwf.
  { pose proof (req_wf_packets _ Hrwf) as Hf. rewrite Hp in Hf. by apply Forall_inv in Hf. }
  rewrite (bind_run _ _ _ _ _ _ (sr_arpcache_send_arp_request_run (req_ip r) (pkt_iface p) e s
    Hs Hm (name_ok_cstr _ (pkt_wf_iface _ Hpwf)))).
  set (s1 := arp_request e AllocSweepRequest (req_ip r) (pkt_iface p) s).
  assert (cache s1 = cache s) as Hc1 by apply arp_request_cache.
  rewrite (mark_req_run (req_addr r) r e s1); [|by rewrite Hc1|done]. split; [done|].
  apply set_cache_wf; [unfold s1; by rewrite <- arp_request_core|].
  rewrite Hc1. apply update_req_wf; [apply Hs|]. intros r' Hr' Ha.
  split; [done|]. split; [done|]. apply mark_sent_again_wf; [|by eapply sr_wf_requests].
  rewrite (req_at_elem _ _ r' (cache_wf_req_addrs _ (sr_wf_cache _ Hs)) Hr' Ha) in Hr.
  by injection Hr as ->.
Qed.

Lemma remove_req_wf a c : cache_wf c → cache_wf (remove_req a c).
Proof. apply cache_wf_filter_reqs. Qed.

(** One round of the loop. *)
Lemma sweep_one_run a e s :
  sr_wf s → mallocs_checked e → a ∈ addrs s →
  sweep_req (now e) a e s = Ok (tt, sweep_one e s a) ∧ sr_wf (sweep_one e s a).
Proof.
  intros Hs Hm Ha. apply list_elem_of_fmap in Ha as (r & -> & Hin).
  pose proof (req_at_elem _ _ r (cache_wf_req_addrs _ (sr_wf_cache _ Hs)) Hin eq_refl) as Hr.
  pose proof (sr_wf_requests _ _ Hs Hin) as Hrwf.
  unfold sweep_req, sweep_one. rewrite (bind_run _ _ _ _ _ _ (deref_req_run _ _ _ _ Hr)), Hr.
  destruct (1 <=? _); [|done]. destruct (Z.leb_spec 5 (req_times_sent r)) as [H5|H5].
  - destruct (give_up_all_run (req_packets r) e s Hs Hm (req_wf_packets _ Hrwf)) as (Hrun & Hwf & _).
    rewrite (bind_run _ _ _ _ _ _ Hrun). rewrite sr_arpreq_destroy_run by apply Hwf.
    split; [done|]. apply set_cache_wf; [done|]. by apply remove_req_wf, Hwf.
  - destruct (req_packets r) as [|p l] eqn:Hp; [done|]. by apply resend_run with l.
Qed.

Lemma filter_addrs a (l : list sr_arpreq) :
  req_addr <$> filter (λ r, req_addr r ≠ a) l = filter (λ b, b ≠ a) (req_addr <$> l).
Proof.
  induction l as [|r l IH]; [done|]. csimpl. rewrite !filter_cons.
  repeat case_decide; try done. csimpl. by rewrite IH.
Qed.

Lemma update_addrs a f c :
  (∀ r, req_addr (f r) = req_addr r) →
  req_addr <$> requests (update_req a f c) = req_addr <$> requests c.
Proof.
  intros Hf. unfold update_req. simpl. induction (requests c) as [|r l IH]; [done|]. csimpl.
  rewrite IH. by destruct (_ =? a)%nat; rewrite ?Hf.
Qed.

(** What comes after the request that was handled is still there. *)
Lemma sweep_one_tail a e s pre todo :
  sr_wf s → mallocs_checked e → addrs s = pre ++ a :: todo →
  ∃ pre', addrs (sweep_one e s a) = pre' ++ todo.
Proof.
  intros Hs Hm Ha.
  assert (NoDup (addrs s)) as Hnd by apply (cache_wf_req_addrs _ (sr_wf_cache _ Hs)).
  rewrite Ha in Hnd. apply list.NoDup_app in Hnd as (_ & _ & [Hnot _]%list.NoDup_cons).
  assert (∃ pre', addrs s = pre' ++ todo) as Hsame
    by (exists (pre ++ [a]); by rewrite Ha, <- app_assoc).
  unfold sweep_one. destruct (req_at a _) as [r|] eqn:Hr; [|done].
  destruct (1 <=? _); [|done]. pose proof (req_at_some _ _ _ Hr) as [Hin _].
  pose proof (sr_wf_requests _ _ Hs Hin) as Hrwf. destruct (5 <=? _).
  - destruct (give_up_all_run (req_packets r) e s Hs Hm (req_wf_packets _ Hrwf)) as (_ & _ & Hg).
    destruct (grows_addrs _ _ _ Hg) as [new Hnew]. unfold addrs in *. simpl.
    rewrite filter_addrs, Hnew, Ha, !list.filter_app, filter_cons_False by tauto.
    rewrite (filter_all _ todo); [by rewrite app_assoc; eexists|].
    apply list.Forall_forall. by intros b Hb ->.
  - destruct (req_packets r); [done|]. unfold addrs in *. cbn [cache set_cache].
    rewrite arp_request_cache, update_addrs by done. done.
Qed.

Lemma next_req_app pre a todo l :
  NoDup (req_addr <$> l) → req_addr <$> l = pre ++ a :: todo → next_req a l = head todo.
Proof.
  revert pre. induction l as [|r l IH]; intros pre Hn Ha; [by destruct pre|].
  csimpl in *. apply list.NoDup_cons in Hn as [Hni Hn]. destruct pre as [|b pre].
  - injection Ha as -> Ht. rewrite Nat.eqb_refl. rewrite <- Ht. by destruct l.
  - injection Ha as Hb Ht. destruct (Nat.eqb_spec (req_addr r) a) as [He|]; [|by eapply IH].
    exfalso. apply Hni. rewrite Ht, He. apply elem_of_app. right. by left.
Qed.

Lemma sweep_loop_run todo fuel e s pre :
  sr_wf s → mallocs_checked e → addrs s = pre ++ todo → (length todo <= fuel)%nat →
  sweep_loop fuel (now e) (head todo) e s = Ok (tt, foldl (sweep_one e) s todo) ∧
  sr_wf (foldl (sweep_one e) s todo).
Proof.
  revert fuel s pre. induction todo as [|a todo IH]; intros fuel s pre Hs Hm Ha Hl;
    [by destruct fuel|]. destruct fuel as [|fuel]; [simpl in Hl; lia|]. simpl.
  rewrite (bind_run (next_of a) _ e s (head todo) s).
  2:{ unfold next_of, gets, mbind, M_bind.
      by rewrite (next_req_app pre a todo); [|apply Hs|]. }
  destruct (sweep_one_run a e s Hs Hm) as [Hrun Hwf].
  { rewrite Ha. apply elem_of_app. right. by left. }
  rewrite (bind_run _ _ _ _ _ _ Hrun).
  destruct (sweep_one_tail a e s pre todo Hs Hm Ha) as [pre' Ha'].
  apply IH with pre'; [done|done|done|simpl in Hl; lia].
Qed.

(** The sweep ends, without a fault, and does what the specification says. *)
Lemma sweep_run e s :
  sr_wf s → mallocs_checked e →
  sr_arpcache_sweepreqs e s = Ok (tt, sweep e s) ∧ sr_wf (sweep e s).
Proof.
  intros Hs Hm. unfold sr_arpcache_sweepreqs, sweep, gets, ask, mbind, M_bind.
  rewrite <- (length_fmap req_addr (requests (cache s))).
  replace (req_addr <$> head (requests (cache s))) with (head (addrs s))
    by (unfold addrs; by destruct (requests (cache s))).
  apply sweep_loop_run with []; [done..|]. unfold addrs. by rewrite length_fmap.
Qed.

Lemma tick_run e s :
  sr_wf s → mallocs_checked e → timeout_tick e s = Ok (tt, tick e s) ∧ sr_wf (tick e s).
Proof.
  intros Hs Hm. unfold timeout_tick, tick, ask, modify_cache, modify, mbind, M_bind.
  apply sweep_run; [|done]. apply set_cache_wf; [done|]. apply expire_wf, Hs.
Qed.

(** ** What becomes of one request *)

(** The request at [b] is still there after a step, if it was. *)
Definition keeps (t : Z) (b : nat) (s s' : sr_instance) : Prop :=
  ∀ r, req_at b (requests (cache s)) = Some r →
    ∃ r', req_at b (requests (cache s')) = Some r' ∧ older t r r'.

#[export] Instance keeps_preorder t b : PreOrder (keeps t b).
Proof.
  split.
  - intros s r Hr. by exists r.
  - intros s1 s2 s3 H1 H2 r Hr. destruct (H1 r Hr) as (r1 & Hr1 & O1).
    destruct (H2 r1 Hr1) as (r2 & Hr2 & O2). exists r2. split; [done|]. by transitivity r1.
Qed.

Lemma grows_keeps t b s s' : sr_wf s' → grows t s s' → keeps t b s s'.
Proof.
  intros Hs' [(new & old & H1 & H2 & _) _ _] r Hr.
  apply req_at_some in Hr as [Hin <-]. apply list_elem_of_lookup in Hin as [i Hi].
  destruct (Forall2_lookup_l _ _ _ _ _ H2 Hi) as (r' & Hi' & Ho).
  exists r'. split; [|done]. apply req_at_elem.
  - apply (cache_wf_req_addrs _ (sr_wf_cache _ Hs')).
  - rewrite H1. apply elem_of_app. right. by eapply list_elem_of_lookup_2.
  - by eapply older_addr.
Qed.

Lemma req_at_filter a b (l : list sr_arpreq) :
  a ≠ b → req_at b (filter (λ r, req_addr r ≠ a) l) = req_at b l.
Proof.
  intros Hne. induction l as [|r l IH]; [done|]. rewrite filter_cons. simpl.
  destruct (Nat.eqb_spec (req_addr r) b) as [He|He]; case_decide; simpl.
  - by rewrite He, Nat.eqb_refl.
  - lia.
  - by rewrite (proj2 (Nat.eqb_neq _ _) He).
  - done.
Qed.

Lemma req_at_update_ne a b f c :
  a ≠ b → (∀ r, req_addr (f r) = req_addr r) →
  req_at b (requests (update_req a f c)) = req_at b (requests c).
Proof.
  intros Hne Hf. unfold update_req. simpl. induction (requests c) as [|r l IH]; [done|].
  csimpl. rewrite IH. destruct (Nat.eqb_spec (req_addr r) a) as [He|He]; [|done].
  by rewrite Hf, !(proj2 (Nat.eqb_neq _ _)) by lia.
Qed.

(** A round for another request. *)
Lemma sweep_one_keeps a b e s :
  sr_wf s → mallocs_checked e → a ≠ b → keeps (now e) b s (sweep_one e s a).
Proof.
  intros Hs Hm Hne. unfold sweep_one. destruct (req_at a _) as [r|] eqn:Hr; [|reflexivity].
  destruct (1 <=? _); [|reflexivity]. pose proof (req_at_some _ _ _ Hr) as [Hin _].
  pose proof (sr_wf_requests _ _ Hs Hin) as Hrwf. destruct (5 <=? _).
  - destruct (give_up_all_run (req_packets r) e s Hs Hm (req_wf_packets _ Hrwf)) as (_ & Hwf & Hg).
    transitivity (foldl (abandon e) s (req_packets r)); [by apply grows_keeps|].
    intros r' Hr'. exists r'. split; [|reflexivity]. simpl. by rewrite req_at_filter.
  - destruct (req_packets r) as [|p l]; [reflexivity|]. intros r' Hr'. exists r'.
    split; [|reflexivity]. cbn [cache set_cache]. by rewrite arp_request_cache, req_at_update_ne.
Qed.

(** A request that was destroyed does not come back: addresses are not
    reused. *)
Definition gone (a : nat) (s : sr_instance) : Prop :=
  (a ∉ addrs s) ∧ (a < next_addr (cache s))%nat.

Lemma grows_gone t a s s' : grows t s s' → gone a s → gone a s'.
Proof.
  intros [(new & old & H1 & H2 & H3) _ Hn] [Hni Hlt]. split; [|lia].
  unfold addrs in *. rewrite H1, fmap_app. intros [Hin|Hin]%elem_of_app.
  - apply list_elem_of_fmap in Hin as (r & -> & Hr). rewrite list.Forall_forall in H3.
    specialize (H3 r Hr). simpl in H3. lia.
  - apply Hni. clear - H2 Hin. induction H2 as [|r r' l l' Hr _ IH]; [done|]. csimpl in *.
    rewrite (older_addr _ _ _ Hr) in Hin. apply elem_of_cons in Hin as [->|Hin]; [left|right; auto].
Qed.

Lemma sweep_one_gone a b e s :
  sr_wf s → mallocs_checked e → gone b s → gone b (sweep_one e s a).
Proof.
  intros Hs Hm Hb. unfold sweep_one. destruct (req_at a _) as [r|] eqn:Hr; [|done].
  destruct (1 <=? _); [|done]. pose proof (req_at_some _ _ _ Hr) as [Hin _].
  pose proof (sr_wf_requests _ _ Hs Hin) as Hrwf. destruct (5 <=? _).
  - destruct (give_up_all_run (req_packets r) e s Hs Hm (req_wf_packets _ Hrwf)) as (_ & _ & Hg).
    destruct (grows_gone _ _ _ _ Hg Hb) as [Hni Hlt]. split; [|done].
    unfold addrs in *. simpl. rewrite filter_addrs. by intros [_ H]%list_elem_of_filter.
  - destruct (req_packets r); [done|]. destruct Hb as [Hni Hlt]. unfold gone, addrs in *.
    cbn [cache set_cache]. rewrite arp_request_cache, update_addrs by done. done.
Qed.

(** The round for the request itself. *)
Lemma sweep_one_destroys a r e s :
  sr_wf s → mallocs_checked e → req_at a (requests (cache s)) = Some r →
  1 ≤ now e - req_sent r → req_times_sent r = 5 → gone a (sweep_one e s a).
Proof.
  intros Hs Hm Hr Hdue H5. unfold sweep_one. rewrite Hr, H5.
  rewrite (proj2 (Z.leb_le _ _)) by done. change (5 <=? 5) with true. cbv iota.
  pose proof (req_at_some _ _ _ Hr) as [Hin Ha]. pose proof (sr_wf_requests _ _ Hs Hin) as Hrwf.
  destruct (give_up_all_run (req_packets r) e s Hs Hm (req_wf_packets _ Hrwf)) as (_ & _ & Hg).
  split.
  - unfold addrs. simpl. rewrite filter_addrs. by intros [? _]%list_elem_of_filter.
  - simpl. pose proof (grows_next _ _ _ Hg).
    pose proof (cache_wf_fresh _ (sr_wf_cache _ Hs)) as Hf. rewrite list.Forall_forall in Hf.
    specialize (Hf r Hin). simpl in Hf. lia.
Qed.

Lemma sweep_one_resends a r e s :
  sr_wf s → req_at a (requests (cache s)) = Some r →
  1 ≤ now e - req_sent r → req_times_sent r < 5 →
  req_at a (requests (cache (sweep_one e s a))) = Some (mark_sent (now e) r).
Proof.
  intros Hs Hr Hdue H5. unfold sweep_one. rewrite Hr.
  rewrite (proj2 (Z.leb_le _ _)), (proj2 (Z.leb_gt _ _)) by done.
  pose proof (req_at_some _ _ _ Hr) as [Hin Ha].
  pose proof (req_wf_waiting _ (sr_wf_requests _ _ Hs Hin)) as Hw.
  destruct (req_packets r) as [|p l]; [done|]. cbn [cache set_cache].
  rewrite arp_request_cache. by apply req_at_update.
Qed.

Lemma sweep_one_waits a r e s :
  req_at a (requests (cache s)) = Some r → now e - req_sent r < 1 → sweep_one e s a = s.
Proof. intros Hr Hdue. unfold sweep_one. by rewrite Hr, (proj2 (Z.leb_gt _ _)). Qed.
