(* ===== verification/Demo.v ===== *)
(** * A concrete network

    The topology of the repository's tests ([tests/base.py]) with the routing
    table [rtables/rtable_pa2b_lpm]: three interfaces, four routes, and frames of
    its hosts.  The other files apply their theorems to it. *)

From S2P Require Export Packets Print.

(** ** Names and addresses *)

Definition if_name_of (s : list Z) : buf := s ++ replicate (sr_IFACE_NAMELEN - length s) 0.

Definition eth1_name : buf := if_name_of [101; 116; 104; 49].
Definition eth2_name : buf := if_name_of [101; 116; 104; 50].
Definition eth3_name : buf := if_name_of [101; 116; 104; 51].

(** An address in network byte order, as the code holds it. *)
Definition ip4 (a b c d : Z) : Z := le_dec [a; b; c; d].

Definition router_mac (k : Z) : buf := [0xaa; 0; 0; 0; 0; k].
Definition client_mac : buf := [0xbb; 0; 0; 0; 0; 1].
Definition server1_mac : buf := [0xbb; 0; 0; 0; 0; 2].
Definition server2_mac : buf := [0xbb; 0; 0; 0; 0; 3].

Definition client_ip : Z := ip4 10 0 1 100.
Definition server1_ip : Z := ip4 192 168 2 2.
Definition gateway1_ip : Z := ip4 192 168 2 99.
Definition server2_ip : Z := ip4 172 64 3 10.
Definition nowhere_ip : Z := ip4 8 8 8 8.

Definition eth1 : sr_if := mk_if eth1_name (router_mac 1) (ip4 192 168 2 1) 0.
Definition eth2 : sr_if := mk_if eth2_name (router_mac 2) (ip4 172 64 3 1) 0.
Definition eth3 : sr_if := mk_if eth3_name (router_mac 3) (ip4 10 0 1 1) 0.

Definition rtable : list sr_rt :=
  [mk_rt (ip4 192 168 0 0) server2_ip (ip4 255 255 0 0) eth2_name;
   mk_rt (ip4 192 168 2 0) gateway1_ip (ip4 255 255 255 0) eth1_name;
   mk_rt (ip4 172 64 3 0) server2_ip (ip4 255 255 255 0) eth2_name;
   mk_rt (ip4 10 0 1 0) client_ip (ip4 255 255 255 0) eth3_name].

(** ** The router before its first packet, and later *)

Definition cache0 : sr_arpcache := mk_cache (replicate SR_ARPCACHE_SZ zero_entry) [] 0.

Definition net_with (c : sr_arpcache) : sr_instance :=
  mk_sr [] [] [] 0 [eth1; eth2; eth3] rtable c (Some []) [].

Definition net0 : sr_instance := net_with cache0.

(** The client's address is known. *)
Definition net1 : sr_instance := net_with (insert_cache client_mac client_ip 100 cache0).

(** One packet waits for [server2]. *)
Definition parked : sr_packet :=
  mk_packet (replicate 60 7) 60 eth2_name.

Definition cache2 : sr_arpcache :=
  update_req 0 (mark_sent 100) (queue_packet server2_ip parked cache0).

Definition net2 : sr_instance := net_with cache2.

(** An address in dot notation. *)
Definition dotted_text (a : Z) : list Z :=
  match le_enc 4 a with
  | [x; y; z; w] => text_d x ++ [46] ++ text_d y ++ [46] ++ text_d z ++ [46] ++ text_d w
  | _ => []
  end.

Definition env_ok : env := mk_env 110 (110, 0) (λ _, true) (λ n, n) eth1 dotted_text.

(** ** Frames *)

(** An IP packet from [src] to [dst]: a header without options and a payload. *)
Definition ip_frame (dmac smac : buf) (src dst p ttl : Z) (payload : buf) : buf :=
  let h ck := [69; 0] ++ le_enc 2 (htons (20 + Z.of_nat (length payload))) ++ [0; 0; 0; 0] ++
              [ttl; p] ++ le_enc 2 ck ++ le_enc 4 src ++ le_enc 4 dst in
  dmac ++ smac ++ [8; 0] ++ h (cksum_of (h 0)) ++ payload.

Definition ping (data : buf) : buf :=
  let m ck := [8; 0] ++ le_enc 2 ck ++ [0; 1; 0; 1] ++ data in m (cksum_of (m 0)).

(** From the client, by the router's third interface. *)
Definition from_client (dst p ttl : Z) (payload : buf) : buf :=
  ip_frame (router_mac 3) client_mac client_ip dst p ttl payload.

Definition transit : buf := from_client server1_ip ip_protocol_udp 64 (replicate 12 1).
Definition transit_expired : buf := from_client server1_ip ip_protocol_udp 1 (replicate 12 1).
Definition unroutable : buf := from_client nowhere_ip ip_protocol_udp 64 (replicate 12 1).
Definition to_router_udp : buf := from_client (if_ip eth3) ip_protocol_udp 64 (replicate 12 1).
Definition to_router_ping : buf := from_client (if_ip eth3) ip_protocol_icmp 64 (ping [1; 2; 3]).

(** From [server2] to the client. *)
Definition back : buf :=
  ip_frame (router_mac 2) server2_mac server2_ip client_ip ip_protocol_udp 64 (replicate 12 1).

(** ARP packets of [server2]. *)
Definition arp_query : buf :=
  arp_frame broadcast server2_mac arp_op_request server2_mac server2_ip (replicate 6 0) (if_ip eth2).
Definition arp_query_other : buf :=
  arp_frame broadcast server2_mac arp_op_request server2_mac server2_ip (replicate 6 0) client_ip.
Definition arp_answer : buf :=
  arp_frame (router_mac 2) server2_mac arp_op_reply server2_mac server2_ip (router_mac 2) (if_ip eth2).

(** ** Well-formedness *)

Definition bytes_okb (b : buf) : bool := forallb (λ x, (0 <=? x) && (x <? 256)) b.

Lemma bytes_okb_ok b : bytes_okb b = true → bytes_ok b.
Proof.
  unfold bytes_okb. rewrite forallb_forall. intros H. apply list.Forall_forall. intros x Hx.
  apply list_elem_of_In in Hx. specialize (H x Hx). bools. unfold is_u8. lia.
Qed.

Definition frame_okb (b : buf) : bool := bytes_okb b && (Z.of_nat (length b) <? MAX_FRAME).

Lemma frame_okb_ok b : frame_okb b = true → frame_ok b (Z.of_nat (length b)).
Proof. intros [H1%bytes_okb_ok H2]%andb_prop. bools. done. Qed.

Ltac demo_frame := apply frame_okb_ok; vm_compute; reflexivity.
Ltac demo_bytes := apply bytes_okb_ok; vm_compute; reflexivity.

Lemma mac_okb_ok m : (length m =? ETHER_ADDR_LEN)%nat && bytes_okb m = true → mac_ok m.
Proof. intros [H1%Nat.eqb_eq H2%bytes_okb_ok]%andb_prop. done. Qed.

Lemma name_okb_ok m : (length m =? sr_IFACE_NAMELEN)%nat && bytes_okb m = true → name_ok m.
Proof. intros [H1%Nat.eqb_eq H2%bytes_okb_ok]%andb_prop. done. Qed.

Definition if_okb (i : sr_if) : bool :=
  (length (if_name i) =? sr_IFACE_NAMELEN)%nat && bytes_okb (if_name i) &&
  ((length (if_addr i) =? ETHER_ADDR_LEN)%nat && bytes_okb (if_addr i)) &&
  ((0 <=? if_ip i) && (if_ip i <? 2 ^ 32)).

Lemma if_okb_ok i : if_okb i = true → if_wf i.
Proof.
  unfold if_okb. intros [[H1 H2]%andb_prop H3]%andb_prop. split.
  - by apply name_okb_ok.
  - by apply mac_okb_ok.
  - bools. unfold is_u32. lia.
Qed.

Definition rt_okb (r : sr_rt) : bool :=
  ((length (rt_interface r) =? sr_IFACE_NAMELEN)%nat && bytes_okb (rt_interface r)) &&
  forallb (λ x, (0 <=? x) && (x <? 2 ^ 32)) [rt_dest r; rt_gw r; rt_mask r].

Lemma rt_okb_ok r : rt_okb r = true → rt_wf r.
Proof.
  unfold rt_okb. simpl. intros [H1 H2]%andb_prop. bools.
  split; try (unfold is_u32; lia). apply name_okb_ok.
  by rewrite H1, H7.
Qed.

Lemma net_with_wf c : cache_wf c → sr_wf (net_with c).
Proof.
  intros Hc. split; [| |done].
  - simpl. repeat (apply Forall_cons_2; [by apply if_okb_ok; vm_compute|]). constructor.
  - simpl. unfold rtable. repeat (apply Forall_cons_2; [by apply rt_okb_ok; vm_compute|]).
    constructor.
Qed.

Lemma net0_wf : sr_wf net0.
Proof. apply net_with_wf, init_cache_wf. Qed.

Lemma net1_wf : sr_wf net1.
Proof.
  apply net_with_wf, insert_cache_wf; [apply init_cache_wf|by apply mac_okb_ok; vm_compute|].
  by split.
Qed.

Lemma parked_wf : pkt_wf parked.
Proof.
  constructor; simpl; try done; [demo_bytes| |by apply name_okb_ok; vm_compute].
  unfold eth_size. lia.
Qed.

Lemma net2_wf : sr_wf net2.
Proof.
  apply net_with_wf. unfold cache2. apply update_req_wf.
  - apply queue_packet_wf; [apply init_cache_wf|by split|apply parked_wf].
  - intros r Hr _. apply list_elem_of_singleton in Hr as ->. split; [done|]. split; [done|].
    constructor; simpl; [by split|by split|by constructor; [apply parked_wf|constructor]|done].
Qed.

Lemma env_ok_checked : mallocs_checked env_ok.
Proof. by intros a _. Qed.

Lemma env_ok_writes : writes_ok env_ok.
Proof. by intros n. Qed.

Lemma eth_name_cstr n : length n = sr_IFACE_NAMELEN → cstr_ok sr_IFACE_NAMELEN n.
Proof. intros H. by left; lia. Qed.

#[export] Hint Resolve net0_wf net1_wf net2_wf env_ok_checked env_ok_writes : sr.

(** The router handles a frame. *)
Definition handle (frame : buf) (iface : cstr) (s : sr_instance) : res (buf * sr_instance) :=
  sr_handlepacket frame (Z.of_nat (length frame)) iface env_ok s.

(** Discharges a hypothesis at a concrete input. *)
Ltac demo :=
  lazymatch goal with
  | |- sr_wf net0 => apply net0_wf
  | |- sr_wf net1 => apply net1_wf
  | |- sr_wf net2 => apply net2_wf
  | |- mallocs_checked _ => apply env_ok_checked
  | |- writes_ok _ => apply env_ok_writes
  | |- cstr_ok _ _ => by apply eth_name_cstr
  | |- frame_ok _ _ => demo_frame
  | |- bytes_ok _ => demo_bytes
  | |- _ ∨ _ => (left; vm_compute; reflexivity) || (right; vm_compute; reflexivity)
  | |- _ ≠ _ => vm_compute; discriminate
  | |- _ = _ => vm_compute; reflexivity
  | |- _ < _ => vm_compute; reflexivity
  | |- (_ <= _)%nat => apply Nat.leb_le; vm_compute; reflexivity
  | |- _ ≤ _ => apply Z.leb_le; vm_compute; reflexivity
  | |- is_u8 _ => by split
  | |- _ => idtac
  end.
