(* ===== verification/RouterTheorems.v ===== *)
(** * What the router guarantees

    The properties of the frame handlers: they never fault and keep the
    router's invariant, they refine their specification, and the behaviour on
    every kind of frame. *)

From stdpp Require Import gmap.
From S2P Require Export Demo.

(** ** How the router's state evolves

    The configuration does not change, messages are only added, and a frame
    that is sent carries the address of the interface it is sent on. *)

Definition honest (ifs : list sr_if) (m : buf) : Prop :=
  ∃ iface frame n i,
    m = take n (vns_packet (vns_name iface) frame) ∧
    iface_named ifs (cname sr_IFACE_NAMELEN iface) = Some i ∧
    getb 0 ether_shost frame = if_addr i.

Record evolves (s s' : sr_instance) : Prop := {
  evolves_ifs : if_list s' = if_list s;
  evolves_rts : routing_table s' = routing_table s;
  evolves_sent : ∃ new, sent s' = sent s ++ new ∧ Forall (honest (if_list s)) new
}.

#[export] Instance evolves_preorder : PreOrder evolves.
Proof.
  split.
  - intros s. split; [done..|]. exists []. by rewrite app_nil_r.
  - intros s1 s2 s3 [H1 H2 (n1 & H3 & F1)] [H4 H5 (n2 & H6 & F2)].
    split; [congruence..|]. exists (n1 ++ n2). rewrite H6, H3, app_assoc. split; [done|].
    apply Forall_app. split; [done|]. by rewrite <- H1.
Qed.

Lemma send_evolves e b iface s : evolves s (send e b iface s).
Proof.
  split; [apply send_core..|]. unfold send, send_result.
  assert (∃ new, sent (log_frame e b s) = sent s ++ new ∧ Forall (honest (if_list s)) new) as Hlog.
  { exists []. by rewrite app_nil_r, log_frame_sent. }
  destruct (iface_named _ _) as [i|] eqn:Hi; [|done].
  destruct (bool_decide _) eqn:Hb; [|done]. cbn [snd]. destruct (0 <? _); [|done].
  apply bool_decide_eq_true in Hb. eexists. rewrite log_frame_sent. split; [done|].
  constructor; [|done]. by repeat eexists.
Qed.

Lemma set_cache_evolves c s : evolves s (set_cache c s).
Proof. split; [done..|]. exists []. by rewrite app_nil_r. Qed.

#[export] Hint Resolve send_evolves set_cache_evolves : sr.

Lemma arp_reply_evolves e packet iface s : evolves s (arp_reply e packet iface s).
Proof.
  unfold arp_reply. destruct (malloc_ok _ _); [|done]. destruct (named _ _); [auto with sr|done].
Qed.

Lemma arp_request_evolves e site ip iface s : evolves s (arp_request e site ip iface s).
Proof.
  unfold arp_request. destruct (malloc_ok _ _); [|done]. destruct (named _ _); [auto with sr|done].
Qed.

Lemma waiting_evolves e sha l s : evolves s (foldl (send_waiting e sha) s l).
Proof.
  revert s. induction l as [|p l IH]; intros s; [done|]. simpl.
  transitivity (send_waiting e sha s p); [|apply IH].
  unfold send_waiting. destruct (named _ _); [auto with sr|done].
Qed.

Lemma learn_evolves e packet s : evolves s (learn e packet s).
Proof.
  unfold learn. destruct (find_req _ _) as [r|]; [|auto with sr].
  etransitivity; [|apply waiting_evolves]. auto with sr.
Qed.

Lemma handle_arp_evolves e packet iface s : evolves s (handle_arp e packet iface s).
Proof.
  unfold handle_arp. destruct (_ <? _)%nat; [done|]. destruct (named _ _); [|done].
  destruct (_ =? 0); [done|]. destruct (_ =? arp_op_request).
  - destruct (_ =? if_ip _); [|apply learn_evolves].
    etransitivity; [apply learn_evolves|apply arp_reply_evolves].
  - destruct (_ =? arp_op_reply); [|done]. destruct (is_router_ip _ _); [apply learn_evolves|done].
Qed.

Lemma wait_for_evolves e nh frame name s : evolves s (wait_for e nh frame name s).
Proof.
  unfold wait_for. destruct (_ =? 0); [|auto with sr].
  etransitivity; [|apply set_cache_evolves]. etransitivity; [|apply arp_request_evolves].
  auto with sr.
Qed.

Lemma route_out_evolves e packet s : evolves s (route_out e packet s).
Proof.
  unfold route_out. destruct (lpm _ _); [|done]. destruct (named _ _); [|done].
  destruct (malloc_ok _ _); [|done]. destruct (_ !! _); [auto with sr|apply wait_for_evolves].
Qed.

Lemma icmp_error_evolves e packet type code s : evolves s (icmp_error e packet type code s).
Proof.
  unfold icmp_error. destruct (valid_ip _); [|done]. destruct (icmp_source _ _ _); [|done].
  destruct (malloc_ok _ _); [apply route_out_evolves|done].
Qed.

Lemma handle_ip_evolves e packet iface s : evolves s (handle_ip e packet iface s).2.
Proof.
  unfold handle_ip. destruct (negb _); [done|]. destruct (is_router_ip _ _); simpl.
  - unfold deliver. destruct (_ && _).
    + destruct (is_echo_request _); [|done]. unfold echo_reply.
      destruct (malloc_ok _ _); [|done]. destruct (named _ _); [auto with sr|done].
    + destruct (_ || _); [apply icmp_error_evolves|done].
  - destruct (_ <=? 1); [apply icmp_error_evolves|]. unfold forward. simpl.
    destruct (lpm _ _); [apply route_out_evolves|apply icmp_error_evolves].
Qed.

Lemma handle_frame_evolves e packet iface s : evolves s (handle_frame e packet iface s).2.
Proof.
  unfold handle_frame. destruct (_ <? _)%nat; [done|].
  destruct (_ =? ethertype_arp); [apply handle_arp_evolves|].
  destruct (_ =? ethertype_ip); [apply handle_ip_evolves|done].
Qed.

Lemma length_handle_frame e packet iface s :
  length (handle_frame e packet iface s).1 = length packet.
Proof.
  unfold handle_frame, handle_ip. repeat case_match; simpl; try done. apply length_dec_ttl.
Qed.

(** ** Memory safety and the invariant *)

(** C1: on any frame the entry point returns normally: no access out of
    bounds, through a null pointer or to a freed request, no failed assertion,
    no loop without end; the router's state stays well-formed, its interfaces
    and routes are unchanged, the lent buffer keeps its length, and every frame
    that was sent carries the hardware address of the interface it was sent
    on. *)
Theorem sr_handlepacket_safe packet len iface e s
    (Hs : sr_wf s) (Hm : mallocs_checked e)
    (Hi : cstr_ok sr_IFACE_NAMELEN iface) (Hf : frame_ok packet len) :
  ∃ packet' s', sr_handlepacket packet len iface e s = Ok (packet', s') ∧
    sr_wf s' ∧ length packet' = length packet ∧ evolves s s'.
Proof.
  destruct (handle_frame_run packet len iface e s Hs Hm Hi Hf) as [Hrun Hwf].
  pose proof (handle_frame_evolves e packet iface s) as He.
  pose proof (length_handle_frame e packet iface s) as Hl.
  destruct (handle_frame e packet iface s) as [packet' s']. by exists packet', s'.
Qed.

Lemma sr_handlepacket_safe_witness :
  sr_wf net0 ∧ ∃ packet' s',
    sr_handlepacket transit (Z.of_nat (length transit)) eth3_name env_ok net0 = Ok (packet', s') ∧
    sr_wf s' ∧ length packet' = length transit ∧ evolves net0 s'.
Proof.
  split; [apply net0_wf|].
  apply (sr_handlepacket_safe transit (Z.of_nat (length transit)) eth3_name env_ok net0).
  - apply net0_wf.
  - apply env_ok_checked.
  - by apply eth_name_cstr.
  - demo_frame.
Defined.

(** C2: the entry point refines the specification [handle_frame]: the C code,
    with every read and write of the packet buffers checked, computes the
    specification's state and leaves the lent packet as it says. *)
Theorem sr_handlepacket_refines packet len iface e s
    (Hs : sr_wf s) (Hm : mallocs_checked e)
    (Hi : cstr_ok sr_IFACE_NAMELEN iface) (Hf : frame_ok packet len) :
  sr_handlepacket packet len iface e s = Ok (handle_frame e packet iface s).
Proof. by apply handle_frame_run. Qed.

Lemma sr_handlepacket_refines_witness :
  sr_handlepacket to_router_ping (Z.of_nat (length to_router_ping)) eth3_name env_ok net0 =
  Ok (handle_frame env_ok to_router_ping eth3_name net0).
Proof.
  apply (sr_handlepacket_refines to_router_ping _ eth3_name env_ok net0).
  - apply net0_wf.
  - apply env_ok_checked.
  - by apply eth_name_cstr.
  - demo_frame.
Defined.

(** ** Transit packets *)

Lemma named_self s iface out : named s iface = Some out → named s (if_name out) = Some out.
Proof.
  intros H. unfold named in *. by rewrite (iface_named_name _ _ _ H).
Qed.

Lemma handle_frame_ip e packet iface s :
  bytes_ok packet → frame_type packet = ethertype_ip → valid_ip packet = true →
  handle_frame e packet iface s = handle_ip e packet iface s.
Proof.
  intros Hb Ht Hv. unfold handle_frame. rewrite Ht.
  pose proof (layout_frame _ (valid_ip_layout _ Hb Hv)).
  by rewrite (proj2 (Nat.ltb_ge _ _)) by lia.
Qed.

(** The frame a known next hop gets. *)
Lemma route_out_hit e packet s rt out x :
  writes_ok e → malloc_ok e AllocForward = true → sr_wf s → (eth_size <= length packet)%nat →
  lpm (routing_table s) (get eth_size ip_dst packet) = Some rt →
  named s (rt_interface rt) = Some out →
  arp_map (entries (cache s)) !! next_hop rt packet = Some x →
  route_out e packet s =
    emit e (vns_name (if_name out)) (readdress (ent_mac x) (if_addr out) packet) s.
Proof.
  intros Hw Hm Hs Hlen Hl Ho Hx. unfold route_out. rewrite Hl, Ho, Hm, Hx.
  pose proof (named_wf _ _ _ Hs Ho) as Hwf.
  pose proof (entry_wf_mac _ (arp_map_wf _ _ _ (sr_wf_cache _ Hs) Hx)) as [Hmac _].
  eapply send_emit; [done|by apply if_name_cstr|by apply named_self in Ho|].
  apply readdress_getb; [done|apply Hwf].
Qed.

Section transit.
Context (packet : buf) (len : Z) (iface : cstr) (e : env) (s : sr_instance).
Context (Hs : sr_wf s) (Hm : mallocs_checked e).
Context (Hi : cstr_ok sr_IFACE_NAMELEN iface) (Hf : frame_ok packet len).
Context (Htype : frame_type packet = ethertype_ip) (Hv : valid_ip packet = true).

Lemma ip_run : sr_handlepacket packet len iface e s = Ok (handle_ip e packet iface s).
Proof.
  destruct (handle_frame_run packet len iface e s Hs Hm Hi Hf) as [-> _].
  by rewrite handle_frame_ip by (apply Hf || done).
Qed.

Context (Hdst : is_router_ip s (get eth_size ip_dst packet) = false).

Lemma transit_run :
  1 < get eth_size ip_ttl packet →
  sr_handlepacket packet len iface e s = Ok (dec_ttl packet, forward e (dec_ttl packet) s).
Proof.
  intros Ht. rewrite ip_run. unfold handle_ip. rewrite Hv, Hdst. cbn [negb].
  by rewrite (proj2 (Z.leb_gt _ _)) by done.
Qed.

Lemma dec_ttl_dst : get eth_size ip_dst (dec_ttl packet) = get eth_size ip_dst packet.
Proof. apply dec_ttl_get; dj. Qed.

Lemma next_hop_dec rt : next_hop rt (dec_ttl packet) = next_hop rt packet.
Proof. unfold next_hop. by rewrite dec_ttl_dst. Qed.

Context (rt : sr_rt) (out : sr_if).
Context (Hrt : lpm (routing_table s) (get eth_size ip_dst packet) = Some rt).
Context (Hout : named s (rt_interface rt) = Some out).
Context (Httl : 1 < get eth_size ip_ttl packet) (Hfwd : malloc_ok e AllocForward = true).

Lemma transit_route :
  sr_handlepacket packet len iface e s = Ok (dec_ttl packet, route_out e (dec_ttl packet) s).
Proof. rewrite transit_run by done. unfold forward. by rewrite dec_ttl_dst, Hrt. Qed.

(** C9: a valid packet for somewhere else, with a route, whose next hop's
    hardware address is known, is sent at once out of the route's interface,
    to the next hop's address and from the interface's; its TTL is one less,
    its header checksum is right again (so it passes the router's own
    validation), and every other byte behind the Ethernet addresses is as it
    was received. *)
Theorem transit_forwarded x
    (Hw : writes_ok e)
    (Hx : arp_map (entries (cache s)) !! next_hop rt packet = Some x) :
  let packet' := dec_ttl packet in
  sr_handlepacket packet len iface e s =
    Ok (packet', emit e (vns_name (if_name out))
                   (readdress (ent_mac x) (if_addr out) packet') s) ∧
  valid_ip packet' = true ∧
  get eth_size ip_ttl packet' = get eth_size ip_ttl packet - 1 ∧
  ∀ i, i ≠ 22%nat → i ≠ 24%nat → i ≠ 25%nat → packet' !! i = packet !! i.
Proof.
  pose proof (valid_ip_layout _ (proj1 Hf) Hv) as Hl.
  split; [|split; [|split]].
  - rewrite transit_route. do 2 f_equal. eapply route_out_hit; try done.
    + rewrite length_dec_ttl. pose proof (layout_frame _ Hl). lia.
    + by rewrite dec_ttl_dst.
    + by rewrite next_hop_dec.
  - apply dec_ttl_valid; [apply Hf|]. by apply andb_prop in Hv as [? _].
  - by apply dec_ttl_ttl; [apply Hf| |].
  - apply dec_ttl_lookup.
Qed.

(** The frame that waits: its source address is already the interface's. *)
Definition waiting_frame : buf := setb 0 ether_shost (if_addr out) (dec_ttl packet).

Definition waiting_packet : sr_packet :=
  mk_packet waiting_frame (Z.of_nat (length packet)) (name_copy sr_IFACE_NAMELEN (if_name out)).

Lemma transit_wait :
  arp_map (entries (cache s)) !! next_hop rt packet = None →
  sr_handlepacket packet len iface e s =
    Ok (dec_ttl packet, wait_for e (next_hop rt packet) waiting_frame (if_name out) s).
Proof.
  intros Hx. rewrite transit_route. unfold route_out.
  by rewrite dec_ttl_dst, Hrt, Hout, Hfwd, next_hop_dec, Hx.
Qed.

Lemma length_waiting : length waiting_frame = length packet.
Proof. unfold waiting_frame. by rewrite length_setb, length_dec_ttl. Qed.

(** C12: when the next hop is unknown and nothing was asked yet, the packet is
    queued as the only packet of a new request, which is recorded as sent
    once, now; and exactly one message leaves the router, the broadcast ARP
    request for the next hop. *)
Theorem transit_first_miss
    (Hw : writes_ok e) (Hreq : malloc_ok e AllocArpRequest = true)
    (Hx : arp_map (entries (cache s)) !! next_hop rt packet = None)
    (Hnew : find_req (next_hop rt packet) (requests (cache s)) = None) :
  ∃ s', sr_handlepacket packet len iface e s = Ok (dec_ttl packet, s') ∧
    sent s' = sent s ++ [vns_packet (vns_name (if_name out))
                           (arp_request_frame out (next_hop rt packet))] ∧
    entries (cache s') = entries (cache s) ∧
    requests (cache s') =
      mk_req (next_addr (cache s)) (next_hop rt packet) (now e) 1 [waiting_packet]
        :: requests (cache s).
Proof.
  rewrite transit_wait by done. eexists. split; [done|].
  unfold wait_for, times_asked, queue_packet, queue_addr. rewrite Hnew. cbn [Z.eqb].
  set (nh := next_hop rt packet) in *. set (c := cache s) in *. rewrite length_waiting.
  fold waiting_packet.
  set (s1 := set_cache _ s).
  assert (named s1 (if_name out) = Some out) as Ho by by eapply named_self.
  pose proof (named_wf _ _ _ Hs Hout) as Hwf.
  pose proof (proj1 (if_wf_addr _ Hwf)) as Ha.
  assert (arp_request e AllocArpRequest nh (if_name out) s1 =
    emit e (vns_name (if_name out)) (arp_request_frame out nh) s1) as ->.
  { unfold arp_request. rewrite Hreq, Ho. eapply send_emit; [done|by apply if_name_cstr|done|].
    unfold getb. apply slice_seg; [done|by rewrite Ha]. }
  change (0 =? 0) with true. cbv iota.
  rewrite (same_cache _ _ (emit_core e (vns_name (if_name out)) (arp_request_frame out nh) s1)).
  split; [by destruct (logfile s)|]. split; [done|].
  unfold update_req. cbn [cache set_cache requests s1]. csimpl. rewrite Nat.eqb_refl.
  f_equal. transitivity (id <$> requests c); [|apply list_fmap_id].
  apply list_fmap_ext. intros i r Hr.
  pose proof (Forall_lookup_1 _ _ _ _ (cache_wf_fresh _ (sr_wf_cache _ Hs)) Hr) as Hlt.
  cbv beta in Hlt. fold c in Hlt. by rewrite (proj2 (Nat.eqb_neq _ _)) by lia.
Qed.

(** C24: when the next hop was already asked for, the packet is put in front
    of the packets of the pending request, and nothing is sent: no second
    ARP request. *)
Theorem transit_next_miss r
    (Hx : arp_map (entries (cache s)) !! next_hop rt packet = None)
    (Hr : find_req (next_hop rt packet) (requests (cache s)) = Some r)
    (Hasked : req_times_sent r ≠ 0) :
  sr_handlepacket packet len iface e s =
    Ok (dec_ttl packet,
        set_cache (update_req (req_addr r) (push_packet waiting_packet) (cache s)) s).
Proof.
  rewrite transit_wait by done. unfold wait_for, times_asked, queue_packet. rewrite Hr.
  rewrite (proj2 (Z.eqb_neq _ _)) by done. by rewrite length_waiting.
Qed.
End transit.

(** ** ICMP errors *)

(** The sender of [packet] can be told: the error's source interface is [out],
    and the sender is reached through the interface [via] and the hardware
    address [mac]. *)
Record can_answer (e : env) (s : sr_instance) (packet : buf) (out via : sr_if) (mac : buf)
    : Prop := {
  answer_writes : writes_ok e;
  answer_malloc : malloc_ok e AllocIcmpError = true ∧ malloc_ok e AllocForward = true;
  answer_source : icmp_source s packet (get eth_size ip_src packet) = Some out;
  answer_via : ∃ rt x, lpm (routing_table s) (get eth_size ip_src packet) = Some rt ∧
    named s (rt_interface rt) = Some via ∧
    arp_map (entries (cache s)) !!
      (if rt_gw rt =? 0 then get eth_size ip_src packet else rt_gw rt) = Some x ∧
    ent_mac x = mac
}.

Lemma answer_addresses e s packet out via mac :
  sr_wf s → can_answer e s packet out via mac → mac_ok (if_addr via) ∧ mac_ok mac.
Proof.
  intros Hs [_ _ _ (rt & x & _ & Hvia & Hx & <-)]. split.
  - apply if_wf_addr. by eapply named_wf.
  - apply entry_wf_mac. eapply arp_map_wf; [apply Hs|done].
Qed.

Lemma icmp_error_emit e s packet type code out via mac :
  sr_wf s → bytes_ok packet → valid_ip packet = true → is_u8 type → is_u8 code →
  can_answer e s packet out via mac →
  icmp_error e packet type code s =
    emit e (vns_name (if_name via))
      (readdress mac (if_addr via) (icmp_error_frame out packet type code)) s.
Proof.
  intros Hs Hb Hv Ht Hc [Hw [Hm1 Hm2] Ho (rt & x & Hrt & Hvia & Hx & <-)].
  unfold icmp_error. rewrite Hv, Ho, Hm1.
  pose proof (icmp_source_wf _ _ _ _ Hs Ho) as Howf.
  pose proof (valid_ip_layout _ Hb Hv) as Hl.
  destruct (error_frame_addrs out packet type code Howf Hb Hl) as (_ & _ & _ & _ & Hdst).
  eapply route_out_hit; try done.
  - rewrite (error_frame_length out packet type code) by done. unfold eth_size. lia.
  - by rewrite Hdst.
  - unfold next_hop. by rewrite Hdst.
Qed.

Section errors.
Context (packet : buf) (len : Z) (iface : cstr) (e : env) (s : sr_instance).
Context (Hs : sr_wf s) (Hm : mallocs_checked e).
Context (Hi : cstr_ok sr_IFACE_NAMELEN iface) (Hf : frame_ok packet len).
Context (Htype : frame_type packet = ethertype_ip) (Hv : valid_ip packet = true).
Context (out via : sr_if) (mac : buf).

(** C18: a packet for somewhere else whose TTL is 0 or 1 is not forwarded: the
    one frame that leaves is an ICMP time-exceeded error (11/0) about it. *)
Theorem ttl_expired_answered
    (Ha : can_answer e s packet out via mac)
    (Hdst : is_router_ip s (get eth_size ip_dst packet) = false)
    (Httl : get eth_size ip_ttl packet ≤ 1) :
  sr_handlepacket packet len iface e s =
    Ok (packet, emit e (vns_name (if_name via))
                  (readdress mac (if_addr via) (icmp_error_frame out packet 11 0)) s).
Proof.
  rewrite ip_run by done. unfold handle_ip. rewrite Hv, Hdst. cbn [negb].
  rewrite (proj2 (Z.leb_le _ _)) by done.
  by rewrite (icmp_error_emit _ _ _ _ _ out via mac) by (apply Hf || done).
Qed.

(** C19: a packet for somewhere else that no route matches is answered with an
    ICMP network-unreachable error (3/0) about the packet as it would have been
    forwarded (its TTL one less).  When a route matches, but names an interface
    that the router does not have, the packet is dropped without a word. *)
Theorem no_route_answered
    (Hdst : is_router_ip s (get eth_size ip_dst packet) = false)
    (Httl : 1 < get eth_size ip_ttl packet) :
  (can_answer e s (dec_ttl packet) out via mac →
   lpm (routing_table s) (get eth_size ip_dst packet) = None →
   sr_handlepacket packet len iface e s =
     Ok (dec_ttl packet,
         emit e (vns_name (if_name via))
           (readdress mac (if_addr via) (icmp_error_frame out (dec_ttl packet) 3 0)) s)) ∧
  (∀ rt, lpm (routing_table s) (get eth_size ip_dst packet) = Some rt →
   named s (rt_interface rt) = None →
   sr_handlepacket packet len iface e s = Ok (dec_ttl packet, s)).
Proof.
  rewrite transit_run by done. unfold forward. rewrite dec_ttl_dst. split.
  - intros Ha ->. rewrite (icmp_error_emit _ _ _ _ _ out via mac); try done.
    + apply dec_ttl_ok, Hf.
    + apply dec_ttl_valid; [apply Hf|]. by apply andb_prop in Hv as [? _].
  - intros rt Hrt Hno. rewrite Hrt. unfold route_out. by rewrite dec_ttl_dst, Hrt, Hno.
Qed.

(** C20: a TCP or UDP packet for the router itself is answered with an ICMP
    port-unreachable error (3/3). *)
Theorem port_unreachable_answered
    (Ha : can_answer e s packet out via mac)
    (Hdst : is_router_ip s (get eth_size ip_dst packet) = true)
    (Hp : get eth_size ip_p packet = ip_protocol_tcp ∨
          get eth_size ip_p packet = ip_protocol_udp) :
  sr_handlepacket packet len iface e s =
    Ok (packet, emit e (vns_name (if_name via))
                  (readdress mac (if_addr via) (icmp_error_frame out packet 3 3)) s).
Proof.
  rewrite ip_run by done. unfold handle_ip. rewrite Hv, Hdst. cbn [negb].
  unfold deliver. rewrite <- (icmp_error_emit _ _ _ 3 3 out via mac) by (apply Hf || done).
  by destruct Hp as [-> | ->].
Qed.
End errors.

(** C22: what [sr_send_icmp_error] sends.  For a valid packet whose sender can
    be told, exactly one frame leaves, to the hardware address that the way back
    to the sender resolves to, and it is a valid IP packet (by the router's
    validation and by RFC 1071): an ICMP message with a fresh TTL from the source
    interface's address to the sender, with the type and code asked for, a
    correct ICMP checksum, and as its data the first 28 bytes of the IP packet it
    is about, or the whole of a shorter one with zeros behind it. *)
Theorem icmp_error_well_formed packet len type code e s out via mac
    (Hs : sr_wf s) (Hm : mallocs_checked e) (Hf : frame_ok packet len)
    (Hv : valid_ip packet = true) (Ht : is_u8 type) (Hc : is_u8 code)
    (Ha : can_answer e s packet out via mac) :
  ∃ F, sr_send_icmp_error packet len type code e s =
      Ok (packet, emit e (vns_name (if_name via)) F s) ∧
    length F = 70%nat ∧ getb 0 ether_dhost F = mac ∧ getb 0 ether_shost F = if_addr via ∧
    valid_ip F = true ∧ rfc1071_valid (ip_header F) = true ∧ ip_total F = 56 ∧
    get eth_size ip_p F = ip_protocol_icmp ∧ get eth_size ip_ttl F = INIT_TTL ∧
    get eth_size ip_src F = if_ip out ∧ get eth_size ip_dst F = get eth_size ip_src packet ∧
    get (payload_off F) icmp_type F = type ∧ get (payload_off F) icmp_code F = code ∧
    rfc1071_valid (slice (payload_off F) icmp_t11_size F) = true ∧
    let n := Z.to_nat (Z.min (ip_total packet) 28) in
    getb (payload_off F) icmp_data F = slice eth_size n packet ++ replicate (28 - n) 0.
Proof.
  destruct Hf as (Hb & Hlen & Hmax). pose proof (valid_ip_layout _ Hb Hv) as Hl.
  destruct (icmp_error_run packet len type code e s) as [Hrun _]; [done..|].
  rewrite (icmp_error_emit e s packet type code out via mac) in Hrun by done.
  pose proof (icmp_source_wf _ _ _ _ Hs (answer_source _ _ _ _ _ _ Ha)) as Ho.
  destruct (answer_addresses _ _ _ _ _ _ Hs Ha) as [[Hvl Hvb] [Hml Hmb]].
  pose proof (error_frame_valid out packet type code Ho Hb Hl Ht Hc) as HvF.
  destruct (error_frame_addrs out packet type code Ho Hb Hl) as (_ & Hp & Httl & Hsrc & Hdst).
  destruct (error_frame_icmp out packet type code Ho Hb Hl Ht Hc) as (Hty & Hco & Hd & Hck).
  pose proof (icmp_error_frame_ok out packet type code Ho Hb Hl Ht Hc) as (HbF & _).
  pose proof (error_frame_length out packet type code Ho Hb Hl Ht Hc) as HlF.
  assert (ip_hlen (icmp_error_frame out packet type code) = 20) as Hh by by apply error_frame_hlen.
  eexists. split; [exact Hrun|]. set (F := icmp_error_frame out packet type code) in *.
  assert (12 <= length F)%nat as H12 by lia.
  destruct (readdress_getb mac (if_addr via) F Hml Hvl) as [Hdh Hsh].
  rewrite payload_off_readdress, ip_header_readdress, ip_total_readdress, length_readdress
    by (done || lia).
  rewrite !get_readdress by (done || unfold payload_off, eth_size; simpl; lia).
  assert (12 <= payload_off F)%nat as H12p by (unfold payload_off, eth_size; lia).
  rewrite (getb_readdress _ _ _ Hml Hvl H12 (payload_off F) icmp_data) by lia.
  rewrite (slice_readdress _ _ _ Hml Hvl H12) by done. rewrite Hd.
  split; [done|]. split; [done|]. split; [done|]. split; [by apply valid_ip_readdress|].
  split; [by apply valid_ip_rfc1071 in HvF as (_ & ? & _)|].
  split; [by apply error_frame_total|]. by repeat (split; [done|]).
Qed.

(** ** Echo requests *)

Section echo.
Context (packet : buf) (len : Z) (iface : cstr) (e : env) (s : sr_instance) (out : sr_if).
Context (Hs : sr_wf s) (Hm : mallocs_checked e).
Context (Hi : cstr_ok sr_IFACE_NAMELEN iface) (Hf : frame_ok packet len).
Context (Htype : frame_type packet = ethertype_ip) (Hv : valid_ip packet = true).
Context (Hdst : is_router_ip s (get eth_size ip_dst packet) = true).
Context (Hp : get eth_size ip_p packet = ip_protocol_icmp).
Context (Hlen : 8 ≤ payload_len packet) (Hreq : is_echo_request packet = true).

(** C21: an ICMP echo request for the router with a correct checksum gets one
    answer on the interface it came by: to the sender's hardware address,
    with the IP addresses exchanged and a fresh TTL, an echo reply with both
    checksums correct, and the identifier, sequence number and data of the
    request unchanged. *)
Theorem echo_request_answered
    (Hw : writes_ok e) (Hmal : malloc_ok e AllocEchoReply = true)
    (Ho : named s iface = Some out) :
  let F := echo_reply_frame out packet in
  sr_handlepacket packet len iface e s = Ok (packet, emit e (vns_name iface) F s) ∧
  length F = length packet ∧
  getb 0 ether_dhost F = getb 0 ether_shost packet ∧ getb 0 ether_shost F = if_addr out ∧
  valid_ip F = true ∧
  get eth_size ip_src F = get eth_size ip_dst packet ∧
  get eth_size ip_dst F = get eth_size ip_src packet ∧
  get eth_size ip_ttl F = INIT_TTL ∧
  get (payload_off packet) icmp_type F = 0 ∧ get (payload_off packet) icmp_code F = 0 ∧
  rfc1071_valid (slice (payload_off packet) (Z.to_nat (payload_len packet)) F) = true ∧
  ∀ i, (payload_off packet + 4 <= i)%nat → F !! i = packet !! i.
Proof.
  pose proof (named_wf _ _ _ Hs Ho) as Hwf. pose proof (proj1 Hf) as Hb.
  destruct (echo_ip out packet Hwf Hb Hv) as (H1 & H2 & H3).
  destruct (echo_icmp out packet Hwf Hb Hv Hlen) as (H4 & H5 & H6).
  destruct (echo_eth out packet Hwf Hb Hv Hlen) as [H7 H8].
  cbv zeta. split.
  - rewrite ip_run by done. unfold handle_ip. rewrite Hv, Hdst. cbn [negb].
    unfold deliver. rewrite Hp, Hreq. change (ip_protocol_icmp =? ip_protocol_icmp) with true.
    rewrite (proj2 (Z.leb_le _ _)) by done. cbn [andb]. unfold echo_reply. rewrite Hmal, Ho.
    by erewrite send_emit.
  - split; [by apply echo_length|]. do 2 (split; [done|]).
    split; [by apply echo_valid|]. do 6 (split; [done|]).
    intros i Hi'. apply echo_lookup; try done; [|by right].
    destruct (echo_bounds packet Hb Hv Hlen) as [[? _] _]. lia.
Qed.
End echo.

(** ** ARP *)

Lemma foldl_waiting_sent e sha l s :
  writes_ok e → Forall pkt_wf l → length sha = 6%nat → sr_wf s →
  (∀ p, p ∈ l → is_Some (named s (pkt_iface p))) →
  ∃ outs, Forall2 (λ p out, named s (pkt_iface p) = Some out) l outs ∧
    sent (foldl (send_waiting e sha) s l) = sent s ++
      zip_with (λ p out, vns_packet (vns_name (pkt_iface p))
                           (readdress sha (if_addr out) (pkt_buf p))) l outs.
Proof.
  intros Hw Hl Hsha. revert s. induction Hl as [|p l Hp Hl IH]; intros s Hs Hn.
  { exists []. split; [constructor|]. by rewrite app_nil_r. }
  destruct (Hn p) as [out Ho]; [left|]. simpl.
  destruct (IH (send_waiting e sha s p)) as (outs & H1 & H2).
  { by rewrite <- send_waiting_core. }
  { intros q Hq. rewrite (named_core _ _ _ (send_waiting_core e sha s p)). apply Hn. by right. }
  exists (out :: outs). split.
  - constructor; [done|]. eapply list.Forall2_impl; [exact H1|]. intros q o Hqo. simpl in Hqo.
    by rewrite (named_core _ _ _ (send_waiting_core e sha s p)) in Hqo.
  - rewrite H2. unfold send_waiting. rewrite Ho.
    rewrite (send_emit _ _ _ _ out); [|done|by apply name_ok_cstr, Hp|done|].
    + rewrite emit_sent, <- app_assoc. done.
    + apply readdress_getb; [done|]. apply (if_wf_addr _ (named_wf _ _ _ Hs Ho)).
Qed.

Section arp.
Context (packet : buf) (len : Z) (iface : cstr) (e : env) (s : sr_instance) (recv : sr_if).
Context (Hs : sr_wf s) (Hm : mallocs_checked e).
Context (Hi : cstr_ok sr_IFACE_NAMELEN iface) (Hf : frame_ok packet len).
Context (Htype : frame_type packet = ethertype_arp).
Context (Hlen : (eth_size + arp_size <= length packet)%nat).
Context (Hrecv : named s iface = Some recv).
Context (Hsip : get eth_size ar_sip packet ≠ 0).

Definition arp_sha : buf := getb eth_size ar_sha packet.
Definition arp_sip : Z := get eth_size ar_sip packet.

Lemma arp_run :
  sr_handlepacket packet len iface e s =
    Ok (packet,
        let op := ntohs (get eth_size ar_op packet) in
        let tip := get eth_size ar_tip packet in
        if op =? arp_op_request then
          if tip =? if_ip recv then arp_reply e packet iface (learn e packet s)
          else learn e packet s
        else if op =? arp_op_reply then
          if is_router_ip s tip then learn e packet s else s
        else s).
Proof.
  destruct (handle_frame_run packet len iface e s Hs Hm Hi Hf) as [-> _].
  unfold handle_frame, handle_arp. rewrite Htype, Hrecv.
  rewrite !(proj2 (Nat.ltb_ge _ _)) by (unfold arp_size, eth_size in *; lia).
  by rewrite (proj2 (Z.eqb_neq _ 0)) by done.
Qed.

Lemma arp_sha_ok : mac_ok arp_sha.
Proof. apply getb_mac_ok; [done|fits|apply Hf]. Qed.

Lemma learn_cache :
  cache (learn e packet s) = insert_cache arp_sha arp_sip (now e) (cache s).
Proof.
  unfold learn. fold arp_sha arp_sip. destruct (find_req _ _); [|done].
  by rewrite (same_cache _ _ (send_all_waiting_core _ _ _ _)).
Qed.

(** C23: an ARP request for the address of the interface it came by is
    answered on that interface with the interface's hardware address, and the
    sender's own mapping is learned; nothing else is sent when nothing waited
    for the sender. *)
Theorem arp_request_answered
    (Hw : writes_ok e) (Hmal : malloc_ok e AllocArpReply = true)
    (Hop : ntohs (get eth_size ar_op packet) = arp_op_request)
    (Htip : get eth_size ar_tip packet = if_ip recv)
    (Hnone : find_req arp_sip (requests (cache s)) = None)
    (Hroom : has_room (entries (cache s)) arp_sip) :
  ∃ s', sr_handlepacket packet len iface e s = Ok (packet, s') ∧
    sent s' = sent s ++
      [vns_packet (vns_name iface)
         (arp_frame arp_sha (if_addr recv) arp_op_reply
            (if_addr recv) (if_ip recv) arp_sha arp_sip)] ∧
    arp_map (entries (cache s')) =
      <[arp_sip := mk_entry arp_sha arp_sip (now e) true]> (arp_map (entries (cache s))).
Proof.
  rewrite arp_run, Hop, Htip. cbv zeta. rewrite !Z.eqb_refl. eexists. split; [done|].
  assert (named (learn e packet s) iface = Some recv) as Hn.
  { unfold named. rewrite (evolves_ifs _ _ (learn_evolves e packet s)). exact Hrecv. }
  pose proof (proj1 (if_wf_addr _ (named_wf _ _ _ Hs Hrecv))) as Ha.
  pose proof (proj1 arp_sha_ok) as Hsha.
  unfold arp_reply. rewrite Hmal, Hn. rewrite (send_emit _ _ _ _ recv); try done.
  - rewrite emit_sent, (same_cache _ _ (emit_core _ _ _ _)), learn_cache. split.
    + f_equal. unfold learn. fold arp_sip. by rewrite Hnone.
    + apply insert_entries_map; [exact (cache_wf_unique _ (sr_wf_cache _ Hs))|done].
  - unfold getb at 1, arp_reply_frame. fold arp_sha. apply slice_seg; [by rewrite Hsha|by rewrite Ha].
Qed.

(** C17: an ARP reply for one of the router's addresses completes the pending
    request for the sender: every packet that waited is sent, in the order of
    the request's list (the packet queued last comes first), to the learned
    hardware address and from its own interface's; the request leaves the
    queue, the others stay, and the mapping is cached. *)
Theorem arp_reply_flushes r
    (Hw : writes_ok e)
    (Hop : ntohs (get eth_size ar_op packet) = arp_op_reply)
    (Htip : is_router_ip s (get eth_size ar_tip packet) = true)
    (Hr : find_req arp_sip (requests (cache s)) = Some r)
    (Hifs : ∀ p, p ∈ req_packets r → is_Some (named s (pkt_iface p)))
    (Hroom : has_room (entries (cache s)) arp_sip) :
  ∃ s' outs, sr_handlepacket packet len iface e s = Ok (packet, s') ∧
    Forall2 (λ p out, named s (pkt_iface p) = Some out) (req_packets r) outs ∧
    sent s' = sent s ++
      zip_with (λ p out, vns_packet (vns_name (pkt_iface p))
                           (readdress arp_sha (if_addr out) (pkt_buf p)))
        (req_packets r) outs ∧
    requests (cache s') = filter (λ r, req_ip r ≠ arp_sip) (requests (cache s)) ∧
    arp_map (entries (cache s')) !! arp_sip = Some (mk_entry arp_sha arp_sip (now e) true).
Proof.
  pose proof (cache_wf_requests _ (sr_wf_cache _ Hs)) as Hrs.
  rewrite list.Forall_forall in Hrs. pose proof (find_req_some _ _ _ Hr) as [Hin _].
  assert (sr_wf (set_cache (insert_cache arp_sha arp_sip (now e) (cache s)) s)) as Hs1.
  { apply set_cache_wf; [done|]. apply insert_cache_wf; [apply Hs|apply arp_sha_ok|].
    apply le_dec_u32, Hf. }
  destruct (foldl_waiting_sent e arp_sha (req_packets r) _ Hw (req_wf_packets _ (Hrs _ Hin))
    (proj1 arp_sha_ok) Hs1 Hifs) as (outs & H1 & H2).
  exists (learn e packet s), outs.
  rewrite arp_run. cbv zeta. rewrite Hop, Htip. split; [done|]. split; [done|].
  rewrite learn_cache. split; [|split; [done|]].
  - unfold learn. fold arp_sip arp_sha. rewrite Hr. exact H2.
  - simpl. rewrite insert_entries_map; [|exact (cache_wf_unique _ (sr_wf_cache _ Hs))|done].
    apply lookup_insert_eq.
Qed.
End arp.

(** ** Frames without effect *)

(** The frames that are for nobody, or are no good. *)
Inductive dropped (s : sr_instance) (iface : cstr) (packet : buf) : Prop :=
  | DropShort : (length packet < eth_size)%nat → dropped s iface packet
  | DropType : frame_type packet ≠ ethertype_arp → frame_type packet ≠ ethertype_ip →
      dropped s iface packet
  | DropInvalid : frame_type packet = ethertype_ip → valid_ip packet = false →
      dropped s iface packet
  | DropArpShort : frame_type packet = ethertype_arp →
      (length packet < eth_size + arp_size)%nat → dropped s iface packet
  | DropArpIface : frame_type packet = ethertype_arp → named s iface = None →
      dropped s iface packet
  | DropArpSender : frame_type packet = ethertype_arp → get eth_size ar_sip packet = 0 →
      dropped s iface packet
  | DropArpOp : frame_type packet = ethertype_arp →
      ntohs (get eth_size ar_op packet) ≠ arp_op_request →
      ntohs (get eth_size ar_op packet) ≠ arp_op_reply → dropped s iface packet
  | DropArpOther : frame_type packet = ethertype_arp →
      ntohs (get eth_size ar_op packet) = arp_op_reply →
      is_router_ip s (get eth_size ar_tip packet) = false → dropped s iface packet
  | DropProtocol : frame_type packet = ethertype_ip →
      is_router_ip s (get eth_size ip_dst packet) = true →
      get eth_size ip_p packet ≠ ip_protocol_icmp → get eth_size ip_p packet ≠ ip_protocol_tcp →
      get eth_size ip_p packet ≠ ip_protocol_udp → dropped s iface packet
  | DropIcmp : frame_type packet = ethertype_ip →
      is_router_ip s (get eth_size ip_dst packet) = true →
      get eth_size ip_p packet = ip_protocol_icmp →
      payload_len packet < 8 ∨ is_echo_request packet = false → dropped s iface packet.

(** C37: such a frame changes nothing and sends nothing: not the cache, not the
    queue, not the log, and the lent packet is as it was. *)
Theorem dropped_no_effect packet len iface e s
    (Hs : sr_wf s) (Hm : mallocs_checked e)
    (Hi : cstr_ok sr_IFACE_NAMELEN iface) (Hf : frame_ok packet len)
    (Hd : dropped s iface packet) :
  sr_handlepacket packet len iface e s = Ok (packet, s).
Proof.
  destruct (handle_frame_run packet len iface e s Hs Hm Hi Hf) as [-> _]. f_equal.
  unfold handle_frame, handle_arp, handle_ip, deliver.
  destruct (Nat.ltb_spec (length packet) eth_size); [done|].
  destruct Hd as [?|Ha Hip|Ht Hv|Ht Hl|Ht Hn|Ht H0|Ht H1 H2|Ht H1 H2|Ht Hmine H1 H2 H3|Ht Hmine H1 H2].
  - lia.
  - by rewrite !(proj2 (Z.eqb_neq _ _)) by done.
  - by rewrite Ht, Hv.
  - rewrite Ht. by rewrite (proj2 (Nat.ltb_lt _ _)) by done.
  - rewrite Ht, Hn. by destruct (_ <? _)%nat.
  - rewrite Ht, H0. by repeat case_match.
  - rewrite Ht. rewrite (proj2 (Z.eqb_neq _ arp_op_request)), (proj2 (Z.eqb_neq _ arp_op_reply)) by done.
    by repeat case_match.
  - rewrite Ht, H1, H2. change (arp_op_reply =? arp_op_request) with false.
    rewrite !Z.eqb_refl. cbn [negb]. by repeat case_match.
  - rewrite Ht, Hmine. rewrite (proj2 (Z.eqb_neq (get eth_size ip_p packet) ip_protocol_icmp)) by done.
    rewrite (proj2 (Z.eqb_neq (get eth_size ip_p packet) ip_protocol_tcp)) by done.
    rewrite (proj2 (Z.eqb_neq (get eth_size ip_p packet) ip_protocol_udp)) by done.
    by destruct (negb _).
  - rewrite Ht, Hmine, H1. destruct (negb _); [done|].
    destruct H2 as [H2|H2]; [rewrite (proj2 (Z.leb_gt _ _)) by exact H2|rewrite H2].
    + done.
    + by destruct (_ <=? _).
Qed.
