(* ===== verification/VnsSpec.v ===== *)
(** * What the session does with a command

    The run lemmas of [Vns.v]: reading a command does not depend on how its
    bytes arrive, and a packet command has the effect of the router's
    specification. *)

From S2P Require Export Vns RouterTheorems.

(** ** Reading *)

(** A command as the server sends it: its length in front. *)
Record message (m : buf) : Prop := {
  message_bytes : bytes_ok m;
  message_min : (8 <= length m)%nat;
  message_max : Z.of_nat (length m) ≤ 10000;
  message_len : slice 0 4 m = le_enc 4 (htonl (Z.of_nat (length m)))
}.

Lemma htonl_small n : 0 ≤ n < 2 ^ 31 → is_u32 (htonl n) ∧ ntohl (htonl n) = n ∧ i32 n = n.
Proof.
  intros Hn. assert (is_u32 n) by (unfold is_u32; lia).
  split; [by apply ntohl_bound|]. split; [by apply ntohl_involutive|].
  unfold i32. by destruct (Z.ltb_spec n (2 ^ 31)); [|lia].
Qed.

(** What is done once the length is read. *)
Definition after_length (len : Z) : V command :=
  if (10000 <? len) || (len <? 0) then close_socket;; mret (NoCommand (-1))
  else read_body len.

(** The four bytes of the length have arrived. *)
Lemma read_length_run n s1 e s :
  0 ≤ n < 2 ^ 32 → take 4 (incoming s) = le_enc 4 (htonl n) →
  recv_loop (S (length (answers s))) 0 4 0 (replicate 4 0) e (next_turn s) =
    Ok (Some (put (0 + 0) (take (4 - 0) (incoming s)) (replicate 4 0)), s1) →
  read_command e s = after_length (i32 n) e s1.
Proof.
  intros Hn H4 H1. unfold read_command, recv_fuel.
  rewrite (bind_run _ _ e s tt (next_turn s)) by done.
  rewrite (bind_run _ _ e (next_turn s) (S (length (answers s))) (next_turn s)) by done.
  rewrite (bind_run _ _ _ _ _ _ H1). change (4 - 0)%nat with 4%nat. rewrite H4.
  change (0 + 0)%nat with 0%nat.
  rewrite put_0 by (rewrite length_le_enc, length_replicate; lia).
  rewrite length_le_enc, drop_ge, app_nil_r by (rewrite length_replicate; lia).
  rewrite le_dec_enc by exact (ntohl_bound n).
  change (ntohl (htonl n)) with (ntohl (ntohl n)). by rewrite ntohl_involutive.
Qed.

Lemma read_length_bytes n rest e s :
  0 ≤ n < 2 ^ 32 → incoming s = le_enc 4 (htonl n) ++ rest →
  no_failure (answers s) → (4 <= supply (answers s))%nat →
  ∃ l, no_failure l ∧ (supply (answers s) <= supply l + 4)%nat ∧
    read_command e s = after_length (i32 n) e (set_input rest l (next_turn s)).
Proof.
  intros Hn Hin Hno Hsup.
  destruct (recv_loop_run (S (length (answers s))) 0 4 0 (replicate 4 0) e (next_turn s))
    as (l1 & H1 & Hn1 & Hs1); cbn [answers incoming next_turn]; try done; try lia.
  { rewrite Hin, length_app, length_le_enc. lia. }
  cbn [answers incoming next_turn] in H1, Hs1. exists l1. split; [done|]. split; [lia|].
  rewrite (read_length_run n _ e s Hn) with (2 := H1).
  2:{ by rewrite Hin, take_app_length' by by rewrite length_le_enc. }
  do 2 f_equal. by rewrite Hin, drop_app_length' by by rewrite length_le_enc.
Qed.

(** A command's own length lets it be read. *)
Lemma after_length_message m e s :
  message m →
  after_length (i32 (Z.of_nat (length m))) e s = read_body (Z.of_nat (length m)) e s.
Proof.
  intros [_ Hmin Hmax _]. unfold after_length.
  destruct (htonl_small (Z.of_nat (length m))) as (_ & _ & ->); [lia|].
  by rewrite (proj2 (Z.ltb_ge 10000 _)), (proj2 (Z.ltb_ge _ 0)) by lia.
Qed.

(** The command behind its length is there when it has arrived; until then the
    read goes on. *)
Lemma read_body_run m e s :
  message m → no_failure (answers s) →
  malloc_ok (base e (turn s)) AllocCommand = true →
  (read_body (Z.of_nat (length m)) e s = Fault Blocked ∧
   ((supply (answers s) < length m - 4)%nat ∨ (length (incoming s) < length m - 4)%nat)) ∨
  (length m - 4 <= length (incoming s))%nat ∧
  ∃ l, no_failure l ∧ (supply (answers s) <= supply l + (length m - 4))%nat ∧
    (take (length m - 4) (incoming s) = drop 4 m →
     read_body (Z.of_nat (length m)) e s =
       Ok (Command (Z.of_nat (length m)) m,
           set_input (drop (length m - 4) (incoming s)) l s)).
Proof.
  intros [Hb Hmin Hmax Hlen] Hno Hmal. unfold read_body.
  rewrite (bind_run _ _ e s true s).
  2:{ unfold on_sr, malloc, ask, mbind, M_bind, mret, M_ret. rewrite Hmal. by destruct s. }
  cbn [negb]. rewrite store_ok by (rewrite length_replicate; lia).
  rewrite lift_some, bind_mret. unfold recv_fuel.
  rewrite (bind_run _ _ e s (S (length (answers s))) s) by done. rewrite Nat2Z.id.
  destruct (recv_loop_total (S (length (answers s))) 4 (Z.to_nat (Z.of_nat (length m) - 4)) 0
    (put 0 (le_enc 4 (htonl (Z.of_nat (length m)))) (replicate (length m) 0)) e s)
    as [[Hbl Hwhy]|(l & H & Hn & Hs & Hi)]; rewrite ?length_put, ?length_replicate; try done; try lia.
  { left. rewrite (bind_fault _ _ _ _ _ Hbl). split; [done|lia]. }
  right. replace (Z.to_nat (Z.of_nat (length m) - 4) - 0)%nat with (length m - 4)%nat in * by lia.
  split; [done|]. exists l. split; [done|]. split; [done|]. intros Hrest.
  rewrite (bind_run _ _ _ _ _ _ H), Hrest. unfold mret, M_ret. do 3 f_equal.
  rewrite <- Hlen.
  assert (length (slice 0 4 m) = 4%nat) as H4 by (rewrite length_slice; lia).
  change (4 + 0)%nat with (0 + 4)%nat. rewrite <- H4 at 1.
  rewrite put_put_next, put_0, (drop_ge (replicate _ _)), app_nil_r;
    rewrite ?length_app, ?H4, ?length_drop, ?length_replicate; try lia.
  unfold slice. by rewrite drop_0, take_drop.
Qed.

Lemma read_message_run m rest e s :
  message m → incoming s = m ++ rest → no_failure (answers s) →
  (length m <= supply (answers s))%nat →
  malloc_ok (base e (S (turn s))) AllocCommand = true →
  ∃ l, no_failure l ∧ (supply (answers s) <= supply l + length m)%nat ∧
    read_command e s =
      Ok (Command (Z.of_nat (length m)) m, set_input rest l (next_turn s)).
Proof.
  intros Hm Hin Hno Hsup Hmal. pose proof (message_min _ Hm) as Hmin.
  pose proof Hm as [_ _ Hmax Hlen].
  destruct (read_length_bytes (Z.of_nat (length m)) (drop 4 m ++ rest) e s)
    as (l1 & Hn1 & Hs1 & ->); try done; try lia.
  { rewrite Hin, <- Hlen. unfold slice. by rewrite drop_0, app_assoc, take_drop. }
  rewrite after_length_message by done.
  set (s1 := set_input _ l1 (next_turn s)).
  assert (incoming s1 = drop 4 m ++ rest) as Hin1 by done.
  destruct (read_body_run m e s1 Hm Hn1 Hmal)
    as [[_ Hwhy]|(_ & l2 & Hn2 & Hs2 & Hrun)].
  { rewrite Hin1, length_app, length_drop in Hwhy. cbn [answers s1 set_input] in Hwhy. lia. }
  cbn [answers s1 set_input] in Hs2. exists l2. split; [done|]. split; [lia|].
  rewrite Hrun; rewrite Hin1.
  - rewrite drop_app_length' by (rewrite length_drop; lia). done.
  - rewrite take_app_length' by (rewrite length_drop; lia). done.
Qed.

Lemma read_command_run expected_cmd m rest e s :
  message m → incoming s = m ++ rest → no_failure (answers s) →
  (length m <= supply (answers s))%nat →
  malloc_ok (base e (S (turn s))) AllocCommand = true →
  ∃ l, no_failure l ∧ (supply (answers s) <= supply l + length m)%nat ∧
    sr_read_from_server_expect expected_cmd e s =
      dispatch expected_cmd (Z.of_nat (length m)) m e (set_input rest l (next_turn s)).
Proof.
  intros Hm Hin Hno Hsup Hmal.
  destruct (read_message_run m rest e s Hm Hin Hno Hsup Hmal) as (l & H1 & H2 & H3).
  exists l. split; [done|]. split; [done|].
  unfold sr_read_from_server_expect. by rewrite (bind_run _ _ _ _ _ _ H3).
Qed.

(** ** Packets *)

(** What the session relies on from the function that handles a frame: it
    returns normally from a well-formed state, has the effect [spec], and keeps
    the state well-formed and the configuration. *)
Class FrameHandler (handler : buf → Z → cstr → R buf)
    (spec : env → buf → cstr → sr_instance → sr_instance) : Prop := {
  handler_run packet len iface e s :
    sr_wf s → mallocs_checked e → cstr_ok sr_IFACE_NAMELEN iface → frame_ok packet len →
    ∃ packet', handler packet len iface e s = Ok (packet', spec e packet iface s) ∧
      sr_wf (spec e packet iface s);
  handler_evolves e packet iface s : evolves s (spec e packet iface s)
}.

Definition frame_effect (e : env) (packet : buf) (iface : cstr) (s : sr_instance) : sr_instance :=
  (handle_frame e packet iface s).2.

(** The router keeps that promise. *)
#[export] Instance sr_handlepacket_handler :
  FrameHandler sr_handlepacket frame_effect.
Proof.
  split.
  - intros packet len iface e s Hs Hm Hi Hf.
    destruct (handle_frame_run packet len iface e s Hs Hm Hi Hf) as [-> Hwf].
    exists (handle_frame e packet iface s).1. unfold frame_effect. by destruct (handle_frame e packet iface s).
  - intros. apply handle_frame_evolves.
Qed.

(** An ARP request for another address than the interface's. *)
Definition arp_for_other (s : sr_instance) (iface : cstr) (frame : buf) : bool :=
  (eth_size + arp_size <=? length frame)%nat &&
  match named s iface with
  | None => false
  | Some i =>
      (get 0 ether_type frame =? htons ethertype_arp) &&
      (get eth_size ar_op frame =? htons arp_op_request) &&
      negb (get eth_size ar_tip frame =? if_ip i)
  end.

(** The effect of a packet command: such a request is dropped, any other frame
    is logged and handled. *)
Definition packet_in (e : env) (iface : cstr) (frame : buf) (s : sr_instance) : sr_instance :=
  if arp_for_other s iface frame then s
  else frame_effect e frame iface (log_frame e frame s).

Lemma sr_arp_req_not_for_us_run packet len iface e s :
  sr_wf s → cstr_ok sr_IFACE_NAMELEN iface → frame_ok packet len →
  ((eth_size + arp_size <= length packet)%nat → is_Some (named s iface)) →
  sr_arp_req_not_for_us packet len iface e s = Ok (arp_for_other s iface packet, s).
Proof.
  intros Hs Hi (_ & Hl & _) Hsome. unfold sr_arp_req_not_for_us, arp_for_other.
  rewrite (bind_run _ _ _ _ _ _ (named_run iface e s Hs Hi)).
  destruct (Nat.leb_spec (eth_size + arp_size) (length packet)) as [Hle|Hgt].
  - rewrite (proj2 (Z.ltb_ge _ _)) by lia. destruct (Hsome Hle) as [i ->].
    unfold eth_size, arp_size in Hle. by repeat mem_step.
  - by rewrite (proj2 (Z.ltb_lt _ _)) by lia.
Qed.

(** The frame of a packet command, as its length fields say it. *)
Lemma command_frame b :
  bytes_ok b → (c_packet_header_size <= length b)%nat → Z.of_nat (length b) < MAX_FRAME →
  slice 0 4 b = le_enc 4 (htonl (Z.of_nat (length b))) →
  frame_ok (vns_frame b) (vns_frame_len (Z.of_nat (length b))) ∧
  load 4 0 b = Some (htonl (Z.of_nat (length b))) ∧
  i32 (u32 (u64 (ntohl (htonl (Z.of_nat (length b))) - Z.of_nat c_packet_header_size))) =
    Z.of_nat (length (vns_frame b)).
Proof.
  intros Hb Hmin Hmax Hlen. unfold MAX_FRAME in Hmax.
  assert (Z.of_nat (length (vns_frame b)) = Z.of_nat (length b) - 24) as Hfl.
  { unfold vns_frame, c_packet_header_size in *. rewrite length_drop. lia. }
  assert (vns_frame_len (Z.of_nat (length b)) = Z.of_nat (length b) - 24) as Hvl.
  { unfold vns_frame_len, c_packet_ethernet_header_size, c_packet_header_size in *.
    rewrite u32_small; unfold is_u32, eth_size; lia. }
  split; [|split].
  - split; [by apply bytes_ok_drop|]. unfold MAX_FRAME. rewrite Hvl. lia.
  - destruct (htonl_small (Z.of_nat (length b))) as (Hu & _); [lia|].
    rewrite load_ok, Hlen by (unfold c_packet_header_size in *; lia). by rewrite le_dec_enc.
  - destruct (htonl_small (Z.of_nat (length b))) as (_ & Hnh & _); [lia|]. rewrite Hnh.
    unfold c_packet_header_size in *. unfold u64. rewrite Z.mod_small by lia.
    rewrite u32_small by (unfold is_u32; lia).
    destruct (htonl_small (Z.of_nat (length b) - Z.of_nat 24)) as (_ & _ & ->); lia.
Qed.

Lemma log_frame_evolves e b s : evolves s (log_frame e b s).
Proof. split; [apply log_frame_core..|]. exists []. by rewrite log_frame_sent, app_nil_r. Qed.

Lemma handle_vnspacket_run b e s :
  sr_wf s → mallocs_checked e → bytes_ok b →
  (c_packet_header_size <= length b)%nat → Z.of_nat (length b) < MAX_FRAME →
  slice 0 4 b = le_enc 4 (htonl (Z.of_nat (length b))) →
  cstr_ok sr_IFACE_NAMELEN (vns_interface b) →
  ((eth_size + arp_size <= length (vns_frame b))%nat → is_Some (named s (vns_interface b))) →
  handle_vnspacket (Z.of_nat (length b)) b e s =
    Ok (tt, packet_in e (vns_interface b) (vns_frame b) s) ∧
  sr_wf (packet_in e (vns_interface b) (vns_frame b) s) ∧
  evolves s (packet_in e (vns_interface b) (vns_frame b) s).
Proof.
  intros Hs Hm Hb Hmin Hmax Hlen Hi Hsome.
  destruct (command_frame b Hb Hmin Hmax Hlen) as (Hf & Hload & Hlog).
  unfold handle_vnspacket, packet_in. message_layout.
  rewrite (bind_run _ _ _ _ _ _ (sr_arp_req_not_for_us_run _ _ _ e s Hs Hi Hf Hsome)).
  destruct (arp_for_other _ _ _); [done|].
  rewrite Hload, lift_some, bind_mret, Hlog.
  rewrite (bind_run _ _ _ _ _ _ (sr_log_packet_run (vns_frame b) _ e s eq_refl
    ltac:(destruct Hf as (_ & ? & ?); lia))).
  assert (sr_wf (log_frame e (vns_frame b) s)) as Hs' by by rewrite <- log_frame_core.
  destruct (handler_run (handler := sr_handlepacket) _ _ _ e _ Hs' Hm Hi Hf)
    as (p' & Hrun & Hwf).
  rewrite (bind_run _ _ _ _ _ _ Hrun). split; [done|]. split; [done|].
  etransitivity; [apply log_frame_evolves|apply handler_evolves].
Qed.

(** A packet command of the server. *)
Record packet_message (s : sr_instance) (name16 frame : buf) : Prop := {
  packet_name : length name16 = VNS_NAMELEN ∧ bytes_ok name16 ∧ 0 ∈ name16;
  packet_frame : bytes_ok frame ∧ Z.of_nat (length frame) ≤ 10000 - 24;
  packet_iface : (eth_size + arp_size <= length frame)%nat → is_Some (named s (name16 ++ frame))
}.

Lemma vns_packet_message s name16 frame :
  packet_message s name16 frame → message (vns_packet name16 frame).
Proof.
  intros [(Hl & Hn & _) [Hb Hmax] _]. unfold VNS_NAMELEN in Hl.
  assert (length (vns_packet name16 frame) = length frame + 24)%nat as Hlen.
  { unfold vns_packet. rewrite !length_app, !length_le_enc. lia. }
  split.
  - unfold vns_packet. bytes.
  - lia.
  - lia.
  - rewrite Hlen. unfold vns_packet. rewrite Nat2Z.inj_add.
    apply (slice_seg 0 4 [] (le_enc 4 _)); [done|by rewrite length_le_enc].
Qed.

(** A command of the expected type reaches the [switch], its type in host
    order. *)
Lemma dispatch_run expected_cmd command m e s :
  message m → is_u32 command → slice 4 4 m = le_enc 4 (htonl command) →
  expected_cmd = 0 ∨ expected_cmd = command →
  dispatch expected_cmd (Z.of_nat (length m)) m e s =
    handle_command command (Z.of_nat (length m)) (put 4 (le_enc 4 command) m) e s.
Proof.
  intros [_ Hmin _ _] Hc Hty Hexp. unfold dispatch. rewrite load_ok, Hty by lia.
  rewrite lift_some, bind_mret, le_dec_enc by exact (ntohl_bound command).
  change (ntohl (htonl command)) with (ntohl (ntohl command)). rewrite ntohl_involutive by done.
  cbv zeta. rewrite store_ok by lia. rewrite lift_some, bind_mret.
  destruct Hexp as [->| ->]; [done|]. by rewrite Z.eqb_refl, andb_false_r.
Qed.

(** The buffer of a packet command, with its type in host order. *)
Definition packet_buffer (name16 frame : buf) : buf :=
  put 4 (le_enc 4 VNSPACKET) (vns_packet name16 frame).

Record command_buffer (name16 frame b : buf) : Prop := {
  buffer_bytes : bytes_ok b;
  buffer_length : length b = length (vns_packet name16 frame);
  buffer_min : (c_packet_header_size <= length b)%nat;
  buffer_max : Z.of_nat (length b) < MAX_FRAME;
  buffer_len : slice 0 4 b = le_enc 4 (htonl (Z.of_nat (length b)));
  buffer_iface : vns_interface b = name16 ++ frame;
  buffer_frame : vns_frame b = frame;
  buffer_cstr : cstr_ok sr_IFACE_NAMELEN (vns_interface b)
}.

Lemma packet_buffer_ok s name16 frame :
  packet_message s name16 frame → command_buffer name16 frame (packet_buffer name16 frame).
Proof.
  intros Hp. pose proof (vns_packet_message _ _ _ Hp) as [Hb Hmin Hmax Hlen].
  destruct Hp as [(Hnl & Hn & Hz) [Hfb Hfl] Hi]. unfold VNS_NAMELEN in Hnl.
  unfold packet_buffer. set (b := vns_packet name16 frame) in *. set (b' := put 4 _ b).
  assert (length b' = length b) as Hb'l by apply length_put.
  assert (vns_interface b' = name16 ++ frame ∧ vns_frame b' = frame) as [Hvi Hvf].
  { unfold b', b, vns_packet, vns_interface, vns_frame, c_base_size, c_packet_header_size.
    rewrite (put_seg 4 (le_enc 4 VNSPACKET) (le_enc 4 _) (le_enc 4 (htonl VNSPACKET)))
      by by rewrite !length_le_enc.
    split.
    - rewrite (app_assoc (le_enc 4 _)). apply drop_app_length'. by rewrite length_app, !length_le_enc.
    - rewrite !app_assoc. apply drop_app_length'. by rewrite !length_app, !length_le_enc, Hnl. }
  split; try done.
  - apply bytes_ok_put; [apply le_enc_ok|done].
  - rewrite Hb'l. unfold c_packet_header_size, b, vns_packet.
    rewrite !length_app, !length_le_enc. lia.
  - rewrite Hb'l. unfold MAX_FRAME. lia.
  - rewrite Hvi. right. apply elem_of_app. by left.
Qed.

Lemma vns_packet_type name16 frame :
  slice 4 4 (vns_packet name16 frame) = le_enc 4 (htonl VNSPACKET).
Proof. unfold vns_packet. apply slice_seg; by rewrite length_le_enc. Qed.

(** Dispatching a packet command hands its frame to the router. *)
Lemma dispatch_packet_run name16 frame e s :
  sr_wf (router s) → mallocs_checked (base e (turn s)) →
  packet_message (router s) name16 frame →
  let b := vns_packet name16 frame in
  let r := packet_in (base e (turn s)) (name16 ++ frame) frame (router s) in
  dispatch 0 (Z.of_nat (length b)) b e s = Ok (1, set_router r s) ∧
  sr_wf r ∧ evolves (router s) r.
Proof.
  intros Hs Hm Hp b r. pose proof (vns_packet_message _ _ _ Hp) as Hmsg.
  destruct (packet_buffer_ok _ _ _ Hp) as [Hb Hbl Hmin Hmax Hlen Hvi Hvf Hc].
  rewrite (dispatch_run 0 VNSPACKET);
    [|done|done|apply vns_packet_type|by left].
  unfold handle_command. change (VNSPACKET =? VNSPACKET) with true. cbv iota.
  fold (packet_buffer name16 frame). subst b. rewrite <- Hbl.
  destruct (handle_vnspacket_run (packet_buffer name16 frame) (base e (turn s)) (router s))
    as (Hrun & Hwf & Hev); try done.
  - rewrite Hvi, Hvf. apply Hp.
  - rewrite Hvi, Hvf in *. by rewrite (bind_run _ _ _ _ _ _ (on_sr_run _ _ _ _ _ Hrun)).
Qed.

(** ** The main loop *)

(** The server's farewell: [VNSCLOSE] with a terminated reason. *)
Definition close_message (m : buf) : Prop :=
  message m ∧ slice 4 4 m = le_enc 4 (htonl VNSCLOSE) ∧ 0 ∈ drop c_base_size m.

Lemma close_command_run len m e s :
  close_message m →
  handle_command VNSCLOSE len (put 4 (le_enc 4 VNSCLOSE) m) e s = Ok (0, s).
Proof.
  intros (Hm & Hty & Hz). pose proof (message_min _ Hm) as Hmin.
  unfold handle_command. change (VNSCLOSE =? VNSPACKET) with false.
  change (VNSCLOSE =? VNSCLOSE) with true. cbv iota.
  change (f_off mErrorMessage) with c_base_size.
  assert (drop c_base_size (put 4 (le_enc 4 VNSCLOSE) m) = drop c_base_size m) as ->.
  { rewrite put_fits by (rewrite length_le_enc; lia). rewrite app_assoc.
    apply drop_app_length'. rewrite length_app, length_take, length_le_enc.
    unfold c_base_size. lia. }
  destruct (c_str_some _ Hz) as [w ->]. done.
Qed.

Lemma dispatch_close_run m e s :
  close_message m → dispatch 0 (Z.of_nat (length m)) m e s = Ok (0, s).
Proof.
  intros H. pose proof H as (Hm & Hty & _). rewrite (dispatch_run 0 VNSCLOSE) by (done || by left).
  by apply close_command_run.
Qed.

(** The environment's promises for the whole session. *)
Definition session_ok (e : venv) : Prop :=
  ∀ t, mallocs_checked (base e t) ∧ malloc_ok (base e t) AllocCommand = true.

(** The frames of packet commands, handled one after the other from turn [t]. *)
Fixpoint deliver_all (e : venv) (t : nat) (ps : list (buf * buf)) (s : sr_instance)
    : sr_instance :=
  match ps with
  | [] => s
  | (n, f) :: ps' => deliver_all e (S t) ps' (packet_in (base e t) (n ++ f) f s)
  end.

Definition stream (ps : list (buf * buf)) : buf :=
  concat ((λ '(n, f), vns_packet n f) <$> ps).

Definition packets_ok (s : sr_instance) (ps : list (buf * buf)) : Prop :=
  Forall (λ '(n, f), packet_message s n f) ps.

Lemma packets_ok_evolves s s' ps : evolves s s' → packets_ok s ps → packets_ok s' ps.
Proof.
  intros Hev Hps. eapply list.Forall_impl; [exact Hps|]. intros [n f] [Hn Hf Hi]. split; [done|done|].
  unfold named in *. by rewrite (evolves_ifs _ _ Hev).
Qed.

(** What a packet command leaves. *)
Lemma packet_in_run n f e s :
  sr_wf s → mallocs_checked e → packet_message s n f →
  sr_wf (packet_in e (n ++ f) f s) ∧ evolves s (packet_in e (n ++ f) f s).
Proof.
  intros Hs Hm Hp. destruct (dispatch_packet_run n f
    (mk_venv (λ _, e) (λ _, true) true true true None) (mk_vns s [] [] ∅ false 0)) as (_ & H); done.
Qed.

(** The main loop takes packet commands one after the other, until the server's
    farewell. *)
Lemma main_loop_run (ps : list (buf * buf)) (last rest : buf) (e : venv) (fuel : nat)
    (s : vns)
    (He : session_ok e) (Hs : sr_wf (router s)) (Hps : packets_ok (router s) ps)
    (Hlast : close_message last) (Hin : incoming s = stream ps ++ last ++ rest)
    (Hno : no_failure (answers s))
    (Hsup : (length (stream ps ++ last) <= supply (answers s))%nat)
    (Hfuel : (length ps < fuel)%nat) :
  ∃ s', main_loop fuel e s = Ok (tt, s') ∧ incoming s' = rest ∧
    router s' = deliver_all e (S (turn s)) ps (router s) ∧
    sr_wf (router s') ∧ evolves (router s) (router s').
Proof.
  revert fuel s Hs Hps Hin Hno Hsup Hfuel. induction ps as [|[n f] ps IH];
    intros fuel s Hs Hps Hin Hno Hsup Hfuel;
    destruct fuel as [|fuel]; [cbn in Hfuel; lia| |cbn in Hfuel; lia|]; cbn [main_loop].
  - cbn [stream app fmap list_fmap concat] in *.
    destruct (read_command_run 0 last rest e s) as (l & Hl & _ & Hrun); try done;
      [apply Hlast|apply He|].
    unfold sr_read_from_server. rewrite (bind_run _ _ _ _ _ _ (eq_trans Hrun (dispatch_close_run _ _ _ Hlast))).
    eexists. split; [reflexivity|]. done.
  - change (stream ((n, f) :: ps)) with (vns_packet n f ++ stream ps) in *.
    rewrite <- app_assoc in Hin. rewrite <- app_assoc, length_app in Hsup.
    apply list.Forall_cons in Hps as [Hp Hps].
    destruct (read_command_run 0 (vns_packet n f) (stream ps ++ last ++ rest) e s)
      as (l & Hl & Hsupl & Hrun); try done; [by eapply vns_packet_message|lia|apply He|].
    set (s1 := set_input _ l (next_turn s)) in *.
    destruct (dispatch_packet_run n f e s1) as (Hd & Hwf & Hev); [done|apply He|done|].
    unfold sr_read_from_server. rewrite (bind_run _ _ _ _ _ _ (eq_trans Hrun Hd)).
    change (1 =? 1) with true. cbv iota.
    edestruct (IH fuel (set_router (packet_in (base e (turn s1)) (n ++ f) f (router s1)) s1))
      as (s' & Hs' & Hrest & Hr & Hwf' & Hev'); try done.
    + by eapply packets_ok_evolves.
    + cbn [answers set_router s1 set_input]. lia.
    + cbn in Hfuel. lia.
    + exists s'. split; [done|]. split; [done|]. split; [done|]. split; [done|].
      by etransitivity.
Qed.
