(* ===== verification/Commands.v ===== *)
(** * Hardware information and authentication

    What the session does with the commands that configure the router and that
    ask for credentials ([sr_handle_hwinfo], [sr_handle_auth_request]). *)

From S2P Require Export VnsSpec.

(** ** Hardware information *)

(** An entry: its key and its value of 32 bytes. *)
Definition hw_entry : Type := Z * buf.

Definition hw_entry_bytes (x : hw_entry) : buf := le_enc 4 (htonl x.1) ++ x.2.

Definition hwinfo_message (es : list hw_entry) : buf :=
  le_enc 4 (htonl (8 + 36 * Z.of_nat (length es))) ++ le_enc 4 (htonl VNSHWINFO) ++
  concat (hw_entry_bytes <$> es).

(** What an entry does to the list of interfaces: a name appends one, an
    address goes to the last one. *)
Definition hw_apply (e : env) (l : list sr_if) (x : hw_entry) : list sr_if :=
  let '(key, value) := x in
  if key =? HWINTERFACE then
    l ++ [mk_if (name_copy sr_IFACE_NAMELEN value) (if_addr (fresh_if e)) (if_ip (fresh_if e))
            (if_speed (fresh_if e))]
  else if key =? HWETHIP then
    update_last (λ i, mk_if (if_name i) (if_addr i) (le_dec (take 4 value)) (if_speed i)) l
  else if key =? HWETHER then
    update_last (λ i, mk_if (if_name i) (take ETHER_ADDR_LEN value) (if_ip i) (if_speed i)) l
  else l.

(** The entries are well-formed, names are terminated, and no address comes
    before the first name ([have]: there is an interface already). *)
Fixpoint hw_ok (have : bool) (es : list hw_entry) : Prop :=
  match es with
  | [] => True
  | (key, value) :: es' =>
      is_u32 key ∧ length value = 32%nat ∧ bytes_ok value ∧
      (key = HWETHIP ∨ key = HWETHER → have = true) ∧
      (key = HWINTERFACE → 0 ∈ value) ∧
      hw_ok (have || (key =? HWINTERFACE)) es'
  end.

Lemma strncpy_app n a b : (n <= length a)%nat → strncpy n (a ++ b) = strncpy n a.
Proof.
  revert a. induction n as [|n IH]; intros a Hn; [done|].
  destruct a as [|c a]; [simpl in Hn; lia|].
  change (strncpy (S n) ((c :: a) ++ b)) with
    (if c =? 0 then Some (replicate (S n) 0) else cons c <$> strncpy n (a ++ b)).
  change (strncpy (S n) (c :: a)) with
    (if c =? 0 then Some (replicate (S n) 0) else cons c <$> strncpy n a).
  by rewrite IH by (simpl in Hn; lia).
Qed.

Lemma update_last_Forall {A} (P : A → Prop) f l :
  (∀ x, P x → P (f x)) → Forall P l → Forall P (update_last f l).
Proof.
  intros Hf. induction 1 as [|x l Hx Hl IH]; [done|]. destruct l; simpl; constructor; auto.
Qed.

Lemma hw_apply_wf e l x :
  Forall if_wf l → if_wf (fresh_if e) → length x.2 = 32%nat → bytes_ok x.2 →
  Forall if_wf (hw_apply e l x).
Proof.
  destruct x as [key value]. intros Hl He Hlen Hb. cbn [fst snd] in *. unfold hw_apply.
  destruct (strncpy_spec sr_IFACE_NAMELEN value) as (nm & Hn & Hnl & _); [by left; rewrite Hlen|].
  pose proof (strncpy_bytes_ok _ _ _ Hn Hb) as Hnb.
  repeat case_match; [| | |done].
  - apply Forall_app. split; [done|]. constructor; [|done]. unfold name_copy. rewrite Hn.
    destruct He. by split.
  - apply update_last_Forall; [|done]. intros i [Wn Wa Wi]. split; [done|done|]. apply (le_dec_u32 0 value Hb).
  - apply update_last_Forall; [|done]. intros i [Wn Wa Wi]. split; [done| |done]. cbn.
    split; [rewrite length_take, Hlen; done|]. by apply Forall_take.
Qed.

Lemma update_last_length {A} (f : A → A) l : length (update_last f l) = length l.
Proof. induction l as [|x [|y l] IH]; simpl in *; congruence. Qed.

(** The list only grows. *)
Lemma hw_apply_have e l x :
  (bool_decide (l ≠ []) || (x.1 =? HWINTERFACE)) = bool_decide (hw_apply e l x ≠ []).
Proof.
  destruct x as [key value]. cbn [fst]. unfold hw_apply.
  destruct (Z.eqb_spec key HWINTERFACE) as [->|_].
  - rewrite orb_true_r. symmetry. apply bool_decide_eq_true. by destruct l.
  - rewrite orb_false_r. apply bool_decide_ext. repeat case_match; [| |done];
      by rewrite <- !length_zero_iff_nil, update_last_length.
Qed.

Lemma handle_hw_entry_run b i x rest e s :
  drop (c_base_size + c_hw_entry_size * i) b = hw_entry_bytes x ++ rest →
  is_u32 x.1 → length x.2 = 32%nat → bytes_ok x.2 →
  (x.1 = HWETHIP ∨ x.1 = HWETHER → if_list s ≠ []) →
  malloc_ok e AllocInterface = true →
  handle_hw_entry b i e s = Ok (tt, set_if_list (hw_apply e (if_list s) x) s).
Proof.
  destruct x as [key value]. cbn [fst snd]. intros Hd Hk Hl Hb Hne Hm.
  unfold handle_hw_entry. change mHWInfo with c_base_size. cbv zeta. message_layout.
  rewrite Hd. unfold hw_entry_bytes. cbn [fst snd].
  rewrite (load_ok 4 0 ((le_enc 4 (htonl key) ++ value) ++ rest)) by (rewrite !length_app, length_le_enc; lia).
  rewrite <- app_assoc.
  assert (slice 0 4 (le_enc 4 (htonl key) ++ value ++ rest) = le_enc 4 (htonl key)) as ->
    by (apply (slice_seg 0 4 []); by rewrite ?length_le_enc).
  rewrite lift_some, bind_mret, le_dec_enc by exact (ntohl_bound key).
  change (ntohl (htonl key)) with (ntohl (ntohl key)). rewrite ntohl_involutive by done.
  rewrite drop_app_length' by by rewrite length_le_enc. unfold hw_apply.
  destruct (Z.eqb_spec key HWINTERFACE) as [->|_].
  { destruct (strncpy_spec sr_IFACE_NAMELEN value) as (nm & Hn & _); [by left; rewrite Hl|].
    unfold name_copy. rewrite Hn. apply sr_add_interface_run; [done|].
    by rewrite strncpy_app by (rewrite Hl; done). }
  destruct (Z.eqb_spec key HWETHIP) as [->|_].
  { destruct (exists_last (Hne (or_introl eq_refl))) as (l & j & Hs).
    rewrite load_ok by (rewrite length_app; lia). rewrite lift_some, bind_mret.
    rewrite (sr_set_ether_ip_run _ e s l j Hs), Hs, update_last_snoc.
    unfold slice. by rewrite drop_0, take_app_le by lia. }
  destruct (Z.eqb_spec key HWETHER) as [->|_].
  { destruct (exists_last (Hne (or_intror eq_refl))) as (l & j & Hs).
    rewrite (sr_set_ether_addr_run _ e s l j Hs), Hs, update_last_snoc
      by (rewrite length_app, Hl; unfold ETHER_ADDR_LEN; lia).
    by rewrite take_app_le by (rewrite Hl; unfold ETHER_ADDR_LEN; lia). }
  by destruct s.
Qed.

Lemma length_hw_entries es have :
  hw_ok have es → length (concat (hw_entry_bytes <$> es)) = (36 * length es)%nat.
Proof.
  revert have. induction es as [|[k v] es IH]; intros have H; [done|].
  destruct H as (_ & Hl & _ & _ & _ & H). rewrite fmap_cons. cbn [concat].
  rewrite length_app, (IH _ H). unfold hw_entry_bytes. cbn [fst snd].
  rewrite length_app, length_le_enc, Hl. cbn [length]. lia.
Qed.

(** The loop over the entries behind those of [pre]. *)
Lemma hw_loop_run e b pre es rest s :
  drop c_base_size b = concat (hw_entry_bytes <$> pre ++ es) ++ rest →
  length (concat (hw_entry_bytes <$> pre)) = (36 * length pre)%nat →
  hw_ok (bool_decide (if_list s ≠ [])) es → malloc_ok e AllocInterface = true →
  for_each (seq (length pre) (length es)) (handle_hw_entry b) e s =
    Ok (tt, set_if_list (foldl (hw_apply e) (if_list s) es) s).
Proof.
  intros Hb Hpre Hok Hm. revert pre s Hb Hpre Hok.
  induction es as [|[k v] es IH]; intros pre s Hb Hpre Hok; [by destruct s|].
  destruct Hok as (Hk & Hl & Hv & Hne & _ & Hok). cbn [length seq for_each].
  rewrite (bind_run _ _ e s tt (set_if_list (hw_apply e (if_list s) (k, v)) s)).
  - replace (S (length pre)) with (length (pre ++ [(k, v)])) by (rewrite length_app; cbn; lia).
    rewrite IH.
    + done.
    + by rewrite <- app_assoc.
    + rewrite fmap_app, concat_app, length_app, Hpre, length_app, fmap_cons, fmap_nil.
      cbn [concat length]. rewrite app_nil_r. unfold hw_entry_bytes. cbn [fst snd].
      rewrite length_app, length_le_enc, Hl. lia.
    + cbn [if_list set_if_list]. by rewrite <- hw_apply_have.
  - eapply (handle_hw_entry_run b (length pre) (k, v)); try done.
    + rewrite <- drop_drop, Hb, fmap_app, concat_app, <- app_assoc.
      rewrite drop_app_length' by (rewrite Hpre; done).
      rewrite fmap_cons. cbn [concat]. by rewrite <- app_assoc.
    + intros H. apply (bool_decide_eq_true _). by apply Hne.
Qed.

(** The names that are added are terminated. *)
Lemma hw_foldl_named e es l have :
  hw_ok have es → Forall if_named l → Forall if_named (foldl (hw_apply e) l es).
Proof.
  revert l have. induction es as [|[k v] es IH]; intros l have Hok Hl; [done|].
  destruct Hok as (_ & Hlen & _ & _ & Hn & Hok). cbn [foldl]. eapply IH; [done|].
  unfold hw_apply. repeat case_match; [| | |done].
  - destruct (strncpy_string sr_IFACE_NAMELEN v) as (d & Hd & H0).
    { rewrite take_ge by (rewrite Hlen; done). by apply Hn, Z.eqb_eq. }
    apply Forall_app. split; [done|]. constructor; [|done].
    unfold if_named, name_copy. by rewrite Hd.
  - by apply update_last_Forall.
  - by apply update_last_Forall.
Qed.

Lemma sr_handle_hwinfo_run e b es s :
  b = hwinfo_message es ∨ b = put 4 (le_enc 4 VNSHWINFO) (hwinfo_message es) →
  hw_ok (bool_decide (if_list s ≠ [])) es → Z.of_nat (length es) ≤ 256 →
  malloc_ok e AllocInterface = true → Forall if_named (if_list s) →
  sr_handle_hwinfo b e s =
    Ok (Z.of_nat (length es), set_if_list (foldl (hw_apply e) (if_list s) es) s).
Proof.
  intros Hbb Hok Hmax Hm Hnm.
  set (n := 8 + 36 * Z.of_nat (length es)).
  destruct (htonl_small n) as (Hu & Hnh & _); [lia|].
  assert (∃ ty, length ty = 4%nat ∧
    b = le_enc 4 (htonl n) ++ ty ++ concat (hw_entry_bytes <$> es)) as (ty & Hty & ->).
  { destruct Hbb as [->| ->]; unfold hwinfo_message.
    { exists (le_enc 4 (htonl VNSHWINFO)). by rewrite length_le_enc. }
    exists (le_enc 4 VNSHWINFO). split; [by rewrite length_le_enc|].
    by apply put_seg; rewrite ?length_le_enc. }
  unfold sr_handle_hwinfo. message_layout. rewrite load_ok by (rewrite length_app, length_le_enc; lia).
  assert (slice 0 4 (le_enc 4 (htonl n) ++ ty ++ concat (hw_entry_bytes <$> es))
          = le_enc 4 (htonl n)) as Hs.
  { apply (slice_seg 0 4 []); by rewrite ?length_le_enc. }
  rewrite Hs, lift_some, bind_mret, le_dec_enc, Hnh by (unfold is_u32 in Hu; exact Hu). cbv zeta.
  assert (i32 (u32 (u64 (n - 8) / Z.of_nat c_hw_entry_size)) = Z.of_nat (length es)) as ->.
  { unfold n, c_hw_entry_size, u64. rewrite Z.mod_small by lia.
    replace (8 + 36 * Z.of_nat (length es) - 8) with (Z.of_nat (length es) * Z.of_nat 36) by lia.
    rewrite Z.div_mul, u32_small by (unfold is_u32; lia).
    destruct (htonl_small (Z.of_nat (length es))) as (_ & _ & ->); lia. }
  rewrite Nat2Z.id.
  set (b := le_enc 4 (htonl n) ++ _).
  assert (drop c_base_size b = concat (hw_entry_bytes <$> [] ++ es) ++ []) as Hd.
  { unfold b. rewrite app_nil_r, app_assoc. apply drop_app_length'.
    by rewrite length_app, length_le_enc, Hty. }
  rewrite (bind_run _ _ _ _ _ _ (hw_loop_run e b [] es [] s Hd eq_refl Hok Hm)).
  destruct (sr_print_if_list_run e (set_if_list (foldl (hw_apply e) (if_list s) es) s))
    as [t Ht]; [by eapply hw_foldl_named|].
  by rewrite (bind_run _ _ _ _ _ _ Ht).
Qed.

Lemma hw_foldl_wf e es l have :
  hw_ok have es → Forall if_wf l → if_wf (fresh_if e) → Forall if_wf (foldl (hw_apply e) l es).
Proof.
  revert l have. induction es as [|[k v] es IH]; intros l have Hok Hl He; [done|].
  destruct Hok as (_ & Hlen & Hb & _ & _ & Hok). cbn [foldl]. eapply IH; [done| |done].
  by apply hw_apply_wf.
Qed.

(** ** Authentication *)

(** The reply to a challenge: the user's name and the digest of the salt and the
    key. *)
Definition auth_reply (name salt key : buf) : buf :=
  let len := (12 + length name + SHA1_LEN)%nat in
  le_enc 4 (htonl (Z.of_nat len)) ++ le_enc 4 (htonl VNS_AUTH_REPLY) ++
  le_enc 4 (htonl (Z.of_nat (length name))) ++ name ++
  digest_bytes (words_of (sha1 (salt ++ key))).

(** A challenge of the server. *)
Definition auth_request (salt : buf) : buf :=
  le_enc 4 (htonl (8 + Z.of_nat (length salt))) ++ le_enc 4 VNS_AUTH_REQUEST ++ salt.

Lemma digest_bytes_ok ws : bytes_ok (digest_bytes ws).
Proof.
  induction ws as [|w ws IH]; [constructor|]. apply bytes_ok_app; [apply le_enc_ok|exact IH].
Qed.

Lemma length_digest_bytes r : length (digest_bytes (words_of r)) = SHA1_LEN.
Proof. by destruct r as [[[[a b] c] d] e]. Qed.

Lemma fill_auth_reply_run (name salt key : buf) (e : venv) (s : vns) :
  let len := (12 + length name + SHA1_LEN)%nat in
  fill_auth_reply len name (words_of (sha1 (salt ++ key))) (replicate len 0) e s =
    Ok (auth_reply name salt key, s).
Proof.
  intros len. unfold fill_auth_reply. message_layout. pose proof (length_digest_bytes (sha1 (salt ++ key))) as Hd.
  unfold SHA1_LEN in *. set (digest := digest_bytes _) in *.
  rewrite store_ok by (rewrite length_replicate; lia). rewrite lift_some, bind_mret.
  rewrite store_ok by (rewrite length_put, length_replicate; lia). rewrite lift_some, bind_mret.
  rewrite store_ok by (rewrite !length_put, length_replicate; lia). rewrite lift_some, bind_mret.
  rewrite store_bytes_ok by (rewrite !length_put, length_replicate, length_app; cbn; lia).
  rewrite lift_some, bind_mret.
  rewrite store_bytes_ok by (rewrite !length_put, length_replicate; lia).
  unfold auth_reply. fold digest. unfold SHA1_LEN.
  fold len. cbn [lift]. unfold mret, M_ret. f_equal. f_equal.
  change (replicate len 0) with ([] ++ replicate len 0).
  rewrite (put_zeros 0 (le_enc 4 (htonl (Z.of_nat len))) [] len (len - 4))
    by (rewrite ?length_le_enc; unfold len; cbn [length]; lia).
  cbn [app].
  rewrite (put_zeros 4 _ (le_enc 4 (htonl (Z.of_nat len))) _ (len - 8))
    by (rewrite !length_le_enc; unfold len; lia).
  rewrite app_assoc.
  rewrite (put_zeros 8 _ (le_enc 4 (htonl (Z.of_nat len)) ++ _) _ (len - 12))
    by (rewrite ?length_app, !length_le_enc; unfold len; lia).
  rewrite app_assoc.
  rewrite (put_zeros 12 (name ++ [0]) _ _ 19)
    by (rewrite ?length_app, ?length_le_enc; unfold len; cbn [length]; lia).
  rewrite <- (app_assoc name), (app_assoc _ name).
  rewrite <- (app_nil_r (([0] ++ replicate 19 0))).
  rewrite put_seg by (rewrite ?length_app, ?length_le_enc, ?Hd; cbn; lia).
  by rewrite app_nil_r, <- !app_assoc.
Qed.

Lemma fresh_sha1_absorbed : absorbed [] fresh_sha1.
Proof. apply reset_absorbed; [done|]. by apply (bytes_ok_replicate 64). Qed.

Lemma fgets_long n k :
  (n <= length k)%nat → Forall (λ c, c ≠ 10) (take n k) → fgets n k = (take n k, drop n k).
Proof.
  revert k. induction n as [|n IH]; intros k Hl Hk; [done|].
  destruct k as [|c k]; [cbn in Hl; lia|]. cbn [take drop] in *.
  apply list.Forall_cons in Hk as [Hc Hk]. cbn [fgets].
  rewrite (proj2 (Z.eqb_neq c 10) Hc), IH by (done || (cbn in Hl; lia)). done.
Qed.

(** The hash of the salt and then the key, as the handler computes it. *)
Lemma salted_digest_run salt k :
  bytes_ok salt → bytes_ok k → Z.of_nat (length salt) ≤ 10000 → length k = AUTH_KEY_LEN →
  ∃ c1 c2 c3, SHA1Input fresh_sha1 salt (length salt) = Some c1 ∧
    SHA1Input c1 (k ++ [0]) AUTH_KEY_LEN = Some c2 ∧ SHA1Result c2 = Some (true, c3) ∧
    Message_Digest c3 = words_of (sha1 (salt ++ k)).
Proof.
  intros Hsb Hkb Hsl Hk. unfold AUTH_KEY_LEN in *.
  destruct (sha1_input_run [] fresh_sha1 salt (length salt) fresh_sha1_absorbed Hsb)
    as (c1 & H1 & Hc1); [lia|cbn; lia|]. rewrite firstn_all in Hc1. cbn [app] in Hc1.
  destruct (sha1_input_run salt c1 (k ++ [0]) 64 Hc1) as (c2 & H2 & Hc2);
    [apply bytes_ok_app; [done|by repeat constructor]|rewrite length_app, Hk; lia|lia|].
  rewrite take_app_length' in Hc2 by done.
  destruct (sha1_result_run _ c2 Hc2) as (c3 & H3 & Hdig & _); [rewrite length_app, Hk; lia|].
  by exists c1, c2, c3.
Qed.

(** A challenge is answered with the digest of the salt and the key, the first
    64 characters of the key's file. *)
Lemma sr_handle_auth_request_run salt key b name e s :
  b = auth_request salt →
  bytes_ok salt → bytes_ok key → Z.of_nat (length salt) ≤ 10000 →
  disk s !! auth_key_file = Some key → fopen_ok e auth_key_file = true →
  (AUTH_KEY_LEN <= length key)%nat → Forall (λ c, c ≠ 10) (take AUTH_KEY_LEN key) →
  c_str (user (router s)) = Some name → Z.of_nat (length name) < 32 →
  malloc_ok (base e (turn s)) AllocAuthReply = true → writes_ok (base e (turn s)) →
  sr_handle_auth_request b e s =
    Ok (true, set_router (set_sent (sent (router s) ++
                [auth_reply name salt (take AUTH_KEY_LEN key)]) (router s)) s).
Proof.
  intros -> Hsb Hkb Hsl Hdisk Hopen Hkl Hk10 Hname Hnl Hmal Hw.
  unfold sr_handle_auth_request, fopen_read. message_layout.
  rewrite (bind_run _ _ e s (Some key) s).
  2:{ unfold ask, gets, mbind, M_bind, mret, M_ret. by rewrite Hopen, Hdisk. }
  rewrite fgets_long by done.
  assert (length (take AUTH_KEY_LEN key) = 64%nat) as Hk64 by (rewrite length_take; unfold AUTH_KEY_LEN in *; lia).
  set (k := take AUTH_KEY_LEN key) in *.
  destruct k as [|c0 k'] eqn:Ek; [done|]. rewrite <- Ek in *. clear c0 k' Ek.
  destruct (htonl_small (8 + Z.of_nat (length salt))) as (Hu & Hnh & _); [lia|].
  assert (slice 0 4 (auth_request salt) = le_enc 4 (htonl (8 + Z.of_nat (length salt)))) as Hs0.
  { unfold auth_request. apply (slice_seg 0 4 []); by rewrite ?length_le_enc. }
  assert (drop 8 (auth_request salt) = salt) as Hd.
  { unfold auth_request. rewrite app_assoc. apply drop_app_length'.
    by rewrite length_app, !length_le_enc. }
  rewrite load_ok by (unfold auth_request; rewrite length_app, length_le_enc; lia).
  rewrite lift_some, bind_mret, Hs0, le_dec_enc, Hnh, Hd by (unfold is_u32 in Hu; exact Hu).
  replace (Z.to_nat (u32 (8 + Z.of_nat (length salt) - Z.of_nat c_base_size))) with (length salt)
    by (unfold c_base_size; rewrite u32_small; unfold is_u32; lia).
  destruct (salted_digest_run salt k) as (c1 & c2 & c3 & -> & H2 & H3 & Hdig);
    [done|by apply Forall_take|lia|done|].
  rewrite lift_some, bind_mret, H2, lift_some, bind_mret, H3.
  rewrite lift_some, bind_mret. cbn [negb].
  rewrite (bind_run _ _ e s (user (router s)) s) by (unfold on_sr, gets; by destruct s).
  rewrite Hname, lift_some, bind_mret.
  rewrite (bind_run _ _ e s true s).
  2:{ unfold on_sr, malloc, ask, mbind, M_bind, mret, M_ret. rewrite Hmal. by destruct s. }
  cbn [negb]. rewrite Hdig.
  rewrite (bind_run _ _ _ _ _ _ (fill_auth_reply_run name salt k e s)).
  set (reply := auth_reply name salt k).
  assert (length reply = 12 + length name + SHA1_LEN)%nat as Hrl.
  { unfold reply, auth_reply. rewrite !length_app, !length_le_enc, length_digest_bytes. lia. }
  unfold send_buf. rewrite (bind_run _ _ e s (Z.of_nat (length reply))
    (set_router (set_sent (sent (router s) ++ [reply]) (router s)) s)).
  - rewrite Hrl. unfold mret, M_ret. by rewrite Z.eqb_refl.
  - apply on_sr_run. rewrite sys_write_run. cbv zeta. rewrite !Hw.
    rewrite (proj2 (Z.ltb_lt 0 (Z.of_nat (length reply)))) by lia. by rewrite Nat2Z.id, firstn_all.
Qed.

(** The challenge as the server sends it. *)
Definition auth_challenge (salt : buf) : buf :=
  le_enc 4 (htonl (8 + Z.of_nat (length salt))) ++ le_enc 4 (htonl VNS_AUTH_REQUEST) ++ salt.

Lemma auth_challenge_message salt :
  bytes_ok salt → Z.of_nat (length salt) ≤ 9992 → message (auth_challenge salt).
Proof.
  intros Hb Hmax. unfold auth_challenge.
  split; rewrite ?length_app, ?length_le_enc; [by bytes|lia|lia|].
  replace (Z.of_nat (4 + (4 + length salt))) with (8 + Z.of_nat (length salt)) by lia.
  apply (slice_seg 0 4 []); [done|by rewrite length_le_enc].
Qed.

Lemma auth_challenge_run (salt key name : buf) (e : venv) (s : vns)
    (Hsalt : bytes_ok salt) (Hmax : Z.of_nat (length salt) ≤ 9992)
    (Hopen : fopen_ok e auth_key_file = true) (Hdisk : disk s !! auth_key_file = Some key)
    (Hkey : bytes_ok key) (Hlen : (AUTH_KEY_LEN <= length key)%nat)
    (Hline : Forall (λ c, c ≠ 10) (take AUTH_KEY_LEN key))
    (Hname : c_str (user (router s)) = Some name) (Hnl : Z.of_nat (length name) < 32)
    (Hmal : malloc_ok (base e (turn s)) AllocAuthReply = true)
    (Hw : writes_ok (base e (turn s))) :
  let m := auth_challenge salt in
  dispatch VNS_AUTH_REQUEST (Z.of_nat (length m)) m e s =
    Ok (1, set_router (set_sent (sent (router s) ++
             [auth_reply name salt (take AUTH_KEY_LEN key)]) (router s)) s).
Proof.
  intros m.
  pose proof (auth_challenge_message salt Hsalt Hmax) as Hm.
  rewrite (dispatch_run _ VNS_AUTH_REQUEST); [|done|done| |by right].
  - unfold handle_command. change (VNS_AUTH_REQUEST =? VNSPACKET) with false.
    change (VNS_AUTH_REQUEST =? VNSCLOSE) with false.
    change (VNS_AUTH_REQUEST =? VNSBANNER) with false.
    change (VNS_AUTH_REQUEST =? VNSHWINFO) with false.
    change (VNS_AUTH_REQUEST =? VNS_RTABLE) with false.
    change (VNS_AUTH_REQUEST =? VNS_AUTH_REQUEST) with true. cbv iota.
    assert (put 4 (le_enc 4 VNS_AUTH_REQUEST) m = auth_request salt) as ->.
    { unfold m, auth_challenge. apply put_seg; by rewrite !length_le_enc. }
    rewrite (bind_run _ _ _ _ _ _ (sr_handle_auth_request_run salt key _ name e s eq_refl
      Hsalt Hkey ltac:(lia) Hdisk Hopen Hlen Hline Hname Hnl Hmal Hw)).
    done.
  - unfold m, auth_challenge. apply slice_seg; by rewrite length_le_enc.
Qed.

(** The server's verdict. *)
Definition auth_status (ok : Z) (text : buf) : buf :=
  le_enc 4 (htonl (9 + Z.of_nat (length text))) ++ le_enc 4 (htonl VNS_AUTH_STATUS) ++ ok :: text.

Lemma auth_status_message ok text :
  is_u8 ok → bytes_ok text → Z.of_nat (length text) ≤ 9991 → message (auth_status ok text).
Proof.
  intros Ho Hb Hmax. unfold auth_status.
  split; rewrite ?length_app, ?length_le_enc; cbn [length]; [by bytes|lia|lia|].
  replace (Z.of_nat (4 + (4 + S (length text)))) with (9 + Z.of_nat (length text)) by lia.
  apply (slice_seg 0 4 []); [done|by rewrite length_le_enc].
Qed.

(** A verdict of zero refuses; the reason is printed, and must be a string. *)
Lemma auth_status_run ok text e s :
  0 ∈ user (router s) → is_u8 ok → ok ≠ 0 ∨ 0 ∈ text → bytes_ok text → Z.of_nat (length text) ≤ 9991 →
  let m := auth_status ok text in
  dispatch VNS_AUTH_STATUS (Z.of_nat (length m)) m e s = Ok (if ok =? 0 then -1 else 1, s).
Proof.
  intros Hu Ho Hz Hb Hmax m. pose proof (auth_status_message ok text Ho Hb Hmax) as Hm.
  rewrite (dispatch_run _ VNS_AUTH_STATUS); [|done|done| |by right].
  2:{ unfold m, auth_status. apply slice_seg; by rewrite length_le_enc. }
  change (handle_command VNS_AUTH_STATUS) with (λ (len : Z) (b : buf),
    ok ← sr_handle_auth_status b; mret (M := V) (if ok : bool then 1 else -1)).
  cbv beta. unfold sr_handle_auth_status. message_layout. unfold m, auth_status.
  rewrite (put_seg 4 (le_enc 4 VNS_AUTH_STATUS)) by by rewrite !length_le_enc.
  rewrite load_ok by (rewrite !length_app, !length_le_enc; cbn; lia).
  rewrite app_assoc.
  rewrite (slice_seg 8 1 _ [ok] text) by (rewrite ?length_app, ?length_le_enc; done).
  rewrite lift_some. cbn [le_dec]. replace (le_dec [ok]) with ok by (unfold le_dec; lia).
  unfold mbind, M_bind, mret, M_ret.
  destruct (c_str_some _ Hu) as [u Hcu]. cbn [on_sr gets]. rewrite Hcu. cbn [lift].
  unfold mret, M_ret. replace (set_router (router s) s) with s by by destruct s.
  destruct (Z.eqb_spec ok 0) as [->|]; [|done]. destruct Hz as [|Hz]; [done|].
  rewrite (app_assoc _ [0] text), drop_app_length'
    by (rewrite !length_app, !length_le_enc; done).
  destruct (c_str_some _ Hz) as [w ->]. done.
Qed.

(** ** The opening message *)

Definition open_bytes (s : sr_instance) : buf :=
  le_enc 4 (htonl 108) ++ le_enc 4 (htonl VNSOPEN) ++ le_enc 2 (htons (topo_id s)) ++ [0; 0] ++
  name_copy IDSIZE (host s) ++ name_copy IDSIZE (user s) ++ replicate IDSIZE 0.

Lemma name_copy_run n w :
  cstr_ok n w → strncpy n w = Some (name_copy n w) ∧ length (name_copy n w) = n.
Proof.
  intros H. unfold name_copy. by destruct (strncpy_spec n w H) as (d & -> & Hl & _).
Qed.

Lemma open_message_run e s :
  cstr_ok IDSIZE (host (router s)) → cstr_ok IDSIZE (user (router s)) →
  open_message e s = Ok (open_bytes (router s), s).
Proof.
  intros Hh Hu. destruct (name_copy_run _ _ Hh) as [Eh Lh], (name_copy_run _ _ Hu) as [Eu Lu].
  unfold open_message, c_open_size, IDSIZE in *. message_layout.
  rewrite (bind_run _ _ e s (router s) s) by by destruct s.
  rewrite store_ok by (rewrite length_replicate; lia). rewrite lift_some, bind_mret.
  rewrite store_ok by (rewrite length_put, length_replicate; lia). rewrite lift_some, bind_mret.
  rewrite store_ok by (rewrite !length_put, length_replicate; lia). rewrite lift_some, bind_mret.
  rewrite Eh, lift_some, bind_mret.
  rewrite store_bytes_ok by (rewrite !length_put, length_replicate, Lh; lia).
  rewrite lift_some, bind_mret, Eu, lift_some, bind_mret.
  rewrite store_bytes_ok by (rewrite !length_put, length_replicate, Lu; lia).
  unfold lift, mret, M_ret. f_equal. f_equal. unfold open_bytes, IDSIZE.
  change (replicate 108 0) with ([] ++ replicate 108 0).
  rewrite (put_zeros 0 _ [] 108 104) by (rewrite ?length_le_enc; done). cbn [app].
  rewrite (put_zeros 4 _ (le_enc 4 _) 104 100) by (rewrite ?length_le_enc; done). rewrite app_assoc.
  rewrite (put_zeros 8 _ (le_enc 4 _ ++ _) 100 98)
    by (rewrite ?length_app, ?length_le_enc; done). rewrite app_assoc.
  rewrite (put_zeros_skip 12 _ ((le_enc 4 _ ++ _) ++ _) 2 98 64)
    by (rewrite ?length_app, ?length_le_enc, ?Lh; done).
  rewrite !app_assoc.
  rewrite (put_zeros 44 _ _ 64 32) by (rewrite ?length_app, ?length_le_enc, ?length_replicate, ?Lh, ?Lu; done).
  by rewrite <- !app_assoc.
Qed.

Lemma send_buf_run b e s :
  writes_ok (base e (turn s)) → b ≠ [] →
  send_buf b e s =
    Ok (Z.of_nat (length b), set_router (set_sent (sent (router s) ++ [b]) (router s)) s).
Proof.
  intros Hw Hb. unfold send_buf. apply on_sr_run. rewrite sys_write_run. cbv zeta. rewrite !Hw.
  rewrite (proj2 (Z.ltb_lt 0 (Z.of_nat (length b)))) by (destruct b; [done|cbn; lia]).
  by rewrite Nat2Z.id, firstn_all.
Qed.

(** ** The commands as a whole *)

Lemma hwinfo_is_message es have :
  hw_ok have es → Z.of_nat (length es) ≤ 256 → message (hwinfo_message es).
Proof.
  intros Hok Hmax.
  assert (length (hwinfo_message es) = 8 + 36 * length es)%nat as Hl.
  { unfold hwinfo_message. rewrite !length_app, !length_le_enc, (length_hw_entries es have Hok). lia. }
  split.
  - unfold hwinfo_message. apply bytes_ok_app; [apply le_enc_ok|].
    apply bytes_ok_app; [apply le_enc_ok|]. clear Hmax Hl. revert have Hok.
    induction es as [|[k v] es IH]; intros have Hok; [constructor|].
    destruct Hok as (_ & _ & Hb & _ & _ & Hok). rewrite fmap_cons. cbn [concat].
    apply bytes_ok_app; [|by eapply IH]. apply bytes_ok_app; [apply le_enc_ok|done].
  - lia.
  - lia.
  - rewrite Hl. unfold hwinfo_message.
    replace (Z.of_nat (8 + 36 * length es)) with (8 + 36 * Z.of_nat (length es)) by lia.
    apply (slice_seg 0 4 []); [done|by rewrite length_le_enc].
Qed.

Lemma hwinfo_command_run (es : list hw_entry) (e : venv) (s : vns)
    (Hs : sr_wf (router s)) (Hok : hw_ok (bool_decide (if_list (router s) ≠ [])) es)
    (Hmax : Z.of_nat (length es) ≤ 256)
    (Hfresh : if_wf (fresh_if (base e (turn s))))
    (Hmal : malloc_ok (base e (turn s)) AllocInterface = true)
    (Hnamed : Forall if_named (if_list (router s))) :
  let m := hwinfo_message es in
  let r := set_if_list (foldl (hw_apply (base e (turn s))) (if_list (router s)) es) (router s) in
  sr_wf r ∧
  dispatch 0 (Z.of_nat (length m)) m e s =
    Ok (if bool_decide (if_list r ≠ [] ∧ routing_table r ≠ [] ∧ orphans r = []) then 1 else -1,
        set_router r s).
Proof.
  intros m r.
  assert (sr_wf r) as Hr.
  { destruct Hs as [H1 H2 H3]. split; [|done|done]. by eapply hw_foldl_wf. }
  split; [done|].
  rewrite (dispatch_run 0 VNSHWINFO).
  - unfold handle_command. change (VNSHWINFO =? VNSPACKET) with false.
    change (VNSHWINFO =? VNSCLOSE) with false. change (VNSHWINFO =? VNSBANNER) with false.
    change (VNSHWINFO =? VNSHWINFO) with true. cbv iota.
    rewrite (bind_run _ _ _ _ _ _ (on_sr_run _ _ _ e s
      (sr_handle_hwinfo_run _ _ es _ (or_intror eq_refl) Hok Hmax Hmal Hnamed))). fold r.
    rewrite (bind_run _ _ _ _ _ _ (on_sr_run _ _ _ e (set_router r s) (sr_verify_run _ _ Hr))).
    unfold mret, M_ret. f_equal. f_equal. rewrite verify_ok. by case_bool_decide.
  - by eapply hwinfo_is_message.
  - done.
  - unfold m, hwinfo_message. apply slice_seg; by rewrite length_le_enc.
  - by left.
Qed.
