(* ===== verification/Handshake.v ===== *)
(** * The connection to the server ([sr_connect_to_server])

    Authentication, and then one of two ways to open the session: on a topology,
    or from a template, for which the server sends the routing table. *)

From S2P Require Export Commands.

(** ** The opening message for a template, and the server's answer *)

Definition open_template_bytes (s : sr_instance) : buf :=
  le_enc 4 (htonl 70) ++ le_enc 4 (htonl VNS_OPEN_TEMPLATE) ++
  name_copy 30 (template s) ++ name_copy IDSIZE (host s).

Lemma open_template_message_run e s :
  cstr_ok 30 (template (router s)) → cstr_ok IDSIZE (host (router s)) →
  open_template_message e s = Ok (open_template_bytes (router s), s).
Proof.
  intros Ht Hh. destruct (name_copy_run _ _ Ht) as [Et Lt], (name_copy_run _ _ Hh) as [Eh Lh].
  unfold open_template_message, c_open_template_size, IDSIZE in *. message_layout.
  rewrite (bind_run _ _ e s (router s) s) by by destruct s.
  rewrite store_ok by (rewrite length_replicate; lia). rewrite lift_some, bind_mret.
  rewrite store_ok by (rewrite length_put, length_replicate; lia). rewrite lift_some, bind_mret.
  rewrite Et, lift_some, bind_mret.
  rewrite store_bytes_ok by (rewrite !length_put, length_replicate, Lt; lia).
  rewrite lift_some, bind_mret, Eh, lift_some, bind_mret.
  rewrite store_bytes_ok by (rewrite !length_put, length_replicate, Lh; lia).
  unfold lift, mret, M_ret. f_equal. f_equal. unfold open_template_bytes, IDSIZE.
  change (replicate 70 0) with ([] ++ replicate 70 0).
  rewrite (put_zeros 0 _ [] 70 66) by (rewrite ?length_le_enc; done). cbn [app].
  rewrite (put_zeros 4 _ (le_enc 4 _) 66 62) by (rewrite ?length_le_enc; done). rewrite app_assoc.
  rewrite (put_zeros 8 _ (le_enc 4 _ ++ _) 62 32)
    by (rewrite ?length_app, ?length_le_enc, ?Lt; done). rewrite app_assoc.
  rewrite (put_zeros 38 _ _ 32 0) by (rewrite ?length_app, ?length_le_enc, ?Lt, ?Lh; done).
  rewrite app_nil_r. by rewrite <- !app_assoc.
Qed.

(** The table as the server sends it: the router's name in 32 bytes, then the
    text. *)
Definition rtable_message (vhost text : buf) : buf :=
  le_enc 4 (htonl (40 + Z.of_nat (length text))) ++ le_enc 4 (htonl VNS_RTABLE) ++
  (vhost ++ replicate (IDSIZE - length vhost) 0) ++ text.

(** A name that fits its field with its NUL. *)
Definition vhost_ok (vhost : buf) : Prop :=
  bytes_ok vhost ∧ Forall (λ c, c ≠ 0) vhost ∧ (length vhost < IDSIZE)%nat.

Lemma rtable_is_message vhost text :
  vhost_ok vhost → bytes_ok text → Z.of_nat (length text) ≤ 9960 →
  message (rtable_message vhost text).
Proof.
  intros (Hb & _ & Hl) Ht Hmax. unfold IDSIZE in *.
  assert (length (rtable_message vhost text) = 40 + length text)%nat as Hlen.
  { unfold rtable_message, IDSIZE. rewrite !length_app, !length_le_enc, length_replicate. lia. }
  split; [|lia|lia|].
  - unfold rtable_message. bytes. by apply bytes_ok_replicate.
  - rewrite Hlen. unfold rtable_message.
    replace (Z.of_nat (40 + length text)) with (40 + Z.of_nat (length text)) by lia.
    apply (slice_seg 0 4 []); [done|by rewrite length_le_enc].
Qed.

(** The table is stored in the file [rtable.<name>]. *)
Lemma rtable_message_run vhost text e s :
  vhost_ok vhost → bytes_ok text → Z.of_nat (length text) ≤ 9960 →
  fopen_ok e (rtable_prefix ++ vhost) = true →
  let m := rtable_message vhost text in
  dispatch VNS_RTABLE (Z.of_nat (length m)) m e s =
    Ok (1, set_disk (<[rtable_prefix ++ vhost := text]> (disk s)) s).
Proof.
  intros Hv Ht Hmax Hopen m. pose proof (rtable_is_message vhost text Hv Ht Hmax) as Hm.
  destruct Hv as (Hb & H0 & Hl). unfold IDSIZE in *.
  rewrite (dispatch_run _ VNS_RTABLE); [|done|done| |by right].
  2:{ unfold m, rtable_message. apply slice_seg; by rewrite length_le_enc. }
  change (handle_command VNS_RTABLE) with (λ (len : Z) (b : buf),
    ok ← sr_handle_rtable b; mret (M := V) (if ok : bool then 1 else -1)).
  cbv beta. unfold m, rtable_message.
  rewrite (put_seg 4 (le_enc 4 VNS_RTABLE)) by by rewrite !length_le_enc.
  set (len4 := le_enc 4 _). set (ty := le_enc 4 VNS_RTABLE). unfold IDSIZE.
  set (field := vhost ++ replicate (32 - length vhost) 0).
  assert (length field = 32%nat) as Hf by (unfold field; rewrite length_app, length_replicate; lia).
  assert (length (len4 ++ ty) = 8%nat) as H8 by (rewrite length_app; unfold len4, ty; by rewrite !length_le_enc).
  destruct (htonl_small (40 + Z.of_nat (length text))) as (Hu & Hnh & _); [lia|].
  unfold sr_handle_rtable. message_layout.
  assert (drop 8 (len4 ++ ty ++ field ++ text) = field ++ text) as ->.
  { rewrite app_assoc. by apply drop_app_length'. }
  assert (c_str (field ++ text) = Some vhost) as ->.
  { unfold field. replace (32 - length vhost)%nat with (S (31 - length vhost)) by lia.
    rewrite <- app_assoc. cbn [replicate app]. by apply c_str_app. }
  rewrite lift_some, bind_mret.
  rewrite (proj2 (Nat.ltb_ge _ _)) by (unfold IDSIZE; cbn [length rtable_prefix]; lia).
  rewrite load_ok by (rewrite !length_app in *; lia).
  assert (slice 0 4 (len4 ++ ty ++ field ++ text) = len4) as ->.
  { apply (slice_seg 0 4 []); [done|]. unfold len4. by rewrite length_le_enc. }
  rewrite lift_some, bind_mret.
  assert (ntohl (le_dec len4) = 40 + Z.of_nat (length text)) as ->.
  { unfold len4. by rewrite le_dec_enc by exact Hu. }
  assert (u32 (40 + Z.of_nat (length text) - 8 - Z.of_nat IDSIZE) = Z.of_nat (length text)) as ->.
  { unfold IDSIZE. rewrite u32_small; unfold is_u32 in *; lia. }
  assert (Z.of_nat (length (len4 ++ ty ++ field ++ text)) = 40 + Z.of_nat (length text)) as Hlen.
  { rewrite !length_app in *. lia. }
  rewrite Hlen, Z.ltb_irrefl, Nat2Z.id.
  assert (slice 40 (length text) (len4 ++ ty ++ field ++ text) = text) as Htext.
  { rewrite <- (app_nil_r text) at 2. rewrite !app_assoc, <- (app_assoc _ text []).
    apply slice_seg; [|done]. rewrite !length_app in *. lia. }
  rewrite Htext. unfold write_file, ask, modify, mbind, M_bind, mret, M_ret. cbv beta.
  rewrite Hopen. cbv beta iota. by rewrite Hopen.
Qed.

(** ** The handshake *)

Section handshake.
Context (salt key name text rest : buf) (verdict : Z) (e : venv) (s : vns).
Context (He : session_ok e) (Hw : ∀ t, writes_ok (base e t)).
Context (Hmal : ∀ t, malloc_ok (base e t) AllocAuthReply = true).
Context (Hnet : host_found e = true ∧ socket_ok e = true ∧ connect_ok e = true).
Context (Hsalt : bytes_ok salt) (Hmax : Z.of_nat (length salt) ≤ 9992).
Context (Hopen : fopen_ok e auth_key_file = true) (Hdisk : disk s !! auth_key_file = Some key).
Context (Hkey : bytes_ok key) (Hlen : (AUTH_KEY_LEN <= length key)%nat).
Context (Hline : Forall (λ c, c ≠ 10) (take AUTH_KEY_LEN key)).
Context (Hname : c_str (user (router s)) = Some name) (Hnl : Z.of_nat (length name) < 32).
Context (Hv : is_u8 verdict) (Hreason : verdict ≠ 0 ∨ 0 ∈ text) (Htext : bytes_ok text).
Context (Htmax : Z.of_nat (length text) ≤ 9991).
Context (Hin : incoming s = auth_challenge salt ++ auth_status verdict text ++ rest).
Context (Hno : no_failure (answers s)).
Context (Hsup :
  (length (auth_challenge salt ++ auth_status verdict text) <= supply (answers s))%nat).

(** The router after the answer to the challenge. *)
Definition authenticated : sr_instance :=
  set_sent (sent (router s) ++ [auth_reply name salt (take AUTH_KEY_LEN key)]) (router s).

(** What is left to read is [rest], and two commands were taken. *)
Definition handshaken (r : sr_instance) (l : list answer) : vns :=
  mk_vns r rest l (disk s) (closed s) (2 + turn s).

(** A session is requested when the verdict is not zero. *)
Lemma authenticate_run :
  ∃ l, no_failure l ∧
    (supply (answers s) <=
     supply l + length (auth_challenge salt ++ auth_status verdict text))%nat ∧
    sr_connect_to_server e s =
      if verdict =? 0 then Ok (-1, handshaken authenticated l)
      else request_session e (handshaken authenticated l).
Proof.
  destruct Hnet as (Hh & Hso & Hc). pose proof Hsup as Hsup'.
  rewrite length_app in Hsup'.
  unfold sr_connect_to_server. rewrite (bind_run _ _ e s e s) by done.
  rewrite Hh, Hso, Hc. cbn [negb]. unfold open_session.
  destruct (read_command_run VNS_AUTH_REQUEST (auth_challenge salt)
    (auth_status verdict text ++ rest) e s) as (l1 & Hn1 & Hs1 & H1);
    [by apply auth_challenge_message|done|done|lia|apply He|].
  set (s1 := set_input _ l1 (next_turn s)) in *.
  rewrite (bind_run _ _ _ _ _ _ (eq_trans H1 (auth_challenge_run salt key name e s1 Hsalt Hmax
    Hopen Hdisk Hkey Hlen Hline Hname Hnl (Hmal _) (Hw _)))).
  change (1 =? 1) with true. cbn [negb].
  set (s2 := set_router _ s1).
  destruct (read_command_run VNS_AUTH_STATUS (auth_status verdict text) rest e s2)
    as (l3 & Hn3 & Hs3 & H3);
    [by apply auth_status_message|done|done|cbn [answers s2 set_router s1 set_input]; lia|apply He|].
  rewrite (bind_run _ _ _ _ _ _ (eq_trans H3
    (auth_status_run verdict text e (set_input rest l3 (next_turn s2)) (c_str_has_nul _ _ Hname)
      Hv Hreason Htext Htmax))).
  exists l3. split; [done|]. split; [|by destruct (verdict =? 0)]. rewrite length_app. cbn [answers s2 set_router s1 set_input] in Hs3. lia.
Qed.

(** A user of a topology. *)
Lemma connect_run :
  verdict ≠ 0 → c_str (template (router s)) = Some [] →
  cstr_ok IDSIZE (host (router s)) → cstr_ok IDSIZE (user (router s)) →
  ∃ l, no_failure l ∧
    (supply (answers s) <=
     supply l + length (auth_challenge salt ++ auth_status verdict text))%nat ∧
    sr_connect_to_server e s =
      Ok (0, handshaken (set_sent (sent (router s) ++
          [auth_reply name salt (take AUTH_KEY_LEN key); open_bytes (router s)]) (router s)) l).
Proof.
  intros Hv0 Htempl Hhost Huser. destruct authenticate_run as (l & Hn & Hl & ->).
  rewrite (proj2 (Z.eqb_neq verdict 0) Hv0).
  exists l. split; [done|]. split; [done|]. unfold request_session.
  rewrite (bind_run _ _ e _ authenticated (handshaken authenticated l)) by done.
  change (template authenticated) with (template (router s)).
  rewrite Htempl, lift_some, bind_mret. change (0 <? length (@nil Z))%nat with false. cbv iota.
  rewrite (bind_run _ _ _ _ _ _ (open_message_run e (handshaken authenticated l) Hhost Huser)).
  change (open_bytes (router (handshaken authenticated l))) with (open_bytes (router s)).
  assert (open_bytes (router s) ≠ []) as Hne by done.
  rewrite (bind_run _ _ _ _ _ _ (send_buf_run _ e (handshaken authenticated l) (Hw _) Hne)).
  rewrite Z.eqb_refl. cbn [negb].
  change (sent (router (handshaken authenticated l))) with
    (sent (router s) ++ [auth_reply name salt (take AUTH_KEY_LEN key)]).
  by rewrite <- app_assoc.
Qed.

(** A user of a template: the server then sends the table. *)
Lemma connect_template_run (tname vhost table rest' : buf) :
  verdict ≠ 0 → c_str (template (router s)) = Some tname → tname ≠ [] →
  cstr_ok 30 (template (router s)) → cstr_ok IDSIZE (host (router s)) →
  vhost_ok vhost → bytes_ok table → Z.of_nat (length table) ≤ 9960 →
  fopen_ok e (rtable_prefix ++ vhost) = true →
  rest = rtable_message vhost table ++ rest' →
  (length (auth_challenge salt ++ auth_status verdict text) +
   length (rtable_message vhost table) <= supply (answers s))%nat →
  ∃ l, no_failure l ∧
    sr_connect_to_server e s =
      Ok (0, mk_vns (set_sent (sent (router s) ++
            [auth_reply name salt (take AUTH_KEY_LEN key); open_template_bytes (router s)])
            (router s)) rest' l (<[rtable_prefix ++ vhost := table]> (disk s)) (closed s)
            (3 + turn s)).
Proof.
  intros Hv0 Htempl Htn Htok Hhost Hvh Htb Htl Hfo Hrest Hsup2.
  destruct authenticate_run as (l & Hn & Hl & ->). rewrite (proj2 (Z.eqb_neq verdict 0) Hv0).
  unfold request_session.
  rewrite (bind_run _ _ e _ authenticated (handshaken authenticated l)) by done.
  change (template authenticated) with (template (router s)).
  rewrite Htempl, lift_some, bind_mret.
  rewrite (proj2 (Nat.ltb_lt 0 (length tname))) by (destruct tname; [done|cbn; lia]).
  cbv zeta iota.
  rewrite (bind_run _ _ _ _ _ _
    (open_template_message_run e (handshaken authenticated l) Htok Hhost)).
  change (open_template_bytes (router (handshaken authenticated l))) with
    (open_template_bytes (router s)).
  assert (open_template_bytes (router s) ≠ []) as Hne by done.
  rewrite (bind_run _ _ _ _ _ _ (send_buf_run _ e (handshaken authenticated l) (Hw _) Hne)).
  rewrite Z.eqb_refl. cbn [negb].
  set (s3 := set_router _ _).
  destruct (read_command_run VNS_RTABLE (rtable_message vhost table) rest' e s3)
    as (l3 & Hn3 & _ & H3);
    [by apply rtable_is_message|exact Hrest|exact Hn|change (answers s3) with l; lia|apply He|].
  rewrite (bind_run _ _ _ _ _ _ (eq_trans H3 (rtable_message_run vhost table e
    (set_input rest' l3 (next_turn s3)) Hvh Htb Htl Hfo))).
  change (1 =? 1) with true. cbv iota. exists l3. split; [done|].
  unfold mret, M_ret, s3.
  change (sent (router (handshaken authenticated l))) with
    (sent (router s) ++ [auth_reply name salt (take AUTH_KEY_LEN key)]).
  by rewrite <- app_assoc.
Qed.
End handshake.
