(* ===== verification/RouterWitnesses.v ===== *)
(** * The router's theorems on the concrete network

    Each theorem of RouterTheorems applied to a frame of the topology of Demo,
    with its hypotheses computed. *)

From stdpp Require Import gmap.
From S2P Require Import RouterTheorems.

(** The entry of the client in [net1]. *)
Definition client_entry : sr_arpentry := mk_entry client_mac client_ip 100 true.
Definition client_route : sr_rt :=
  mk_rt (ip4 10 0 1 0) client_ip (ip4 255 255 255 0) eth3_name.
Definition gateway1_route : sr_rt :=
  mk_rt (ip4 192 168 2 0) gateway1_ip (ip4 255 255 255 0) eth1_name.

Lemma transit_forwarded_witness :
  handle back eth2_name net1 =
    Ok (dec_ttl back, emit env_ok (vns_name eth3_name)
      (readdress client_mac (router_mac 3) (dec_ttl back)) net1) ∧
  valid_ip (dec_ttl back) = true ∧
  get eth_size ip_ttl (dec_ttl back) = get eth_size ip_ttl back - 1 ∧
  ∀ i, i ≠ 22%nat → i ≠ 24%nat → i ≠ 25%nat → dec_ttl back !! i = back !! i.
Proof.
  apply (transit_forwarded back (Z.of_nat (length back)) eth2_name env_ok net1) with
    (rt := client_route) (out := eth3) (x := client_entry); demo.
Defined.

Lemma transit_first_miss_witness :
  ∃ s', handle transit eth3_name net0 = Ok (dec_ttl transit, s') ∧
    sent s' = [vns_packet (vns_name eth1_name) (arp_request_frame eth1 gateway1_ip)] ∧
    entries (cache s') = entries (cache net0) ∧
    requests (cache s') = [mk_req 0 gateway1_ip 110 1 [waiting_packet transit eth1]].
Proof.
  apply (transit_first_miss transit (Z.of_nat (length transit)) eth3_name env_ok net0) with
    (rt := gateway1_route) (out := eth1); demo.
Defined.

(** In [net2] the address of [server2] was already asked for. *)
Definition to_server2 : buf := from_client server2_ip ip_protocol_udp 64 (replicate 12 1).
Definition server2_route : sr_rt :=
  mk_rt (ip4 172 64 3 0) server2_ip (ip4 255 255 255 0) eth2_name.
Definition server2_request : sr_arpreq := mk_req 0 server2_ip 100 1 [parked].

Lemma transit_next_miss_witness :
  handle to_server2 eth3_name net2 =
    Ok (dec_ttl to_server2,
        set_cache (update_req 0 (push_packet (waiting_packet to_server2 eth2)) cache2) net2).
Proof.
  apply (transit_next_miss to_server2 (Z.of_nat (length to_server2)) eth3_name env_ok net2) with
    (rt := server2_route) (r := server2_request); demo.
Defined.

(** The client can be told about its packets: its address is known. *)
Lemma client_can_answer packet :
  icmp_source net1 packet (get eth_size ip_src packet) = Some eth3 →
  get eth_size ip_src packet = client_ip →
  can_answer env_ok net1 packet eth3 eth3 client_mac.
Proof.
  intros H1 H2. split; [apply env_ok_writes|done|done|]. rewrite H2.
  exists client_route, client_entry. by vm_compute.
Defined.

Lemma ttl_expired_answered_witness :
  handle transit_expired eth3_name net1 =
    Ok (transit_expired, emit env_ok (vns_name eth3_name)
      (readdress client_mac (router_mac 3) (icmp_error_frame eth3 transit_expired 11 0)) net1).
Proof.
  apply (ttl_expired_answered transit_expired (Z.of_nat (length transit_expired)) eth3_name
    env_ok net1) with (via := eth3); demo.
  apply client_can_answer; demo.
Defined.

(** The router with the route back to the client and one by a missing interface. *)
Definition net_missing : sr_instance :=
  set_routing_table [client_route; mk_rt (ip4 9 9 9 9) 0 (ip4 255 255 255 255) (if_name_of [101])] net1.

Lemma net_missing_wf : sr_wf net_missing.
Proof.
  destruct net1_wf as [H1 H2 H3]. split; [done| |done].
  repeat (apply Forall_cons_2; [by apply rt_okb_ok; vm_compute|]). by apply Forall_nil_2.
Qed.

Definition by_missing : buf :=
  from_client (ip4 9 9 9 9) ip_protocol_udp 64 (replicate 12 1).

Lemma no_route_answered_witness :
  handle unroutable eth3_name net_missing =
    Ok (dec_ttl unroutable, emit env_ok (vns_name eth3_name)
      (readdress client_mac (router_mac 3) (icmp_error_frame eth3 (dec_ttl unroutable) 3 0))
      net_missing) ∧
  handle by_missing eth3_name net_missing = Ok (dec_ttl by_missing, net_missing).
Proof.
  split.
  - apply (no_route_answered unroutable (Z.of_nat (length unroutable)) eth3_name
      env_ok net_missing) with (via := eth3); try apply net_missing_wf; demo.
    split; [apply env_ok_writes|done|by vm_compute|].
    exists client_route, client_entry. by vm_compute.
  - apply (no_route_answered by_missing (Z.of_nat (length by_missing)) eth3_name
      env_ok net_missing) with (out := eth3) (via := eth3) (mac := client_mac)
      (rt := mk_rt (ip4 9 9 9 9) 0 (ip4 255 255 255 255) (if_name_of [101]));
      try apply net_missing_wf; demo.
Defined.

Lemma port_unreachable_answered_witness :
  handle to_router_udp eth3_name net1 =
    Ok (to_router_udp, emit env_ok (vns_name eth3_name)
      (readdress client_mac (router_mac 3) (icmp_error_frame eth3 to_router_udp 3 3)) net1).
Proof.
  apply (port_unreachable_answered to_router_udp (Z.of_nat (length to_router_udp)) eth3_name
    env_ok net1) with (via := eth3); demo.
  apply client_can_answer; demo.
Defined.

Lemma icmp_error_well_formed_witness :
  ∃ F, sr_send_icmp_error transit_expired (Z.of_nat (length transit_expired)) 11 0 env_ok net1 =
      Ok (transit_expired, emit env_ok (vns_name (if_name eth3)) F net1) ∧
    length F = 70%nat ∧ getb 0 ether_dhost F = client_mac ∧ getb 0 ether_shost F = if_addr eth3 ∧
    valid_ip F = true ∧ rfc1071_valid (ip_header F) = true ∧ ip_total F = 56 ∧
    get eth_size ip_p F = ip_protocol_icmp ∧ get eth_size ip_ttl F = INIT_TTL ∧
    get eth_size ip_src F = if_ip eth3 ∧
    get eth_size ip_dst F = get eth_size ip_src transit_expired ∧
    get (payload_off F) icmp_type F = 11 ∧ get (payload_off F) icmp_code F = 0 ∧
    rfc1071_valid (slice (payload_off F) icmp_t11_size F) = true ∧
    let n := Z.to_nat (Z.min (ip_total transit_expired) 28) in
    getb (payload_off F) icmp_data F =
      slice eth_size n transit_expired ++ replicate (28 - n) 0.
Proof.
  apply (icmp_error_well_formed transit_expired (Z.of_nat (length transit_expired)) 11 0 env_ok
    net1 eth3 eth3 client_mac); demo.
  apply client_can_answer; demo.
Defined.

Lemma echo_request_answered_witness :
  let F := echo_reply_frame eth3 to_router_ping in
  handle to_router_ping eth3_name net0 =
    Ok (to_router_ping, emit env_ok (vns_name eth3_name) F net0) ∧
  length F = length to_router_ping ∧
  getb 0 ether_dhost F = getb 0 ether_shost to_router_ping ∧ getb 0 ether_shost F = if_addr eth3 ∧
  valid_ip F = true ∧
  get eth_size ip_src F = get eth_size ip_dst to_router_ping ∧
  get eth_size ip_dst F = get eth_size ip_src to_router_ping ∧
  get eth_size ip_ttl F = INIT_TTL ∧
  get (payload_off to_router_ping) icmp_type F = 0 ∧
  get (payload_off to_router_ping) icmp_code F = 0 ∧
  rfc1071_valid (slice (payload_off to_router_ping) (Z.to_nat (payload_len to_router_ping)) F) = true ∧
  ∀ i, (payload_off to_router_ping + 4 <= i)%nat → F !! i = to_router_ping !! i.
Proof.
  apply (echo_request_answered to_router_ping (Z.of_nat (length to_router_ping)) eth3_name
    env_ok net0 eth3); demo.
Defined.

Lemma has_room_fresh l ip x :
  unique_valid l → l !! O = Some x → ent_valid x = false → has_room l ip.
Proof.
  intros Hu Hx Hv. right. rewrite arp_map_size by done.
  apply length_filter_lt with x; [by eapply list_elem_of_lookup_2|congruence].
Qed.

Lemma arp_request_answered_witness :
  ∃ s', handle arp_query eth2_name net0 = Ok (arp_query, s') ∧
    sent s' = [vns_packet (vns_name eth2_name)
      (arp_frame server2_mac (router_mac 2) arp_op_reply (router_mac 2) (if_ip eth2)
         server2_mac server2_ip)] ∧
    arp_map (entries (cache s')) =
      <[server2_ip := mk_entry server2_mac server2_ip 110 true]> (arp_map (entries cache0)).
Proof.
  apply (arp_request_answered arp_query (Z.of_nat (length arp_query)) eth2_name env_ok net0 eth2);
    demo.
  apply has_room_fresh with zero_entry; [|done|done].
  exact (cache_wf_unique _ (sr_wf_cache _ net0_wf)).
Defined.

Lemma arp_reply_flushes_witness :
  ∃ s' outs, handle arp_answer eth2_name net2 = Ok (arp_answer, s') ∧
    Forall2 (λ p out, named net2 (pkt_iface p) = Some out) [parked] outs ∧
    sent s' = zip_with (λ p out, vns_packet (vns_name (pkt_iface p))
                (readdress server2_mac (if_addr out) (pkt_buf p))) [parked] outs ∧
    requests (cache s') = filter (λ r, req_ip r ≠ server2_ip) (requests cache2) ∧
    arp_map (entries (cache s')) !! server2_ip =
      Some (mk_entry server2_mac server2_ip 110 true).
Proof.
  apply (arp_reply_flushes arp_answer (Z.of_nat (length arp_answer)) eth2_name env_ok net2 eth2)
    with (r := server2_request); demo.
  - intros p Hp. apply list_elem_of_singleton in Hp as ->. exists eth2. by vm_compute.
  - apply has_room_fresh with zero_entry; [|done|done].
    exact (cache_wf_unique _ (sr_wf_cache _ net2_wf)).
Defined.

Lemma dropped_no_effect_witness :
  dropped net0 eth3_name (replicate 20 0) ∧
  handle (replicate 20 0) eth3_name net0 = Ok (replicate 20 0, net0).
Proof.
  assert (dropped net0 eth3_name (replicate 20 0)) as Hd by (apply DropType; demo).
  split; [exact Hd|].
  apply (dropped_no_effect (replicate 20 0) 20 eth3_name env_ok net0); demo. exact Hd.
Defined.
