(* ===== verification/ComponentTheorems.v ===== *)
(** * What the components guarantee

    The checksum, the validation of IP packets, the routing table, the ARP
    cache, the interfaces, the messages to the server and the log; each theorem
    is followed by its application to concrete data. *)

From stdpp Require Import gmap.
From S2P Require Import Demo.

(** ** The Internet checksum *)

(** C27: [cksum] on a byte range inside a buffer (of at most 131072 bytes, for
    which the 32-bit sum cannot wrap) reads nothing outside it, ends, and
    returns, in network order, the complement of the RFC 1071 one's complement
    sum of the range, with all ones in place of zero: the result is never
    zero. *)
Theorem cksum_correct (data : buf) (off : nat) (len : Z) (e : env) (s : sr_instance)
    (Hb : bytes_ok data) (Hl : 0 ≤ len ≤ 131072)
    (Hf : (off + Z.to_nat len <= length data)%nat) :
  let sum := rfc1071_sum (slice off (Z.to_nat len) data) in
  ∃ c, cksum data off len e s = Ok (c, s) ∧ is_u16 c ∧ c ≠ 0 ∧
    ntohs c = if sum =? 0xffff then 0xffff else 0xffff - sum.
Proof.
  cbv zeta. set (d := slice off (Z.to_nat len) data).
  assert (bytes_ok d) as Hd by (unfold d; auto with sr).
  exists (cksum_of d). rewrite cksum_run by done. fold d.
  pose proof (cksum_of_bound d Hd). split; [done|]. split; [unfold is_u16; lia|].
  split; [lia|]. unfold cksum_of. apply cksum_final_host.
  rewrite rfc1071_sum_norm by done. by apply oc_norm_bound, wsum_nonneg.
Qed.

Lemma cksum_correct_witness :
  ∃ c, cksum transit 14 20 env_ok net0 = Ok (c, net0) ∧ is_u16 c ∧ c ≠ 0 ∧
    ntohs c = if rfc1071_sum (slice 14 20 transit) =? 0xffff then 0xffff
              else 0xffff - rfc1071_sum (slice 14 20 transit).
Proof. apply (cksum_correct transit 14 20 env_ok net0); [demo|lia|demo]. Defined.

(** Storing what [cksum] returns for a range whose checksum field is clear
    into that field (at an even offset) makes a range that RFC 1071 accepts: a
    packet is valid after its checksum was computed this way. *)
Theorem cksum_stored_validates (off : nat) (d : buf) (e : env) (s : sr_instance)
    (He : Nat.even off = true) (Hl : (off + 2 <= length d)%nat)
    (Hmax : Z.of_nat (length d) ≤ 131072) (Hb : bytes_ok d) :
  ∃ c, cksum (put off [0; 0] d) 0 (Z.of_nat (length d)) e s = Ok (c, s) ∧
    rfc1071_valid (put off (le_enc 2 c) d) = true.
Proof.
  change [0; 0] with (le_enc 2 0). exists (cksum_of (put off (le_enc 2 0) d)).
  rewrite cksum_run by (auto with sr || len || lia). rewrite slice_all by len.
  split; [done|by apply seal_valid].
Qed.

Lemma cksum_stored_validates_witness :
  ∃ c, cksum (put 10 [0; 0] (slice 14 20 transit)) 0 20 env_ok net0 = Ok (c, net0) ∧
    rfc1071_valid (put 10 (le_enc 2 c) (slice 14 20 transit)) = true.
Proof. apply (cksum_stored_validates 10 (slice 14 20 transit) env_ok net0); demo. Defined.

(** ** Validation *)

(** C14: the validation of a frame leaves its bytes as they were (the checksum
    field it clears is put back), never faults, and accepts exactly the frames
    whose IP header and packet lie inside the frame, with version 4, a header of
    at least 20 bytes no longer than the packet, a header checksum that is
    correct by RFC 1071 and a checksum field that is not zero. *)
Theorem sr_valid_ip_packet_correct (packet : buf) (len : Z) (e : env) (s : sr_instance)
    (Hf : frame_ok packet len) :
  ∃ b, sr_valid_ip_packet packet len e s = Ok ((b, packet), s) ∧
    (b = true ↔ ip_format packet = true ∧ rfc1071_valid (ip_header packet) = true ∧
                get eth_size ip_sum packet ≠ 0).
Proof.
  exists (valid_ip packet). split; [by apply sr_valid_ip_packet_run|].
  by apply valid_ip_rfc1071, Hf.
Qed.

Lemma sr_valid_ip_packet_correct_witness :
  ∃ b, sr_valid_ip_packet transit (Z.of_nat (length transit)) env_ok net0 = Ok ((b, transit), net0) ∧
    (b = true ↔ ip_format transit = true ∧ rfc1071_valid (ip_header transit) = true ∧
                get eth_size ip_sum transit ≠ 0).
Proof.
  apply (sr_valid_ip_packet_correct transit (Z.of_nat (length transit)) env_ok net0). demo.
Defined.

(** A packet whose header sums to all ones without its checksum: the correct
    checksum field is zero. *)
Definition zero_sum_frame : buf :=
  let h id := [69; 0; 0; 20] ++ le_enc 2 (htons id) ++ [0; 0; 64; 17; 0; 0] ++
              le_enc 4 client_ip ++ le_enc 4 server1_ip in
  router_mac 3 ++ client_mac ++ [8; 0] ++ h (0xffff - rfc1071_sum (h 0)).

(** The router drops a correct packet when its correct checksum is zero:
    [cksum] never returns zero, so the comparison of the received with the
    computed checksum fails on a header that RFC 1071 accepts. *)
Theorem zero_checksum_rejected :
  ip_format zero_sum_frame = true ∧
  rfc1071_valid (ip_header zero_sum_frame) = true ∧
  get eth_size ip_sum zero_sum_frame = 0 ∧
  sr_valid_ip_packet zero_sum_frame (Z.of_nat (length zero_sum_frame)) env_ok net0 =
    Ok ((false, zero_sum_frame), net0).
Proof. by vm_compute. Qed.

(** ** The routing table *)

(** A table of routes to prefixes. *)
Definition prefix_table (table : list sr_rt) (plen : sr_rt → Z) : Prop :=
  Forall (λ r, rt_wf r ∧ prefix_route (plen r) r) table.

(** C15: on a table whose masks are prefix masks the lookup is longest-prefix
    match on the addresses as numbers: the route found contains the address, no
    route with a longer prefix does, and no earlier route with an equally long
    one; no route is found exactly when none contains the address. *)
Theorem sr_find_lpm_route_longest_prefix (plen : sr_rt → Z) (ip : Z) (e : env) (s : sr_instance)
    (Ht : prefix_table (routing_table s) plen) (Hip : is_u32 ip) :
  ∃ o, sr_find_lpm_route ip e s = Ok (o, s) ∧
    match o with
    | None => ∀ r, r ∈ routing_table s → ¬ in_prefix (plen r) r ip
    | Some r => ∃ pre post, routing_table s = pre ++ r :: post ∧
        in_prefix (plen r) r ip ∧
        (∀ r', r' ∈ routing_table s → in_prefix (plen r') r' ip → plen r' ≤ plen r) ∧
        (∀ r', r' ∈ pre → in_prefix (plen r') r' ip → plen r' < plen r)
    end.
Proof.
  unfold prefix_table in Ht. rewrite list.Forall_forall in Ht.
  assert (∀ r, r ∈ routing_table s → rt_matches ip r = true ↔ in_prefix (plen r) r ip) as Hin.
  { intros r [Hr Hp]%Ht. by apply rt_matches_prefix. }
  assert (∀ r r', r ∈ routing_table s → r' ∈ routing_table s →
    mask_of r' ≤ mask_of r ↔ plen r' ≤ plen r) as Hmono.
  { intros r r' [_ [? ->]]%Ht [_ [? ->]]%Ht. by apply prefix_mask_mono. }
  exists (lpm (routing_table s) ip). split; [done|].
  destruct (lpm (routing_table s) ip) as [r|] eqn:E.
  - pose proof (lpm_elem _ _ _ E) as Hr.
    apply lpm_some in E as (pre & post & Heq & Hm & Hmax & Hpre).
    exists pre, post. split; [done|]. split; [by apply Hin|]. split.
    + intros r' Hr' Hp. apply (Hmono r r'); [done..|]. apply Hmax; [done|by apply Hin].
    + intros r' Hr' Hp.
      assert (r' ∈ routing_table s) as Hrt by (rewrite Heq; apply elem_of_app; by left).
      assert (mask_of r' < mask_of r) by (apply Hpre; [done|by apply Hin]).
      pose proof (Hmono r' r Hrt Hr). lia.
  - apply lpm_none in E. rewrite list.Forall_forall in E. intros r Hr Hp.
    apply Hin in Hp; [|done]. rewrite E in Hp; done.
Qed.

Definition rtable_plen (r : sr_rt) : Z := if rt_mask r =? ip4 255 255 0 0 then 16 else 24.

Lemma rtable_prefix : prefix_table rtable rtable_plen.
Proof.
  unfold prefix_table, rtable.
  repeat (apply Forall_cons_2; [split; [by apply rt_okb_ok; vm_compute|split; [by split|done]]|]).
  constructor.
Qed.

Lemma sr_find_lpm_route_longest_prefix_witness :
  ∃ o, sr_find_lpm_route server1_ip env_ok net0 = Ok (o, net0) ∧
    match o with
    | None => ∀ r, r ∈ rtable → ¬ in_prefix (rtable_plen r) r server1_ip
    | Some r => ∃ pre post, rtable = pre ++ r :: post ∧
        in_prefix (rtable_plen r) r server1_ip ∧
        (∀ r', r' ∈ rtable → in_prefix (rtable_plen r') r' server1_ip →
           rtable_plen r' ≤ rtable_plen r) ∧
        (∀ r', r' ∈ pre → in_prefix (rtable_plen r') r' server1_ip →
           rtable_plen r' < rtable_plen r)
    end.
Proof.
  apply (sr_find_lpm_route_longest_prefix rtable_plen server1_ip env_ok net0).
  - apply rtable_prefix.
  - by split.
Defined.

(** ** The ARP cache *)

(** C16: the cache refines a finite map from addresses to entries.  Inserting a
    mapping is insertion into the map when the address is mapped or one of the
    100 slots is free; when the cache is full of other addresses it is without
    effect on the map.  Either way the pending request for the address is taken
    off the queue and returned, and the other requests stay. *)
Theorem sr_arpcache_insert_refines (mac : buf) (ip : Z) (e : env) (s : sr_instance)
    (Hc : cache_wf (cache s)) (Hm : mac_ok mac) (Hip : is_u32 ip) :
  let m := arp_map (entries (cache s)) in
  ∃ s', sr_arpcache_insert mac ip e s = Ok (find_req ip (requests (cache s)), s') ∧
    cache_wf (cache s') ∧
    requests (cache s') = filter (λ r, req_ip r ≠ ip) (requests (cache s)) ∧
    (is_Some (m !! ip) ∨ (size m < SR_ARPCACHE_SZ)%nat →
     arp_map (entries (cache s')) = <[ip := mk_entry mac ip (now e) true]> m) ∧
    (m !! ip = None ∧ size m = SR_ARPCACHE_SZ → arp_map (entries (cache s')) = m).
Proof.
  cbv zeta. pose proof (cache_wf_unique _ Hc) as Hu. pose proof (cache_wf_size _ Hc) as Hsz.
  exists (set_cache (insert_cache mac ip (now e) (cache s)) s).
  rewrite sr_arpcache_insert_run by (done || apply Hm).
  split; [done|]. split; [by apply insert_cache_wf|]. split; [done|]. simpl. split.
  - intros H. apply insert_entries_map; [done|]. unfold has_room. by rewrite Hsz.
  - intros [H1 H2]. rewrite insert_entries_full; [done|done|].
    intros [[x Hx]|H]; [congruence|lia].
Qed.

Lemma sr_arpcache_insert_refines_witness :
  let m := arp_map (entries (cache net2)) in
  ∃ s', sr_arpcache_insert server2_mac server2_ip env_ok net2 =
      Ok (find_req server2_ip (requests cache2), s') ∧
    cache_wf (cache s') ∧
    requests (cache s') = filter (λ r, req_ip r ≠ server2_ip) (requests cache2) ∧
    (is_Some (m !! server2_ip) ∨ (size m < SR_ARPCACHE_SZ)%nat →
     arp_map (entries (cache s')) = <[server2_ip := mk_entry server2_mac server2_ip 110 true]> m) ∧
    (m !! server2_ip = None ∧ size m = SR_ARPCACHE_SZ → arp_map (entries (cache s')) = m).
Proof.
  apply (sr_arpcache_insert_refines server2_mac server2_ip env_ok net2).
  - apply net2_wf.
  - by apply mac_okb_ok.
  - by split.
Defined.

(** A lookup after an insertion that had room gives a copy of what was
    inserted; for every other address it gives what it gave before. *)
Theorem sr_arpcache_lookup_insert (mac : buf) (ip ip' : Z) (e : env) (s : sr_instance)
    (Hc : cache_wf (cache s)) (Hmal : mallocs_checked e) (Hm : mac_ok mac) (Hip : is_u32 ip)
    (Hroom : has_room (entries (cache s)) ip) :
  ∃ r s', sr_arpcache_insert mac ip e s = Ok (r, s') ∧
    sr_arpcache_lookup ip' e s' =
      Ok (if decide (ip' = ip) then Some (mk_entry mac ip (now e) true)
          else arp_map (entries (cache s)) !! ip', s').
Proof.
  eexists _, _. rewrite sr_arpcache_insert_run by (done || apply Hm). split; [done|].
  rewrite sr_arpcache_lookup_run; [|by apply insert_cache_wf|done].
  cbn [cache set_cache insert_cache entries].
  rewrite insert_entries_map by (exact (cache_wf_unique _ Hc) || done).
  case_decide as Hd; [by rewrite Hd, lookup_insert_eq|by rewrite lookup_insert_ne].
Qed.

Lemma sr_arpcache_lookup_insert_witness :
  ∃ r s', sr_arpcache_insert server2_mac server2_ip env_ok net1 = Ok (r, s') ∧
    sr_arpcache_lookup client_ip env_ok s' =
      Ok (if decide (client_ip = server2_ip) then Some (mk_entry server2_mac server2_ip 110 true)
          else arp_map (entries (cache net1)) !! client_ip, s').
Proof.
  apply (sr_arpcache_lookup_insert server2_mac server2_ip client_ip env_ok net1).
  - apply net1_wf.
  - apply env_ok_checked.
  - by apply mac_okb_ok.
  - by split.
  - right. by vm_compute; lia.
Defined.

(** The packets that wait for an address. *)
Definition waiting (c : sr_arpcache) (ip : Z) : list sr_packet :=
  match find_req ip (requests c) with
  | Some r => req_packets r
  | None => []
  end.

(** Queueing a packet puts a copy of it, with its interface's name, in
    front of the packets that wait for the address, and leaves what waits for
    other addresses and the cached mappings alone; a request is made when there
    was none, never a second one for the address. *)
Theorem sr_arpcache_queuereq_pending (ip : Z) (packet : buf) (len : Z) (iface : cstr)
    (e : env) (s : sr_instance)
    (Hc : cache_wf (cache s)) (Hmal : mallocs_checked e) (Hf : frame_ok packet len)
    (Hmin : (eth_size <= length packet)%nat) (Hi : name_ok iface) (Hip : is_u32 ip) :
  let p := mk_packet packet len (name_copy sr_IFACE_NAMELEN iface) in
  ∃ a s', sr_arpcache_queuereq ip (Some packet) len (Some iface) e s = Ok (a, s') ∧
    cache_wf (cache s') ∧ entries (cache s') = entries (cache s) ∧
    waiting (cache s') ip = p :: waiting (cache s) ip ∧
    (∀ ip', ip' ≠ ip → waiting (cache s') ip' = waiting (cache s) ip') ∧
    (∃ r, find_req ip (requests (cache s')) = Some r ∧ req_addr r = a).
Proof.
  cbv zeta. destruct (sr_arpcache_queuereq_run ip packet len iface e s) as (n & Hn & Hrun);
    [done|done|done|destruct Hf as (_ & <- & _); unfold eth_size in *; lia|by apply name_ok_cstr|].
  pose proof (waiting_pkt_wf packet len iface Hf Hmin Hi) as Hp.
  unfold name_copy in *. rewrite Hn in *. simpl default in *.
  set (p := mk_packet packet len n) in *.
  eexists _, _. split; [exact Hrun|]. split; [by apply queue_packet_wf|].
  unfold waiting, queue_packet, queue_addr, update_req. cbn [cache set_cache].
  destruct (find_req ip (requests (cache s))) as [r|] eqn:E; cbn [entries requests].
  - pose proof (find_req_some _ _ _ E) as [Hr Hrip].
    split; [done|]. split; [|split].
    + by rewrite (find_req_update _ _ _ _ _ E) by done; rewrite Nat.eqb_refl.
    + intros ip' Hne. destruct (find_req ip' (requests (cache s))) as [r'|] eqn:E'.
      * pose proof (find_req_some _ _ _ E') as [Hr' Hrip'].
        rewrite (find_req_update _ _ _ _ _ E') by done.
        destruct (Nat.eqb_spec (req_addr r') (req_addr r)) as [He|]; [|done].
        pose proof (req_at_elem _ _ r (cache_wf_req_addrs _ Hc) Hr eq_refl) as H1.
        pose proof (req_at_elem _ _ r' (cache_wf_req_addrs _ Hc) Hr' He) as H2. congruence.
      * by rewrite find_req_update_none.
    + eexists. rewrite (find_req_update _ _ _ _ _ E) by done.
      by rewrite Nat.eqb_refl.
  - split; [done|]. simpl. rewrite Z.eqb_refl. split; [done|]. split.
    + intros ip' Hne. by rewrite (proj2 (Z.eqb_neq ip ip')) by done.
    + eauto.
Qed.

Lemma sr_arpcache_queuereq_pending_witness :
  let p := mk_packet transit (Z.of_nat (length transit)) (name_copy sr_IFACE_NAMELEN eth2_name) in
  ∃ a s', sr_arpcache_queuereq server2_ip (Some transit) (Z.of_nat (length transit))
      (Some eth2_name) env_ok net2 = Ok (a, s') ∧
    cache_wf (cache s') ∧ entries (cache s') = entries cache2 ∧
    waiting (cache s') server2_ip = p :: waiting cache2 server2_ip ∧
    (∀ ip', ip' ≠ server2_ip → waiting (cache s') ip' = waiting cache2 ip') ∧
    (∃ r, find_req server2_ip (requests (cache s')) = Some r ∧ req_addr r = a).
Proof.
  apply (sr_arpcache_queuereq_pending server2_ip transit (Z.of_nat (length transit)) eth2_name
    env_ok net2); demo.
  - apply net2_wf.
  - by apply name_okb_ok; vm_compute.
  - by split.
Defined.

(** ** Interfaces *)

(** An interface added with a new name and then given its hardware and IP
    address is found by that name with exactly those values; the interfaces
    before it are found as before. *)
Theorem interface_added (name addr : buf) (ip : Z) (e : env) (s : sr_instance)
    (Hs : sr_wf s) (Hmal : malloc_ok e AllocInterface = true) (Hfresh : if_wf (fresh_if e))
    (Hn : name_ok name) (Ha : mac_ok addr) (Hip : is_u32 ip)
    (Hnew : named s name = None) :
  ∃ s' i, (sr_add_interface name;; sr_set_ether_addr addr;; sr_set_ether_ip ip) e s = Ok (tt, s') ∧
    sr_wf s' ∧
    sr_get_interface name e s' = Ok (Some i, s') ∧
    if_addr i = addr ∧ if_ip i = ip ∧
    (∀ other j, named s other = Some j → named s' other = Some j).
Proof.
  destruct (strncpy_spec sr_IFACE_NAMELEN name (name_ok_cstr _ Hn)) as (d & Hd & Hdl & Hdn).
  rewrite (bind_run _ _ _ _ _ _ (sr_add_interface_run name d e s Hmal Hd)).
  rewrite (bind_run _ _ _ _ _ _ (sr_set_ether_addr_run addr e
    (set_if_list (if_list s ++ [_]) s) (if_list s) _ eq_refl
    ltac:(rewrite (proj1 Ha); done))).
  erewrite sr_set_ether_ip_run by done. rewrite take_ge by (rewrite (proj1 Ha); done).
  cbn [if_name if_addr if_speed].
  set (i := mk_if d addr ip (if_speed (fresh_if e))).
  assert (sr_wf (set_if_list (if_list s ++ [i]) (set_if_list (if_list s ++
    [mk_if d addr (if_ip (fresh_if e)) (if_speed (fresh_if e))])
    (set_if_list (if_list s ++ [mk_if d (if_addr (fresh_if e)) (if_ip (fresh_if e))
      (if_speed (fresh_if e))]) s)))) as Hwf.
  { destruct Hs as [H1 H2 H3]. split; [|done|done]. simpl. apply Forall_app. split; [done|].
    constructor; [|done]. split; simpl; [|done|done].
    split; [done|]. eapply strncpy_bytes_ok; [exact Hd|apply Hn]. }
  eexists _, i. split; [done|]. split; [exact Hwf|]. split.
  - rewrite named_run by (done || by apply name_ok_cstr). unfold named. simpl.
    rewrite iface_named_snoc; [done|exact Hnew|exact Hdn].
  - split; [done|]. split; [done|]. intros other j Hj. unfold named in *. simpl.
    unfold iface_named in *. clear - Hj. induction (if_list s) as [|k l IH]; [done|].
    simpl in *. by destruct (bool_decide _); [|apply IH].
Qed.

Definition eth4_name : buf := if_name_of [101; 116; 104; 52].

Lemma interface_added_witness :
  ∃ s' i, (sr_add_interface eth4_name;; sr_set_ether_addr (router_mac 4);;
           sr_set_ether_ip (ip4 10 9 9 9)) env_ok net0 = Ok (tt, s') ∧
    sr_wf s' ∧
    sr_get_interface eth4_name env_ok s' = Ok (Some i, s') ∧
    if_addr i = router_mac 4 ∧ if_ip i = ip4 10 9 9 9 ∧
    (∀ other j, named net0 other = Some j → named s' other = Some j).
Proof.
  apply (interface_added eth4_name (router_mac 4) (ip4 10 9 9 9) env_ok net0); demo.
  - by apply if_okb_ok; vm_compute.
  - by apply name_okb_ok; vm_compute.
  - by apply mac_okb_ok.
  - by split.
Defined.

(** ** Sending *)

(** [sr_send_packet] writes one message whose header says its length and
    its type, names the interface, and is followed by the frame unchanged; the
    call returns 0.  A frame whose source address is not the interface's, or
    for an interface that does not exist, is only logged: the call returns -1
    and nothing is written.  (The name of an interface that does not exist is
    printed, and has to end.) *)
Theorem sr_send_packet_correct (b : buf) (len : Z) (iface : cstr) (e : env) (s : sr_instance)
    (Hs : sr_wf s) (Hf : frame_ok b len) (Hmin : (eth_size <= length b)%nat)
    (Hi : cstr_ok sr_IFACE_NAMELEN iface) (Hp : named s iface = None → 0 ∈ iface)
    (Hm : mallocs_checked e) (Hw : writes_ok e) :
  let honest := match named s iface with
                | Some i => bool_decide (getb 0 ether_shost b = if_addr i)
                | None => false
                end in
  ∃ s', sr_send_packet b len iface e s = Ok (if honest then 0 else -1, s') ∧
    same_core s s' ∧
    if honest then
      ∃ m, sent s' = sent s ++ [m] ∧ Z.of_nat (length m) = len + 24 ∧
        ntohl (get 0 mLen m) = len + 24 ∧ ntohl (get 0 mType m) = VNSPACKET ∧
        getb 0 mInterfaceName m = vns_name iface ∧ drop 24 m = b
    else sent s' = sent s.
Proof.
  cbv zeta.
  destruct (sr_send_packet_run b len iface e s Hs Hf Hmin Hi Hp) as (n & Hn & Hln & Hrun).
  { apply Hm. unfold unchecked_allocs. by repeat constructor. }
  assert (vns_name iface = n) as Hvn by (unfold vns_name; by rewrite Hn).
  pose proof (send_core e b iface s) as Hcore. unfold send in Hcore. rewrite Hvn in Hcore.
  exists (send_result e n b iface s).2. split; [|split; [done|]].
  - rewrite Hrun. unfold send_result. fold (named s iface).
    destruct (named s iface); [|done]. destruct (bool_decide _); [|done].
    by rewrite Hw, (proj2 (Z.ltb_ge _ _)) by lia.
  - unfold send_result. fold (named s iface).
    destruct (named s iface); [|apply log_frame_sent].
    destruct (bool_decide _); [|apply log_frame_sent]. cbn [snd].
    pose proof (length_vns_packet n b Hln) as Hl. destruct Hf as (_ & Hlen & Hmax).
    rewrite Hw, (proj2 (Z.ltb_lt _ _)), Nat2Z.id, firstn_all by lia.
    exists (vns_packet n b). rewrite log_frame_sent. split; [done|].
    unfold MAX_FRAME, VNS_NAMELEN in *. split; [lia|].
    assert (le_dec (le_enc 4 (htonl (len + 24))) = htonl (len + 24)) as E1
      by (apply le_dec_enc; apply ntohl_bound).
    unfold get, getb, vns_packet. rewrite Hlen. split; [|split; [done|split]].
    + pose proof (slice_seg 0 4 [] (le_enc 4 (htonl (len + 24)))
        (le_enc 4 (htonl VNSPACKET) ++ n ++ b) eq_refl eq_refl) as Hsl.
      cbn [app] in Hsl. cbn [f_off f_len mLen Nat.add]. rewrite Hsl, E1. unfold htonl.
      apply ntohl_involutive. unfold is_u32. lia.
    + rewrite Hvn, app_assoc. apply slice_seg; [done|]. done.
    + rewrite !app_assoc. apply drop_app_length'. len.
Qed.

Lemma sr_send_packet_correct_witness :
  ∃ s', sr_send_packet back (Z.of_nat (length back)) eth2_name env_ok net0 = Ok (-1, s') ∧
    same_core net0 s' ∧ sent s' = sent net0.
Proof.
  apply (sr_send_packet_correct back (Z.of_nat (length back)) eth2_name env_ok net0); [demo..|by vm_compute|demo|demo].
Defined.

(** ** The log *)

(** Frames logged one after the other, each in the environment of its time. *)
Fixpoint log_all (frames : list (env * buf)) (s : sr_instance) : res (unit * sr_instance) :=
  match frames with
  | [] => Ok (tt, s)
  | (e, b) :: frames' =>
      match sr_log_packet b (Z.of_nat (length b)) e s with
      | Ok (_, s') => log_all frames' s'
      | Fault f => Fault f
      end
  end.

(** What a reader of the log should find of a frame. *)
Definition logged (x : env * buf) : pcap_pkthdr * buf :=
  let '(e, b) := x in
  let n := Z.min 1024 (Z.of_nat (length b)) in
  (mk_pkthdr (timeofday e).1 (timeofday e).2 n n, take (Z.to_nat n) b).

(** The first 1024 bytes, counted either way. *)
Lemma take_min_length (n : Z) (b : buf) :
  0 ≤ n → take (Z.to_nat (Z.min n (Z.of_nat (length b)))) b = take (Z.to_nat n) b.
Proof.
  intros Hn. destruct (Z.le_ge_cases n (Z.of_nat (length b))).
  - by rewrite Z.min_l by lia.
  - rewrite Z.min_r by lia. rewrite !take_ge by lia. done.
Qed.

Lemma logged_whole frames :
  (logged <$> frames).*2 = frames.*2 ↔ Forall (λ x : env * buf, (length x.2 <= 1024)%nat) frames.
Proof.
  induction frames as [|[e b] frames IH]; [by split; [constructor|]|].
  rewrite !fmap_cons, list.Forall_cons, <- IH. cbn [logged snd].
  rewrite (take_min_length 1024) by lia. split.
  - intros [= H1 H2]. split; [|done]. rewrite <- H1, length_take. lia.
  - intros [H1 ->]. by rewrite take_ge by lia.
Qed.

(** C38: the log can be read back.  After frames are logged to an open log, each
    at its own time, a reader of the pcap records finds one record per frame, in
    order: the time it was logged, its first 1024 bytes, and their number in both
    length fields.  So the bytes of the frames come back whole exactly when none
    is longer than 1024. *)
Theorem log_round_trip (frames : list (env * buf)) (l : buf) (s : sr_instance)
    (Hlog : logfile s = Some l)
    (Hf : Forall (λ '(e, b), frame_ok b (Z.of_nat (length b)) ∧
            is_u32 (timeofday e).1 ∧ is_u32 (timeofday e).2) frames) :
  ∃ s' recs, log_all frames s = Ok (tt, s') ∧ logfile s' = Some (l ++ recs) ∧
    read_records (length frames) recs = Some (logged <$> frames) ∧
    ((logged <$> frames).*2 = frames.*2 ↔ Forall (λ x, (length x.2 <= 1024)%nat) frames).
Proof.
  enough (∃ s' recs, log_all frames s = Ok (tt, s') ∧ logfile s' = Some (l ++ recs) ∧
    read_records (length frames) recs = Some (logged <$> frames)) as (s' & recs & H1 & H2 & H3)
    by (exists s', recs; eauto using logged_whole).
  revert l s Hlog. induction Hf as [|[e b] frames (Hb & Ht1 & Ht2) Hf IH]; intros l s Hlog.
  { exists s, []. by rewrite app_nil_r. }
  cbn [log_all]. destruct Hb as (Hbytes & _ & Hmax).
  rewrite (sr_log_packet_run b _ e s eq_refl Hmax). unfold log_frame. rewrite Hlog.
  destruct (IH (l ++ log_record e b) (set_logfile (Some (l ++ log_record e b)) s) eq_refl)
    as (s' & recs & H1 & H2 & H3).
  exists s', (log_record e b ++ recs). split; [done|]. split; [by rewrite H2, app_assoc|].
  unfold log_record. rewrite <- app_assoc. simpl length. rewrite read_records_cons.
  - rewrite H3. cbn [fmap list_fmap logged]. do 3 f_equal. by rewrite (take_min_length 1024).
  - unfold pkthdr_ok, log_header, is_u32, PACKET_DUMP_SIZE in *. simpl. lia.
  - unfold log_header, PACKET_DUMP_SIZE. simpl. rewrite length_take. lia.
Qed.

(** The demonstration's frame, and one of 1100 bytes logged five seconds later. *)
Definition later : env := mk_env 115 (115, 7) (λ _, true) (λ n, n) eth1 dotted_text.
Definition demo_frames : list (env * buf) := [(env_ok, transit); (later, replicate 1100 5)].

Lemma log_round_trip_witness :
  ∃ s' recs, log_all demo_frames net0 = Ok (tt, s') ∧ logfile s' = Some ([] ++ recs) ∧
    read_records 2 recs = Some (logged <$> demo_frames) ∧
    ((logged <$> demo_frames).*2 = demo_frames.*2 ↔
     Forall (λ x, (length x.2 <= 1024)%nat) demo_frames).
Proof.
  apply (log_round_trip demo_frames [] net0).
  - reflexivity.
  - apply Forall_cons_2; [split; [demo|by split]|].
    apply Forall_cons_2; [split; [demo|by split]|apply Forall_nil_2].
Defined.
