(* ===== verification/SweepTheorems.v ===== *)
(** * What the timer guarantees

    The sweep over the pending requests ends and keeps the invariant; every
    request is sent again once a second, five times in all, and then given up;
    old mappings expire. *)

From stdpp Require Import gmap.
From S2P Require Import Sweep RouterTheorems.

(** ** The sweep as a whole *)

Lemma sweep_one_evolves e s a : evolves s (sweep_one e s a).
Proof.
  unfold sweep_one. destruct (req_at _ _) as [r|]; [|reflexivity].
  destruct (1 <=? _); [|reflexivity]. destruct (5 <=? _).
  - etransitivity; [|apply set_cache_evolves].
    generalize (req_packets r) s. induction l as [|p l IH]; intros s'; [reflexivity|]. simpl.
    transitivity (abandon e s' p); [apply icmp_error_evolves|apply IH].
  - destruct (req_packets r); [reflexivity|].
    etransitivity; [|apply set_cache_evolves]. apply arp_request_evolves.
Qed.

Lemma sweep_evolves e s : evolves s (sweep e s).
Proof.
  unfold sweep. generalize (addrs s) at 1. intros l. revert s.
  induction l as [|a l IH]; intros s; [reflexivity|]. simpl.
  transitivity (sweep_one e s a); [apply sweep_one_evolves|apply IH].
Qed.

(** The rounds for the requests [l], before those for the requests [rest]. *)
Lemma rounds e l rest s q (s' := foldl (sweep_one e) s l) :
  sr_wf s → mallocs_checked e → addrs s = q ++ l ++ rest →
  sr_wf s' ∧ (∃ q', addrs s' = q' ++ rest) ∧
  (∀ b, b ∉ l → keeps (now e) b s s') ∧ (∀ b, gone b s → gone b s').
Proof.
  subst s'. revert s q. induction l as [|a l IH]; intros s q Hs Hm Ha; simpl.
  { split; [done|]. split; [by exists q|]. by split. }
  assert (a ∈ addrs s) as Hin by (rewrite Ha; apply elem_of_app; right; left).
  destruct (sweep_one_run a e s Hs Hm Hin) as [_ Hwf].
  destruct (sweep_one_tail a e s q _ Hs Hm Ha) as [q' Ha'].
  destruct (IH _ q' Hwf Hm Ha') as (H1 & H2 & H3 & H4).
  split; [done|]. split; [done|]. split.
  - intros b [Hne Hb]%not_elem_of_cons. transitivity (sweep_one e s a); [|by apply H3].
    by apply sweep_one_keeps.
  - intros b Hb. apply H4. by apply sweep_one_gone.
Qed.

(** The sweep seen from one request: the rounds before its own keep it, and
    those after it do not touch it. *)
Lemma sweep_around e s r (a := req_addr r) :
  sr_wf s → mallocs_checked e → r ∈ requests (cache s) →
  ∃ s1 r1, sr_wf s1 ∧ req_at a (requests (cache s1)) = Some r1 ∧ older (now e) r r1 ∧
    keeps (now e) a (sweep_one e s1 a) (sweep e s) ∧
    (gone a (sweep_one e s1 a) → gone a (sweep e s)).
Proof.
  intros Hs Hm Hin. pose proof (cache_wf_req_addrs _ (sr_wf_cache _ Hs)) as Hnd.
  pose proof (req_at_elem _ _ r Hnd Hin eq_refl) as Hr. fold a in Hr.
  assert (a ∈ addrs s) as Ha by by apply list_elem_of_fmap_2.
  apply list_elem_of_split in Ha as (pre & post & Ha). fold (addrs s) in Hnd.
  unfold sweep. rewrite Ha in Hnd |- *.
  apply list.NoDup_app in Hnd as (_ & Hdisj & [Hpost _]%list.NoDup_cons).
  destruct (rounds e pre (a :: post) s [] Hs Hm Ha) as (Hs1 & (q & Hq) & Hk & _).
  set (s1 := foldl (sweep_one e) s pre) in *.
  destruct (Hk a) with r as (r1 & Hr1 & Ho); [|done|].
  { intros Hpre. apply (Hdisj a Hpre). left. }
  assert (a ∈ addrs s1) as Hin1 by (rewrite Hq; apply elem_of_app; right; left).
  destruct (sweep_one_run a e s1 Hs1 Hm Hin1) as [_ Hs2].
  destruct (sweep_one_tail a e s1 q post Hs1 Hm Hq) as [q' Hq'].
  rewrite <- (app_nil_r post) in Hq' at 1.
  destruct (rounds e post [] _ q' Hs2 Hm Hq') as (_ & _ & Hk2 & Hg2).
  exists s1, r1. rewrite foldl_app. simpl. fold s1. auto 10.
Qed.

(** C13: the sweep ends within as many rounds as there are requests (its loop
    never runs out of fuel), never faults, although it calls back into the
    router and the requests' list changes under it, does exactly what [sweep]
    says, and keeps the invariant: no request is ever sent more than five
    times. *)
Theorem sr_arpcache_sweepreqs_correct (e : env) (s : sr_instance)
    (Hs : sr_wf s) (Hm : mallocs_checked e) :
  sr_arpcache_sweepreqs e s = Ok (tt, sweep e s) ∧ sr_wf (sweep e s) ∧ evolves s (sweep e s).
Proof.
  destruct (sweep_run e s Hs Hm) as [Hrun Hwf].
  split; [done|]. split; [done|apply sweep_evolves].
Qed.

Lemma sr_arpcache_sweepreqs_correct_witness :
  sr_arpcache_sweepreqs env_ok net2 = Ok (tt, sweep env_ok net2) ∧
  sr_wf (sweep env_ok net2) ∧ evolves net2 (sweep env_ok net2).
Proof. apply (sr_arpcache_sweepreqs_correct env_ok net2); demo. Defined.

(** ** The fate of a request *)

Lemma older_times t r r' :
  older t r r' → req_times_sent r ≠ 0 →
  req_sent r' = req_sent r ∧ req_times_sent r' = req_times_sent r.
Proof. intros [_ _ H _ _ _]. apply H. Qed.

(** A request that was sent fewer than five times, at least a second ago,
    is sent again: after the sweep it is on the queue with its clock set to now
    and its count one higher, and the packets that waited still wait (others
    may have joined them). *)
Theorem sweep_resends (e : env) (s : sr_instance) (r : sr_arpreq)
    (Hs : sr_wf s) (Hm : mallocs_checked e) (Hin : r ∈ requests (cache s))
    (Hdue : 1 ≤ now e - req_sent r) (Hsent : 1 ≤ req_times_sent r < 5) :
  ∃ s' r' extra, sr_arpcache_sweepreqs e s = Ok (tt, s') ∧
    req_at (req_addr r) (requests (cache s')) = Some r' ∧
    req_ip r' = req_ip r ∧ req_sent r' = now e ∧ req_times_sent r' = req_times_sent r + 1 ∧
    req_packets r' = extra ++ req_packets r.
Proof.
  destruct (sweep_around e s r Hs Hm Hin) as (s1 & r1 & Hs1 & Hr1 & Ho & Hk & _).
  destruct (older_times _ _ _ Ho) as [Hc1 Hc2]; [lia|].
  pose proof (sweep_one_resends _ r1 e s1 Hs1 Hr1 ltac:(lia) ltac:(lia)) as Hr2.
  destruct (Hk _ Hr2) as (r' & Hr' & Ho').
  assert (req_times_sent (mark_sent (now e) r1) = req_times_sent r + 1) as Ht.
  { simpl. rewrite u32_small by (unfold is_u32; lia). lia. }
  destruct (older_times _ _ _ Ho') as [Hc3 Hc4]; [lia|].
  destruct (older_packets _ _ _ Ho) as [x1 Hx1]. destruct (older_packets _ _ _ Ho') as [x2 Hx2].
  exists (sweep e s), r', (x2 ++ x1). split; [by apply sweep_run|]. split; [done|].
  split; [rewrite (older_ip _ _ _ Ho'); apply (older_ip _ _ _ Ho)|].
  split; [done|]. split; [congruence|]. rewrite Hx2. simpl. by rewrite Hx1, app_assoc.
Qed.

(** A request that was sent five times, the last time at least a second
    ago, is given up: it is off the queue after the sweep and its address is
    not used again. *)
Theorem sweep_gives_up (e : env) (s : sr_instance) (r : sr_arpreq)
    (Hs : sr_wf s) (Hm : mallocs_checked e) (Hin : r ∈ requests (cache s))
    (Hdue : 1 ≤ now e - req_sent r) (Hsent : req_times_sent r = 5) :
  ∃ s', sr_arpcache_sweepreqs e s = Ok (tt, s') ∧ gone (req_addr r) s'.
Proof.
  destruct (sweep_around e s r Hs Hm Hin) as (s1 & r1 & Hs1 & Hr1 & Ho & _ & Hg).
  destruct (older_times _ _ _ Ho) as [Hc1 Hc2]; [lia|].
  exists (sweep e s). split; [by apply sweep_run|]. apply Hg.
  apply sweep_one_destroys with r1; [done..|lia|lia].
Qed.

(** One request that was sent [n] times, and one packet behind it. *)
Definition net_asked (n t : Z) (p : sr_packet) : sr_instance :=
  net_with (mk_cache (insert_entries (entries cache0) client_mac client_ip 100)
              [mk_req 0 server2_ip t n [p]] 1).

Lemma net_asked_wf n t p : 0 ≤ n ≤ 5 → pkt_wf p → sr_wf (net_asked n t p).
Proof.
  intros Hn Hp. apply net_with_wf.
  apply (insert_wf (mk_cache (entries cache0) [] 1)); [apply init_cache_wf|by apply mac_okb_ok|by split|].
  destruct (init_cache_wf 1) as [H1 H2 H3 _ _ _ _]. constructor; try done; simpl.
  - constructor; [|done]. constructor; simpl; [by split|done|by constructor|done].
  - apply NoDup_singleton.
  - apply NoDup_singleton.
  - constructor; [simpl; lia|done].
Qed.

Lemma parked_request_in n : mk_req 0 server2_ip 100 n [parked] ∈ requests (cache (net_asked n 100 parked)).
Proof. left. Qed.

Lemma sweep_resends_witness :
  ∃ s' r' extra, sr_arpcache_sweepreqs env_ok (net_asked 1 100 parked) = Ok (tt, s') ∧
    req_at 0 (requests (cache s')) = Some r' ∧
    req_ip r' = server2_ip ∧ req_sent r' = 110 ∧ req_times_sent r' = 1 + 1 ∧
    req_packets r' = extra ++ [parked].
Proof.
  apply (sweep_resends env_ok (net_asked 1 100 parked) (mk_req 0 server2_ip 100 1 [parked])).
  - apply net_asked_wf; [lia|apply parked_wf].
  - demo.
  - apply parked_request_in.
  - demo.
  - simpl. lia.
Defined.

Lemma sweep_gives_up_witness :
  ∃ s', sr_arpcache_sweepreqs env_ok (net_asked 5 100 parked) = Ok (tt, s') ∧ gone 0 s'.
Proof.
  apply (sweep_gives_up env_ok (net_asked 5 100 parked) (mk_req 0 server2_ip 100 5 [parked])).
  - apply net_asked_wf; [lia|apply parked_wf].
  - demo.
  - apply parked_request_in.
  - demo.
  - reflexivity.
Defined.

(** ** Host unreachable *)

(** C33: when the only pending request is given up, the sender of the packet
    behind it is told: the one frame that leaves is an ICMP host-unreachable
    error (3/1) about the queued packet, and the queue is empty afterwards. *)
Theorem sweep_host_unreachable (e : env) (s : sr_instance) (r : sr_arpreq) (p : sr_packet)
    (out via : sr_if) (mac : buf)
    (Hs : sr_wf s) (Hm : mallocs_checked e)
    (Hr : requests (cache s) = [r]) (Hp : req_packets r = [p])
    (Hdue : 1 ≤ now e - req_sent r) (Hsent : req_times_sent r = 5)
    (Hv : valid_ip (pkt_buf p) = true) (Ha : can_answer e s (pkt_buf p) out via mac) :
  ∃ s', sr_arpcache_sweepreqs e s = Ok (tt, s') ∧
    sent s' = sent s ++ [vns_packet (vns_name (if_name via))
      (readdress mac (if_addr via) (icmp_error_frame out (pkt_buf p) 3 1))] ∧
    requests (cache s') = [] ∧ entries (cache s') = entries (cache s).
Proof.
  exists (sweep e s). split; [by apply sweep_run|].
  assert (r ∈ requests (cache s)) as Hin by (rewrite Hr; left).
  assert (bytes_ok (pkt_buf p)) as Hb.
  { pose proof (req_wf_packets _ (sr_wf_requests _ _ Hs Hin)) as Hf. rewrite Hp in Hf.
    by apply Forall_inv in Hf as []. }
  unfold sweep, addrs. rewrite Hr. simpl. unfold sweep_one. rewrite Hr. simpl.
  rewrite Nat.eqb_refl, Hp, Hsent, (proj2 (Z.leb_le _ _)) by done.
  change (5 <=? 5) with true. cbv iota. simpl. unfold abandon.
  rewrite (icmp_error_emit _ _ _ _ _ out via mac) by (done || by split).
  rewrite (same_cache _ _ (emit_core _ _ _ _)). split; [by destruct (logfile s)|].
  rewrite Hr, filter_cons, decide_False by tauto. done.
Qed.

(** The queued packet is a valid one of the client. *)
Definition parked_transit : sr_packet :=
  mk_packet (waiting_frame transit eth2) (Z.of_nat (length transit)) eth2_name.

Lemma parked_transit_wf : pkt_wf parked_transit.
Proof.
  constructor; [demo_bytes|by vm_compute|by vm_compute|apply Nat.leb_le; by vm_compute|].
  by apply name_okb_ok; vm_compute.
Qed.

Lemma sweep_host_unreachable_witness :
  ∃ s', sr_arpcache_sweepreqs env_ok (net_asked 5 100 parked_transit) = Ok (tt, s') ∧
    sent s' = [vns_packet (vns_name eth3_name)
      (readdress client_mac (router_mac 3)
         (icmp_error_frame eth2 (pkt_buf parked_transit) 3 1))] ∧
    requests (cache s') = [] ∧
    entries (cache s') = entries (cache (net_asked 5 100 parked_transit)).
Proof.
  apply (sweep_host_unreachable env_ok (net_asked 5 100 parked_transit)
    (mk_req 0 server2_ip 100 5 [parked_transit]) parked_transit eth2 eth3 client_mac).
  - apply net_asked_wf; [lia|apply parked_transit_wf].
  - demo.
  - reflexivity.
  - reflexivity.
  - demo.
  - reflexivity.
  - demo.
  - split; [apply env_ok_writes|done|by vm_compute|].
    eexists _, _. by vm_compute.
Defined.

(** ** Expiry *)

Lemma sweep_one_entries e s a :
  sr_wf s → mallocs_checked e → entries (cache (sweep_one e s a)) = entries (cache s).
Proof.
  intros Hs Hm. unfold sweep_one. destruct (req_at a _) as [r|] eqn:Hr; [|done].
  destruct (1 <=? _); [|done]. pose proof (req_at_some _ _ _ Hr) as [Hin _].
  destruct (5 <=? _).
  - destruct (give_up_all_run (req_packets r) e s Hs Hm
      (req_wf_packets _ (sr_wf_requests _ _ Hs Hin))) as (_ & _ & Hg).
    simpl. apply (grows_entries _ _ _ Hg).
  - destruct (req_packets r); [done|]. cbn [cache set_cache]. by rewrite arp_request_cache.
Qed.

Lemma rounds_entries e l s q :
  sr_wf s → mallocs_checked e → addrs s = q ++ l →
  entries (cache (foldl (sweep_one e) s l)) = entries (cache s).
Proof.
  revert s q. induction l as [|a l IH]; intros s q Hs Hm Ha; [done|]. simpl.
  destruct (sweep_one_run a e s Hs Hm) as [_ Hwf].
  { rewrite Ha. apply elem_of_app. right. by left. }
  destruct (sweep_one_tail a e s q _ Hs Hm Ha) as [q' Ha'].
  by rewrite (IH _ q'), sweep_one_entries.
Qed.

(** C34: one round of the timer never faults and keeps the invariant; the
    mappings left are exactly those that are at most 15 seconds old. *)
Theorem timeout_tick_expires (e : env) (s : sr_instance)
    (Hs : sr_wf s) (Hm : mallocs_checked e) :
  ∃ s', timeout_tick e s = Ok (tt, s') ∧ sr_wf s' ∧
    ∀ ip x, arp_map (entries (cache s')) !! ip = Some x ↔
      arp_map (entries (cache s)) !! ip = Some x ∧ now e - ent_added x ≤ SR_ARPCACHE_TO.
Proof.
  destruct (tick_run e s Hs Hm) as [Hrun Hwf]. exists (tick e s).
  split; [done|]. split; [done|]. intros ip x.
  pose proof (expire_wf (now e) _ (sr_wf_cache _ Hs)) as Hx.
  unfold tick, sweep. rewrite (rounds_entries e _ _ []); [|by apply set_cache_wf|done|done].
  simpl. rewrite !arp_map_lookup
    by (exact (cache_wf_unique _ Hx) || exact (cache_wf_unique _ (sr_wf_cache _ Hs))).
  unfold valid_at. split.
  - intros (i & Hi & Hv & Hip). apply list_lookup_fmap_Some in Hi as (y & -> & Hi).
    unfold expire in *. destruct (ent_valid y && _) eqn:E; [done|].
    rewrite Hv in E. cbn [andb] in E. bools. split; [|done]. by exists i.
  - intros [(i & Hi & Hv & Hip) Hage]. exists i. rewrite list_lookup_fmap, Hi. simpl.
    unfold expire. rewrite Hv, (proj2 (Z.ltb_ge _ _)) by done. done.
Qed.

Lemma timeout_tick_expires_witness :
  ∃ s', timeout_tick env_ok net1 = Ok (tt, s') ∧ sr_wf s' ∧
    ∀ ip x, arp_map (entries (cache s')) !! ip = Some x ↔
      arp_map (entries (cache net1)) !! ip = Some x ∧ 110 - ent_added x ≤ SR_ARPCACHE_TO.
Proof. apply (timeout_tick_expires env_ok net1); demo. Defined.
