(* ===== verification/SessionTheorems.v ===== *)
(** * Properties of the session with the server

    Reading commands, their effect, the handshake, the files and the hash; each
    theorem is followed by its application to concrete bytes. *)

From S2P Require Import Handshake Demo.

(** However the bytes of a session arrive, in pieces and with interruptions,
    the main loop takes the server's packet commands one after the other: it
    returns at the server's farewell, has read exactly up to it, and the router
    is in the state that the frames, handled in order, lead to; the state is
    well-formed and every message sent is honest about its interface. *)
Theorem session_delivers (ps : list (buf * buf)) (last rest : buf) (e : venv) (fuel : nat)
    (s : vns)
    (He : session_ok e) (Hs : sr_wf (router s)) (Hps : packets_ok (router s) ps)
    (Hlast : close_message last) (Hin : incoming s = stream ps ++ last ++ rest)
    (Hno : no_failure (answers s))
    (Hsup : (length (stream ps ++ last) <= supply (answers s))%nat)
    (Hfuel : (length ps < fuel)%nat) :
  ∃ s', main_loop fuel e s = Ok (tt, s') ∧ incoming s' = rest ∧
    router s' = deliver_all e (S (turn s)) ps (router s) ∧
    sr_wf (router s') ∧ evolves (router s) (router s').
Proof. by apply main_loop_run with last. Qed.

(** A session with two packet commands, its bytes in pieces of three between
    interruptions. *)
Definition eth3_name16 : buf := take 16 eth3_name.

Definition demo_packets : list (buf * buf) := [(eth3_name16, transit); (eth3_name16, arp_query)].

(** [VNSCLOSE] with the reason [Bye]. *)
Definition demo_close : buf :=
  le_enc 4 (htonl 12) ++ le_enc 4 (htonl VNSCLOSE) ++ [66; 121; 101; 0].

Definition venv_ok : venv := mk_venv (λ _, env_ok) (λ _, true) true true true None.

Definition demo_vns (i : buf) : vns :=
  mk_vns net1 i (concat (replicate 200 [Interrupted; Gives 3])) ∅ false 0.

Lemma venv_session : session_ok venv_ok.
Proof. intros t. split; [apply env_ok_checked|done]. Qed.

Lemma no_failure_dec l : forallb (λ a, match a with Failed => false | _ => true end) l = true → no_failure l.
Proof.
  unfold no_failure. induction l as [|a l IH]; [intros _ ?%elem_of_nil; done|].
  simpl. intros [Ha Hl]%andb_prop Hin. apply elem_of_cons in Hin as [<-|Hin]; [done|].
  by apply IH.
Qed.

Lemma demo_packets_ok : packets_ok net1 demo_packets.
Proof.
  assert (∀ f, bytes_okb f = true → Z.of_nat (length f) ≤ 9976 →
    packet_message net1 eth3_name16 f) as H.
  { intros f Hf Hl. split.
    - split; [done|]. split; [by apply bytes_okb_ok|]. by apply list_elem_of_In; vm_compute; auto 20.
    - split; [by apply bytes_okb_ok|]. lia.
    - intros _. exists eth3. reflexivity. }
  apply Forall_cons_2; [by apply H|]. apply Forall_cons_2; [by apply H|]. by apply Forall_nil_2.
Qed.

Lemma demo_close_ok : close_message demo_close.
Proof.
  split; [split; [by apply bytes_okb_ok|by apply Nat.leb_le|by apply Z.leb_le|done]|]. split; [done|].
  apply list_elem_of_In. vm_compute. auto 20.
Qed.

Lemma session_delivers_witness :
  ∃ s', main_loop 3 venv_ok (demo_vns (stream demo_packets ++ demo_close ++ [1; 2])) = Ok (tt, s') ∧
    incoming s' = [1; 2] ∧
    router s' = deliver_all venv_ok 1 demo_packets net1 ∧
    sr_wf (router s') ∧ evolves net1 (router s').
Proof.
  apply (session_delivers demo_packets demo_close [1; 2] venv_ok 3
    (demo_vns (stream demo_packets ++ demo_close ++ [1; 2]))).
  - apply venv_session.
  - apply net1_wf.
  - apply demo_packets_ok.
  - apply demo_close_ok.
  - done.
  - by apply no_failure_dec.
  - apply Nat.leb_le. by vm_compute.
  - cbn. lia.
Defined.

(** C39: a read that the server cuts off in the middle of a command (or before
    it) never returns, whatever the socket answers: at the end of the stream
    [recv] and [read] give zero bytes, which the loops do not take for an end. *)
Theorem truncated_command_stalls (expected_cmd : Z) (m : buf) (k : nat) (e : venv) (s : vns)
    (Hm : message m) (Hk : (k < length m)%nat) (Hin : incoming s = take k m)
    (Hno : no_failure (answers s))
    (Hmal : malloc_ok (base e (S (turn s))) AllocCommand = true) :
  sr_read_from_server_expect expected_cmd e s = Fault Blocked.
Proof.
  pose proof (message_min _ Hm) as Hmin.
  assert (length (incoming s) = k) as Hil by (rewrite Hin, length_take; lia).
  destruct (recv_loop_total (S (length (answers s))) 0 4 0 (replicate 4 0) e (next_turn s))
    as [[Hbl _]|(l1 & H1 & Hn1 & _ & H4)]; cbn [answers incoming next_turn] in *;
    try done; try lia.
  { unfold sr_read_from_server_expect. apply bind_fault. unfold read_command, recv_fuel.
    rewrite (bind_run _ _ e s tt (next_turn s)) by done.
    rewrite (bind_run _ _ e (next_turn s) (S (length (answers s))) (next_turn s)) by done.
    by rewrite (bind_fault _ _ _ _ _ Hbl). }
  pose proof Hm as [_ _ Hmax Hlen].
  unfold sr_read_from_server_expect. apply bind_fault.
  rewrite (read_length_run (Z.of_nat (length m)) _ e s) with (3 := H1); [|lia|].
  2:{ rewrite Hin, <- Hlen, take_take. by replace (4 `min` k)%nat with 4%nat by lia. }
  rewrite after_length_message by done.
  destruct (read_body_run m e
    (set_input (drop (4 - 0) (incoming s)) l1 (next_turn s)) Hm Hn1 Hmal)
    as [[Hbl _]|(Hrest & _)]; [done|].
  cbn [incoming set_input] in Hrest. rewrite length_drop, Hil in Hrest. lia.
Qed.

Lemma truncated_command_stalls_witness :
  sr_read_from_server_expect 0 venv_ok (demo_vns (take 6 demo_close)) = Fault Blocked.
Proof.
  apply (truncated_command_stalls 0 demo_close 6 venv_ok (demo_vns (take 6 demo_close))).
  - apply demo_close_ok.
  - by apply Nat.ltb_lt.
  - done.
  - by apply no_failure_dec.
  - done.
Defined.

(** A command that claims more than 10000 bytes, or a length that is
    negative as an [int], is refused before anything but its length is read: the
    socket is closed, -1 is returned, and the router is as it was. *)
Theorem oversized_command_refused (expected_cmd n : Z) (rest : buf) (e : venv) (s : vns)
    (Hn : 10000 < n < 2 ^ 32) (Hin : incoming s = le_enc 4 (htonl n) ++ rest)
    (Hno : no_failure (answers s)) (Hsup : (4 <= supply (answers s))%nat) :
  ∃ l, sr_read_from_server_expect expected_cmd e s =
    Ok (-1, set_closed (set_input rest l (next_turn s))).
Proof.
  destruct (read_length_bytes n rest e s) as (l & Hl & _ & Hrun); try done; [lia|].
  exists l. unfold sr_read_from_server_expect, mbind, M_bind. rewrite Hrun. unfold after_length, i32.
  destruct (Z.ltb_spec n (2 ^ 31)) as [Hs|Hs].
  - by rewrite (proj2 (Z.ltb_lt 10000 n)) by lia.
  - by rewrite (proj2 (Z.ltb_lt (n - 2 ^ 32) 0)), orb_true_r by lia.
Qed.

Lemma oversized_command_refused_witness :
  ∃ l, sr_read_from_server_expect 0 venv_ok (demo_vns (le_enc 4 (htonl 10001) ++ [7; 7])) =
    Ok (-1, set_closed (set_input [7; 7] l (next_turn (demo_vns
      (le_enc 4 (htonl 10001) ++ [7; 7]))))).
Proof.
  apply (oversized_command_refused 0 10001 [7; 7] venv_ok
    (demo_vns (le_enc 4 (htonl 10001) ++ [7; 7]))); [lia|done|by apply no_failure_dec|].
  apply Nat.leb_le. by vm_compute.
Defined.

(** A command that claims fewer than four bytes makes the code write its length
    behind the end of the buffer it allocated. *)
Lemma short_command_overruns expected_cmd n rest e s :
  0 ≤ n < 4 → incoming s = le_enc 4 (htonl n) ++ rest → no_failure (answers s) →
  (4 <= supply (answers s))%nat → malloc_ok (base e (S (turn s))) AllocCommand = true →
  sr_read_from_server_expect expected_cmd e s = Fault (Undefined OutOfBounds).
Proof.
  intros Hn Hin Hno Hsup Hmal.
  destruct (read_length_bytes n rest e s) as (l & Hl & _ & Hrun); try done; [lia|].
  unfold sr_read_from_server_expect. apply bind_fault. rewrite Hrun. unfold after_length, i32. rewrite (proj2 (Z.ltb_lt n (2 ^ 31))) by lia.
  rewrite (proj2 (Z.ltb_ge 10000 n)), (proj2 (Z.ltb_ge n 0)) by lia. cbn [orb].
  unfold read_body. set (s1 := set_input rest l (next_turn s)).
  rewrite (bind_run _ _ e s1 true s1).
  2:{ unfold on_sr, malloc, ask, mbind, M_bind, mret, M_ret. cbn. by rewrite Hmal. }
  cbn [negb]. unfold store. rewrite length_replicate.
  by rewrite (proj2 (Nat.leb_gt _ _)) by lia.
Qed.

(** A packet for an interface the router does not have stops the program. *)
Lemma unknown_interface_aborts b e s :
  sr_wf s → cstr_ok sr_IFACE_NAMELEN (vns_interface b) →
  (66 <= length b)%nat → Z.of_nat (length b) ≤ 10000 → named s (vns_interface b) = None →
  handle_vnspacket (Z.of_nat (length b)) b e s = Fault AssertFailed.
Proof.
  intros Hs Hi Hmin Hmax Hnone. unfold handle_vnspacket.
  assert (vns_frame_len (Z.of_nat (length b)) = Z.of_nat (length b) - 24) as ->.
  { unfold vns_frame_len, c_packet_ethernet_header_size, eth_size.
    rewrite u32_small; unfold is_u32; lia. }
  apply bind_fault. unfold sr_arp_req_not_for_us.
  rewrite (bind_run _ _ _ _ _ _ (named_run _ e s Hs Hi)), Hnone.
  by rewrite (proj2 (Z.ltb_ge _ _)) by (unfold eth_size, arp_size; lia).
Qed.

(** ** Hardware information *)

(** C31: the hardware information configures the router: the entries, in order,
    append the named interfaces and give the last one its addresses; the command
    is accepted (1) exactly when there are interfaces and routes and every
    route's interface exists, and refused (-1) otherwise; either way the state
    is well-formed. *)
Theorem hwinfo_configures (es : list hw_entry) (e : venv) (s : vns)
    (Hs : sr_wf (router s)) (Hok : hw_ok (bool_decide (if_list (router s) ≠ [])) es)
    (Hmax : Z.of_nat (length es) ≤ 256)
    (Hfresh : if_wf (fresh_if (base e (turn s))))
    (Hmal : malloc_ok (base e (turn s)) AllocInterface = true)
    (Hnamed : Forall if_named (if_list (router s))) :
  let m := hwinfo_message es in
  let r := set_if_list (foldl (hw_apply (base e (turn s))) (if_list (router s)) es) (router s) in
  sr_wf r ∧
  dispatch 0 (Z.of_nat (length m)) m e s =
    Ok (if bool_decide (if_list r ≠ [] ∧ routing_table r ≠ [] ∧ orphans r = []) then 1 else -1,
        set_router r s).
Proof. by apply hwinfo_command_run. Qed.

(** ** Opening the session *)

(** C29: on a connection the client first waits for the challenge, answers it
    with its name and the standard SHA-1 digest of the salt and the key (the
    first 64 characters of its file), and, once the verdict is in its favour,
    opens the session and returns 0; refused, it returns -1.  Exactly these
    messages are sent, the second one only when the verdict is in its favour,
    however the server's bytes arrive, and the tables of the router are
    untouched. *)
Theorem session_opened (salt key name text rest : buf) (verdict : Z) (e : venv) (s : vns)
    (He : session_ok e) (Hw : ∀ t, writes_ok (base e t))
    (Hmal : ∀ t, malloc_ok (base e t) AllocAuthReply = true)
    (Hnet : host_found e = true ∧ socket_ok e = true ∧ connect_ok e = true)
    (Hsalt : bytes_ok salt) (Hmax : Z.of_nat (length salt) ≤ 9992)
    (Hopen : fopen_ok e auth_key_file = true) (Hdisk : disk s !! auth_key_file = Some key)
    (Hkey : bytes_ok key) (Hlen : (AUTH_KEY_LEN <= length key)%nat)
    (Hline : Forall (λ c, c ≠ 10) (take AUTH_KEY_LEN key))
    (Hname : c_str (user (router s)) = Some name) (Hnl : Z.of_nat (length name) < 32)
    (Hhost : cstr_ok IDSIZE (host (router s))) (Huser : cstr_ok IDSIZE (user (router s)))
    (Htempl : c_str (template (router s)) = Some [])
    (Hv : is_u8 verdict) (Hreason : verdict ≠ 0 ∨ 0 ∈ text) (Htext : bytes_ok text)
    (Htmax : Z.of_nat (length text) ≤ 9991)
    (Hin : incoming s = auth_challenge salt ++ auth_status verdict text ++ rest)
    (Hno : no_failure (answers s))
    (Hsup : (length (auth_challenge salt ++ auth_status verdict text) <= supply (answers s))%nat) :
  ∃ s', sr_connect_to_server e s = Ok (if verdict =? 0 then -1 else 0, s') ∧ incoming s' = rest ∧
    same_core (router s) (router s') ∧
    sent (router s') = sent (router s) ++
      [auth_reply name salt (take AUTH_KEY_LEN key)] ++
      (if verdict =? 0 then [] else [open_bytes (router s)]).
Proof.
  destruct (Z.eqb_spec verdict 0) as [->|Hv0].
  - destruct (authenticate_run salt key name text rest 0 e s) as (l & _ & _ & ->); try done.
    eexists. split; [reflexivity|]. split; [done|]. by split.
  - destruct (connect_run salt key name text rest verdict e s) as (l & _ & _ & ->); try done.
    eexists. split; [reflexivity|]. split; [done|]. by split.
Qed.

(** ** The routing table's file *)

(** Loading a file of routes, one per line, puts exactly the routes of the
    lines, in order, in place of the router's table, and changes nothing else;
    the parsing of addresses is the C library's. *)
Theorem routes_round_trip (inet_aton : list Z → option Z) (fn : list Z) (ts : list rt_text)
    (rs : list sr_rt) (e : venv) (s : vns)
    (Hts : Forall text_ok ts) (Hne : ts ≠ []) (Hrs : Forall2 (text_route inet_aton) ts rs)
    (Hopen : fopen_ok e fn = true) (Hdisk : disk s !! fn = Some (concat (text_line <$> ts)))
    (Hmal : malloc_ok (base e (turn s)) AllocRoute = true) :
  sr_load_rt inet_aton fn e s = Ok (0, set_router (set_routing_table rs (router s)) s).
Proof.
  rewrite (sr_load_rt_run inet_aton e fn ts rs s) by done. by destruct Hrs.
Qed.

(** C32: a session on a template.  The client answers the challenge, asks for
    the template, stores the table that the server sends in the file
    [rtable.<name>], and has read exactly up to its end; loading that file then
    puts exactly the routes that the server wrote, in order, in place of the
    router's table. *)
Theorem template_session (inet_aton : list Z → option Z)
    (salt key name text tname vhost rest : buf) (verdict : Z) (ts : list rt_text)
    (rs : list sr_rt) (e : venv) (s : vns) (table := concat (text_line <$> ts))
    (He : session_ok e) (Hw : ∀ t, writes_ok (base e t))
    (Hmal : ∀ t a, malloc_ok (base e t) a = true)
    (Hnet : host_found e = true ∧ socket_ok e = true ∧ connect_ok e = true)
    (Hfiles : ∀ fn, fopen_ok e fn = true)
    (Hsalt : bytes_ok salt ∧ Z.of_nat (length salt) ≤ 9992)
    (Hdisk : disk s !! auth_key_file = Some key)
    (Hkey : bytes_ok key ∧ (AUTH_KEY_LEN <= length key)%nat ∧
            Forall (λ c, c ≠ 10) (take AUTH_KEY_LEN key))
    (Hname : c_str (user (router s)) = Some name ∧ Z.of_nat (length name) < 32)
    (Htempl : c_str (template (router s)) = Some tname ∧ tname ≠ [] ∧
              cstr_ok 30 (template (router s)))
    (Hhost : cstr_ok IDSIZE (host (router s)))
    (Hv : is_u8 verdict ∧ verdict ≠ 0) (Htext : bytes_ok text ∧ Z.of_nat (length text) ≤ 9991)
    (Hvhost : vhost_ok vhost) (Htable : bytes_ok table ∧ Z.of_nat (length table) ≤ 9960)
    (Hts : Forall text_ok ts) (Hne : ts ≠ []) (Hrs : Forall2 (text_route inet_aton) ts rs)
    (Hin : incoming s = auth_challenge salt ++ auth_status verdict text ++
                        rtable_message vhost table ++ rest)
    (Hno : no_failure (answers s))
    (Hsup : (length (auth_challenge salt ++ auth_status verdict text) +
             length (rtable_message vhost table) <= supply (answers s))%nat) :
  ∃ s', sr_connect_to_server e s = Ok (0, s') ∧ incoming s' = rest ∧
    same_core (router s) (router s') ∧
    sent (router s') = sent (router s) ++
      [auth_reply name salt (take AUTH_KEY_LEN key); open_template_bytes (router s)] ∧
    sr_load_rt inet_aton (rtable_prefix ++ vhost) e s' =
      Ok (0, set_router (set_routing_table rs (router s')) s').
Proof.
  destruct Hkey as (K1 & K2 & K3), Hname as [N1 N2], Htempl as (T1 & T2 & T3).
  destruct Hsalt as [S1 S2], Htext as [X1 X2], Htable as [B1 B2].
  destruct (connect_template_run salt key name text (rtable_message vhost table ++ rest) verdict
    e s He Hw (λ t, Hmal t _) Hnet S1 S2 (Hfiles _) Hdisk K1 K2 K3 N1 N2 (proj1 Hv)
    (or_introl (proj2 Hv)) X1 X2 Hin Hno ltac:(lia) tname vhost table rest (proj2 Hv) T1 T2 T3 Hhost Hvhost B1 B2 (Hfiles _) eq_refl Hsup)
    as (l & _ & ->).
  eexists. split; [reflexivity|]. split; [done|]. split; [by split|]. split; [done|].
  rewrite (sr_load_rt_run inet_aton e _ ts rs); [by destruct Hrs|done|done|apply Hfiles| |apply Hmal].
  apply lookup_insert_eq.
Qed.

(** Whatever the file holds and however addresses are parsed, loading it
    ends: its loop takes at least one character per turn. *)
Theorem sr_load_rt_terminates (inet_aton : list Z → option Z) (fn : list Z) (e : venv) (s : vns) :
  sr_load_rt inet_aton fn e s ≠ Fault OutOfFuel ∧ sr_load_rt inet_aton fn e s ≠ Fault Blocked.
Proof.
  apply ends_spec. unfold sr_load_rt. apply ends_bind; [apply ends_fopen_read|].
  intros [fp|]; [|apply ends_mret]. by apply load_lines_ends.
Qed.

(** C40: a routing table that cannot be used.  At the first line with an address
    that cannot be parsed, whatever follows it, loading stops with -1 and the
    program exits with 1; the routes of the lines before it are in the table
    already, in place of the old ones, which stay only when there are none.  A
    file that cannot be opened is refused the same way, and the table stays. *)
Theorem bad_route_refused (inet_aton : list Z → option Z) (fn : list Z) (ts : list rt_text)
    (rs : list sr_rt) (ls : list buf) (t : rt_text) (l rest : buf) (e : venv) (s : vns)
    (Hts : Forall text_ok ts) (Hls : Forall2 line_of ts ls)
    (Hrs : Forall2 (text_route inet_aton) ts rs)
    (Ht : text_ok t) (Hl : line_of t l)
    (Hbad : inet_aton (t_dest t) = None ∨ inet_aton (t_gw t) = None ∨ inet_aton (t_mask t) = None)
    (Hopen : fopen_ok e fn = true) (Hdisk : disk s !! fn = Some (concat ls ++ l ++ rest))
    (Hmal : malloc_ok (base e (turn s)) AllocRoute = true) :
  sr_load_rt inet_aton fn e s =
    Ok (-1, match rs with
            | [] => s
            | _ => set_router (set_routing_table rs (router s)) s
            end) ∧
  sr_load_rt_wrap inet_aton fn e s = Fault (Exited 1) ∧
  ∀ fn', fopen_ok e fn' = false ∨ disk s !! fn' = None →
    sr_load_rt inet_aton fn' e s = Ok (-1, s) ∧
    sr_load_rt_wrap inet_aton fn' e s = Fault (Exited 1).
Proof.
  pose proof (sr_load_rt_refused_run inet_aton e fn ts rs ls t l rest s
    Hts Hls Hrs Ht Hl Hbad Hopen Hdisk Hmal) as Hrun.
  split; [by rewrite Hrun; destruct rs|]. split; [by eapply load_rt_wrap_refused|].
  intros fn' Hfn.
  assert (sr_load_rt inet_aton fn' e s = Ok (-1, s)) as H
    by by apply sr_load_rt_unreadable.
  split; [done|]. by eapply load_rt_wrap_refused.
Qed.

(** ** SHA-1 *)

Fixpoint input_all (chunks : list buf) (c : SHA1Context) : option SHA1Context :=
  match chunks with
  | [] => Some c
  | d :: chunks' => c ← SHA1Input c d (length d); input_all chunks' c
  end.

Lemma input_all_run chunks m c :
  absorbed m c → Forall bytes_ok chunks →
  Z.of_nat (length m) + Z.of_nat (length (concat chunks)) < 2 ^ 61 →
  ∃ c', input_all chunks c = Some c' ∧ absorbed (m ++ concat chunks) c'.
Proof.
  intros Hc Hb. revert m c Hc. induction Hb as [|d chunks Hd _ IH]; intros m c Hc Hl.
  { exists c. by rewrite app_nil_r. }
  cbn [concat input_all] in *. rewrite length_app in Hl.
  destruct (sha1_input_run m c d (length d) Hc Hd) as (c1 & -> & Hc1); [lia|lia|].
  rewrite firstn_all in Hc1.
  destruct (IH _ c1 Hc1) as (c2 & H2 & Hc2); [rewrite length_app; lia|].
  exists c2. by rewrite app_assoc.
Qed.

(** C28: the hash computes the standard's digest: however a message of fewer
    than 2^61 bytes is cut into inputs, the result after them is the digest of
    the whole message; asking again gives the same, and an input after the
    result makes every further result fail. *)
Theorem sha1_streaming (chunks : list buf) (c0 : SHA1Context)
    (Hblock : length (Message_Block c0) = 64%nat ∧ bytes_ok (Message_Block c0))
    (Hb : Forall bytes_ok chunks) (Hl : Z.of_nat (length (concat chunks)) < 2 ^ 61) :
  ∃ c1 c2, input_all chunks (SHA1Reset c0) = Some c1 ∧ SHA1Result c1 = Some (true, c2) ∧
    Message_Digest c2 = words_of (sha1 (concat chunks)) ∧
    SHA1Result c2 = Some (true, c2) ∧
    ∀ data n, (0 < n)%nat → ∃ c3, SHA1Input c2 data n = Some c3 ∧
      SHA1Result c3 = Some (false, c3).
Proof.
  destruct Hblock as [H64 Hbb].
  destruct (input_all_run chunks [] _ (reset_absorbed c0 H64 Hbb) Hb) as (c1 & H1 & Hc1);
    [cbn; lia|].
  destruct (sha1_result_run _ c1 Hc1 Hl) as (c2 & H2 & Hd & Hcomp & Hcorr).
  exists c1, c2. split; [done|]. split; [done|]. split; [done|]. split.
  - unfold SHA1Result. by rewrite Hcorr, Hcomp.
  - intros data n Hn. exists (corrupt c2). unfold SHA1Input.
    rewrite (proj2 (Nat.eqb_neq n 0)) by lia. by rewrite Hcomp.
Qed.

(** The length counter cannot wrap unnoticed: at 2^64 - 8 bits the next
    byte sets the context's error flag, the rest of the input is ignored, and
    the result fails. *)
Theorem sha1_overlong_refused (c : SHA1Context) (H : regs) (b : Z) (data : buf) (n : nat)
    (Hlow : Length_Low c = 2 ^ 32 - 8) (Hhigh : Length_High c = 2 ^ 32 - 1)
    (Hflags : Computed c = false ∧ Corrupted c = false)
    (Hd : Message_Digest c = words_of H ∧ regs_ok H)
    (Hblock : length (Message_Block c) = 64%nat ∧ bytes_ok (Message_Block c))
    (Hi : (Message_Block_Index c < 64)%nat) :
  ∃ c', SHA1Input c (b :: data) (S n) = Some c' ∧ SHA1Result c' = Some (false, c').
Proof.
  destruct Hflags as [Hf1 Hf2], Hd as [Hd Hr], Hblock as [Hl Hb].
  unfold SHA1Input. rewrite Hf1, Hf2. cbn [Nat.eqb orb input_loop]. rewrite Hf2.
  unfold input_byte, push_block. rewrite set_block_run by lia. cbn [mbind option_bind].
  set (c1 := count_byte _).
  assert (Corrupted c1 = true) as Hc1.
  { unfold c1, count_byte. cbn [Length_Low Length_High Corrupted]. by rewrite Hlow, Hhigh. }
  assert (∃ c2, (if (Message_Block_Index c1 =? 64)%nat then SHA1ProcessMessageBlock c1
                 else Some c1) = Some c2 ∧ Corrupted c2 = true) as (c2 & -> & Hc2).
  { destruct (_ =? 64)%nat; [|by exists c1].
    assert (bytes_ok (Message_Block c1)) as Hb1.
    { apply Forall_insert; [done|]. change 0xFF with (2 ^ 8 - 1).
      rewrite land_ones_mod by lia. apply u8_bound. }
    rewrite (process_block_run c1 H); [by eexists|done|done|done|].
    cbn. by rewrite length_insert. }
  cbn [mbind option_bind]. exists c2. unfold SHA1Result. rewrite Hc2. split; [|done].
  destruct n; cbn [input_loop]; [done|]. by rewrite Hc2.
Qed.

(** ** Witnesses *)

(** A fourth interface, an unknown key after it. *)
Definition demo_hw : list hw_entry :=
  [(HWINTERFACE, if_name_of [101; 116; 104; 52]);
   (HWETHER, router_mac 4 ++ replicate 26 0);
   (HWETHIP, [10; 0; 4; 1] ++ replicate 28 0);
   (2, replicate 32 0)].

Lemma demo_hw_ok : hw_ok true demo_hw.
Proof.
  assert (∀ v : buf, bytes_okb v = true → bytes_ok v) as Hb by apply bytes_okb_ok.
  cbn [hw_ok demo_hw].
  repeat split; try done; first [by apply Hb | intros _; by apply (bool_decide_eq_true _)].
Qed.

Lemma hwinfo_configures_witness :
  let m := hwinfo_message demo_hw in
  let r := set_if_list (foldl (hw_apply env_ok) (if_list net1) demo_hw) net1 in
  sr_wf r ∧
  dispatch 0 (Z.of_nat (length m)) m venv_ok (demo_vns []) =
    Ok (if bool_decide (if_list r ≠ [] ∧ routing_table r ≠ [] ∧ orphans r = []) then 1 else -1,
        set_router r (demo_vns [])).
Proof.
  apply (hwinfo_configures demo_hw venv_ok (demo_vns [])).
  - apply net1_wf.
  - apply demo_hw_ok.
  - by apply Z.leb_le.
  - by apply if_okb_ok.
  - done.
  - by apply (bool_decide_eq_true _).
Defined.

(** The result of that command: accepted, with the new interface last. *)
Lemma demo_hw_accepted :
  let r := set_if_list (foldl (hw_apply env_ok) (if_list net1) demo_hw) net1 in
  if_list r = if_list net1 ++
    [mk_if (if_name_of [101; 116; 104; 52]) (router_mac 4) (ip4 10 0 4 1) 0] ∧
  bool_decide (if_list r ≠ [] ∧ routing_table r ≠ [] ∧ orphans r = []) = true.
Proof. by vm_compute. Qed.

Definition demo_key : buf := replicate 63 107 ++ [33; 10].

Definition demo_handshake : buf := auth_challenge [1; 2; 3; 4] ++ auth_status 1 [0] ++ [9].

Definition demo_client : vns :=
  mk_vns (set_names ([118; 110; 115] ++ replicate 29 0) (replicate 32 0) (replicate 30 0) 5 net1)
    demo_handshake (concat (replicate 30 [Interrupted; Gives 3]))
    {[auth_key_file := demo_key]} false 0.

Lemma session_opened_witness :
  ∃ s', sr_connect_to_server venv_ok demo_client = Ok (0, s') ∧ incoming s' = [9] ∧
    same_core (router demo_client) (router s') ∧
    sent (router s') = sent (router demo_client) ++
      [auth_reply [118; 110; 115] [1; 2; 3; 4] (take AUTH_KEY_LEN demo_key);
       open_bytes (router demo_client)].
Proof.
  apply (session_opened [1; 2; 3; 4] demo_key [118; 110; 115] [0] [9] 1 venv_ok demo_client).
  - apply venv_session.
  - intros t. apply env_ok_writes.
  - done.
  - done.
  - by apply bytes_okb_ok.
  - by apply Z.leb_le.
  - done.
  - apply lookup_singleton_eq.
  - by apply bytes_okb_ok.
  - by apply Nat.leb_le.
  - cbn. repeat constructor; done.
  - done.
  - by apply Z.ltb_lt.
  - by left.
  - by left.
  - done.
  - done.
  - by left.
  - by apply bytes_okb_ok.
  - by apply Z.leb_le.
  - done.
  - by apply no_failure_dec.
  - apply Nat.leb_le. by vm_compute.
Defined.

(** Addresses in dotted decimal notation. *)
Fixpoint parse_dotted (cur : Z) (w : list Z) : list Z :=
  match w with
  | [] => [cur]
  | c :: w' => if c =? 46 then cur :: parse_dotted 0 w' else parse_dotted (cur * 10 + (c - 48)) w'
  end.

Definition dotted (w : list Z) : option Z :=
  match parse_dotted 0 w with
  | [a; b; c; d] => Some (ip4 a b c d)
  | _ => None
  end.

(** The line [10.0.1.0 0.0.0.0 255.255.255.0 eth3]. *)
Definition demo_line : rt_text :=
  mk_text [49; 48; 46; 48; 46; 49; 46; 48] [48; 46; 48; 46; 48; 46; 48]
    [50; 53; 53; 46; 50; 53; 53; 46; 50; 53; 53; 46; 48] [101; 116; 104; 51].

Definition demo_route : sr_rt := mk_rt (ip4 10 0 1 0) 0 (ip4 255 255 255 0) eth3_name.

Definition rtable_file : list Z := [114; 116; 97; 98; 108; 101].

Definition demo_disk : vns :=
  mk_vns net1 [] [] {[rtable_file := concat (text_line <$> [demo_line])]} false 0.

Lemma word_okb w :
  negb (bool_decide (w = [])) && forallb (λ c, negb (is_space c) && negb (c =? 0)) w &&
  (length w <? WORD_SIZE)%nat = true → word_ok w.
Proof.
  intros [[H1 H2]%andb_prop H3]%andb_prop. split; [by destruct w|]. split; [|by apply Nat.ltb_lt].
  apply list.Forall_forall. intros c Hc. rewrite forallb_forall in H2.
  specialize (H2 c). rewrite <- list_elem_of_In in H2. apply H2 in Hc.
  apply andb_prop in Hc as [Hs H0]. bools. done.
Qed.

Lemma demo_line_ok : text_ok demo_line.
Proof. split; [by apply word_okb|]. split; [by apply word_okb|]. split; by apply word_okb. Qed.

Lemma routes_round_trip_witness :
  sr_load_rt dotted rtable_file venv_ok demo_disk =
    Ok (0, set_router (set_routing_table [demo_route] net1) demo_disk).
Proof.
  apply (routes_round_trip dotted rtable_file [demo_line] [demo_route] venv_ok demo_disk).
  - apply Forall_cons_2; [apply demo_line_ok|by apply Forall_nil_2].
  - done.
  - repeat constructor.
  - done.
  - apply lookup_singleton_eq.
  - done.
Defined.

(** The same line with a mask that says nothing. *)
Definition bad_line : rt_text := mk_text (t_dest demo_line) (t_gw demo_line) [63] (t_iface demo_line).

Definition bad_file : buf := concat (text_line <$> [demo_line]) ++ text_line bad_line ++ [1; 2; 3].
Definition bad_disk : vns := mk_vns net1 [] [] {[rtable_file := bad_file]} false 0.

Lemma bad_route_refused_witness :
  sr_load_rt dotted rtable_file venv_ok bad_disk =
    Ok (-1, set_router (set_routing_table [demo_route] net1) bad_disk) ∧
  sr_load_rt_wrap dotted rtable_file venv_ok bad_disk = Fault (Exited 1) ∧
  ∀ fn', fopen_ok venv_ok fn' = false ∨ disk bad_disk !! fn' = None →
    sr_load_rt dotted fn' venv_ok bad_disk = Ok (-1, bad_disk) ∧
    sr_load_rt_wrap dotted fn' venv_ok bad_disk = Fault (Exited 1).
Proof.
  apply (bad_route_refused dotted rtable_file [demo_line] [demo_route]
    (text_line <$> [demo_line]) bad_line (text_line bad_line) [1; 2; 3] venv_ok bad_disk).
  - apply Forall_cons_2; [apply demo_line_ok|by apply Forall_nil_2].
  - apply text_lines_of.
  - repeat constructor.
  - split; [by apply word_okb|]. split; [by apply word_okb|]. split; by apply word_okb.
  - apply text_line_of.
  - by right; right.
  - done.
  - apply lookup_singleton_eq.
  - done.
Defined.

Lemma sha1_streaming_witness :
  ∃ c1 c2, input_all [[97]; []; [98; 99]] (SHA1Reset fresh_sha1) = Some c1 ∧
    SHA1Result c1 = Some (true, c2) ∧
    Message_Digest c2 = words_of (sha1 [97; 98; 99]) ∧
    SHA1Result c2 = Some (true, c2) ∧
    ∀ data n, (0 < n)%nat → ∃ c3, SHA1Input c2 data n = Some c3 ∧
      SHA1Result c3 = Some (false, c3).
Proof.
  apply (sha1_streaming [[97]; []; [98; 99]] fresh_sha1).
  - split; [done|by apply bytes_okb_ok].
  - apply Forall_cons_2; [by apply bytes_okb_ok|]. apply Forall_cons_2; [by apply bytes_okb_ok|].
    apply Forall_cons_2; [by apply bytes_okb_ok|by apply Forall_nil_2].
  - by apply Z.ltb_lt.
Defined.

(** A context that has counted 2^64 - 8 bits, its block full but for one byte. *)
Definition full_sha1 : SHA1Context :=
  mk_sha1 (words_of sha1_init) (2 ^ 32 - 8) (2 ^ 32 - 1) (replicate 64 0) 63 false false.

Lemma sha1_overlong_refused_witness :
  ∃ c', SHA1Input full_sha1 [65; 66; 67] 3 = Some c' ∧ SHA1Result c' = Some (false, c').
Proof.
  apply (sha1_overlong_refused full_sha1 sha1_init 65 [66; 67] 2).
  - done.
  - done.
  - done.
  - split; [done|apply sha1_init_ok].
  - split; [done|by apply bytes_okb_ok].
  - by apply Nat.ltb_lt.
Defined.

(** A blank line is not skipped: the words of the line before it are taken
    again, and its route is entered twice. *)
Lemma blank_line_repeats :
  let s := mk_vns net1 [] [] {[rtable_file := text_line demo_line ++ [10]]} false 0 in
  sr_load_rt dotted rtable_file venv_ok s =
    Ok (0, set_router (set_routing_table [demo_route; demo_route] net1) s).
Proof. by vm_compute. Qed.

(** ** A session on the template [t], for the router [r] *)

Definition template_client : vns :=
  mk_vns (set_names ([118; 110; 115] ++ replicate 29 0) (replicate 32 0)
            (116 :: replicate 29 0) 5 net1)
    (auth_challenge [1; 2; 3; 4] ++ auth_status 1 [0] ++
     rtable_message [114] (concat (text_line <$> [demo_line])) ++ [9])
    (concat (replicate 120 [Interrupted; Gives 3])) {[auth_key_file := demo_key]} false 0.

Lemma template_session_witness :
  ∃ s', sr_connect_to_server venv_ok template_client = Ok (0, s') ∧ incoming s' = [9] ∧
    same_core (router template_client) (router s') ∧
    sent (router s') = sent (router template_client) ++
      [auth_reply [118; 110; 115] [1; 2; 3; 4] (take AUTH_KEY_LEN demo_key);
       open_template_bytes (router template_client)] ∧
    sr_load_rt dotted (rtable_prefix ++ [114]) venv_ok s' =
      Ok (0, set_router (set_routing_table [demo_route] (router s')) s').
Proof.
  apply (template_session dotted [1; 2; 3; 4] demo_key [118; 110; 115] [0] [116] [114] [9] 1
    [demo_line] [demo_route] venv_ok template_client).
  - apply venv_session.
  - intros t. apply env_ok_writes.
  - done.
  - done.
  - done.
  - split; [by apply bytes_okb_ok|by apply Z.leb_le].
  - apply lookup_singleton_eq.
  - split; [by apply bytes_okb_ok|]. split; [by apply Nat.leb_le|]. cbn. repeat constructor; done.
  - split; [done|by apply Z.ltb_lt].
  - split; [done|]. split; [done|by left].
  - by left.
  - done.
  - split; [by apply bytes_okb_ok|by apply Z.leb_le].
  - split; [by apply bytes_okb_ok|]. split; [by repeat constructor|by apply Nat.ltb_lt].
  - split; [by apply bytes_okb_ok|by apply Z.leb_le].
  - apply Forall_cons_2; [apply demo_line_ok|by apply Forall_nil_2].
  - done.
  - repeat constructor.
  - done.
  - by apply no_failure_dec.
  - apply Nat.leb_le. by vm_compute.
Defined.
