(* ===== verification/System.v ===== *)
(** * The router over time

    The frames the server delivers and the rounds of the timer thread, one after
    the other, each as one step ([Interleave] and [MainThread] have the rounds
    that come inside a frame and while a command is read).  The invariant holds in every reachable state, and no packet waits
    for ever. *)

From stdpp Require Import gmap.
From S2P Require Import Sweep RouterTheorems SweepTheorems.

(** ** Events *)

Inductive event :=
  | EvFrame (e : env) (packet : buf) (len : Z) (iface : cstr)
  | EvTick (e : env).

Definition step (ev : event) (s : sr_instance) : res sr_instance :=
  match ev with
  | EvFrame e packet len iface =>
      match sr_handlepacket packet len iface e s with
      | Ok (_, s') => Ok s'
      | Fault f => Fault f
      end
  | EvTick e =>
      match timeout_tick e s with
      | Ok (_, s') => Ok s'
      | Fault f => Fault f
      end
  end.

Fixpoint run (evs : list event) (s : sr_instance) : res sr_instance :=
  match evs with
  | [] => Ok s
  | ev :: evs' =>
      match step ev s with
      | Ok s' => run evs' s'
      | Fault f => Fault f
      end
  end.

(** What the environment promises about an event. *)
Definition event_ok (ev : event) : Prop :=
  match ev with
  | EvFrame e packet len iface =>
      mallocs_checked e ∧ frame_ok packet len ∧ cstr_ok sr_IFACE_NAMELEN iface
  | EvTick e => mallocs_checked e
  end.

(** The state after an event. *)
Definition after (ev : event) (s : sr_instance) : sr_instance :=
  match ev with
  | EvFrame e packet len iface => (handle_frame e packet iface s).2
  | EvTick e => tick e s
  end.

Lemma step_run ev s : sr_wf s → event_ok ev → step ev s = Ok (after ev s) ∧ sr_wf (after ev s).
Proof.
  intros Hs He. destruct ev as [e packet len iface|e]; simpl in *.
  - destruct He as (Hm & Hf & Hi).
    destruct (handle_frame_run packet len iface e s Hs Hm Hi Hf) as [-> Hwf].
    by destruct (handle_frame e packet iface s).
  - destruct (tick_run e s Hs He) as [-> Hwf]. done.
Qed.

Lemma after_evolves ev s : evolves s (after ev s).
Proof.
  destruct ev as [e packet len iface|e]; simpl; [apply handle_frame_evolves|].
  unfold tick. etransitivity; [apply set_cache_evolves|apply sweep_evolves].
Qed.

(** ** Reachable states *)

(** The router after [sr_init], with well-formed interfaces and routes. *)
Definition initial (s : sr_instance) : Prop :=
  Forall if_wf (if_list s) ∧ Forall rt_wf (routing_table s).

Inductive reachable (s0 : sr_instance) : sr_instance → Prop :=
  | ReachInit e s' : sr_init e s0 = Ok (tt, s') → reachable s0 s'
  | ReachStep s ev s' : reachable s0 s → event_ok ev → step ev s = Ok s' → reachable s0 s'.

(** C3: in every state that can be reached from [sr_init] by frames and timer
    rounds the invariant holds: at most one valid cache entry and at most one
    pending request per address, every request sent at most five times and with
    a packet behind it; the configuration is the initial one, and every message
    sent so far carries the hardware address of the interface it names. *)
Theorem reachable_invariant (s0 s : sr_instance)
    (Hinit : initial s0) (Hr : reachable s0 s) :
  sr_wf s ∧ evolves s0 s.
Proof.
  induction Hr as [e s' Hi|s ev s' Hr [IHw IHe] Hev Hstep].
  - injection Hi as <-. destruct Hinit as [H1 H2]. split; [|apply set_cache_evolves].
    split; [done|done|apply init_cache_wf].
  - destruct (step_run ev s IHw Hev) as [Hrun Hwf]. rewrite Hrun in Hstep. injection Hstep as <-.
    split; [done|]. transitivity s; [done|apply after_evolves].
Qed.

(** No reachable state is stuck: every event that keeps the environment's
    promises is handled without a fault. *)
Theorem reachable_progress (s0 s : sr_instance) (ev : event)
    (Hinit : initial s0) (Hr : reachable s0 s) (Hev : event_ok ev) :
  ∃ s', step ev s = Ok s' ∧ reachable s0 s'.
Proof.
  assert (sr_wf s) as Hs.
  { clear Hev ev. induction Hr as [e s' Hi|s ev s' Hr IH Hev Hstep].
    - injection Hi as <-. destruct Hinit. split; [done|done|apply init_cache_wf].
    - destruct (step_run ev s IH Hev) as [Hrun Hwf]. rewrite Hrun in Hstep.
      by injection Hstep as <-. }
  destruct (step_run ev s Hs Hev) as [Hrun _]. exists (after ev s).
  split; [done|]. by apply ReachStep with s ev.
Qed.

Lemma net0_initial : initial net0.
Proof. split; [apply (sr_wf_ifs _ net0_wf)|apply (sr_wf_rts _ net0_wf)]. Qed.

Lemma net0_reachable : reachable net0 net0.
Proof. by apply ReachInit with env_ok. Qed.

Lemma reachable_invariant_witness :
  reachable net0 net0 ∧ sr_wf net0 ∧ evolves net0 net0.
Proof.
  split; [apply net0_reachable|].
  apply (reachable_invariant net0 net0); [apply net0_initial|apply net0_reachable].
Defined.

Lemma reachable_progress_witness :
  ∃ s', step (EvFrame env_ok transit (Z.of_nat (length transit)) eth3_name) net0 = Ok s' ∧
    reachable net0 s'.
Proof.
  apply (reachable_progress net0 net0); [apply net0_initial|apply net0_reachable|].
  split; [demo|]. split; [demo|demo].
Defined.

(** ** No packet waits for ever *)

(** A step keeps a request with its clock, or ends it. *)
Definition settles (t : Z) (a : nat) (s s' : sr_instance) : Prop := keeps t a s s' ∨ gone a s'.

Lemma same_core_keeps t a s s' : same_core s s' → keeps t a s s'.
Proof. intros [_ _ Hc] r Hr. exists r. split; [by rewrite Hc|reflexivity]. Qed.

Lemma in_addrs_fresh a r s :
  sr_wf s → req_at a (requests (cache s)) = Some r → (a < next_addr (cache s))%nat.
Proof.
  intros Hs [Hin <-]%req_at_some. pose proof (cache_wf_fresh _ (sr_wf_cache _ Hs)) as Hf.
  rewrite list.Forall_forall in Hf. apply (Hf r Hin).
Qed.

Lemma req_at_filter_ip a ip (l : list sr_arpreq) :
  NoDup (req_addr <$> l) →
  req_at a (filter (λ r, req_ip r ≠ ip) l) = None ∨
  req_at a (filter (λ r, req_ip r ≠ ip) l) = req_at a l.
Proof.
  induction l as [|r l IH]; intros Hn; [by left|]. csimpl in *.
  apply list.NoDup_cons in Hn as [Hni Hn]. rewrite filter_cons. case_decide; simpl.
  - destruct (_ =? a)%nat; [by right|by apply IH].
  - destruct (Nat.eqb_spec (req_addr r) a) as [He|]; [|by apply IH]. left.
    destruct (req_at a _) as [r'|] eqn:E; [|done]. exfalso.
    apply req_at_some in E as [[_ Hin]%list_elem_of_filter Ha]. apply Hni. rewrite He, <- Ha.
    by apply list_elem_of_fmap_2.
Qed.

Lemma learn_settles a r e packet s :
  sr_wf s → req_at a (requests (cache s)) = Some r → settles (now e) a s (learn e packet s).
Proof.
  intros Hs Hr. pose proof (in_addrs_fresh _ _ _ Hs Hr) as Hlt.
  pose proof (learn_cache packet e s) as Hc.
  destruct (req_at_filter_ip a (arp_sip packet) (requests (cache s))
    (cache_wf_req_addrs _ (sr_wf_cache _ Hs))) as [H|H].
  - right. unfold gone, addrs. rewrite Hc. split; [|done]. intros Hin.
    apply list_elem_of_fmap in Hin as (r' & -> & Hin). simpl in Hin.
    rewrite (req_at_elem _ _ r') in H; [done| |done|done].
    eapply sublist_NoDup; [apply (cache_wf_req_addrs _ (sr_wf_cache _ Hs))|].
    apply fmap_sublist, sublist_filter.
  - left. intros r' Hr'. exists r'. rewrite Hc. simpl. by rewrite H.
Qed.

Lemma arp_settles a r e packet iface s :
  sr_wf s → req_at a (requests (cache s)) = Some r → settles (now e) a s (handle_arp e packet iface s).
Proof.
  intros Hs Hr. pose proof (learn_settles a r e packet s Hs Hr) as Hl.
  unfold handle_arp. repeat case_match; try done; try (by left; reflexivity).
  destruct Hl as [Hl|Hl]; [left|right].
  - etransitivity; [exact Hl|]. apply same_core_keeps, arp_reply_core.
  - unfold gone, addrs in *. by rewrite (same_cache _ _ (arp_reply_core _ _ _ _)).
Qed.

Lemma ip_grows e packet len iface s :
  sr_wf s → frame_ok packet len → grows (now e) s (handle_ip e packet iface s).2.
Proof.
  intros Hs Hf. pose proof (proj1 Hf) as Hb. unfold handle_ip.
  destruct (valid_ip packet) eqn:Hv; [|reflexivity]. cbn [negb].
  pose proof (layout_frame _ (valid_ip_layout _ Hb Hv)) as Hl.
  destruct (is_router_ip _ _); simpl.
  - unfold deliver. destruct (_ && _).
    + destruct (is_echo_request _); [|reflexivity]. apply same_core_grows, echo_reply_core.
    + destruct (_ || _); [|reflexivity]. by apply icmp_error_grows with len.
  - destruct (_ <=? 1); simpl; [by apply icmp_error_grows with len|].
    assert (frame_ok (dec_ttl packet) len) as Hfd.
    { split; [by apply dec_ttl_ok|]. rewrite length_dec_ttl. apply Hf. }
    unfold forward. destruct (lpm _ _).
    + apply route_out_grows with len; [done|done|]. by rewrite length_dec_ttl.
    + by apply icmp_error_grows with len.
Qed.

Lemma frame_settles a r e packet len iface s :
  sr_wf s → mallocs_checked e → cstr_ok sr_IFACE_NAMELEN iface → frame_ok packet len →
  req_at a (requests (cache s)) = Some r → settles (now e) a s (handle_frame e packet iface s).2.
Proof.
  intros Hs Hm Hi Hf Hr.
  destruct (handle_frame_run packet len iface e s Hs Hm Hi Hf) as [_ Hwf].
  unfold handle_frame in *. destruct (_ <? _)%nat; [by left; reflexivity|].
  destruct (_ =? ethertype_arp); [by apply arp_settles with r|].
  destruct (_ =? ethertype_ip); [|by left; reflexivity].
  left. apply grows_keeps; [done|by apply ip_grows with len].
Qed.

Lemma same_cache_gone a s s' : cache s' = cache s → gone a s → gone a s'.
Proof. unfold gone, addrs. by intros ->. Qed.

Lemma learn_gone a e packet s : gone a s → gone a (learn e packet s).
Proof.
  unfold gone, addrs. rewrite (learn_cache packet e s). intros [Hni Hlt]. split; [|done].
  intros Hin. apply Hni. apply list_elem_of_fmap in Hin as (r & -> & [_ Hin]%list_elem_of_filter).
  by apply list_elem_of_fmap_2.
Qed.

Lemma frame_gone a e packet len iface s :
  sr_wf s → frame_ok packet len → gone a s → gone a (handle_frame e packet iface s).2.
Proof.
  intros Hs Hf Hg. unfold handle_frame. destruct (_ <? _)%nat; [done|].
  destruct (_ =? ethertype_arp).
  - simpl. unfold handle_arp. repeat case_match; try done; try by apply learn_gone.
    eapply same_cache_gone; [apply same_cache, arp_reply_core|by apply learn_gone].
  - destruct (_ =? ethertype_ip); [|done]. apply (grows_gone (now e) _ s); [by apply ip_grows with len|done].
Qed.

Lemma tick_gone a e s : sr_wf s → mallocs_checked e → gone a s → gone a (tick e s).
Proof.
  intros Hs Hm Hg. unfold tick.
  assert (sr_wf (set_cache (expire_entries (now e) (cache s)) s)) as Hs1
    by (apply set_cache_wf; [done|apply expire_wf, Hs]).
  unfold sweep. destruct (rounds e (addrs (set_cache (expire_entries (now e) (cache s)) s)) []
    _ [] Hs1 Hm) as (_ & _ & _ & H); [by rewrite app_nil_r|]. by apply H.
Qed.

Lemma run_gone a evs s :
  sr_wf s → Forall event_ok evs → gone a s → ∃ s', run evs s = Ok s' ∧ sr_wf s' ∧ gone a s'.
Proof.
  revert s. induction evs as [|ev evs IH]; intros s Hs He Hg; [by exists s|].
  apply list.Forall_cons in He as [He Hes]. simpl.
  destruct (step_run ev s Hs He) as [-> Hwf]. apply IH; [done|done|].
  destruct ev as [e packet len iface|e]; simpl in *.
  - destruct He as (Hm & Hf & Hi). by apply frame_gone with len.
  - by apply tick_gone.
Qed.

(** A round of the timer that comes at least a second after the request was
    sent: it is sent again, or given up. *)
Lemma tick_request a r e s :
  sr_wf s → mallocs_checked e → req_at a (requests (cache s)) = Some r →
  1 ≤ req_times_sent r → 1 ≤ now e - req_sent r →
  gone a (tick e s) ∨
  req_times_sent r < 5 ∧ ∃ r', req_at a (requests (cache (tick e s))) = Some r' ∧
    req_sent r' = now e ∧ req_times_sent r' = req_times_sent r + 1.
Proof.
  intros Hs Hm Hr Ht Hdue. pose proof (req_at_some _ _ _ Hr) as [Hin <-].
  unfold tick. set (s1 := set_cache (expire_entries (now e) (cache s)) s).
  assert (sr_wf s1) as Hs1 by (apply set_cache_wf; [done|apply expire_wf, Hs]).
  pose proof (req_wf_times _ (sr_wf_requests _ _ Hs Hin)) as H5.
  destruct (sweep_around e s1 r Hs1 Hm Hin) as (s2 & r2 & Hs2 & Hr2 & Ho & Hk & Hg).
  destruct (older_times _ _ _ Ho) as [Hc1 Hc2]; [lia|].
  destruct (decide (req_times_sent r = 5)) as [H|H].
  - left. apply Hg. apply sweep_one_destroys with r2; [done..|lia|lia].
  - right. split; [lia|].
    pose proof (sweep_one_resends _ r2 e s2 Hs2 Hr2 ltac:(lia) ltac:(lia)) as Hr3.
    destruct (Hk _ Hr3) as (r' & Hr' & Ho'). exists r'. split; [done|].
    assert (req_times_sent (mark_sent (now e) r2) = req_times_sent r + 1) as Hm2.
    { simpl. rewrite u32_small by (unfold is_u32; lia). lia. }
    destruct (older_times _ _ _ Ho') as [Hc3 Hc4]; [lia|]. split; [done|congruence].
Qed.

(** Whatever the clock says, a round sends a request at most once. *)
Lemma tick_times a r e s :
  sr_wf s → mallocs_checked e → req_at a (requests (cache s)) = Some r →
  gone a (tick e s) ∨
  ∃ r', req_at a (requests (cache (tick e s))) = Some r' ∧
    req_times_sent r' ≤ req_times_sent r + 1.
Proof.
  intros Hs Hm Hr. pose proof (req_at_some _ _ _ Hr) as [Hin <-].
  unfold tick. set (s1 := set_cache (expire_entries (now e) (cache s)) s).
  assert (sr_wf s1) as Hs1 by (apply set_cache_wf; [done|apply expire_wf, Hs]).
  pose proof (req_wf_times _ (sr_wf_requests _ _ Hs Hin)) as H5.
  destruct (sweep_around e s1 r Hs1 Hm Hin) as (s2 & r2 & Hs2 & Hr2 & Ho & Hk & Hg).
  pose proof (req_wf_times _ (sr_wf_requests _ _ Hs2 (proj1 (req_at_some _ _ _ Hr2)))) as H5'.
  destruct (decide (1 ≤ now e - req_sent r2)) as [Hdue|Hdue].
  - destruct (decide (req_times_sent r2 = 5)) as [H|H].
    { left. apply Hg. by apply sweep_one_destroys with r2. }
    right. pose proof (sweep_one_resends _ r2 e s2 Hs2 Hr2 Hdue ltac:(lia)) as Hr3.
    destruct (Hk _ Hr3) as (r' & Hr' & Ho'). exists r'. split; [done|].
    assert (req_times_sent (mark_sent (now e) r2) = req_times_sent r2 + 1) as Hm2
      by (simpl; rewrite u32_small by (unfold is_u32; lia); lia).
    destruct (older_times _ _ _ Ho') as [_ ->]; [lia|]. rewrite Hm2.
    destruct (decide (req_times_sent r = 0)) as [H0|H0].
    + destruct (older_first _ _ _ Ho H0) as [[-> _]|[_ Hsent]]; lia.
    + destruct (older_times _ _ _ Ho H0) as [_ ->]. lia.
  - right. rewrite (sweep_one_waits _ r2) in Hk by (done || lia).
    destruct (Hk _ Hr2) as (r' & Hr' & Ho'). exists r'. split; [done|].
    destruct (decide (req_times_sent r = 0)) as [H0|H0].
    + destruct (older_first _ _ _ Ho H0) as [[H1 _]|[H1 _]].
      * destruct (older_first _ _ _ Ho' H1) as [[-> _]|[-> _]]; lia.
      * destruct (older_times _ _ _ Ho') as [_ ->]; lia.
    + destruct (older_times _ _ _ Ho H0) as [_ H1].
      destruct (older_times _ _ _ Ho') as [_ ->]; lia.
Qed.

(** The clock of the timer's rounds among the events goes on by at least a
    second from round to round. *)
Fixpoint clock_from (t : Z) (evs : list event) : Prop :=
  match evs with
  | [] => True
  | EvTick e :: evs' => t + 1 ≤ now e ∧ clock_from (now e) evs'
  | EvFrame _ _ _ _ :: evs' => clock_from t evs'
  end.

Fixpoint rounds_in (evs : list event) : Z :=
  match evs with
  | [] => 0
  | EvTick _ :: evs' => 1 + rounds_in evs'
  | EvFrame _ _ _ _ :: evs' => rounds_in evs'
  end.

(** C7: whatever frames come in between, a request that was sent [n] times is
    off the queue, answered or given up, after at most [6 - n] further rounds
    of the timer: with the packets behind it, it never waits for ever. *)
Theorem request_settled (a : nat) (evs : list event) (s : sr_instance) (r : sr_arpreq)
    (Hs : sr_wf s) (Hev : Forall event_ok evs)
    (Hr : req_at a (requests (cache s)) = Some r)
    (Ht : 1 ≤ req_times_sent r) (Hclock : clock_from (req_sent r) evs)
    (Hlong : 6 - req_times_sent r ≤ rounds_in evs) :
  ∃ s', run evs s = Ok s' ∧ sr_wf s' ∧ gone a s'.
Proof.
  revert s r Hs Hr Ht Hclock Hlong. induction evs as [|ev evs IH]; intros s r Hs Hr Ht Hc Hl.
  { pose proof (req_at_some _ _ _ Hr) as [Hin _].
    pose proof (req_wf_times _ (sr_wf_requests _ _ Hs Hin)). simpl in Hl. lia. }
  apply list.Forall_cons in Hev as [He Hes].
  destruct (step_run ev s Hs He) as [Hrun Hwf].
  assert (gone a (after ev s) → ∃ s', run (ev :: evs) s = Ok s' ∧ sr_wf s' ∧ gone a s') as Hgone.
  { intros Hg. simpl. rewrite Hrun. by apply run_gone. }
  destruct ev as [e packet len iface|e]; simpl in He, Hc, Hl.
  - destruct He as (Hm & Hf & Hi). simpl in *.
    destruct (frame_settles a r e packet len iface s Hs Hm Hi Hf Hr) as [Hk|Hg]; [|by apply Hgone].
    destruct (Hk _ Hr) as (r' & Hr' & Ho). destruct (older_times _ _ _ Ho) as [Hc1 Hc2]; [lia|].
    rewrite Hrun. apply (IH Hes _ r'); [done|done|lia|by rewrite Hc1|lia].
  - destruct Hc as [Hnow Hc]. simpl in *.
    destruct (tick_request a r e s Hs He Hr Ht ltac:(lia)) as [Hg|(H5 & r' & Hr' & Hc1 & Hc2)];
      [by apply Hgone|].
    rewrite Hrun. apply (IH Hes _ r'); [done|done|lia|by rewrite Hc1|lia].
Qed.

(** The rounds of a timer that starts at [t]. *)
Definition env_at (t : Z) : env := mk_env t (t, 0) (λ _, true) (λ n, n) eth1 dotted_text.

Lemma request_settled_witness :
  ∃ s', run (EvTick <$> (env_at <$> [101; 102; 103; 104; 105])) (net_asked 1 100 parked) = Ok s' ∧
    sr_wf s' ∧ gone 0 s'.
Proof.
  apply (request_settled 0 (EvTick <$> (env_at <$> [101; 102; 103; 104; 105]))
    (net_asked 1 100 parked) (mk_req 0 server2_ip 100 1 [parked])).
  - apply net_asked_wf; [lia|apply parked_wf].
  - repeat (constructor; [by intros ? ?|]). constructor.
  - reflexivity.
  - simpl. lia.
  - simpl. lia.
  - simpl. lia.
Defined.
