(* ===== verification/Asked.v ===== *)
(** * Who is asked for whom

    While a request for an address waits for its answer and was sent, neither the
    packets that a round of the timer gives up nor the other requests make the
    router ask for that address again. *)

From stdpp Require Import gmap.
From S2P Require Import Sweep RouterTheorems SweepTheorems.

(** ** ARP requests among the messages *)

Definition frame_asks (nh : Z) (b : buf) : bool :=
  (frame_type b =? ethertype_arp) && (ntohs (get eth_size ar_op b) =? arp_op_request) &&
  (get eth_size ar_tip b =? nh).

(** A message of the server's protocol that carries an ARP request for [nh]. *)
Definition asks (nh : Z) (m : buf) : bool := frame_asks nh (drop c_packet_header_size m).

Lemma asks_packet nh name16 b :
  length name16 = VNS_NAMELEN → asks nh (vns_packet name16 b) = frame_asks nh b.
Proof.
  intros Hn. unfold asks, vns_packet. f_equal. rewrite !app_assoc. apply drop_app_length'.
  rewrite !length_app, !length_le_enc, Hn. done.
Qed.

Lemma arp_request_asks nh out ip :
  if_wf out → is_u32 ip → frame_asks nh (arp_request_frame out ip) = (ip =? nh).
Proof.
  intros Ho Hip. pose proof (proj1 (if_wf_addr _ Ho)) as Ha. unfold ETHER_ADDR_LEN in Ha.
  unfold frame_asks, frame_type, get, arp_request_frame, arp_frame.
  cbn [f_off f_len ether_type ar_op ar_tip Nat.add eth_size].
  assert (∀ x, slice 12 2 (broadcast ++ if_addr out ++ [8; 6] ++ x) = [8; 6]) as ->.
  { intros x. rewrite app_assoc. apply slice_seg; [|done]. by rewrite length_app, Ha. }
  assert (∀ x, slice 20 2 (broadcast ++ if_addr out ++ [8; 6] ++ [0; 1] ++ [8; 0] ++ [6] ++ [4] ++
    [0; arp_op_request] ++ x) = [0; arp_op_request]) as ->.
  { intros x. rewrite !app_assoc. rewrite <- (app_assoc _ _ x). apply slice_seg; [|done].
    by rewrite !length_app, Ha. }
  rewrite !app_assoc, <- (app_nil_r (le_enc 4 ip)), !app_assoc, <- (app_assoc _ _ []).
  rewrite slice_seg; [|rewrite !length_app, !length_le_enc, Ha; done|by rewrite length_le_enc].
  by rewrite le_dec_enc by exact Hip.
Qed.

(** An IP frame asks for nobody. *)
Lemma ip_frame_asks nh b : frame_type b = ethertype_ip → frame_asks nh b = false.
Proof. intros H. unfold frame_asks. by rewrite H. Qed.

Lemma frame_type_readdress dhost shost b :
  length dhost = 6%nat → length shost = 6%nat → (12 <= length b)%nat →
  frame_type (readdress dhost shost b) = frame_type b.
Proof. intros. unfold frame_type. by rewrite get_readdress by (done || simpl; lia). Qed.

Lemma error_frame_type out packet type code :
  if_wf out → (eth_size <= length packet)%nat →
  frame_type (icmp_error_frame out packet type code) = ethertype_ip.
Proof.
  intros Ho Hl. pose proof (proj1 (if_wf_addr _ Ho)) as Ha. unfold ETHER_ADDR_LEN, eth_size in *.
  unfold frame_type, get, icmp_error_frame. cbn [f_off f_len ether_type Nat.add].
  assert (∀ x, slice 12 2 (getb 0 ether_shost packet ++ if_addr out ++ [8; 0] ++ x) = [8; 0]) as ->;
    [|done].
  intros x. rewrite app_assoc. apply slice_seg; [|done].
  rewrite length_app, Ha, length_getb by fits. done.
Qed.

(** ** Calls that do not ask for an address *)

Section quiet.
Context (nh : Z) (e : env) (Hm : mallocs_checked e) (Hw : writes_ok e).
Implicit Types s : sr_instance.

Definition silent s s' : Prop :=
  ∃ new, sent s' = sent s ++ new ∧ Forall (λ m, asks nh m = false) new.

#[local] Instance silent_preorder : PreOrder silent.
Proof.
  split.
  - intros s. exists []. by rewrite app_nil_r.
  - intros s1 s2 s3 (n1 & H1 & F1) (n2 & H2 & F2). exists (n1 ++ n2).
    rewrite H2, H1, app_assoc. split; [done|]. by apply Forall_app.
Qed.

Lemma same_sent_silent s s' : sent s' = sent s → silent s s'.
Proof. intros H. exists []. by rewrite app_nil_r. Qed.

Lemma send_silent b iface s :
  cstr_ok sr_IFACE_NAMELEN iface → frame_asks nh b = false → silent s (send e b iface s).
Proof.
  intros Hi Hb. unfold send, send_result.
  destruct (iface_named _ _); [|apply same_sent_silent, log_frame_sent].
  destruct (bool_decide _); cbn [snd]; [|apply same_sent_silent, log_frame_sent].
  rewrite Hw. destruct (0 <? _); [|apply same_sent_silent, log_frame_sent].
  eexists. cbn [sent set_sent]. rewrite log_frame_sent, Nat2Z.id, firstn_all. split; [done|].
  constructor; [|done]. by rewrite asks_packet by by apply length_vns_name.
Qed.

Lemma arp_request_silent site ip iface s :
  sr_wf s → cstr_ok sr_IFACE_NAMELEN iface → is_u32 ip → ip ≠ nh →
  silent s (arp_request e site ip iface s).
Proof.
  intros Hs Hi Hip Hne. unfold arp_request. destruct (malloc_ok _ _); [|reflexivity].
  destruct (named s iface) as [out|] eqn:Ho; [|reflexivity].
  apply send_silent; [done|]. rewrite arp_request_asks by (done || by eapply named_wf).
  by apply Z.eqb_neq.
Qed.

(** The address was asked for, and the answer is awaited. *)
Definition asked (a : nat) s : Prop :=
  ∃ r, req_at a (requests (cache s)) = Some r ∧ req_ip r = nh ∧ req_times_sent r ≠ 0.

Lemma keeps_asked t a s s' : keeps t a s s' → asked a s → asked a s'.
Proof.
  intros Hk (r & Hr & Hip & Ht). destruct (Hk r Hr) as (r' & Hr' & Ho). exists r'.
  split; [done|]. split; [by rewrite (older_ip _ _ _ Ho)|]. by apply (older_asked _ _ _ Ho).
Qed.

Lemma asked_times a s : sr_wf s → asked a s → times_asked nh (cache s) ≠ 0.
Proof.
  intros Hs (r & [Hr _]%req_at_some & Hip & Ht). unfold times_asked.
  pose proof (cache_wf_req_ips _ (sr_wf_cache _ Hs)) as Hnd.
  assert (find_req nh (requests (cache s)) = Some r) as ->; [|done].
  revert Hr Hnd. induction (requests (cache s)) as [|r0 l IH]; [by intros ?%elem_of_nil|].
  csimpl. intros [<-|Hr]%elem_of_cons [Hni Hnd]%list.NoDup_cons.
  - by rewrite Hip, Z.eqb_refl.
  - destruct (Z.eqb_spec (req_ip r0) nh) as [E|]; [|by apply IH].
    destruct Hni. rewrite E, <- Hip. by apply list_elem_of_fmap_2.
Qed.

Lemma wait_for_silent a nh' frame len out s :
  sr_wf s → asked a s → frame_ok frame len → (eth_size <= length frame)%nat → if_wf out →
  is_u32 nh' → silent s (wait_for e nh' frame (if_name out) s).
Proof.
  intros Hs Ha Hf Hmin Ho Hnh. unfold wait_for. destruct (Z.eqb_spec (times_asked nh' (cache s)) 0);
    [|by apply same_sent_silent].
  assert (nh' ≠ nh) as Hne by (intros ->; by apply (asked_times a s)).
  set (s1 := set_cache _ s). destruct (arp_request_silent AllocArpRequest nh' (if_name out) s1)
    as (new & H1 & H2); [|by apply if_name_cstr|done|done|by exists new].
  apply set_cache_wf; [done|]. apply queue_packet_wf; [apply Hs|done|].
  rewrite (proj1 (proj2 Hf)). by apply waiting_pkt_wf; [| |apply Ho].
Qed.

Lemma route_out_silent a packet len s :
  sr_wf s → asked a s → frame_ok packet len → (eth_size + ip_size <= length packet)%nat →
  frame_type packet = ethertype_ip → silent s (route_out e packet s).
Proof.
  intros Hs Ha Hf Hl Hty. unfold route_out. destruct (lpm _ _) as [rt|] eqn:Er; [|reflexivity].
  destruct (named s _) as [out|] eqn:Eo; [|reflexivity].
  destruct (malloc_ok _ _); [|reflexivity].
  pose proof (named_wf _ _ _ Hs Eo) as Ho. destruct (if_wf_addr _ Ho) as [Hol Hob].
  assert (12 <= length packet)%nat by (unfold eth_size in *; lia).
  destruct (_ !! _) as [x|] eqn:Ex.
  - destruct (entry_wf_mac _ (arp_map_wf _ _ _ (sr_wf_cache _ Hs) Ex)).
    apply send_silent; [by apply if_name_cstr|].
    apply ip_frame_asks. by rewrite frame_type_readdress.
  - apply wait_for_silent with a len; auto with sr.
    + rewrite length_setb. lia.
    + apply next_hop_u32; [by eapply lpm_wf; [apply Hs|]|apply Hf].
Qed.

Lemma abandon_silent a p s : sr_wf s → asked a s → pkt_wf p → silent s (abandon e s p).
Proof.
  intros Hs Ha Hp. unfold abandon, icmp_error. destruct (valid_ip _) eqn:Hv; [|reflexivity].
  destruct (icmp_source _ _ _) as [out|] eqn:Eo; [|reflexivity].
  destruct (malloc_ok _ _); [|reflexivity]. pose proof (icmp_source_wf _ _ _ _ Hs Eo) as Ho.
  pose proof (valid_ip_layout _ (proj1 (pkt_frame _ Hp)) Hv) as Hl.
  pose proof (icmp_error_frame_ok out (pkt_buf p) 3 1 Ho (proj1 (pkt_frame _ Hp)) Hl) as HF.
  apply route_out_silent with a 70; [done|done|by apply HF| |].
  - destruct HF as (_ & H & _); [done|done|]. unfold eth_size, ip_size. lia.
  - apply error_frame_type; [done|]. destruct Hl. lia.
Qed.

Lemma abandon_all_silent a l s :
  sr_wf s → asked a s → Forall pkt_wf l → silent s (foldl (abandon e) s l).
Proof.
  intros Hs Ha Hl. revert s Hs Ha. induction Hl as [|p l Hp _ IH]; intros s Hs Ha; [reflexivity|].
  destruct (give_up_run p e s Hs Hm Hp) as (_ & Hwf & Hg). cbn [foldl].
  transitivity (abandon e s p); [by apply abandon_silent with a|].
  apply IH; [done|]. eapply keeps_asked; [by eapply grows_keeps|done].
Qed.

(** The round of another request. *)
Lemma sweep_one_silent a b s :
  sr_wf s → asked a s → b ≠ a → silent s (sweep_one e s b).
Proof.
  intros Hs Ha Hne. unfold sweep_one. destruct (req_at b _) as [r|] eqn:Er; [|reflexivity].
  pose proof (req_at_some _ _ _ Er) as [Hin Hb]. pose proof (sr_wf_requests _ _ Hs Hin) as Hr.
  destruct (1 <=? _); [|reflexivity]. destruct (5 <=? _).
  - destruct (abandon_all_silent a (req_packets r) s Hs Ha (req_wf_packets _ Hr)) as (new & H & F).
    by exists new.
  - pose proof (req_wf_packets _ Hr) as Hps. destruct (req_packets r) as [|p l]; [reflexivity|].
    apply list.Forall_cons in Hps as [Hp _].
    destruct (arp_request_silent AllocSweepRequest (req_ip r) (pkt_iface p) s) as (new & H & F);
      [done|by apply name_ok_cstr, Hp|apply Hr| |by exists new].
    intros Hip. destruct Ha as (r' & [Hin' Ha']%req_at_some & Hip' & _).
    assert (r = r') as ->; [|congruence].
    pose proof (cache_wf_req_ips _ (sr_wf_cache _ Hs)) as Hnd.
    apply list_elem_of_lookup in Hin as [i Hi]. apply list_elem_of_lookup in Hin' as [j Hj].
    assert (i = j) as ->; [|congruence].
    eapply (list.NoDup_lookup _ _ _ nh Hnd); rewrite list_lookup_fmap; [rewrite Hi|rewrite Hj];
      cbn; congruence.
Qed.

(** The rounds of the other requests. *)
Lemma sweep_list_silent a todo pre s :
  sr_wf s → asked a s → addrs s = pre ++ todo → a ∉ todo →
  silent s (foldl (sweep_one e) s todo).
Proof.
  revert pre s. induction todo as [|b todo IH]; intros pre s Hs Ha Hadd Hni; [reflexivity|].
  apply not_elem_of_cons in Hni as [Hne Hni]. cbn [foldl].
  destruct (sweep_one_run b e s Hs Hm) as [_ Hwf].
  { rewrite Hadd. apply elem_of_app. right. left. }
  destruct (sweep_one_tail b e s pre todo Hs Hm Hadd) as [pre' Hp].
  transitivity (sweep_one e s b); [by apply sweep_one_silent with a|].
  apply (IH pre'); [done| |done|done].
  eapply keeps_asked; [by apply sweep_one_keeps|done].
Qed.
End quiet.
