(* ===== verification/Threads.v ===== *)
(** * The timer thread between the steps of a frame

    [sr_send_routed_ip_packet] queues a packet under the cache's lock and goes
    on with the request it was given after the lock was released.  Here a round
    of the timer thread comes between the two. *)

From stdpp Require Import gmap.
From S2P Require Import Sweep RouterTheorems SweepTheorems System Asked.

(** A request at the head of the queue has its round first. *)
Lemma sweep_first e s r rest :
  sr_wf s → mallocs_checked e → requests (cache s) = r :: rest →
  1 ≤ now e - req_sent r → req_times_sent r < 5 →
  ∃ r', req_at (req_addr r) (requests (cache (sweep e s))) = Some r' ∧
    older (now e) (mark_sent (now e) r) r'.
Proof.
  intros Hs Hm Hreq Hdue H5. pose proof (cache_wf_req_addrs _ (sr_wf_cache _ Hs)) as Hnd.
  assert (req_at (req_addr r) (requests (cache s)) = Some r) as Hr.
  { rewrite Hreq. simpl. by rewrite Nat.eqb_refl. }
  assert (addrs s = req_addr r :: (req_addr <$> rest)) as Ha by (unfold addrs; by rewrite Hreq).
  rewrite Hreq in Hnd. apply list.NoDup_cons in Hnd as [Hnot _].
  unfold sweep. rewrite Ha. cbn [foldl].
  destruct (sweep_one_run (req_addr r) e s Hs Hm) as [_ Hwf]; [rewrite Ha; left|].
  destruct (sweep_one_tail (req_addr r) e s [] _ Hs Hm Ha) as [q Hq].
  rewrite <- (app_nil_r (req_addr <$> rest)) in Hq.
  destruct (rounds e (req_addr <$> rest) [] _ q Hwf Hm Hq) as (_ & _ & Hk & _).
  apply (Hk _ Hnot). by apply sweep_one_resends.
Qed.

(** A request that was asked for and is not given up stays, and was asked for. *)
Lemma tick_keeps_asked a r e s :
  sr_wf s → mallocs_checked e → req_at a (requests (cache s)) = Some r →
  req_times_sent r ≠ 0 → (5 <=? req_times_sent r) && (1 <=? now e - req_sent r) = false →
  ∃ r', req_at a (requests (cache (tick e s))) = Some r' ∧ req_times_sent r' ≠ 0.
Proof.
  intros Hs Hm Hr Ht Hkeep. pose proof (req_at_some _ _ _ Hr) as [Hin <-].
  unfold tick. set (s1 := set_cache (expire_entries (now e) (cache s)) s).
  assert (sr_wf s1) as Hs1 by (apply set_cache_wf; [done|apply expire_wf, Hs]).
  pose proof (req_wf_times _ (sr_wf_requests _ _ Hs Hin)) as H5.
  destruct (sweep_around e s1 r Hs1 Hm Hin) as (s2 & r2 & Hs2 & Hr2 & Ho & Hk & _).
  destruct (older_clock _ _ _ Ho Ht) as [Hc1 Hc2].
  destruct (decide (1 ≤ now e - req_sent r)) as [Hdue|Hdue].
  - rewrite (proj2 (Z.leb_le 1 _)), andb_true_r in Hkeep by done. apply Z.leb_gt in Hkeep.
    pose proof (sweep_one_resends _ r2 e s2 Hs2 Hr2 ltac:(lia) ltac:(lia)) as Hr3.
    destruct (Hk _ Hr3) as (r' & Hr' & Ho'). exists r'. split; [done|].
    apply (older_asked _ _ _ Ho'). simpl. rewrite u32_small by (unfold is_u32; lia). lia.
  - rewrite (sweep_one_waits _ r2) in Hk by (done || lia).
    destruct (Hk _ Hr2) as (r' & Hr' & Ho'). exists r'. split; [done|].
    apply (older_asked _ _ _ Ho'). by rewrite Hc2.
Qed.

Lemma ask_asked a r iface e s :
  req_at a (requests (cache s)) = Some r → req_times_sent r ≠ 0 →
  ask_next_hop a iface e s = Ok (tt, s).
Proof.
  intros Hr Ht. unfold ask_next_hop. rewrite (bind_run _ _ _ _ _ _ (deref_req_run a r e s Hr)).
  by rewrite (proj2 (Z.eqb_neq _ 0) Ht).
Qed.

Lemma ask_gone a iface e s :
  gone a s → ask_next_hop a iface e s = Fault (Undefined UseAfterFree).
Proof.
  intros [Hni _]. unfold ask_next_hop. apply bind_fault. unfold deref_req, gets, mbind, M_bind.
  destruct (req_at a (requests (cache s))) as [r|] eqn:E; [|done].
  apply req_at_some in E as [Hin <-]. destruct Hni. by apply list_elem_of_fmap_2.
Qed.

(** What the frame's thread finds of a request that was sent before, a round
    later. *)
Lemma asked_round a r iface e1 e2 s :
  sr_wf s → mallocs_checked e1 → req_at a (requests (cache s)) = Some r →
  req_times_sent r ≠ 0 → 0 ≤ req_times_sent r ≤ 5 →
  ask_next_hop a iface e2 (tick e1 s) =
    if (5 <=? req_times_sent r) && (1 <=? now e1 - req_sent r)
    then Fault (Undefined UseAfterFree) else Ok (tt, tick e1 s).
Proof.
  intros Hs Hm Hr Hasked H5. destruct (_ && _) eqn:Eb.
  - apply andb_prop in Eb as [H5'%Z.leb_le Hdue%Z.leb_le]. apply ask_gone.
    destruct (tick_request _ _ e1 s Hs Hm Hr) as [Hg|[H _]]; [lia|lia|done|lia].
  - destruct (tick_keeps_asked _ _ e1 s Hs Hm Hr Hasked Eb) as (r' & Hr' & Ht').
    by apply ask_asked with r'.
Qed.

(** The round of a request that is new and at the head of the queue: the request
    for its address is the first message of the whole sweep, and the only one for
    that address. *)
Lemma sweep_asks_first e s r p rest out :
  sr_wf s → mallocs_checked e → writes_ok e → malloc_ok e AllocSweepRequest = true →
  requests (cache s) = r :: rest → req_packets r = [p] → req_times_sent r = 0 → req_sent r = 0 →
  1 ≤ now e → named s (pkt_iface p) = Some out →
  ∃ more, sent (sweep e s) =
      sent s ++ vns_packet (vns_name (pkt_iface p)) (arp_request_frame out (req_ip r)) :: more ∧
    Forall (λ m, asks (req_ip r) m = false) more.
Proof.
  intros Hs Hm Hw Hmal Hreq Hp H0 Hs0 Hnow Ho.
  pose proof (cache_wf_req_addrs _ (sr_wf_cache _ Hs)) as Hnd. rewrite Hreq in Hnd.
  apply list.NoDup_cons in Hnd as [Hnot _].
  assert (r ∈ requests (cache s)) as Hin by (rewrite Hreq; left).
  assert (req_at (req_addr r) (requests (cache s)) = Some r) as Hr.
  { rewrite Hreq. simpl. by rewrite Nat.eqb_refl. }
  assert (addrs s = req_addr r :: (req_addr <$> rest)) as Ha by (unfold addrs; by rewrite Hreq).
  pose proof (sr_wf_requests _ _ Hs Hin) as Hrwf.
  pose proof (req_wf_packets _ Hrwf) as Hpw. rewrite Hp in Hpw. apply list.Forall_cons in Hpw as [Hpw _].
  unfold sweep. rewrite Ha. cbn [foldl].
  destruct (sweep_one_run (req_addr r) e s Hs Hm) as [_ Hwf]; [rewrite Ha; left|].
  destruct (sweep_one_tail (req_addr r) e s [] _ Hs Hm Ha) as [q Hq].
  pose proof (sweep_one_resends _ r e s Hs Hr ltac:(lia) ltac:(lia)) as Hr1.
  destruct (sweep_list_silent (req_ip r) e Hm Hw (req_addr r) (req_addr <$> rest) q
    (sweep_one e s (req_addr r))) as (more & Hmore & Hf); [done| |done|done|].
  { exists (mark_sent (now e) r). split; [done|]. split; [done|]. simpl. by rewrite H0. }
  exists more. split; [|done]. rewrite Hmore. change (?a ++ ?b :: ?c) with (a ++ [b] ++ c).
  rewrite app_assoc. f_equal. unfold sweep_one. rewrite Hr, Hs0, H0, Hp.
  rewrite (proj2 (Z.leb_le _ _)) by lia. cbn [sent set_cache].
  change (5 <=? 0) with false. cbv iota. cbn [sent set_cache]. unfold arp_request.
  rewrite Hmal, Ho. rewrite (send_emit _ _ _ _ out); [done|done|by apply name_ok_cstr, Hpw|exact Ho|].
  pose proof (proj1 (if_wf_addr _ (named_wf _ _ _ Hs Ho))) as Hal. unfold ETHER_ADDR_LEN in Hal.
  unfold getb, arp_request_frame, arp_frame. cbn [f_off f_len ether_shost Nat.add].
  by apply slice_seg.
Qed.

(** C26: a round of the timer between queueing a packet and asking for its next
    hop.  A next hop that nobody waits for is asked for once all the same: the
    first message of the round is the ARP request for it, the round sends no
    other for that address, the request counts as sent once, and the frame's
    thread then sends none.  A request that was sent before is left as the round
    leaves it, unless the round gave it up (it was sent five times, the last time
    a second ago): then, and only then, the frame's thread goes on with a request
    that was freed. *)
Theorem timer_in_window (nh : Z) (frame : buf) (len : Z) (out : sr_if) (e e1 e2 : env)
    (s : sr_instance)
    (Hs : sr_wf s) (Hm : mallocs_checked e) (Hm1 : mallocs_checked e1)
    (Hf : frame_ok frame len) (Hmin : (eth_size <= length frame)%nat)
    (Ho : named s (if_name out) = Some out)
    (Hw1 : writes_ok e1) (Hmal1 : malloc_ok e1 AllocSweepRequest = true)
    (Hnh : is_u32 nh) (Hclock : 1 ≤ now e1)
    (Hasked : ∀ r, find_req nh (requests (cache s)) = Some r → req_times_sent r ≠ 0) :
  ∃ a s1 s2, sr_arpcache_queuereq nh (Some frame) len (Some (if_name out)) e s = Ok (a, s1) ∧
    timeout_tick e1 s1 = Ok (tt, s2) ∧ sr_wf s2 ∧
    match find_req nh (requests (cache s)) with
    | None =>
        (∃ more, sent s2 = sent s ++
             vns_packet (vns_name (if_name out)) (arp_request_frame out nh) :: more ∧
           Forall (λ m, asks nh m = false) more) ∧
        (∃ r, req_at a (requests (cache s2)) = Some r ∧ req_ip r = nh ∧
           req_times_sent r = 1 ∧ req_sent r = now e1) ∧
        ask_next_hop a (if_name out) e2 s2 = Ok (tt, s2)
    | Some r =>
        ask_next_hop a (if_name out) e2 s2 =
          if (5 <=? req_times_sent r) && (1 <=? now e1 - req_sent r)
          then Fault (Undefined UseAfterFree) else Ok (tt, s2)
    end.
Proof.
  pose proof (sr_wf_cache _ Hs) as Hc. pose proof (named_wf _ _ _ Hs Ho) as Howf.
  destruct (sr_arpcache_queuereq_run nh frame len (if_name out) e s Hc Hm Hf)
    as (n & Hcopy & Hrun); [destruct Hf as (_ & Hl & _); unfold eth_size in *; lia|
      by apply if_name_cstr|].
  pose proof (waiting_pkt_wf frame len (if_name out) Hf Hmin (if_wf_name _ Howf)) as Hp.
  unfold name_copy in Hp. rewrite Hcopy in Hp. simpl default in Hp.
  set (p := mk_packet frame len n) in *. set (a := queue_addr nh (cache s)) in *.
  set (s1 := set_cache (queue_packet nh p (cache s)) s) in *.
  assert (sr_wf s1) as Hs1 by (unfold s1; apply set_cache_wf, queue_packet_wf; done).
  destruct (tick_run e1 s1 Hs1 Hm1) as [Htick Hwf].
  exists a, s1, (tick e1 s1). split; [done|]. split; [done|]. split; [done|].
  unfold a, s1, queue_addr, queue_packet in *.
  destruct (find_req nh (requests (cache s))) as [r|] eqn:E.
  - specialize (Hasked r eq_refl). pose proof (find_req_some _ _ _ E) as [Hin _].
    assert (req_at (req_addr r) (requests (cache s1)) = Some (push_packet p r)) as Hr.
    { unfold s1. cbn [cache set_cache]. apply (req_at_update _ (push_packet p)); [|done].
      by apply req_at_elem; [apply Hc| |]. }
    apply (asked_round _ (push_packet p r) _ e1 e2 s1); try done.
    exact (req_wf_times _ (sr_wf_requests _ _ Hs Hin)).
  - set (r := mk_req (next_addr (cache s)) nh 0 0 [p]).
    set (s1' := set_cache (expire_entries (now e1) (cache s1)) s1).
    assert (sr_wf s1') as Hs1' by (apply set_cache_wf; [done|apply expire_wf, Hs1]).
    destruct (sweep_first e1 s1' r (requests (cache s))) as (r' & Hr' & Hold); simpl; try done; try lia.
    destruct (older_clock _ _ _ Hold) as [Hsent Htimes]; [done|]. simpl in Hsent, Htimes.
    split; [|split; [|apply ask_asked with r'; [exact Hr'|by rewrite Htimes]]].
    + destruct (sweep_asks_first e1 s1' r p (requests (cache s)) out) as (more & Hmore & Hfm);
        try done; [|].
      { destruct (strncpy_spec sr_IFACE_NAMELEN (if_name out)) as (d & Hd & _ & Hcn);
          [by apply if_name_cstr|]. assert (d = n) as -> by congruence.
        unfold named in *. cbn [pkt_iface p]. by rewrite Hcn. }
      exists more. split; [|done]. etransitivity; [exact Hmore|]. cbn [pkt_iface p req_ip r].
      unfold vns_name. rewrite (strncpy_copy VNS_NAMELEN sr_IFACE_NAMELEN (if_name out) n);
        [done|by apply Nat.leb_le|exact Hcopy].
    + exists r'. split; [exact Hr'|]. by rewrite (older_ip _ _ _ Hold).
Qed.

(** The request for the server was sent five times, the last time ten seconds
    ago; and nobody waits for it. *)
Lemma timer_in_window_witness :
  (∃ a s1 s2, sr_arpcache_queuereq server2_ip (Some transit) (Z.of_nat (length transit))
      (Some (if_name eth2)) env_ok (net_asked 5 100 parked) = Ok (a, s1) ∧
    timeout_tick env_ok s1 = Ok (tt, s2) ∧ sr_wf s2 ∧
    ask_next_hop a (if_name eth2) env_ok s2 = Fault (Undefined UseAfterFree)) ∧
  (∃ a s1 s2, sr_arpcache_queuereq server2_ip (Some transit) (Z.of_nat (length transit))
      (Some (if_name eth2)) env_ok net0 = Ok (a, s1) ∧
    timeout_tick env_ok s1 = Ok (tt, s2) ∧ sr_wf s2 ∧
    (∃ more, sent s2 = sent net0 ++
         vns_packet (vns_name (if_name eth2)) (arp_request_frame eth2 server2_ip) :: more ∧
       Forall (λ m, asks server2_ip m = false) more) ∧
    (∃ r, req_at a (requests (cache s2)) = Some r ∧ req_ip r = server2_ip ∧
       req_times_sent r = 1 ∧ req_sent r = now env_ok) ∧
    ask_next_hop a (if_name eth2) env_ok s2 = Ok (tt, s2)).
Proof.
  split.
  - apply (timer_in_window server2_ip transit (Z.of_nat (length transit)) eth2 env_ok env_ok
      env_ok (net_asked 5 100 parked));
      first [by apply net_asked_wf; [lia|apply parked_wf] | by split | by apply Z.leb_le | demo | idtac].
    intros r Hr. vm_compute in Hr. injection Hr as <-. done.
  - apply (timer_in_window server2_ip transit (Z.of_nat (length transit)) eth2 env_ok env_ok
      env_ok net0);
      first [by apply net0_wf | by split | by apply Z.leb_le | demo | idtac].
    by intros r Hr.
Defined.

(** The same run, evaluated: the request is freed before it is used. *)
Example window_uses_freed_request :
  match sr_arpcache_queuereq server2_ip (Some transit) (Z.of_nat (length transit))
          (Some (if_name eth2)) env_ok (net_asked 5 100 parked) with
  | Ok (a, s1) =>
      match timeout_tick env_ok s1 with
      | Ok (_, s2) => ask_next_hop a (if_name eth2) env_ok s2 = Fault (Undefined UseAfterFree)
      | Fault _ => False
      end
  | Fault _ => False
  end.
Proof. by vm_compute. Qed.
