(* ===== verification/TypeTheorems.v ===== *)
(** * The type of the messages

    Whatever frames arrive and whenever the timer has its rounds, what they add
    to the messages to the server are complete packets of the protocol; and the
    messages that open a session are complete too. *)

From stdpp Require Import gmap.
From S2P Require Import VnsSpec Commands Sweep RouterTheorems SweepTheorems System.

(** [c_packet_header] and a frame: bytes, the message's own length in network
    byte order, the type [VNSPACKET], a name of 16 bytes, and no less than an
    Ethernet header behind it. *)
Record packet_typed (m : buf) : Prop := {
  typed_bytes : bytes_ok m;
  typed_min : (c_packet_header_size + eth_size <= length m)%nat;
  typed_max : Z.of_nat (length m) < MAX_FRAME + Z.of_nat c_packet_header_size;
  typed_len : ntohl (get 0 mLen m) = Z.of_nat (length m);
  typed_type : ntohl (get 0 mType m) = VNSPACKET
}.

(** A message of the protocol of any type: its length field is its own length. *)
Record message_typed (ty : Z) (m : buf) : Prop := {
  message_bytes_ok : bytes_ok m;
  message_whole : (c_base_size <= length m)%nat ∧ ntohl (get 0 mLen m) = Z.of_nat (length m);
  message_type : ntohl (get 0 mType m) = ty
}.

(** After the messages [pre], only packets were written. *)
Definition typed_since (pre : list buf) (s : sr_instance) : Prop :=
  ∃ new, sent s = pre ++ new ∧ Forall packet_typed new.

Lemma vns_packet_typed name16 frame len :
  length name16 = VNS_NAMELEN → bytes_ok name16 → frame_ok frame len →
  (eth_size <= length frame)%nat → packet_typed (vns_packet name16 frame).
Proof.
  intros Hn Hnb (Hb & Hl & Hmax) Hmin. pose proof (length_vns_packet name16 frame Hn) as Hlen.
  split.
  - unfold vns_packet. bytes.
  - rewrite Hlen. unfold c_packet_header_size. lia.
  - rewrite Hlen. unfold c_packet_header_size. lia.
  - rewrite Hlen. unfold get, vns_packet. cbn [mLen f_off f_len Nat.add].
    pose proof (ntohl_bound (Z.of_nat (length frame) + 24)) as Hu.
    assert (ntohl (htonl (Z.of_nat (length frame) + 24)) = Z.of_nat (length frame) + 24) as Hn32
      by (apply ntohl_involutive; unfold is_u32, MAX_FRAME in *; lia).
    pose proof (slice_seg 0 4 [] (le_enc 4 (htonl (Z.of_nat (length frame) + 24)))
      (le_enc 4 (htonl VNSPACKET) ++ name16 ++ frame) eq_refl eq_refl) as Hs.
    cbn [app] in Hs. rewrite Hs, le_dec_enc, Hn32 by exact Hu. lia.
  - unfold get, vns_packet. cbn [mType f_off f_len Nat.add].
    by rewrite (slice_seg 4 4 (le_enc 4 _)) by (by rewrite ?length_le_enc).
Qed.

Section typed.
Context (e : env) (Hm : mallocs_checked e) (Hw : writes_ok e) (earlier : list buf).
Implicit Types s : sr_instance.
Notation typed := (typed_since earlier).

Lemma send_typed b len iface s :
  frame_ok b len → (eth_size <= length b)%nat → cstr_ok sr_IFACE_NAMELEN iface → bytes_ok iface →
  typed s → typed (send e b iface s).
Proof.
  intros Hf Hmin Hi Hib [new [Hs Ht]]. unfold typed_since, send, send_result.
  destruct (iface_named _ _); [|cbn [snd]; rewrite log_frame_sent; by exists new].
  destruct (bool_decide _); cbn [snd]; [|rewrite log_frame_sent; by exists new].
  rewrite Hw. destruct (0 <? _); [|rewrite log_frame_sent; by exists new]. cbn [sent set_sent].
  rewrite log_frame_sent, Nat2Z.id, firstn_all, Hs. eexists. rewrite <- app_assoc.
  split; [done|]. apply Forall_app. split; [done|]. constructor; [|done]. apply (vns_packet_typed _ _ len); [by apply length_vns_name| |done|done].
  unfold vns_name. destruct (strncpy _ _) as [n|] eqn:E; [|constructor].
  by eapply strncpy_bytes_ok.
Qed.

Lemma if_name_typed s iface out : sr_wf s → named s iface = Some out →
  if_wf out ∧ cstr_ok sr_IFACE_NAMELEN (if_name out) ∧ bytes_ok (if_name out).
Proof.
  intros Hs Ho. pose proof (named_wf _ _ _ Hs Ho) as Hwf. split; [done|].
  split; [by apply if_name_cstr|apply Hwf].
Qed.

Lemma arp_reply_typed packet iface s :
  sr_wf s → cstr_ok sr_IFACE_NAMELEN iface → bytes_ok iface → bytes_ok packet →
  (eth_size + arp_size <= length packet)%nat → typed s → typed (arp_reply e packet iface s).
Proof.
  intros Hs Hi Hib Hb Hl Ht. unfold arp_reply. destruct (malloc_ok _ _); [|done].
  destruct (named s iface) as [out|] eqn:Ho; [|done].
  pose proof (if_wf_addr _ (named_wf _ _ _ Hs Ho)) as Ha.
  assert (mac_ok (getb eth_size ar_sha packet)) as Hsha by (by apply getb_mac_ok; [|fits|]).
  destruct (arp_frame_ok (getb eth_size ar_sha packet) (if_addr out) arp_op_reply (if_addr out)
    (if_ip out) (getb eth_size ar_sha packet) (get eth_size ar_sip packet)) as [Hfl Hfb]; try done.
  apply (send_typed _ 42); try done.
  - split; [done|]. unfold arp_reply_frame. rewrite Hfl. done.
  - unfold arp_reply_frame. rewrite Hfl. unfold eth_size. lia.
Qed.

Lemma arp_request_typed site ip iface s :
  sr_wf s → cstr_ok sr_IFACE_NAMELEN iface → bytes_ok iface → typed s →
  typed (arp_request e site ip iface s).
Proof.
  intros Hs Hi Hib Ht. unfold arp_request. destruct (malloc_ok _ _); [|done].
  destruct (named s iface) as [out|] eqn:Ho; [|done].
  pose proof (if_wf_addr _ (named_wf _ _ _ Hs Ho)) as Ha.
  destruct (arp_frame_ok broadcast (if_addr out) arp_op_request (if_addr out)
    (if_ip out) (replicate ETHER_ADDR_LEN 0) ip) as [Hfl Hfb]; try done; [auto with sr..|].
  apply (send_typed _ 42); try done.
  - split; [done|]. unfold arp_request_frame. rewrite Hfl. done.
  - unfold arp_request_frame. rewrite Hfl. unfold eth_size. lia.
Qed.

Lemma waiting_typed sha l s :
  sr_wf s → mac_ok sha → Forall pkt_wf l → typed s → typed (foldl (send_waiting e sha) s l).
Proof.
  intros Hs Hsha Hl. revert s Hs. induction Hl as [|p l Hp _ IH]; intros s Hs Ht; [done|].
  cbn [foldl]. destruct (send_waiting_run sha p e s Hs Hm Hsha Hp) as [_ Hwf].
  apply IH; [done|]. unfold send_waiting. destruct (named s (pkt_iface p)) as [out|] eqn:Ho; [|done].
  pose proof (if_wf_addr _ (named_wf _ _ _ Hs Ho)) as Ha. destruct Hp as [Hb Hlen Hmax Hmin Hn].
  destruct (readdress_frame sha (if_addr out) (pkt_buf p) (pkt_len p)) as [Hf Hlr]; try done.
  apply (send_typed _ (pkt_len p)); [done|done|by apply name_ok_cstr|apply Hn|done].
Qed.

Lemma learn_typed packet s :
  sr_wf s → bytes_ok packet → (eth_size + arp_size <= length packet)%nat → typed s →
  typed (learn e packet s).
Proof.
  intros Hs Hb Hl Ht. unfold learn.
  assert (mac_ok (getb eth_size ar_sha packet)) as Hsha by (by apply getb_mac_ok; [|fits|]).
  destruct (find_req _ _) as [r|] eqn:E; [|done]. apply find_req_some in E as [Hin _].
  apply waiting_typed; [|done|apply (sr_wf_requests _ _ Hs Hin)|done].
  apply set_cache_wf; [done|]. apply insert_cache_wf; [apply Hs|done|by apply le_dec_u32].
Qed.

Lemma handle_arp_typed packet iface s :
  sr_wf s → cstr_ok sr_IFACE_NAMELEN iface → bytes_ok iface → bytes_ok packet → typed s →
  typed (handle_arp e packet iface s).
Proof.
  intros Hs Hi Hib Hb Ht. unfold handle_arp. destruct (Nat.ltb_spec (length packet) (eth_size + arp_size)) as [|Hl]; [done|].
  destruct (named s iface) as [recv|]; [|done]. destruct (_ =? 0); [done|].
  pose proof (learn_typed packet s Hs Hb Hl Ht) as Hlearn.
  destruct (learn_run packet e s Hs Hm Hb Hl) as [_ Hwf].
  destruct (_ =? arp_op_request).
  - destruct (_ =? if_ip recv); [by apply arp_reply_typed|done].
  - destruct (_ =? arp_op_reply); [|done]. by destruct (is_router_ip _ _).
Qed.

Lemma queued_wf nh frame len out s :
  sr_wf s → frame_ok frame len → (eth_size <= length frame)%nat → if_wf out → is_u32 nh →
  sr_wf (set_cache (queue_packet nh
    (mk_packet frame (Z.of_nat (length frame)) (name_copy sr_IFACE_NAMELEN (if_name out)))
    (cache s)) s).
Proof.
  intros Hs Hf Hmin Ho Hnh. apply set_cache_wf; [done|]. apply queue_packet_wf; [apply Hs|done|].
  rewrite (proj1 (proj2 Hf)). by apply waiting_pkt_wf; [| |apply Ho].
Qed.

Lemma wait_for_typed nh frame len out s :
  sr_wf s → frame_ok frame len → (eth_size <= length frame)%nat → if_wf out → is_u32 nh →
  typed s → typed (wait_for e nh frame (if_name out) s).
Proof.
  intros Hs Hf Hmin Ho Hnh Ht. pose proof (queued_wf nh frame len out s Hs Hf Hmin Ho Hnh) as Hq.
  unfold wait_for. destruct (_ =? 0); [|done]. unfold typed_since. cbn [sent set_cache].
  apply arp_request_typed; [done|by apply if_name_cstr|apply Ho|done].
Qed.

Lemma route_out_typed packet len s :
  sr_wf s → frame_ok packet len → (eth_size + ip_size <= length packet)%nat → typed s →
  typed (route_out e packet s).
Proof.
  intros Hs Hf Hl Ht. unfold route_out. assert (eth_size <= length packet)%nat as Hle by lia.
  destruct (lpm _ _) as [rt|] eqn:Ert; [|done].
  assert (rt_wf rt) as Hrt by (eapply lpm_wf; [apply Hs|done]).
  destruct (named s (rt_interface rt)) as [out|] eqn:Eo; [|done].
  destruct (if_name_typed _ _ _ Hs Eo) as (Ho & Hoc & Hob). pose proof (if_wf_addr _ Ho) as Ha.
  destruct (malloc_ok e AllocForward); [|done]. destruct (arp_map _ !! _) as [x|] eqn:Ex.
  - pose proof (entry_wf_mac _ (arp_map_wf _ _ _ (sr_wf_cache _ Hs) Ex)) as Hx.
    destruct (readdress_frame (ent_mac x) (if_addr out) packet len) as [Hf' Hl']; try done.
    by apply (send_typed _ len).
  - apply (wait_for_typed _ _ len); try done.
    + apply setb_frame; [done|apply Ha].
    + by rewrite length_setb.
    + by apply next_hop_u32; [|apply Hf].
Qed.

Lemma icmp_error_typed packet len type code s :
  sr_wf s → frame_ok packet len → is_u8 type → is_u8 code → typed s →
  typed (icmp_error e packet type code s).
Proof.
  intros Hs Hf Hty Hc Ht. unfold icmp_error. destruct (valid_ip packet) eqn:Hv; [|done].
  destruct (icmp_source s packet _) as [out|] eqn:Eo; [|done].
  destruct (malloc_ok _ _); [|done]. pose proof (icmp_source_wf _ _ _ _ Hs Eo) as Ho.
  pose proof (valid_ip_layout _ (proj1 Hf) Hv) as Hl.
  pose proof (icmp_error_frame_ok out packet type code Ho (proj1 Hf) Hl Hty Hc) as Hfr.
  apply (route_out_typed _ 70); [done|done| |done].
  destruct Hfr as (_ & Hlen & _). unfold eth_size, ip_size. lia.
Qed.

Lemma echo_reply_typed packet len iface s :
  sr_wf s → cstr_ok sr_IFACE_NAMELEN iface → bytes_ok iface → frame_ok packet len →
  ip_layout packet → typed s → typed (echo_reply e packet iface s).
Proof.
  intros Hs Hi Hib Hf Hl Ht. pose proof (layout_frame _ Hl) as Hfr. unfold echo_reply.
  assert (eth_size <= length packet)%nat as Hle by lia.
  destruct (malloc_ok _ _); [|done]. destruct (named s iface) as [out|] eqn:Ho; [|done].
  pose proof (if_wf_addr _ (named_wf _ _ _ Hs Ho)) as Ha.
  assert (mac_ok (getb 0 ether_shost packet)) as Hsm by (by apply getb_mac_ok; [|fits|apply Hf]).
  destruct (readdress_frame (getb 0 ether_shost packet) (if_addr out) packet len) as [[Hb [Hlen Hmax]] Hl'];
    try done.
  assert (length (echo_reply_frame out packet) =
    length (readdress (getb 0 ether_shost packet) (if_addr out) packet)) as Hel.
  { unfold echo_reply_frame. by rewrite length_turn_icmp, length_turn_ip. }
  apply (send_typed _ len); [|by rewrite Hel|done|done|done].
  split; [|by rewrite Hel]. unfold echo_reply_frame. auto with sr.
Qed.

Lemma handle_ip_typed packet len iface s :
  sr_wf s → cstr_ok sr_IFACE_NAMELEN iface → bytes_ok iface → frame_ok packet len → typed s →
  typed (handle_ip e packet iface s).2.
Proof.
  intros Hs Hi Hib Hf Ht. unfold handle_ip. destruct (valid_ip packet) eqn:Hv; [|done]. cbn [negb].
  pose proof (valid_ip_layout _ (proj1 Hf) Hv) as Hl. pose proof (layout_frame _ Hl) as Hfr.
  destruct (is_router_ip _ _); cbn [snd].
  - unfold deliver. destruct (_ && _).
    + destruct (is_echo_request _); [by apply (echo_reply_typed _ len)|done].
    + destruct (_ || _); [by apply (icmp_error_typed _ len)|done].
  - destruct (_ <=? 1); cbn [snd]; [by apply (icmp_error_typed _ len)|].
    assert (frame_ok (dec_ttl packet) len) as Hfd.
    { split; [by apply dec_ttl_ok, Hf|]. rewrite length_dec_ttl. apply Hf. }
    unfold forward. destruct (lpm _ _); [|by apply (icmp_error_typed _ len)].
    apply (route_out_typed _ len); [done|done| |done]. by rewrite length_dec_ttl.
Qed.

Lemma handle_frame_typed packet len iface s :
  sr_wf s → cstr_ok sr_IFACE_NAMELEN iface → bytes_ok iface → frame_ok packet len → typed s →
  typed (handle_frame e packet iface s).2.
Proof.
  intros Hs Hi Hib Hf Ht. unfold handle_frame. destruct (_ <? _)%nat; [done|].
  destruct (_ =? ethertype_arp); [apply handle_arp_typed; (done || apply Hf)|].
  destruct (_ =? ethertype_ip); [by apply (handle_ip_typed _ len)|done].
Qed.

(** ** The timer *)

Lemma abandon_all_typed l s :
  sr_wf s → Forall pkt_wf l → typed s → typed (foldl (abandon e) s l).
Proof.
  intros Hs Hl. revert s Hs. induction Hl as [|p l Hp _ IH]; intros s Hs Ht; [done|]. cbn [foldl].
  destruct (give_up_run p e s Hs Hm Hp) as (_ & Hwf & _). apply IH; [done|].
  by apply (icmp_error_typed _ (pkt_len p)); [|apply pkt_frame| | |].
Qed.

Lemma sweep_one_typed a s : sr_wf s → typed s → typed (sweep_one e s a).
Proof.
  intros Hs Ht. unfold sweep_one. destruct (req_at _ _) as [r|] eqn:Er; [|done].
  apply req_at_some in Er as [Hin _]. pose proof (sr_wf_requests _ _ Hs Hin) as Hr.
  destruct (1 <=? _); [|done]. destruct (5 <=? _).
  - unfold typed_since. cbn [sent set_cache]. by apply abandon_all_typed; [|apply Hr|].
  - pose proof (req_wf_packets _ Hr) as Hps. destruct (req_packets r) as [|p l]; [done|].
    apply list.Forall_cons in Hps as [Hp _]. unfold typed_since. cbn [sent set_cache].
    apply arp_request_typed; [done|apply name_ok_cstr, Hp|apply (pkt_wf_iface _ Hp)|done].
Qed.

Lemma sweep_list_typed todo pre s :
  sr_wf s → addrs s = pre ++ todo → typed s → typed (foldl (sweep_one e) s todo).
Proof.
  revert pre s. induction todo as [|a todo IH]; intros pre s Hs Ha Ht; [done|]. cbn [foldl].
  destruct (sweep_one_run a e s Hs Hm) as [_ Hwf].
  { rewrite Ha. apply elem_of_app. right. left. }
  destruct (sweep_one_tail a e s pre todo Hs Hm Ha) as [pre' Hp].
  apply (IH pre'); [done|done|by apply sweep_one_typed].
Qed.

Lemma tick_typed s : sr_wf s → typed s → typed (tick e s).
Proof.
  intros Hs Ht. unfold tick, sweep. apply (sweep_list_typed _ []); [|done|done].
  apply set_cache_wf; [done|apply expire_wf, Hs].
Qed.
End typed.

(** A packet command. *)
Lemma packet_in_typed pre n f e s :
  sr_wf s → mallocs_checked e → writes_ok e → packet_message s n f →
  typed_since pre s → typed_since pre (packet_in e (n ++ f) f s).
Proof.
  intros Hs Hm Hw [(Hn & Hnb & H0) [Hfb Hfl] _] Ht. unfold packet_in, frame_effect.
  destruct (arp_for_other _ _ _); [done|].
  apply (handle_frame_typed e Hm Hw pre f (Z.of_nat (length f))).
  - by rewrite <- log_frame_core.
  - right. apply elem_of_app. by left.
  - by apply bytes_ok_app.
  - split; [done|]. unfold MAX_FRAME. lia.
  - unfold typed_since. by rewrite log_frame_sent.
Qed.

Lemma deliver_all_typed pre (e : venv) t ps s :
  session_ok e → (∀ t, writes_ok (base e t)) → sr_wf s → packets_ok s ps →
  typed_since pre s → typed_since pre (deliver_all e t ps s).
Proof.
  intros He Hw. revert t s. induction ps as [|[n f] ps IH]; intros t s Hs Hps Ht; [done|].
  apply list.Forall_cons in Hps as [Hp Hps]. cbn [deliver_all].
  destruct (packet_in_run n f (base e t) s) as [Hwf Hev]; [done|apply He|done|].
  apply IH; [done|by eapply packets_ok_evolves|]. apply packet_in_typed; [done|apply He|done..].
Qed.

(** What the environment promises about an event, with a socket that takes
    whole messages. *)
Definition event_typed (ev : event) : Prop :=
  event_ok ev ∧
  match ev with
  | EvFrame e _ _ iface => writes_ok e ∧ bytes_ok iface
  | EvTick e => writes_ok e
  end.

(** C11: whatever frames and rounds of the timer come, in whatever order, what
    they add to the messages written to the server is a sequence of whole packet
    messages: bytes, each message's length field its own length, its type
    [VNSPACKET], and at least an Ethernet header behind the name of the
    interface. *)
Theorem run_typed (evs : list event) (s : sr_instance)
    (Hs : sr_wf s) (Hev : Forall event_typed evs) :
  ∃ s' new, run evs s = Ok s' ∧ sr_wf s' ∧ sent s' = sent s ++ new ∧ Forall packet_typed new.
Proof.
  assert (∃ s', run evs s = Ok s' ∧ sr_wf s' ∧ typed_since (sent s) s') as (s' & ? & ? & new & ?);
    [|by exists s', new].
  assert (typed_since (sent s) s) as Ht by (exists []; by rewrite app_nil_r).
  revert Hs Ht. generalize (sent s) as pre. intros pre. revert s.
  induction Hev as [|ev evs [Hev Hw] _ IH]; intros s Hs Ht; [by exists s|].
  cbn [run]. destruct (step_run ev s Hs Hev) as [-> Hwf]. apply IH; [done|].
  destruct ev as [e packet len iface|e]; cbn [after].
  - destruct Hev as (Hm & Hf & Hi), Hw as [Hw Hib]. by apply handle_frame_typed with len.
  - by apply tick_typed.
Qed.

(** A packet that waits, the answer for its next hop, and a round of the timer,
    after the answer to a challenge was written. *)
Definition after_login : sr_instance := set_sent [auth_reply [118; 110; 115] [1; 2] [3]] net0.

Lemma run_typed_witness :
  ∃ s' new, run [EvFrame env_ok transit (Z.of_nat (length transit)) eth3_name;
      EvTick (env_at 111)] after_login = Ok s' ∧ sr_wf s' ∧
    sent s' = sent after_login ++ new ∧ Forall packet_typed new.
Proof.
  apply (run_typed [EvFrame env_ok transit (Z.of_nat (length transit)) eth3_name;
    EvTick (env_at 111)] after_login); [by destruct net0_wf|].
  apply Forall_cons_2; [|apply Forall_cons_2; [|by apply Forall_nil_2]].
  - split; [split; [demo|split; demo]|]. split; [demo|demo].
  - split; [by intros ? ?|by intros ?].
Defined.

(** ** The messages of the handshake *)

Lemma message_typed_intro ty m n rest :
  is_u32 ty → m = le_enc 4 (htonl (Z.of_nat n)) ++ le_enc 4 (htonl ty) ++ rest →
  length m = n → Z.of_nat n < 2 ^ 32 → bytes_ok rest → message_typed ty m.
Proof.
  intros Hty Hm Hn Hlt Hr. assert (∀ z, is_u32 z → ntohl (le_dec (le_enc 4 (htonl z))) = z) as Hz.
  { intros z Hz. rewrite le_dec_enc by exact (ntohl_bound z). by apply ntohl_involutive. }
  split.
  - rewrite Hm. bytes.
  - split; [rewrite Hm, !length_app, !length_le_enc; unfold c_base_size; lia|].
    unfold get. cbn [mLen f_off f_len Nat.add]. rewrite Hm at 1.
    assert (∀ w, slice 0 4 (le_enc 4 w ++ le_enc 4 (htonl ty) ++ rest) = le_enc 4 w) as ->
      by (intros w; apply (slice_seg 0 4 []); by rewrite ?length_le_enc).
    rewrite Hz by (unfold is_u32; lia). by rewrite Hn.
  - unfold get. cbn [mType f_off f_len Nat.add]. rewrite Hm.
    by rewrite (slice_seg 4 4 (le_enc 4 _)), Hz by (done || by rewrite ?length_le_enc).
Qed.

Lemma auth_reply_typed name salt key :
  bytes_ok name → (length name < 32)%nat → message_typed VNS_AUTH_REPLY (auth_reply name salt key).
Proof.
  intros Hb Hl. pose proof (length_digest_bytes (sha1 (salt ++ key))) as Hd.
  eapply (message_typed_intro _ _ (12 + length name + SHA1_LEN)); [done|done| | |].
  - unfold auth_reply. rewrite !length_app, !length_le_enc, Hd. lia.
  - unfold SHA1_LEN. lia.
  - apply bytes_ok_app; [apply le_enc_ok|]. apply bytes_ok_app; [done|]. apply digest_bytes_ok.
Qed.

Lemma open_typed s :
  length (name_copy IDSIZE (host s)) = IDSIZE → length (name_copy IDSIZE (user s)) = IDSIZE →
  bytes_ok (name_copy IDSIZE (host s)) → bytes_ok (name_copy IDSIZE (user s)) →
  message_typed VNSOPEN (open_bytes s).
Proof.
  intros H1 H2 H3 H4. eapply (message_typed_intro _ _ 108); [done|done| |done|].
  - unfold open_bytes. rewrite !length_app, !length_le_enc, H1, H2, length_replicate. done.
  - apply bytes_ok_app; [apply le_enc_ok|]. bytes.
Qed.
