(* ===== verification/Thread.v ===== *)
(** * Programs of actions

    A thread that works on a state it shares with another is a program of
    actions; between two actions the other thread may come.  The other thread
    here is the timer's, whose rounds hold the cache's lock and are one step. *)

From S2P Require Export Instance.

(** ** Programs *)

Inductive thread (E S A : Type) : Type :=
  | Done (a : A)
  | Act {B : Type} (m : M E S B) (k : B → thread E S A).
Arguments Done {E S A} a.
Arguments Act {E S A B} m k.

(** One round of the timer, in its own environment, as a step on the state [S]. *)
Class Timer (E S : Type) := timer_round : env → M E S unit.

Section thread.
Context {E S : Type}.

Fixpoint thread_bind {A B} (k : A → thread E S B) (t : thread E S A) : thread E S B :=
  match t with
  | Done a => k a
  | Act m k' => Act m (λ b, thread_bind k (k' b))
  end.

#[export] Instance thread_mret : MRet (thread E S) := @Done E S.
#[export] Instance thread_mbind : MBind (thread E S) := @thread_bind.

(** A call or an access that nothing comes between. *)
Definition act {B} (m : M E S B) : thread E S B := Act m Done.

Fixpoint each {A} (l : list A) (body : A → thread E S unit) : thread E S unit :=
  match l with
  | [] => mret tt
  | x :: l' => body x;; each l' body
  end.

(** ** Runs *)

(** With no other thread. *)
Fixpoint alone {A} (t : thread E S A) : M E S A :=
  match t with
  | Done a => mret a
  | Act m k => b ← m; alone (k b)
  end.

Fixpoint timer_rounds `{!Timer E S} (es : list env) : M E S unit :=
  match es with
  | [] => mret tt
  | e' :: es' => timer_round e';; timer_rounds es'
  end.

(** The schedule gives the rounds before each action, and those after the
    last. *)
Fixpoint interleaved `{!Timer E S} {A} (t : thread E S A) (schedule : list (list env))
    : M E S A :=
  timer_rounds (hd [] schedule);;
  match t with
  | Done a => mret a
  | Act m k => b ← m; interleaved (k b) (tl schedule)
  end.

Lemma interleaved_alone `{!Timer E S} {A} (t : thread E S A) e s :
  interleaved t [] e s = alone t e s.
Proof.
  revert s. induction t as [a|B m k IH]; intros s; [done|]. simpl.
  unfold mbind, M_bind. simpl. destruct (m e s) as [[b s']|f]; [apply IH|done].
Qed.

(** A schedule without rounds. *)
Lemma interleaved_no_rounds `{!Timer E S} {A} (t : thread E S A) schedule e s :
  concat schedule = [] → interleaved t schedule e s = alone t e s.
Proof.
  revert schedule s. induction t as [a|B m k IH]; intros sch s Hsch;
    (assert (hd [] sch = [] ∧ concat (tl sch) = []) as [Hh Ht]
      by (destruct sch as [|es sch]; [done|]; by apply app_nil in Hsch));
    cbn [interleaved alone]; rewrite Hh; unfold mbind, M_bind; cbn [timer_rounds]; [done|].
  unfold mret, M_ret. destruct (m e s) as [[b s']|f]; [by apply IH|done].
Qed.

(** ** Equal runs *)

Definition same_run {A} (m m' : M E S A) : Prop := ∀ e s, m e s = m' e s.

#[export] Instance same_run_equiv {A} : Equivalence (@same_run A).
Proof.
  split; [by intros m e s|by intros m m' H e s|].
  intros m1 m2 m3 H1 H2 e s. by rewrite H1.
Qed.

Lemma same_refl {A} (m : M E S A) : same_run m m.
Proof. done. Qed.

Lemma same_bind {A B} (m m' : M E S A) (k k' : A → M E S B) :
  same_run m m' → (∀ a, same_run (k a) (k' a)) → same_run (m ≫= k) (m' ≫= k').
Proof.
  intros Hm Hk e s. unfold mbind, M_bind. rewrite Hm. destruct (m' e s) as [[a s']|f]; [apply Hk|done].
Qed.

Lemma bind_assoc {A B C} (m : M E S A) (k : A → M E S B) (k' : B → M E S C) :
  same_run ((m ≫= k) ≫= k') (m ≫= λ a, k a ≫= k').
Proof. intros e s. unfold mbind, M_bind. by destruct (m e s) as [[a s']|f]. Qed.

Lemma alone_bind {A B} (t : thread E S A) (k : A → thread E S B) :
  same_run (alone (t ≫= k)) (alone t ≫= λ a, alone (k a)).
Proof.
  induction t as [a|C m k' IH]; intros e s; [done|].
  change (alone (Act m k' ≫= k) e s) with ((m ≫= λ b, alone (k' b ≫= k)) e s).
  simpl. unfold mbind, M_bind. destruct (m e s) as [[b s']|f]; [|done].
  rewrite IH. done.
Qed.

Lemma alone_act {B} (m : M E S B) : same_run (alone (act m)) m.
Proof. intros e s. simpl. unfold mbind, M_bind. by destruct (m e s) as [[b s']|f]. Qed.

(** The run of a program is the run of the function it was made from when its
    actions are that function's calls. *)
Lemma alone_act_bind {A B} (m : M E S B) (k : B → thread E S A) k' :
  (∀ b, same_run (alone (k b)) (k' b)) → same_run (alone (act m ≫= k)) (m ≫= k').
Proof. intros H. apply (same_bind m m); [done|exact H]. Qed.

Lemma alone_act_eq {A B} (m : M E S B) (k : B → thread E S A) :
  same_run (alone (act m ≫= k)) (m ≫= λ b, alone (k b)).
Proof. apply alone_act_bind. intros b. apply same_refl. Qed.

Lemma alone_call {A B} (t : thread E S B) m (k : B → thread E S A) k' :
  same_run (alone t) m → (∀ b, same_run (alone (k b)) (k' b)) →
  same_run (alone (t ≫= k)) (m ≫= k').
Proof. intros Ht Hk. etransitivity; [apply alone_bind|]. by apply same_bind. Qed.

Lemma alone_each {A} (l : list A) (body : A → thread E S unit) body' :
  (∀ x, same_run (alone (body x)) (body' x)) → same_run (alone (each l body)) (for_each l body').
Proof. intros H. induction l as [|x l IH]; [done|]. by apply alone_call. Qed.

(** A schedule of a sequence of two programs is one for the first and one for
    the second. *)
Lemma interleaved_bind `{!Timer E S} {A B} (t : thread E S A) (k : A → thread E S B) schedule e s :
  ∃ n, interleaved (t ≫= k) schedule e s =
    (a ← interleaved t (take n schedule); interleaved (k a) (drop n schedule)) e s.
Proof.
  revert schedule s. induction t as [a|C m k' IH]; intros sch s.
  { exists 0%nat. done. }
  change (Act m k' ≫= k) with (Act m (λ b, k' b ≫= k)). cbn [interleaved].
  destruct (timer_rounds (hd [] sch) e s) as [[[] s1]|f] eqn:Hr.
  2:{ exists 1%nat. destruct sch as [|es sch]; [done|].
      rewrite (bind_fault _ _ _ _ _ Hr). symmetry. apply bind_fault. cbn [take interleaved hd].
      by apply bind_fault. }
  destruct (m e s1) as [[b s2]|f] eqn:Hm.
  - destruct (IH b (tl sch) s2) as [n Hn]. exists (Datatypes.S n).
    rewrite (bind_run _ _ _ _ _ _ Hr), (bind_run _ _ _ _ _ _ Hm), Hn.
    assert (interleaved (Act m k') (take (Datatypes.S n) sch) e s =
      interleaved (k' b) (take n (tl sch)) e s2) as Heq.
    { cbn [interleaved].
      replace (hd [] (take (Datatypes.S n) sch)) with (hd [] sch) by by destruct sch.
      replace (tl (take (Datatypes.S n) sch)) with (take n (tl sch)) by (destruct sch; [by destruct n|done]).
      by rewrite (bind_run _ _ _ _ _ _ Hr), (bind_run _ _ _ _ _ _ Hm). }
    replace (drop (Datatypes.S n) sch) with (drop n (tl sch)) by (destruct sch; [by destruct n|done]).
    unfold mbind, M_bind. cbn [interleaved] in Heq. unfold mbind, M_bind in Heq. by rewrite Heq.
  - exists 1%nat. rewrite (bind_run _ _ _ _ _ _ Hr). rewrite (bind_fault _ _ _ _ _ Hm).
    symmetry. apply bind_fault. cbn [interleaved].
    replace (hd [] (take 1 sch)) with (hd [] sch) by by destruct sch.
    rewrite (bind_run _ _ _ _ _ _ Hr). by apply bind_fault.
Qed.
End thread.

(** Goes along a program and the function it was made from. *)
Create HintDb alone.
#[export] Hint Resolve same_refl alone_act : alone.

Ltac along :=
  repeat first
    [ progress intros
    | solve [auto with alone]
    | apply alone_act_bind
    | apply alone_call; [solve [auto with alone]|]
    | case_match; try congruence ].
