(* ===== verification/Interleave.v ===== *)
(** * A frame's thread and the timer thread, interleaved ([sr_router.c])

    The main thread handles a frame in many steps and holds the cache's lock
    only inside the functions of [sr_arpcache.c]; between any two of its steps
    the timer thread may have rounds of its own.  Here the handlers are programs
    whose actions are the single calls and accesses; a schedule says which rounds
    of the timer come before each action.  A round holds the lock from its start
    to its end and is one step. *)

From stdpp Require Import gmap.
From S2P Require Import Sweep RouterTheorems SweepTheorems.
From S2P Require Export Thread.

(** The router's own threads. *)
Abbreviation thread := (Thread.thread env sr_instance).

#[export] Instance router_timer : Timer env sr_instance := λ e' _, timeout_tick e'.

(** ** The handlers as programs

    The text of the handlers of [Router], with an action for each call that
    touches what the threads share: the cache, a queued request, the messages to
    the server.  A call that reads only the packet and the configuration, which
    no thread changes, is an action too. *)

Definition ask_next_hop_thread (req : nat) (iface : cstr) : thread unit :=
  r ← act (deref_req req);
  if req_times_sent r =? 0 then
    ip ← act (r ← deref_req req; mret (req_ip r));
    act (sr_send_arp_request ip iface);;
    e ← act ask;
    act (write_req req (set_req_sent (now e)));;
    act (write_req req incr_times_sent)
  else mret tt.

Definition sr_send_routed_ip_packet_thread (packet : buf) (len : Z) : thread unit :=
  dst ← act (rd eth_size ip_dst packet);
  route ← act (sr_find_lpm_route dst);
  match route with
  | None => mret tt
  | Some route =>
      out_iface ← act (sr_get_interface (rt_interface route));
      match out_iface with
      | None => mret tt
      | Some out =>
          ok ← act (malloc AllocForward);
          if negb ok then mret tt
          else
            fwd ← act (lift OutOfBounds
              (memcpy 0 (replicate (Z.to_nat len) 0) 0 packet (Z.to_nat len)));
            fwd ← act (wrb 0 ether_shost (if_addr out) fwd);
            dst ← act (rd eth_size ip_dst packet);
            let next_hop_ip := if negb (rt_gw route =? 0) then rt_gw route else dst in
            entry ← act (sr_arpcache_lookup next_hop_ip);
            match entry with
            | Some entry =>
                fwd ← act (wrb 0 ether_dhost (ent_mac entry) fwd);
                fwd ← act (wrb 0 ether_shost (if_addr out) fwd);
                act (sr_send_packet fwd len (if_name out));;
                mret tt
            | None =>
                req ← act (sr_arpcache_queuereq next_hop_ip (Some fwd) len (Some (if_name out)));
                ask_next_hop_thread req (if_name out)
            end
      end
  end.

Definition sr_cache_arp_mapping_thread (packet : buf) : thread unit :=
  sha ← act (rdb eth_size ar_sha packet);
  sip ← act (rd eth_size ar_sip packet);
  req ← act (sr_arpcache_insert sha sip);
  match req with
  | None => mret tt
  | Some req =>
      each (req_packets req) (λ p, act (send_queued sha p));;
      act (sr_arpreq_destroy (Some (req_addr req)))
  end.

Definition sr_handle_arp_thread (packet : buf) (len : Z) (interface : cstr) : thread unit :=
  if len <? Z.of_nat (eth_size + arp_size) then mret tt
  else
    recv_iface ← act (sr_get_interface interface);
    sip ← act (rd eth_size ar_sip packet);
    match recv_iface with
    | None => mret tt
    | Some recv =>
        if sip =? 0 then mret tt
        else
          op ← act (rd eth_size ar_op packet);
          tip ← act (rd eth_size ar_tip packet);
          if ntohs op =? arp_op_request then
            sr_cache_arp_mapping_thread packet;;
            if tip =? if_ip recv then act (sr_send_arp_reply packet interface) else mret tt
          else if ntohs op =? arp_op_reply then
            mine ← act (sr_is_router_ip tip);
            if negb mine then mret tt else sr_cache_arp_mapping_thread packet
          else mret tt
    end.

Definition sr_send_icmp_error_thread (packet : buf) (len : Z) (type code : Z) : thread buf :=
  '(valid, packet) ← act (sr_valid_ip_packet packet len);
  if negb valid then mret packet
  else
    tot ← act (rd eth_size ip_len packet);
    let old_ip_len := ntohs tot in
    old_src ← act (rd eth_size ip_src packet);
    out_iface ← act (sr_find_icmp_source_iface packet old_src);
    match out_iface with
    | None => mret packet
    | Some out =>
        let reply_len := (eth_size + ip_size + icmp_t11_size)%nat in
        ok ← act (malloc AllocIcmpError);
        if negb ok then mret packet
        else
          let reply := replicate reply_len 0 in
          reply ← act (fill_icmp_ip packet out old_src reply);
          reply ← act (fill_icmp_data packet old_ip_len type code reply);
          sr_send_routed_ip_packet_thread reply (Z.of_nat reply_len);;
          mret packet
    end.

Definition sr_forward_ip_packet_thread (packet : buf) (len : Z) : thread buf :=
  dst ← act (rd eth_size ip_dst packet);
  route ← act (sr_find_lpm_route dst);
  match route with
  | None => sr_send_icmp_error_thread packet len 3 0
  | Some _ => sr_send_routed_ip_packet_thread packet len;; mret packet
  end.

(** An answer to an echo request is one action: it reads the packet and sends
    one message. *)
Definition handle_ip_local_thread (packet : buf) (len : Z) (interface : cstr) (ip_header_len : Z)
    : thread buf :=
  p ← act (rd eth_size ip_p packet);
  tot ← act (rd eth_size ip_len packet);
  if (p =? ip_protocol_icmp) && (ip_header_len + Z.of_nat icmp_t08_size <=? ntohs tot) then
    act (handle_ip_local packet len interface ip_header_len)
  else if (p =? ip_protocol_tcp) || (p =? ip_protocol_udp) then
    sr_send_icmp_error_thread packet len 3 3
  else mret packet.

Definition sr_handle_ip_thread (packet : buf) (len : Z) (interface : cstr) : thread buf :=
  '(valid, packet) ← act (sr_valid_ip_packet packet len);
  if negb valid then mret packet
  else
    hl ← act (rd_ip_hl eth_size packet);
    let ip_header_len := hl * 4 in
    dst ← act (rd eth_size ip_dst packet);
    mine ← act (sr_is_router_ip dst);
    if mine : bool then handle_ip_local_thread packet len interface ip_header_len
    else
      ttl ← act (rd eth_size ip_ttl packet);
      if ttl <=? 1 then sr_send_icmp_error_thread packet len 11 0
      else
        packet ← act (packet ← wr eth_size ip_ttl (u8 (ttl - 1)) packet;
                      packet ← wr eth_size ip_sum 0 packet;
                      c ← cksum packet eth_size ip_header_len;
                      wr eth_size ip_sum c packet);
        sr_forward_ip_packet_thread packet len.

Definition sr_handlepacket_thread (packet : buf) (len : Z) (interface : cstr) : thread buf :=
  if len <? Z.of_nat eth_size then mret packet
  else
    t ← act (ethertype packet);
    if t =? ethertype_arp then sr_handle_arp_thread packet len interface;; mret packet
    else if t =? ethertype_ip then sr_handle_ip_thread packet len interface
    else mret packet.

(** ** The programs are the handlers *)

Lemma deref_req_same a e s r s' : deref_req a e s = Ok (r, s') → s' = s.
Proof.
  unfold deref_req, gets, mbind, M_bind. by destruct (req_at a _); intros [= _ <-].
Qed.

Lemma ask_next_hop_alone req iface :
  same_run (alone (ask_next_hop_thread req iface)) (ask_next_hop req iface).
Proof.
  intros e s. unfold ask_next_hop_thread, ask_next_hop. rewrite (alone_act_eq _ _ e s).
  destruct (deref_req req e s) as [[r s1]|f] eqn:E;
    [|by rewrite !(bind_fault _ _ _ _ _ E)].
  rewrite !(bind_run _ _ _ _ _ _ E). destruct (_ =? 0); [|done].
  pose proof (deref_req_same _ _ _ _ _ E) as ->. rewrite (alone_act_eq _ _ e s).
  rewrite (bind_run _ _ e s (req_ip r) s) by (unfold mbind, M_bind; by rewrite E).
  revert e s E. intros e s _. revert e s.
  match goal with |- ∀ e s, ?m e s = ?m' e s => change (same_run m m') end.
  along.
Qed.
#[local] Hint Resolve ask_next_hop_alone : alone.

Lemma routed_alone packet len :
  same_run (alone (sr_send_routed_ip_packet_thread packet len))
    (sr_send_routed_ip_packet packet len).
Proof. unfold sr_send_routed_ip_packet_thread, sr_send_routed_ip_packet. along. Qed.
#[local] Hint Resolve routed_alone : alone.

Lemma cache_mapping_alone packet :
  same_run (alone (sr_cache_arp_mapping_thread packet)) (sr_cache_arp_mapping packet).
Proof.
  unfold sr_cache_arp_mapping_thread, sr_cache_arp_mapping. along.
  apply alone_call; [|by intros; apply alone_act]. apply alone_each. intros. apply alone_act.
Qed.
#[local] Hint Resolve cache_mapping_alone : alone.

Lemma handle_arp_alone packet len iface :
  same_run (alone (sr_handle_arp_thread packet len iface)) (sr_handle_arp packet len iface).
Proof. unfold sr_handle_arp_thread, sr_handle_arp. along. Qed.
#[local] Hint Resolve handle_arp_alone : alone.

Lemma icmp_error_alone packet len type code :
  same_run (alone (sr_send_icmp_error_thread packet len type code))
    (sr_send_icmp_error packet len type code).
Proof. unfold sr_send_icmp_error_thread, sr_send_icmp_error. along. Qed.
#[local] Hint Resolve icmp_error_alone : alone.

Lemma forward_alone packet len :
  same_run (alone (sr_forward_ip_packet_thread packet len)) (sr_forward_ip_packet packet len).
Proof. unfold sr_forward_ip_packet_thread, sr_forward_ip_packet. along. Qed.
#[local] Hint Resolve forward_alone : alone.

Lemma local_alone packet len iface hlen :
  same_run (alone (handle_ip_local_thread packet len iface hlen))
    (handle_ip_local packet len iface hlen).
Proof.
  intros e s. unfold handle_ip_local_thread. rewrite (alone_act_eq _ _ e s).
  destruct (rd eth_size ip_p packet e s) as [[p s1]|f] eqn:Ep;
    [|unfold handle_ip_local; by rewrite !(bind_fault _ _ _ _ _ Ep)].
  assert (s1 = s) as ->.
  { unfold rd in Ep. destruct (load _ _ _); [by injection Ep|done]. }
  rewrite (bind_run _ _ _ _ _ _ Ep), (alone_act_eq _ _ e s).
  destruct (rd eth_size ip_len packet e s) as [[tot s1]|f] eqn:Et;
    [|unfold handle_ip_local; by rewrite (bind_run _ _ _ _ _ _ Ep), !(bind_fault _ _ _ _ _ Et)].
  assert (s1 = s) as ->.
  { unfold rd in Et. destruct (load _ _ _); [by injection Et|done]. }
  rewrite (bind_run _ _ _ _ _ _ Et). destruct (_ && _) eqn:Ec; [apply alone_act|].
  unfold handle_ip_local. rewrite (bind_run _ _ _ _ _ _ Ep), (bind_run _ _ _ _ _ _ Et), Ec.
  revert e s Ep Et. intros e s _ _. revert e s.
  match goal with |- ∀ e s, ?m e s = ?m' e s => change (same_run m m') end. along.
Qed.
#[local] Hint Resolve local_alone : alone.

Lemma handle_ip_alone packet len iface :
  same_run (alone (sr_handle_ip_thread packet len iface)) (sr_handle_ip packet len iface).
Proof.
  unfold sr_handle_ip_thread, sr_handle_ip. along.
  etransitivity; [apply alone_act_eq|].
  repeat (etransitivity; [apply bind_assoc|]; apply same_bind; [apply same_refl|]; intros).
  apply same_bind; [apply same_refl|]. intros. apply forward_alone.
Qed.
#[local] Hint Resolve handle_ip_alone : alone.

Lemma sr_handlepacket_same packet len iface :
  same_run (alone (sr_handlepacket_thread packet len iface)) (sr_handlepacket packet len iface).
Proof. unfold sr_handlepacket_thread, sr_handlepacket. along. Qed.

(** The program of a frame, run with no other thread, is the handler. *)
Theorem sr_handlepacket_alone (packet : buf) (len : Z) (iface : cstr) (e : env)
    (s : sr_instance) :
  interleaved (sr_handlepacket_thread packet len iface) [] e s =
    sr_handlepacket packet len iface e s.
Proof. rewrite interleaved_alone. apply sr_handlepacket_same. Qed.
