(* ===== verification/MainThread.v ===== *)
(** * The main thread against the timer thread ([sr_vns_comm.c], [sr_main.c])

    The main loop as a program of actions: every call of [recv] or [read], every
    step of a frame's handling, and each other command of the server.  Rounds of
    the timer come before any action. *)

From stdpp Require Import gmap.
From S2P Require Import Sweep RouterTheorems.
From S2P Require Export VnsSpec Interleave.

Abbreviation vthread := (Thread.thread venv vns).

#[export] Instance vns_timer : Timer venv vns := λ e', on_sr (λ _, timeout_tick e').

(** The actions of the router's code. *)
Fixpoint on_router {A} (t : thread A) : vthread A :=
  match t with
  | Done a => Done a
  | Act m k => Act (on_sr m) (λ b, on_router (k b))
  end.

(** ** Reading *)

Fixpoint recv_loop_thread (fuel off want bytes_read : nat) (b : buf) : vthread (option buf) :=
  if (bytes_read <? want)%nat then
    match fuel with
    | O => act (throw OutOfFuel)
    | S fuel' =>
        r ← act (sys_recv (want - bytes_read));
        match r with
        | Eintr => recv_loop_thread fuel' off want bytes_read b
        | Error => mret None
        | Data bs =>
            b ← act (lift OutOfBounds (store_bytes (off + bytes_read) bs b));
            recv_loop_thread fuel' off want (bytes_read + length bs) b
        end
    end
  else mret (Some b).

Definition read_body_thread (len : Z) : vthread command :=
  ok ← act (on_sr (malloc AllocCommand));
  if negb ok then mret (NoCommand (-1))
  else
    b ← act (lift OutOfBounds (store 4 0 (htonl len) (replicate (Z.to_nat len) 0)));
    fuel ← act recv_fuel;
    r ← recv_loop_thread fuel 4 (Z.to_nat (len - 4)) 0 b;
    match r with
    | None => act close_socket;; mret (NoCommand (-1))
    | Some b => mret (Command len b)
    end.

Definition read_command_thread : vthread command :=
  act (modify next_turn);;
  fuel ← act recv_fuel;
  l ← recv_loop_thread fuel 0 4 0 (replicate 4 0);
  match l with
  | None => mret (NoCommand (-1))
  | Some l =>
      let len := i32 (ntohl (le_dec l)) in
      if (10000 <? len) || (len <? 0) then act close_socket;; mret (NoCommand (-1))
      else read_body_thread len
  end.

(** ** Handling a command *)

Definition handle_vnspacket_thread (len : Z) (b : buf) : thread unit :=
  drop_it ← act (sr_arp_req_not_for_us (vns_frame b) (vns_frame_len len) (vns_interface b));
  if drop_it : bool then mret tt
  else
    mlen ← act (rd 0 mLen b);
    act (sr_log_packet (vns_frame b)
      (i32 (u32 (u64 (ntohl mlen - Z.of_nat c_packet_header_size)))));;
    sr_handlepacket_thread (vns_frame b) (vns_frame_len len) (vns_interface b);;
    mret tt.

Definition handle_command_thread (command len : Z) (b : buf) : vthread Z :=
  if command =? VNSPACKET then on_router (handle_vnspacket_thread len b);; mret 1
  else act (handle_command command len b).

Definition dispatch_thread (expected_cmd len : Z) (b : buf) : vthread Z :=
  c ← act (lift OutOfBounds (load 4 4 b));
  let command := ntohl c in
  b ← act (lift OutOfBounds (store 4 4 command b));
  if negb (expected_cmd =? 0) && negb (command =? expected_cmd) && negb (command =? VNSCLOSE)
  then mret (-1)
  else handle_command_thread command len b.

Definition finish_thread (c : command) : vthread Z :=
  match c with
  | Command len b => dispatch_thread 0 len b
  | NoCommand ret => mret ret
  end.

Fixpoint main_loop_thread (fuel : nat) : vthread unit :=
  match fuel with
  | O => act (throw OutOfFuel)
  | S fuel' =>
      c ← read_command_thread;
      r ← finish_thread c;
      if r =? 1 then main_loop_thread fuel' else mret tt
  end.

(** ** The program is the main loop *)

Lemma on_sr_mret {A} (a : A) : same_run (on_sr (mret a)) (mret a).
Proof. intros e s. unfold on_sr, mret, M_ret. by destruct s. Qed.

Lemma on_sr_bind {A B} (m : R A) (k : A → R B) :
  same_run (on_sr (m ≫= k)) (on_sr m ≫= λ a, on_sr (k a)).
Proof.
  intros e s. unfold on_sr, mbind, M_bind.
  by destruct (m (base e (turn s)) (router s)) as [[a r]|f].
Qed.

Lemma on_sr_same {A} (m m' : R A) : same_run m m' → same_run (on_sr m) (on_sr m').
Proof. intros H e s. unfold on_sr. by rewrite H. Qed.

Lemma on_router_rounds es : same_run (timer_rounds es) (on_sr (timer_rounds es)).
Proof.
  induction es as [|e' es IH]; [symmetry; apply on_sr_mret|].
  etransitivity; [|symmetry; apply on_sr_bind]. apply same_bind; [apply same_refl|]. by intros [].
Qed.

(** The router's part of a thread under a schedule. *)
Lemma on_router_interleaved {A} (t : thread A) schedule :
  same_run (interleaved (on_router t) schedule) (on_sr (interleaved t schedule)).
Proof.
  revert schedule. induction t as [a|B m k IH]; intros sch;
    (etransitivity; [|symmetry; apply on_sr_bind]); cbn [on_router interleaved];
    (apply same_bind; [apply on_router_rounds|]); intros [].
  - symmetry. apply on_sr_mret.
  - etransitivity; [|symmetry; apply on_sr_bind]. apply same_bind; [apply same_refl|]. auto.
Qed.

Lemma on_router_alone {A} (t : thread A) : same_run (alone (on_router t)) (on_sr (alone t)).
Proof.
  intros e s. rewrite <- interleaved_alone. rewrite (on_router_interleaved t [] e s).
  unfold on_sr. by rewrite interleaved_alone.
Qed.

Lemma recv_loop_alone fuel off want got b :
  same_run (alone (recv_loop_thread fuel off want got b)) (recv_loop fuel off want got b).
Proof.
  revert got b. induction fuel as [|fuel IH]; intros got b; cbn [recv_loop_thread recv_loop];
    (destruct (got <? want)%nat; [|apply same_refl]); [apply alone_act|].
  apply alone_act_bind. intros [bs| |]; [|apply IH|apply same_refl]. apply alone_act_bind. auto.
Qed.
#[local] Hint Resolve recv_loop_alone : alone.

Lemma read_body_alone len : same_run (alone (read_body_thread len)) (read_body len).
Proof. unfold read_body_thread, read_body. along. Qed.
#[local] Hint Resolve read_body_alone : alone.

Lemma read_command_alone : same_run (alone read_command_thread) read_command.
Proof. unfold read_command_thread, read_command. along. Qed.
#[local] Hint Resolve read_command_alone : alone.

Lemma handlepacket_alone packet len iface :
  same_run (alone (sr_handlepacket_thread packet len iface)) (sr_handlepacket packet len iface).
Proof. apply sr_handlepacket_same. Qed.
#[local] Hint Resolve handlepacket_alone : alone.

Lemma vnspacket_alone len b :
  same_run (alone (handle_vnspacket_thread len b)) (handle_vnspacket len b).
Proof. unfold handle_vnspacket_thread, handle_vnspacket. along. Qed.

Lemma handle_command_alone command len b :
  same_run (alone (handle_command_thread command len b)) (handle_command command len b).
Proof.
  unfold handle_command_thread. destruct (command =? VNSPACKET) eqn:E; [|apply alone_act].
  unfold handle_command. rewrite E. apply alone_call; [|intros; apply same_refl].
  etransitivity; [apply on_router_alone|]. apply on_sr_same, vnspacket_alone.
Qed.
#[local] Hint Resolve handle_command_alone : alone.

Lemma dispatch_alone expected_cmd len b :
  same_run (alone (dispatch_thread expected_cmd len b)) (dispatch expected_cmd len b).
Proof. unfold dispatch_thread, dispatch. along. Qed.
#[local] Hint Resolve dispatch_alone : alone.

Lemma main_loop_same fuel : same_run (alone (main_loop_thread fuel)) (main_loop fuel).
Proof.
  induction fuel as [|fuel IH]; [apply alone_act|]. cbn [main_loop_thread main_loop].
  unfold sr_read_from_server, sr_read_from_server_expect.
  etransitivity; [|symmetry; apply bind_assoc].
  apply alone_call; [apply read_command_alone|]. intros [len b|ret].
  - apply alone_call; [apply dispatch_alone|]. intros r. destruct (r =? 1); [done|apply same_refl].
  - intros e s. change (alone (if ret =? 1 then main_loop_thread fuel else mret tt) e s =
      (if ret =? 1 then main_loop fuel else mret tt) e s).
    destruct (ret =? 1); [apply IH|done].
Qed.

(** ** The turns of the main loop

    A schedule of the main loop gives, for every turn, the rounds before the
    steps of reading the command and before those of handling it.  The loop run in
    turns is a device of the proofs: every schedule of [main_loop_thread] is a
    schedule of its turns ([schedule_turns]). *)

Record turn_rounds := mk_rounds {
  while_reading : list (list env);
  while_handling : list (list env)
}.

Definition turn_of (turns : list turn_rounds) : turn_rounds := hd (mk_rounds [] []) turns.

Fixpoint main_loop_turns (fuel : nat) (turns : list turn_rounds) : V unit :=
  match fuel with
  | O => interleaved (act (throw OutOfFuel)) (while_reading (turn_of turns))
  | S fuel' =>
      c ← interleaved read_command_thread (while_reading (turn_of turns));
      r ← interleaved (finish_thread c) (while_handling (turn_of turns));
      if r =? 1 then main_loop_turns fuel' (tl turns)
      else interleaved (mret tt) (while_reading (turn_of (tl turns)))
  end.

(** Every round of the turns. *)
Definition turns_all (P : env → Prop) (turns : list turn_rounds) : Prop :=
  Forall (λ t, Forall P (concat (while_reading t)) ∧ Forall P (concat (while_handling t))) turns.

Lemma concat_take {A} (P : A → Prop) n (l : list (list A)) :
  Forall P (concat l) → Forall P (concat (take n l)) ∧ Forall P (concat (drop n l)).
Proof. intros H. rewrite <- (take_drop n l), concat_app in H. by apply Forall_app in H. Qed.

(** A schedule of the whole main loop, in turns. *)
Lemma schedule_turns (P : env → Prop) fuel schedule e s :
  Forall P (concat schedule) →
  ∃ turns, turns_all P turns ∧
    interleaved (main_loop_thread fuel) schedule e s = main_loop_turns fuel turns e s.
Proof.
  revert schedule s. induction fuel as [|fuel IH]; intros sch s HP.
  { exists [mk_rounds sch []]. split; [|done]. by repeat constructor. }
  cbn [main_loop_thread main_loop_turns].
  destruct (interleaved_bind read_command_thread (λ c, r ← finish_thread c;
    if r =? 1 then main_loop_thread fuel else mret tt) sch e s) as [n Hn].
  rewrite Hn. clear Hn. destruct (concat_take P n sch HP) as [H1 H2].
  destruct (interleaved read_command_thread (take n sch) e s) as [[c s1]|f] eqn:Hc.
  2:{ exists [mk_rounds (take n sch) []]. split; [by repeat constructor|].
      by rewrite !(bind_fault _ _ _ _ _ Hc). }
  destruct (interleaved_bind (finish_thread c) (λ r,
    if r =? 1 then main_loop_thread fuel else mret tt) (drop n sch) e s1) as [k Hk].
  rewrite (bind_run _ _ _ _ _ _ Hc), Hk. clear Hk.
  destruct (concat_take P k _ H2) as [H3 H4].
  destruct (interleaved (finish_thread c) (take k (drop n sch)) e s1) as [[r s2]|f] eqn:Hr.
  2:{ exists [mk_rounds (take n sch) (take k (drop n sch))]. split; [by repeat constructor|].
      cbn [turn_of hd while_reading while_handling].
      by rewrite (bind_run _ _ _ _ _ _ Hc), !(bind_fault _ _ _ _ _ Hr). }
  rewrite (bind_run _ _ _ _ _ _ Hr). destruct (r =? 1) eqn:Er.
  - destruct (IH (drop k (drop n sch)) s2 H4) as (turns & Hall & Hrun).
    exists (mk_rounds (take n sch) (take k (drop n sch)) :: turns).
    split; [by constructor|]. cbn [turn_of hd tl while_reading while_handling].
    by rewrite (bind_run _ _ _ _ _ _ Hc), (bind_run _ _ _ _ _ _ Hr), Er.
  - exists [mk_rounds (take n sch) (take k (drop n sch)); mk_rounds (drop k (drop n sch)) []].
    split; [by repeat constructor|]. cbn [turn_of hd tl while_reading while_handling].
    by rewrite (bind_run _ _ _ _ _ _ Hc), (bind_run _ _ _ _ _ _ Hr), Er.
Qed.

(** The main loop as a program of actions.  Run with no other thread it is
    the main loop of the C code, command by command and frame by frame; and every
    schedule of timer rounds before its actions is a schedule of its turns: some
    rounds while a command is read, some while it is handled. *)
Theorem main_loop_actions (fuel : nat) (schedule : list (list env)) (e : venv) (s : vns) :
  alone (main_loop_thread fuel) e s = main_loop fuel e s ∧
  ∃ turns, turns_all (λ e', e' ∈ concat schedule) turns ∧
    interleaved (main_loop_thread fuel) schedule e s = main_loop_turns fuel turns e s.
Proof.
  split; [apply main_loop_same|]. apply schedule_turns. by apply list.Forall_forall.
Qed.
