(* ===== verification/Rely.v ===== *)
(** * Reasoning about a frame's thread while the timer runs

    A program logic for the programs of [Interleave]: an assertion that holds
    between two actions must be kept by the timer's rounds.  What the handlers
    need of such an assertion is the class [Assertion]; every handler keeps
    every assertion of that class. *)

From stdpp Require Import gmap.
From S2P Require Import RouterTheorems SweepTheorems.
From S2P Require Export Sweep Interleave.

(** ** Runs under interference

    [n] is how many rounds of the timer can still come.  [iwp F t Q e n s]: from
    [s], whatever rounds come before each action, [t] ends, with a fault only if
    [F] admits it; otherwise its value, the rounds left and its state satisfy
    [Q]. *)

Inductive rely : nat → sr_instance → nat → sr_instance → Prop :=
  | RelyRefl n s : rely n s n s
  | RelyTick e' n s n' s' :
      mallocs_checked e' → rely n (tick e' s) n' s' → rely (S n) s n' s'.

Fixpoint iwp {A} (F : fault → Prop) (t : thread A) (Q : A → nat → sr_instance → Prop) (e : env)
    (n : nat) (s : sr_instance) : Prop :=
  sr_wf s ∧
  match t with
  | Done a => Q a n s
  | Act m k => ∀ n' s', rely n s n' s' →
      match m e s' with
      | Ok (b, s'') => iwp F (k b) Q e n' s''
      | Fault f => F f
      end
  end.

(** An assertion that the timer's rounds keep. *)
Definition stable (P : nat → sr_instance → Prop) : Prop :=
  ∀ e n s, mallocs_checked e → P (S n) s → P n (tick e s).

Lemma stable_rely P n s n' s' : stable P → rely n s n' s' → P n s → P n' s'.
Proof. intros HP. induction 1 as [|e' n s n' s' Hm _ IH]; [done|]. intros H. by apply IH, HP. Qed.

Lemma iwp_done {A} F (a : A) Q e n s : sr_wf s → Q a n s → iwp F (mret a) Q e n s.
Proof. done. Qed.

(** An action, from an assertion that is stable until it is done. *)
Lemma iwp_act_any {A B} F (m : R B) (k : B → thread A) P Q e n s :
  stable P → P n s → sr_wf s →
  (∀ n s, P n s → match m e s with Ok (b, s') => iwp F (k b) Q e n s' | Fault f => F f end) →
  iwp F (act m ≫= k) Q e n s.
Proof.
  intros HP H Hs Hm. split; [done|]. intros n' s' Hr. apply Hm. by eapply stable_rely.
Qed.

Lemma iwp_act {A B} F (m : R B) (k : B → thread A) P Q e n s :
  stable P → P n s → sr_wf s →
  (∀ n s, P n s → ∃ b s', m e s = Ok (b, s') ∧ iwp F (k b) Q e n s') →
  iwp F (act m ≫= k) Q e n s.
Proof.
  intros HP H Hs Hm. apply (iwp_act_any F m k P); [done..|].
  intros n' s' H'. destruct (Hm n' s' H') as (b & s'' & -> & Hk). done.
Qed.

Lemma iwp_wf {A} F (t : thread A) Q e n s : iwp F t Q e n s → sr_wf s.
Proof. by destruct t; intros [H _]. Qed.

Lemma iwp_bind {A B} F (t : thread A) (k : A → thread B) Q e n s :
  iwp F t (λ a n s, iwp F (k a) Q e n s) e n s → iwp F (t ≫= k) Q e n s.
Proof.
  revert n s. induction t as [a|C m k' IH]; intros n s [Hs H]; [exact H|].
  split; [done|]. intros n' s' Hr. specialize (H n' s' Hr).
  destruct (m e s') as [[b s'']|f]; [by apply IH|done].
Qed.

Lemma iwp_mono {A} F (t : thread A) (Q Q' : A → nat → sr_instance → Prop) e n s :
  (∀ a n s, Q a n s → Q' a n s) → iwp F t Q e n s → iwp F t Q' e n s.
Proof.
  intros HQ. revert n s. induction t as [a|C m k IH]; intros n s [Hs H]; (split; [done|]); [by apply HQ|].
  intros n' s' Hr. specialize (H n' s' Hr). destruct (m e s') as [[b s'']|f]; [by apply IH|done].
Qed.

(** The rounds of the timer that a schedule gives, one after the other. *)
Lemma timer_rounds_run es e n s :
  sr_wf s → Forall mallocs_checked es → (length es <= n)%nat →
  ∃ s', timer_rounds es e s = Ok (tt, s') ∧ sr_wf s' ∧ rely n s (n - length es) s'.
Proof.
  revert n s. induction es as [|e' es IH]; intros n s Hs He Hn.
  { exists s. rewrite Nat.sub_0_r. split; [done|]. split; [done|constructor]. }
  apply list.Forall_cons in He as [Hm He]. destruct n as [|n]; cbn [length] in Hn; [lia|].
  destruct (tick_run e' s Hs Hm) as [Hrun Hwf].
  destruct (IH n (tick e' s) Hwf He) as (s' & Hr & Hwf' & Hrely); [lia|].
  exists s'. split; [|split; [done|by eapply RelyTick]].
  cbn [timer_rounds]. by rewrite (bind_run _ _ _ _ _ _ (Hrun : timer_round e' e s = _)).
Qed.

(** What [iwp] says of the runs: under every schedule of at most [n] rounds. *)
Lemma iwp_interleaved {A} F (t : thread A) Q e schedule n s :
  iwp F t Q e n s → (∀ a, stable (Q a)) →
  Forall mallocs_checked (concat schedule) → (length (concat schedule) <= n)%nat →
  match interleaved t schedule e s with
  | Ok (a, s') => sr_wf s' ∧ ∃ n', Q a n' s'
  | Fault f => F f
  end.
Proof.
  revert schedule n s. induction t as [a|B m k IH]; intros sch n s [Hs H] HQ Hm Hn;
    assert (Forall mallocs_checked (hd [] sch) ∧ Forall mallocs_checked (concat (tl sch)) ∧
      (length (concat sch) = length (hd [] sch) + length (concat (tl sch)))%nat) as (Hm1 & Hm2 & Hl)
    by (destruct sch as [|es sch]; [done|]; cbn in *; apply Forall_app in Hm as [? ?];
        rewrite length_app; done);
    destruct (timer_rounds_run (hd [] sch) e n s Hs Hm1) as (s1 & Hr & Hwf & Hrely); try lia;
    cbn [interleaved]; rewrite (bind_run _ _ _ _ _ _ Hr).
  - split; [done|]. exists (n - length (hd [] sch))%nat. by eapply stable_rely.
  - specialize (H _ _ Hrely). destruct (m e s1) as [[b s2]|f] eqn:Hrun.
    + rewrite (bind_run _ _ _ _ _ _ Hrun). apply (IH b (tl sch) _ s2 H HQ Hm2). lia.
    + by rewrite (bind_fault _ _ _ _ _ Hrun).
Qed.

(** An update of the request at [a]. *)
Lemma update_at_wf a r f s :
  sr_wf s → req_at a (requests (cache s)) = Some r →
  req_addr (f r) = a → req_ip (f r) = req_ip r → req_wf (f r) →
  cache_wf (update_req a f (cache s)).
Proof.
  intros Hs Hr Ha Hip Hwf. apply update_req_wf; [apply Hs|]. intros q Hq Hqa.
  pose proof (req_at_elem _ _ _ (cache_wf_req_addrs _ (sr_wf_cache _ Hs)) Hq Hqa) as Hq'.
  by assert (q = r) as -> by congruence.
Qed.

Lemma set_req_sent_wf t r : req_wf r → req_wf (set_req_sent t r).
Proof. by intros []; split. Qed.

Lemma incr_times_sent_wf r :
  req_times_sent r ≤ 4 → req_wf r →
  req_wf (incr_times_sent r) ∧ req_times_sent (incr_times_sent r) = req_times_sent r + 1.
Proof.
  intros H Hr. pose proof (req_wf_times _ Hr).
  assert (req_times_sent (incr_times_sent r) = req_times_sent r + 1) as Hi
    by (simpl; rewrite u32_small; [lia|unfold is_u32; lia]).
  split; [|done]. destruct Hr. split; try done. lia.
Qed.

(** ** What the handlers need of an assertion

    [base n s]: the frame's thread was started in [s0], it is now in [s], and [n]
    rounds can come.  The assertion bears the timer's rounds, what a call does to
    the messages sent and to the log, the loss of requests and a change of the
    mappings, and a packet that is queued and its next hop asked for. *)
Class Assertion (F : fault → Prop) (e : env) (s0 : sr_instance)
    (base : nat → sr_instance → Prop) : Prop := {
  base_wf n s : base n s → sr_wf s;
  base_evolves n s : base n s → evolves s0 s;
  base_stable : stable base;
  base_core n s s' : base n s → same_core s s' → sr_wf s' → evolves s s' → base n s';
  base_cache n s c :
    base n s → cache_wf c → (∀ r, r ∈ requests c → r ∈ requests (cache s)) →
    base n (set_cache c s);
  base_wait ip frame len out n s :
    base n s → frame_ok frame len → (eth_size <= length frame)%nat → if_wf out → is_u32 ip →
    iwp F (req ← act (sr_arpcache_queuereq ip (Some frame) len (Some (if_name out)));
           ask_next_hop_thread req (if_name out)) (λ _, base) e n s
}.

Section frame.
Context {F : fault → Prop} {e : env} {s0 : sr_instance} {base : nat → sr_instance → Prop}.
Context `{Has : !Assertion F e s0 base}.
Context (Hm : mallocs_checked e) (Hs0 : sr_wf s0).

Lemma base_ifs n s : base n s → if_list s = if_list s0.
Proof. intros H. apply (evolves_ifs _ _ (base_evolves _ _ H)). Qed.

Lemma base_rts n s : base n s → routing_table s = routing_table s0.
Proof. intros H. apply (evolves_rts _ _ (base_evolves _ _ H)). Qed.

(** ** Rules *)

Definition ok {A} (t : thread A) : Prop := ∀ n s, base n s → iwp F t (λ _, base) e n s.

Lemma ok_ret {A} (a : A) : ok (mret a).
Proof. intros n s H. apply iwp_done; [by eapply base_wf|done]. Qed.

(** A call that reads the packet or the configuration. *)
Lemma ok_read {A B} (m : R B) b (k : B → thread A) :
  (∀ n s, base n s → m e s = Ok (b, s)) → ok (k b) → ok (act m ≫= k).
Proof.
  intros Hr Hk n s H. apply (iwp_act F m k base); [apply base_stable|done|by eapply base_wf|].
  intros n' s' H'. exists b, s'. split; [by eapply Hr|by apply Hk].
Qed.

Lemma ok_mret {A B} (b : B) (k : B → thread A) : ok (k b) → ok (act (mret b) ≫= k).
Proof. by apply ok_read. Qed.

(** A call that keeps the assertion and returns a value of some kind. *)
Lemma ok_value {A B} (V : B → Prop) (m : R B) (k : B → thread A) :
  (∀ n s, base n s → ∃ b s', m e s = Ok (b, s') ∧ base n s' ∧ V b) → (∀ b, V b → ok (k b)) →
  ok (act m ≫= k).
Proof.
  intros Hr Hk n s H. apply (iwp_act F m k base); [apply base_stable|done|by eapply base_wf|].
  intros n' s' H'. destruct (Hr n' s' H') as (b & s'' & Hb & Hs'' & HV).
  exists b, s''. split; [done|by apply Hk].
Qed.

Lemma ok_step {A B} (m : R B) (k : B → thread A) :
  (∀ n s, base n s → ∃ b s', m e s = Ok (b, s') ∧ base n s') → (∀ b, ok (k b)) →
  ok (act m ≫= k).
Proof.
  intros Hr Hk. apply (ok_value (λ _, True)); [|by intros].
  intros n s H. destruct (Hr n s H) as (b & s' & ? & ?). by exists b, s'.
Qed.

Lemma ok_act {B} (m : R B) :
  (∀ n s, base n s → ∃ b s', m e s = Ok (b, s') ∧ base n s') → ok (act m).
Proof. intros H. apply (ok_step m mret H). intros b. apply ok_ret. Qed.

Lemma ok_call {A B} (t : thread B) (k : B → thread A) :
  ok t → (∀ b, ok (k b)) → ok (t ≫= k).
Proof.
  intros Ht Hk n s H. apply iwp_bind. eapply iwp_mono; [|by apply Ht]. intros b n' s'. apply Hk.
Qed.

Lemma ok_each {A} (l : list A) (body : A → thread unit) :
  Forall (λ x, ok (body x)) l → ok (each l body).
Proof. induction 1 as [|x l Hx _ IH]; [apply ok_ret|]. by apply ok_call. Qed.

(** Sending a message. *)
Lemma base_send n s b iface : base n s → base n (send e b iface s).
Proof.
  intros H. apply (base_core n s); [done|apply send_core|eapply send_wf, base_wf, H|apply send_evolves].
Qed.

(** ** The handlers *)

(** Goes over the accesses to the packet. *)
Ltac mem := repeat first [progress cbv beta | apply ok_mret | mem_step].

(** What is read of the configuration is the same in every state. *)
Lemma lpm_ok {A} ip (k : option sr_rt → thread A) :
  ok (k (lpm (routing_table s0) ip)) → ok (act (sr_find_lpm_route ip) ≫= k).
Proof.
  apply ok_read. intros n s H. by rewrite sr_find_lpm_route_run, (base_rts _ _ H).
Qed.

Lemma base_named n s iface : base n s → named s iface = named s0 iface.
Proof. intros H. unfold named. by rewrite (base_ifs _ _ H). Qed.

Lemma interface_ok {A} iface (k : option sr_if → thread A) :
  cstr_ok sr_IFACE_NAMELEN iface → ok (k (named s0 iface)) → ok (act (sr_get_interface iface) ≫= k).
Proof.
  intros Hi. apply ok_read. intros n s H.
  rewrite named_run by (eapply base_wf, H || done). by rewrite (base_named _ _ _ H).
Qed.

Lemma malloc_run_ok {A} a (k : bool → thread A) :
  ok (k (malloc_ok e a)) → ok (act (malloc a) ≫= k).
Proof. apply ok_read. intros n s _. apply malloc_run. Qed.

Lemma send_ok {A} b len iface (k : Z → thread A) :
  frame_ok b len → (eth_size <= length b)%nat → cstr_ok sr_IFACE_NAMELEN iface →
  printable s0 iface → (∀ r, ok (k r)) → ok (act (sr_send_packet b len iface) ≫= k).
Proof.
  intros Hf Hl Hi Hp. apply ok_step. intros n s H.
  assert (printable s iface) as Hp' by (unfold printable; by rewrite (base_ifs _ _ H)).
  assert (malloc_ok e AllocVnsPacket = true) as Hmal by (apply Hm; unfold unchecked_allocs; set_solver).
  destruct (sr_send_packet_run b len iface e s (base_wf _ _ H) Hf Hl Hi Hp' Hmal) as (nm & Hn & _ & Hrun).
  destruct (send_result e nm b iface s) as [r s'] eqn:E. exists r, s'. split; [done|].
  assert (s' = send e b iface s) as ->; [|by apply base_send].
  unfold send, vns_name. rewrite Hn. simpl default. by rewrite E.
Qed.

Lemma lookup_ok {A} ip (k : option sr_arpentry → thread A) :
  (∀ x, match x with Some x => mac_ok (ent_mac x) | None => True end → ok (k x)) →
  ok (act (sr_arpcache_lookup ip) ≫= k).
Proof.
  apply ok_value. intros n s H. pose proof (sr_wf_cache _ (base_wf _ _ H)) as Hc.
  eexists _, s. split; [by apply sr_arpcache_lookup_run|]. split; [done|].
  destruct (arp_map _ !! ip) as [x|] eqn:Ex; [|done]. apply (arp_map_wf _ _ _ Hc Ex).
Qed.

Lemma routed_ok packet len :
  frame_ok packet len → (eth_size + ip_size <= length packet)%nat →
  ok (sr_send_routed_ip_packet_thread packet len).
Proof.
  intros Hf Hl. unfold sr_send_routed_ip_packet_thread.
  assert (eth_size <= length packet)%nat as Hle by lia. mem.
  apply lpm_ok. destruct (lpm _ _) as [rt|] eqn:Ert; [|apply ok_ret].
  assert (rt_wf rt) as Hrt by (eapply lpm_wf; [apply Hs0|done]).
  apply interface_ok; [auto with sr|].
  destruct (named s0 (rt_interface rt)) as [out|] eqn:Eo; [|apply ok_ret].
  pose proof (named_wf _ _ _ Hs0 Eo) as Ho. pose proof (if_wf_addr _ Ho) as Ha.
  pose proof (proj1 Ha) as Hal. pose proof (proj2 Ha) as Hab.
  apply malloc_run_ok. destruct (malloc_ok e AllocForward); [|apply ok_ret].
  cbn [negb]. rewrite copy_packet by apply Hf. mem.
  replace (if negb (rt_gw rt =? 0) then rt_gw rt else get eth_size ip_dst packet)
    with (next_hop rt packet) by (unfold next_hop; by destruct (_ =? 0)).
  apply lookup_ok. intros [x|] Hx.
  - pose proof (proj1 Hx). mem.
    rewrite readdress_build, readdress_shost by (done || by rewrite length_setb).
    destruct (readdress_frame (ent_mac x) (if_addr out) packet len) as [Hf' Hl']; try done.
    apply send_ok; [done|done|auto with sr|eauto with sr|]. intros r. apply ok_ret.
  - intros n s H. apply (base_wait (next_hop rt packet) (setb 0 ether_shost (if_addr out) packet) len
      out n s); try done.
    { auto with sr. }
    { by rewrite length_setb. }
    { by apply next_hop_u32; [|apply Hf]. }
Qed.

(** The request that an answer takes off the queue belongs to this thread. *)
Lemma mapping_ok packet :
  bytes_ok packet → (eth_size + arp_size <= length packet)%nat →
  ok (sr_cache_arp_mapping_thread packet).
Proof.
  intros Hb Hl. unfold sr_cache_arp_mapping_thread.
  assert (eth_size <= length packet)%nat as Hle by lia. mem.
  set (sha := getb eth_size ar_sha packet). set (sip := get eth_size ar_sip packet).
  assert (mac_ok sha) as Hsha by (by apply getb_mac_ok; [|fits|]).
  apply (ok_value (λ r, match r with Some r => Forall pkt_wf (req_packets r) | None => True end)).
  { intros n s H. pose proof (sr_wf_cache _ (base_wf _ _ H)) as Hc.
    eexists _, _. split; [by apply sr_arpcache_insert_run; [|apply Hsha]|]. split.
    - apply base_cache; [done|apply insert_cache_wf; [done|done|by apply le_dec_u32]|].
      intros q Hq. simpl in Hq. by apply list_elem_of_filter in Hq as [_ Hq].
    - destruct (find_req sip _) as [r|] eqn:E; [|done]. apply find_req_some in E as [Hin _].
      apply (req_wf_packets _ (sr_wf_requests _ _ (base_wf _ _ H) Hin)). }
  intros [r|] Hr; [|apply ok_ret]. apply ok_call.
  - apply ok_each. eapply list.Forall_impl; [exact Hr|]. intros p Hp. apply ok_act.
    intros n s H. destruct (send_waiting_run sha p e s (base_wf _ _ H) Hm Hsha Hp) as [Hrun Hwf].
    eexists _, _. split; [exact Hrun|]. apply (base_core n s); [done|apply send_waiting_core|done|].
    unfold send_waiting. destruct (named _ _); [apply send_evolves|done].
  - intros _. apply ok_act. intros n s H. pose proof (sr_wf_cache _ (base_wf _ _ H)) as Hc.
    eexists _, _. split; [by apply sr_arpreq_destroy_run|].
    apply base_cache; [done|by apply remove_req_wf|].
    intros q Hq. simpl in Hq. by apply list_elem_of_filter in Hq as [_ Hq].
Qed.

Lemma router_ip_ok {A} ip (k : bool → thread A) :
  ok (k (is_router_ip s0 ip)) → ok (act (sr_is_router_ip ip) ≫= k).
Proof.
  apply ok_read. intros n s H. rewrite sr_is_router_ip_run. unfold is_router_ip.
  by rewrite (base_ifs _ _ H).
Qed.

Lemma handle_arp_ok packet len iface :
  frame_ok packet len → cstr_ok sr_IFACE_NAMELEN iface → ok (sr_handle_arp_thread packet len iface).
Proof.
  intros Hf Hi. unfold sr_handle_arp_thread.
  destruct (Z.ltb_spec len (Z.of_nat (eth_size + arp_size))) as [|Hlen]; [apply ok_ret|].
  assert (eth_size + arp_size <= length packet)%nat as Hl by (destruct Hf as (_ & ? & _); lia).
  pose proof (mapping_ok packet (proj1 Hf) Hl) as Hmap.
  apply interface_ok; [done|]. mem. destruct (named s0 iface) as [recv|]; [|apply ok_ret].
  destruct (_ =? 0); [apply ok_ret|]. mem. destruct (_ =? arp_op_request).
  - apply ok_call; [done|]. intros _. destruct (_ =? if_ip recv); [|apply ok_ret].
    apply ok_act. intros n s H.
    eexists _, _. split; [by apply sr_send_arp_reply_run; [eapply base_wf, H|..|apply Hf|]|].
    apply (base_core n s); [done|apply arp_reply_core| |apply arp_reply_evolves].
    rewrite <- arp_reply_core. by eapply base_wf.
  - destruct (_ =? arp_op_reply); [|apply ok_ret]. apply router_ip_ok.
    destruct (is_router_ip _ _); [done|apply ok_ret].
Qed.

Lemma icmp_error_ok packet len type code :
  frame_ok packet len → is_u8 type → is_u8 code → ok (sr_send_icmp_error_thread packet len type code).
Proof.
  intros Hf Ht Hc. unfold sr_send_icmp_error_thread.
  eapply ok_read; [intros n s _; by apply sr_valid_ip_packet_run|].
  destruct (valid_ip packet) eqn:Hv; [|apply ok_ret]. cbn [negb].
  pose proof (valid_ip_layout _ (proj1 Hf) Hv) as Hl. pose proof (layout_frame _ Hl).
  assert (eth_size <= length packet)%nat as Hle by (unfold eth_size in *; lia).
  mem. fold (ip_total packet).
  apply (ok_read _ (icmp_source s0 packet (get eth_size ip_src packet))).
  { intros n s H'. rewrite sr_find_icmp_source_iface_run by (eapply base_wf, H' || done).
    unfold icmp_source, named. by rewrite (base_ifs _ _ H'), (base_rts _ _ H'). }
  destruct (icmp_source s0 packet _) as [out|] eqn:Eo; [|apply ok_ret].
  apply malloc_run_ok. destruct (malloc_ok e AllocIcmpError); [|apply ok_ret].
  cbn [negb]. pose proof (icmp_source_wf _ _ _ _ Hs0 Eo) as Ho.
  pose proof (length_icmp_error_head out packet Hle (if_wf_addr _ Ho)) as Hhd.
  eapply ok_read; [intros n s _; by apply fill_icmp_ip_run|].
  eapply ok_read; [intros n s _; by apply (fill_icmp_data_run packet _ type code e s (proj1 Hf))|].
  replace (icmp_error_head out packet ++ _) with (icmp_error_frame out packet type code)
    by (unfold icmp_error_frame, icmp_error_head; by rewrite <- !app_assoc).
  pose proof (icmp_error_frame_ok out packet type code Ho (proj1 Hf) Hl Ht Hc) as Hfr.
  apply ok_call; [|intros; apply ok_ret]. apply routed_ok; [exact Hfr|].
  destruct Hfr as (_ & Hlen & _). unfold eth_size, ip_size. lia.
Qed.

Lemma forward_ok packet len :
  frame_ok packet len → (eth_size + ip_size <= length packet)%nat →
  ok (sr_forward_ip_packet_thread packet len).
Proof.
  intros Hf Hl. unfold sr_forward_ip_packet_thread. mem. apply lpm_ok.
  destruct (lpm _ _); [|by apply icmp_error_ok].
  apply ok_call; [by apply routed_ok|]. intros _. apply ok_ret.
Qed.

Lemma local_ok packet len iface :
  cstr_ok sr_IFACE_NAMELEN iface → frame_ok packet len → ip_layout packet →
  ok (handle_ip_local_thread packet len iface (ip_hlen packet)).
Proof.
  intros Hi Hf Hl. pose proof (layout_frame _ Hl) as Hfr. unfold handle_ip_local_thread.
  rewrite (rd_ok eth_size ip_p), (rd_ok eth_size ip_len) by fits. mem. fold (ip_total packet).
  destruct (get eth_size ip_p packet =? ip_protocol_icmp) eqn:Ep; cbn [andb].
  2:{ destruct (_ || _); [by apply icmp_error_ok|apply ok_ret]. }
  destruct (Z.leb_spec (ip_hlen packet + Z.of_nat icmp_t08_size) (ip_total packet)) as [Hp|].
  2:{ destruct (_ || _); [by apply icmp_error_ok|apply ok_ret]. }
  apply ok_act. intros n s H.
  destruct (deliver_run packet len iface e s (base_wf _ _ H) Hm Hi Hf Hl) as [Hrun Hwf].
  eexists _, _. split; [exact Hrun|].
  assert (deliver e packet iface s = s ∨ deliver e packet iface s = echo_reply e packet iface s)
    as [Hd|Hd].
  { unfold deliver. rewrite Ep. rewrite (proj2 (Z.leb_le _ _)) by (unfold payload_len; lia).
    cbn [andb]. destruct (is_echo_request _); auto. }
  - by rewrite Hd.
  - rewrite Hd in *. apply (base_core n s); [done|apply echo_reply_core|done|].
    unfold echo_reply. destruct (malloc_ok _ _); [|done].
    destruct (named _ _); [apply send_evolves|done].
Qed.

Lemma handle_ip_ok packet len iface :
  frame_ok packet len → cstr_ok sr_IFACE_NAMELEN iface → ok (sr_handle_ip_thread packet len iface).
Proof.
  intros Hf Hi. pose proof Hf as (Hb & Hlen & Hmax). unfold sr_handle_ip_thread.
  eapply ok_read; [intros n s _; by apply sr_valid_ip_packet_run|].
  destruct (valid_ip packet) eqn:Hv; [|apply ok_ret]. cbn [negb].
  pose proof (valid_ip_layout _ Hb Hv) as Hl. destruct (Hl) as [Hfr Hl1 Hl2 Hl3 Hl4].
  unfold rd_ip_hl. mem. fold (ip_hlen packet). apply router_ip_ok.
  destruct (is_router_ip _ _); [by apply local_ok|]. mem.
  destruct (_ <=? 1); [by apply icmp_error_ok|].
  repeat mem_step. ck_step. mem.
  replace (set eth_size ip_sum _ _) with (dec_ttl packet)
    by (unfold dec_ttl, reseal_ip, ip_cksum; by rewrite ip_hlen_set by dj).
  assert (length (dec_ttl packet) = length packet) as Hld by (unfold dec_ttl; len).
  apply forward_ok; [|by rewrite Hld].
  split; [unfold dec_ttl; auto with sr|]. by rewrite Hld.
Qed.

Lemma handlepacket_ok packet len iface :
  frame_ok packet len → cstr_ok sr_IFACE_NAMELEN iface →
  ok (sr_handlepacket_thread packet len iface).
Proof.
  intros Hf Hi. pose proof Hf as (Hb & Hlen & _). unfold sr_handlepacket_thread.
  destruct (Z.ltb_spec len (Z.of_nat eth_size)); [apply ok_ret|].
  unfold ethertype. repeat mem_step. mem. destruct (_ =? ethertype_arp).
  - apply ok_call; [by apply handle_arp_ok|]. intros _. apply ok_ret.
  - destruct (_ =? ethertype_ip); [by apply handle_ip_ok|apply ok_ret].
Qed.
End frame.

