(* ===== verification/Interference.v ===== *)
(** * Frames are handled safely while the timer runs

    As long as no request can be given up during the frame, the handler neither
    faults nor breaks the router's invariant, wherever the rounds of the timer
    come. *)

From stdpp Require Import gmap.
From S2P Require Import RouterTheorems SweepTheorems Rely.

(** ** Rounds in which no request is given up *)

Definition resend (t : Z) (r : sr_arpreq) : sr_arpreq :=
  if 1 <=? t - req_sent r then mark_sent t r else r.

Lemma resend_addr t r : req_addr (resend t r) = req_addr r.
Proof. unfold resend. by destruct (_ <=? _). Qed.

Lemma update_req_ext a f g c :
  NoDup (req_addr <$> requests c) →
  (∀ r, req_at a (requests c) = Some r → f r = g r) → update_req a f c = update_req a g c.
Proof.
  intros Hnd H. unfold update_req. f_equal. apply list_fmap_ext. intros i r Hi. cbv beta.
  destruct (Nat.eqb_spec (req_addr r) a) as [Ha|]; [|done]. apply H.
  apply req_at_elem; [done|by eapply list_elem_of_lookup_2|done].
Qed.

Lemma sweep_one_calm a r e s :
  sr_wf s → req_at a (requests (cache s)) = Some r → req_times_sent r < 5 →
  cache (sweep_one e s a) = update_req a (resend (now e)) (cache s).
Proof.
  intros Hs Hr Ht. pose proof (req_at_some _ _ _ Hr) as [Hin <-].
  pose proof (cache_wf_req_addrs _ (sr_wf_cache _ Hs)) as Hnd. unfold sweep_one. rewrite Hr.
  pose proof (req_wf_waiting _ (sr_wf_requests _ _ Hs Hin)) as Hp.
  rewrite (proj2 (Z.leb_gt 5 _)) by done. destruct (1 <=? _) eqn:Hdue.
  - destruct (req_packets r) as [|p l]; [done|]. simpl. rewrite arp_request_cache.
    apply update_req_ext; [done|]. intros q Hq. rewrite Hr in Hq. injection Hq as <-.
    unfold resend. by rewrite Hdue.
  - transitivity (update_req (req_addr r) (λ q, q) (cache s)).
    + unfold update_req. destruct (cache s) as [es rs nx]. simpl. f_equal.
      rewrite <- (list_fmap_id rs) at 1. apply list_fmap_ext. intros i q _. cbv beta.
      by destruct (_ =? _)%nat.
    + apply update_req_ext; [done|]. intros q Hq. rewrite Hr in Hq. injection Hq as <-.
      unfold resend. by rewrite Hdue.
Qed.

(** Every request that is due is sent again, and that is all. *)
Definition resend_in (t : Z) (todo : list nat) (r : sr_arpreq) : sr_arpreq :=
  if bool_decide (req_addr r ∈ todo) then resend t r else r.

Lemma resend_in_cons t a todo r :
  a ∉ todo →
  resend_in t todo (if (req_addr r =? a)%nat then resend t r else r) = resend_in t (a :: todo) r.
Proof.
  intros Ha. unfold resend_in. destruct (Nat.eqb_spec (req_addr r) a) as [<-|Hne].
  - rewrite resend_addr, bool_decide_false by done. by rewrite bool_decide_true by left.
  - erewrite (bool_decide_ext (req_addr r ∈ a :: todo)); [done|].
    rewrite elem_of_cons. naive_solver.
Qed.

Lemma sweep_calm todo e s :
  sr_wf s → mallocs_checked e → NoDup todo → (∀ a, a ∈ todo → a ∈ addrs s) →
  Forall (λ r, req_addr r ∈ todo → req_times_sent r < 5) (requests (cache s)) →
  cache (foldl (sweep_one e) s todo) =
    mk_cache (entries (cache s)) (resend_in (now e) todo <$> requests (cache s))
      (next_addr (cache s)).
Proof.
  intros Hs Hm. revert s Hs. induction todo as [|a todo IH]; intros s Hs Hnd Hsub Hcalm.
  { simpl. destruct (cache s) as [es rs nx]. simpl. f_equal.
    rewrite <- (list_fmap_id rs) at 1. by apply list_fmap_ext. }
  apply list.NoDup_cons in Hnd as [Ha Hnd]. cbn [foldl].
  assert (a ∈ addrs s) as Hin by (apply Hsub; left).
  destruct (sweep_one_run a e s Hs Hm Hin) as [_ Hwf].
  apply list_elem_of_fmap in Hin as (r & -> & Hin).
  assert (req_at (req_addr r) (requests (cache s)) = Some r) as Hr.
  { apply req_at_elem; [apply (cache_wf_req_addrs _ (sr_wf_cache _ Hs))|done|done]. }
  rewrite list.Forall_forall in Hcalm.
  pose proof (sweep_one_calm _ r e s Hs Hr (Hcalm r Hin ltac:(left))) as Hc.
  rewrite (IH _ Hwf Hnd); rewrite ?Hc.
  - simpl. f_equal. rewrite <- list_fmap_compose. apply list_fmap_ext. intros i q _.
    by apply resend_in_cons.
  - intros b Hb. unfold addrs. rewrite Hc, update_addrs by (intros; apply resend_addr).
    apply Hsub. by right.
  - apply list.Forall_forall. intros q Hq Hqa. simpl in Hq.
    apply list_elem_of_fmap in Hq as (q' & -> & Hq'). cbv beta in *.
    destruct (Nat.eqb_spec (req_addr q') (req_addr r)) as [He|He].
    + rewrite resend_addr, He in Hqa. done.
    + apply Hcalm; [done|by right].
Qed.

Lemma tick_calm e s :
  sr_wf s → mallocs_checked e → Forall (λ r, req_times_sent r < 5) (requests (cache s)) →
  cache (tick e s) =
    mk_cache (expire (now e) <$> entries (cache s)) (resend (now e) <$> requests (cache s))
      (next_addr (cache s)).
Proof.
  intros Hs Hm Hcalm. unfold tick, sweep.
  set (s1 := set_cache (expire_entries (now e) (cache s)) s).
  assert (sr_wf s1) as Hs1 by (apply set_cache_wf; [done|apply expire_wf, Hs]).
  rewrite sweep_calm; [|done|done|apply (cache_wf_req_addrs _ (sr_wf_cache _ Hs1))|done|].
  - simpl. f_equal. apply list_fmap_ext. intros i r Hi. unfold resend_in.
    rewrite bool_decide_true; [done|]. apply list_elem_of_fmap_2. by eapply list_elem_of_lookup_2.
  - eapply list.Forall_impl; [exact Hcalm|]. done.
Qed.

(** ** The assertion of the frame's thread *)

(** No request can be sent more than five times by the rounds that are left. *)
Definition calm (n : nat) (s : sr_instance) : Prop :=
  Forall (λ r, req_times_sent r + Z.of_nat n ≤ 5) (requests (cache s)).

Definition never (f : fault) : Prop := False.

Section frame.
Context (e : env) (s0 : sr_instance).
Context (Hm : mallocs_checked e).

Record quiet (n : nat) (s : sr_instance) : Prop := {
  quiet_wf : sr_wf s;
  quiet_evolves : evolves s0 s;
  quiet_max : (n <= 4)%nat;
  quiet_calm : calm n s
}.

(** The request at [a] is on the queue. *)
Definition on_queue (a : nat) (n : nat) (s : sr_instance) : Prop := quiet n s ∧ a ∈ addrs s.

(** It has one round to spare. *)
Definition to_be_marked (a : nat) (n : nat) (s : sr_instance) : Prop :=
  quiet n s ∧ ∃ r, req_at a (requests (cache s)) = Some r ∧ req_times_sent r + Z.of_nat n ≤ 4.

Lemma resend_times t r :
  0 ≤ req_times_sent r < 5 → req_times_sent (resend t r) ≤ req_times_sent r + 1.
Proof.
  intros H. unfold resend. destruct (_ <=? _); [|lia]. simpl.
  rewrite u32_small; [lia|]. unfold is_u32. lia.
Qed.

Lemma quiet_tick e' n s :
  mallocs_checked e' → quiet (S n) s →
  quiet n (tick e' s) ∧
  requests (cache (tick e' s)) = resend (now e') <$> requests (cache s).
Proof.
  intros Hm' [Hs Hev Hmax Hc]. destruct (tick_run e' s Hs Hm') as [_ Hwf].
  assert (cache (tick e' s) = mk_cache (expire (now e') <$> entries (cache s))
    (resend (now e') <$> requests (cache s)) (next_addr (cache s))) as Hcache.
  { apply tick_calm; [done|done|]. eapply list.Forall_impl; [exact Hc|]. cbv beta. intros r ?. lia. }
  split; [|by rewrite Hcache]. split; [done| |lia|].
  - transitivity s; [done|]. unfold tick. etransitivity; [apply set_cache_evolves|apply sweep_evolves].
  - unfold calm in *. rewrite Hcache. simpl. apply list.Forall_forall.
    intros q (r & -> & Hr)%list_elem_of_fmap. rewrite list.Forall_forall in Hc.
    specialize (Hc r Hr). pose proof (req_wf_times _ (sr_wf_requests _ _ Hs Hr)).
    pose proof (resend_times (now e') r). lia.
Qed.

Lemma quiet_stable : stable quiet.
Proof. intros e' n s Hm' H. by apply quiet_tick. Qed.

Lemma on_queue_stable a : stable (on_queue a).
Proof.
  intros e' n s Hm' [H Ha]. destruct (quiet_tick e' n s Hm' H) as [Hb Hr]. split; [done|].
  unfold addrs in *. rewrite Hr, <- list_fmap_compose.
  rewrite (list_fmap_ext _ req_addr) by (intros; apply resend_addr). done.
Qed.

Lemma req_at_resend t a l : req_at a (resend t <$> l) = resend t <$> req_at a l.
Proof.
  induction l as [|r l IH]; [done|]. simpl. rewrite resend_addr. by destruct (_ =? a)%nat.
Qed.

Lemma to_be_marked_stable a : stable (to_be_marked a).
Proof.
  intros e' n s Hm' [H (r & Hr & Ht)]. destruct (quiet_tick e' n s Hm' H) as [Hb Hreq].
  split; [done|]. exists (resend (now e') r). rewrite Hreq, req_at_resend, Hr. split; [done|].
  pose proof (req_at_some _ _ _ Hr) as [Hin _].
  pose proof (req_wf_times _ (sr_wf_requests _ _ (quiet_wf _ _ H) Hin)).
  pose proof (resend_times (now e') r). lia.
Qed.

(** What leaves the cache alone keeps the assertions. *)
Lemma quiet_core n s s' : quiet n s → same_core s s' → sr_wf s' → evolves s s' → quiet n s'.
Proof.
  intros [Hs Hev Hmax Hc] Hcore Hwf Hev'. split; [done|by transitivity s|done|].
  unfold calm. by rewrite (same_cache _ _ Hcore).
Qed.

Lemma set_cache_quiet n s c :
  quiet n s → cache_wf c → Forall (λ r, req_times_sent r + Z.of_nat n ≤ 5) (requests c) →
  quiet n (set_cache c s).
Proof.
  intros [Hs Hev Hmax _] Hc Ht. split; [by apply set_cache_wf| |done|done].
  transitivity s; [done|apply set_cache_evolves].
Qed.

(** An update of the request at [a]. *)
Lemma quiet_update a r f n s :
  quiet n s → req_at a (requests (cache s)) = Some r →
  req_addr (f r) = a → req_ip (f r) = req_ip r → req_wf (f r) →
  req_times_sent (f r) + Z.of_nat n ≤ 5 →
  quiet n (set_cache (update_req a f (cache s)) s) ∧
  req_at a (requests (update_req a f (cache s))) = Some (f r).
Proof.
  intros H Hr Ha Hip Hwf Ht. pose proof (quiet_wf _ _ H) as Hs.
  pose proof (cache_wf_req_addrs _ (sr_wf_cache _ Hs)) as Hnd.
  assert (∀ q, q ∈ requests (cache s) → req_addr q = a → q = r) as Huniq.
  { intros q Hq Hqa. pose proof (req_at_elem _ _ _ Hnd Hq Hqa) as Hq'. congruence. }
  split; [|by apply req_at_update]. apply set_cache_quiet; [done|by apply update_at_wf with r|].
  apply list.Forall_forall. intros q Hq. simpl in Hq.
  apply list_elem_of_fmap in Hq as (q' & -> & Hq'). cbv beta.
  destruct (Nat.eqb_spec (req_addr q') a) as [Hqa|_]; [by rewrite (Huniq q' Hq' Hqa)|].
  pose proof (quiet_calm _ _ H) as Hc. unfold calm in Hc. rewrite list.Forall_forall in Hc. auto.
Qed.

Lemma mark_ok a :
  ∀ n s, to_be_marked a n s →
  iwp never (e ← act ask; act (write_req a (set_req_sent (now e)));; act (write_req a incr_times_sent))
    (λ _, quiet) e n s.
Proof.
  intros n s H. apply (iwp_act never ask _ (to_be_marked a));
    [apply to_be_marked_stable|done|apply H|].
  clear n s H. intros n s H. exists e, s. split; [done|].
  apply (iwp_act never _ _ (to_be_marked a)); [apply to_be_marked_stable|done|apply H|].
  clear n s H. intros n s (H & r & Hr & Ht). eexists tt, _. split; [by eapply write_req_run|].
  pose proof (req_at_some _ _ _ Hr) as [Hin Ha].
  pose proof (sr_wf_requests _ _ (quiet_wf _ _ H) Hin) as Hwr.
  destruct (quiet_update a r (set_req_sent (now e)) n s) as [Hb Hr']; try done;
    [by apply set_req_sent_wf|simpl; lia|].
  apply (iwp_act never _ mret (to_be_marked a)); [apply to_be_marked_stable| |apply Hb|].
  { split; [done|]. exists (set_req_sent (now e) r). done. }
  clear n s H r Hr Ht Hin Ha Hwr Hb Hr'. intros n s (H & r & Hr & Ht).
  eexists tt, _. split; [by eapply write_req_run|].
  pose proof (req_at_some _ _ _ Hr) as [Hin Ha].
  pose proof (sr_wf_requests _ _ (quiet_wf _ _ H) Hin) as Hwr.
  destruct (incr_times_sent_wf r) as [Hwi Hinc]; [lia|done|].
  destruct (quiet_update a r incr_times_sent n s) as [Hb _]; try done; [lia|].
  apply iwp_done; [apply Hb|done].
Qed.

Lemma ask_ok a iface :
  cstr_ok sr_IFACE_NAMELEN iface →
  ∀ n s, on_queue a n s → iwp never (ask_next_hop_thread a iface) (λ _, quiet) e n s.
Proof.
  intros Hi n s H. unfold ask_next_hop_thread.
  apply (iwp_act never _ _ (on_queue a)); [apply on_queue_stable|done|apply H|].
  clear n s H. intros n s [H Ha].
  apply list_elem_of_fmap in Ha as (r & -> & Hin).
  pose proof (cache_wf_req_addrs _ (sr_wf_cache _ (quiet_wf _ _ H))) as Hnd.
  assert (req_at (req_addr r) (requests (cache s)) = Some r) as Hr by by apply req_at_elem.
  exists r, s. split; [by apply deref_req_run|].
  destruct (Z.eqb_spec (req_times_sent r) 0) as [H0|_]; [|apply iwp_done; [apply H|done]].
  assert (to_be_marked (req_addr r) n s) as Hmark.
  { split; [done|]. exists r. split; [done|]. pose proof (quiet_max _ _ H). lia. }
  clear H Hr Hnd Hin H0. generalize dependent (req_addr r). clear r. intros a Hmark.
  apply (iwp_act never _ _ (to_be_marked a)); [apply to_be_marked_stable|done|apply Hmark|].
  clear n s Hmark. intros n s Hmark. pose proof Hmark as (H & r & Hr & _).
  exists (req_ip r), s. split; [by rewrite (bind_run _ _ _ _ _ _ (deref_req_run a r e s Hr))|].
  apply (iwp_act never _ _ (to_be_marked a)); [apply to_be_marked_stable|done|apply H|].
  generalize (req_ip r). clear n s r Hmark H Hr. intros ip n s (H & r & Hr & Ht).
  eexists tt, _. split; [by apply sr_send_arp_request_run; [apply H|..]|].
  apply mark_ok. split; [|by exists r; rewrite arp_request_cache].
  apply (quiet_core n s); [done|apply arp_request_core| |apply arp_request_evolves].
  rewrite <- arp_request_core. apply H.
Qed.

Lemma queued_on_queue ip frame len out n s :
  quiet n s → frame_ok frame len → (eth_size <= length frame)%nat → if_wf out → is_u32 ip →
  ∃ a s', sr_arpcache_queuereq ip (Some frame) len (Some (if_name out)) e s = Ok (a, s') ∧
    on_queue a n s'.
Proof.
  intros H Hf Hmin Ho Hip. pose proof (sr_wf_cache _ (quiet_wf _ _ H)) as Hc.
  destruct (sr_arpcache_queuereq_run ip frame len (if_name out) e s Hc Hm Hf)
    as (nm & Hcopy & Hrun); [destruct Hf as (_ & Hl & _); unfold eth_size in *; lia|
      by apply if_name_cstr|].
  pose proof (waiting_pkt_wf frame len (if_name out) Hf Hmin (if_wf_name _ Ho)) as Hp.
  unfold name_copy in Hp. rewrite Hcopy in Hp. simpl default in Hp.
  eexists _, _. split; [exact Hrun|]. set (p := mk_packet frame len nm) in *.
  pose proof (queue_packet_wf ip p _ Hc Hip Hp) as Hq. split.
  - apply set_cache_quiet; [done|done|]. pose proof (quiet_calm _ _ H) as Hcalm. unfold calm in Hcalm.
    unfold queue_packet. destruct (find_req ip _) as [r|].
    + apply list.Forall_forall. intros q (q' & -> & Hq')%list_elem_of_fmap.
      rewrite list.Forall_forall in Hcalm. specialize (Hcalm q' Hq'). by destruct (_ =? _)%nat.
    + constructor; [|done]. simpl. pose proof (quiet_max _ _ H). lia.
  - unfold addrs, queue_addr, queue_packet. simpl.
    destruct (find_req ip _) as [r|] eqn:E; [|left]. rewrite update_addrs by done.
    apply find_req_some in E as [Hin _]. by apply list_elem_of_fmap_2.
Qed.


#[local] Instance quiet_assertion : Assertion never e s0 quiet.
Proof.
  split.
  - apply quiet_wf.
  - apply quiet_evolves.
  - apply quiet_stable.
  - apply quiet_core.
  - intros n s c H Hc Hsub. apply set_cache_quiet; [done|done|]. apply list.Forall_forall.
    intros r Hr. pose proof (quiet_calm _ _ H) as Hq. unfold calm in Hq.
    rewrite list.Forall_forall in Hq. by apply Hq, Hsub.
  - intros ip frame len out n s H Hf Hmin Ho Hip.
    apply (iwp_act never _ _ quiet); [apply quiet_stable|done|apply H|].
    clear n s H. intros n s H.
    destruct (queued_on_queue ip frame len out n s) as (a & s' & Hrun & Hq); try done.
    exists a, s'. split; [done|]. apply ask_ok; [auto with sr|done].
Qed.
End frame.

(** C6: frames are handled safely while the timer runs.  Let rounds of the timer
    come between the steps of a frame, at any points, up to four in all, and let
    no pending request have been sent so often that these rounds could give it
    up (with the rounds that come, at most five times).  Then the handler and
    every round return without a fault; the router is well-formed, its
    configuration is the same, and every message that either thread sent carries
    the hardware address of the interface it names. *)
Theorem interleaved_frame_safe (packet : buf) (len : Z) (iface : cstr)
    (schedule : list (list env)) (e : env) (s : sr_instance)
    (Hs : sr_wf s) (Hm : mallocs_checked e) (Hms : Forall mallocs_checked (concat schedule))
    (Hf : frame_ok packet len) (Hi : cstr_ok sr_IFACE_NAMELEN iface)
    (Hrounds : (length (concat schedule) <= 4)%nat)
    (Hcalm : Forall (λ r, req_times_sent r + Z.of_nat (length (concat schedule)) ≤ 5)
               (requests (cache s))) :
  ∃ packet' s', interleaved (sr_handlepacket_thread packet len iface) schedule e s =
      Ok (packet', s') ∧ sr_wf s' ∧ evolves s s'.
Proof.
  pose proof (quiet_assertion e s Hm) as Has.
  pose proof (iwp_interleaved never (sr_handlepacket_thread packet len iface) (λ _, quiet s) e
    schedule (length (concat schedule)) s) as H.
  destruct (interleaved _ schedule e s) as [[packet' s']|f].
  - destruct H as (Hwf & n & Hq); [by apply handlepacket_ok|intros _; apply quiet_stable|done|done|].
    exists packet', s'. split; [done|]. split; [done|apply Hq].
  - exfalso. apply H; [by apply handlepacket_ok|intros _; apply quiet_stable|done|done].
Qed.

(** ** Runs *)

(** Before which action of the frame a round comes. *)
Definition round_at (k : nat) : list (list env) := replicate k [] ++ [[env_ok]].

(** A packet for the host that a request was sent for [times] times. *)
Definition late : buf := ip_frame (router_mac 3) client_mac client_ip server2_ip 17 64 [1; 2; 3; 4].

Definition late_run (times : Z) (k : nat) : res (buf * sr_instance) :=
  interleaved (sr_handlepacket_thread late (Z.of_nat (length late)) eth3_name) (round_at k)
    env_ok (net_asked times 100 parked).

Lemma interleaved_frame_safe_witness :
  ∃ packet' s', late_run 4 18 = Ok (packet', s') ∧ sr_wf s' ∧
    evolves (net_asked 4 100 parked) s'.
Proof.
  apply (interleaved_frame_safe late (Z.of_nat (length late)) eth3_name (round_at 18) env_ok
    (net_asked 4 100 parked)).
  - apply net_asked_wf; [lia|apply parked_wf].
  - demo.
  - repeat (apply Forall_cons_2; [apply env_ok_checked|]). by apply Forall_nil_2.
  - demo.
  - demo.
  - by apply Nat.leb_le.
  - apply Forall_cons_2; [by apply Z.leb_le|by apply Forall_nil_2].
Defined.

(** One more time is too many: of all the places where the round can come, the
    one after the packet was queued lets the thread use a request that was
    freed. *)
Example one_round_too_many :
  (λ k, match late_run 5 k with Ok _ => None | Fault f => Some f end) <$> seq 0 22 =
  replicate 18 None ++ [Some (Undefined UseAfterFree)] ++ replicate 3 None.
Proof. by vm_compute. Qed.
