(* ===== verification/Concurrent.v ===== *)
(** * Frames under any rounds of the timer

    Without a condition on the requests, the rounds that come inside a frame can
    do one thing wrong only: give up, and free, the request that the frame's
    thread goes on with. *)

From stdpp Require Import gmap.
From S2P Require Import RouterTheorems SweepTheorems System Rely.

Definition freed_request (f : fault) : Prop := f = Undefined UseAfterFree.

Section frame.
Context (e : env) (s0 : sr_instance).
Context (Hm : mallocs_checked e).

Record loose (n : nat) (s : sr_instance) : Prop := {
  loose_wf : sr_wf s;
  loose_evolves : evolves s0 s;
  loose_max : (n <= 4)%nat
}.

(** If the request at [a] is still there, it has a round to spare. *)
Definition spare (a : nat) (n : nat) (s : sr_instance) : Prop :=
  loose n s ∧ (a < next_addr (cache s))%nat ∧
  ∀ r, req_at a (requests (cache s)) = Some r → req_times_sent r + Z.of_nat n ≤ 4.

Lemma loose_tick e' n s :
  mallocs_checked e' → loose (S n) s → loose n (tick e' s).
Proof.
  intros Hm' [Hs Hev Hmax]. destruct (tick_run e' s Hs Hm') as [_ Hwf]. split; [done| |lia].
  transitivity s; [done|]. unfold tick. etransitivity; [apply set_cache_evolves|apply sweep_evolves].
Qed.

Lemma loose_stable : stable loose.
Proof. intros e' n s. apply loose_tick. Qed.

Lemma not_at_gone a s :
  (a < next_addr (cache s))%nat → req_at a (requests (cache s)) = None → gone a s.
Proof.
  intros Hlt Hn. split; [|done]. intros (r & -> & Hin)%list_elem_of_fmap.
  clear Hlt. induction (requests (cache s)) as [|q l IH]; [by apply elem_of_nil in Hin|].
  simpl in Hn. destruct (Nat.eqb_spec (req_addr q) (req_addr r)) as [|Hne]; [done|].
  apply elem_of_cons in Hin as [->|Hin]; [done|]. by apply IH.
Qed.

Lemma gone_not_at a s : gone a s → req_at a (requests (cache s)) = None.
Proof.
  intros [Hni _]. destruct (req_at a (requests (cache s))) as [r|] eqn:E; [|done].
  apply req_at_some in E as [Hin <-]. destruct Hni. by apply list_elem_of_fmap_2.
Qed.

(** What a round does with an address that was given out. *)
Lemma tick_at a e' s :
  sr_wf s → mallocs_checked e' → (a < next_addr (cache s))%nat →
  (a < next_addr (cache (tick e' s)))%nat ∧
  ∀ r', req_at a (requests (cache (tick e' s))) = Some r' →
    ∃ r, req_at a (requests (cache s)) = Some r ∧ req_times_sent r' ≤ req_times_sent r + 1.
Proof.
  intros Hs Hm' Hlt. destruct (tick_run e' s Hs Hm') as [_ Hwf].
  assert (gone a (tick e' s) ∨ ∃ r r', req_at a (requests (cache s)) = Some r ∧
    req_at a (requests (cache (tick e' s))) = Some r' ∧
    req_times_sent r' ≤ req_times_sent r + 1) as [Hg|(r & r' & Hr1 & Hr2 & Ht)].
  { destruct (req_at a (requests (cache s))) as [r|] eqn:E.
    - destruct (tick_times a r e' s Hs Hm' E) as [Hg|(r' & Hr' & Ht)]; [by left|].
      right. by exists r, r'.
    - left. apply tick_gone; [done|done|by apply not_at_gone]. }
  - split; [apply Hg|]. intros r Hr'. by rewrite (gone_not_at _ _ Hg) in Hr'.
  - split; [by eapply in_addrs_fresh|]. intros q Hq. rewrite Hr2 in Hq. injection Hq as <-.
    by exists r.
Qed.

(** The address was given out. *)
Definition known (a : nat) (n : nat) (s : sr_instance) : Prop :=
  loose n s ∧ (a < next_addr (cache s))%nat.

Lemma known_stable a : stable (known a).
Proof.
  intros e' n s Hm' [H Hlt]. split; [by apply loose_tick|].
  by apply tick_at; [apply H| |].
Qed.

Lemma spare_stable a : stable (spare a).
Proof.
  intros e' n s Hm' (H & Hlt & Hr). destruct (tick_at a e' s (loose_wf _ _ H) Hm' Hlt) as [Hlt' Hat].
  split; [by apply loose_tick|]. split; [done|].
  intros r' (r & Hr1 & Ht)%Hat. specialize (Hr r Hr1). lia.
Qed.

Lemma loose_core n s s' : loose n s → same_core s s' → sr_wf s' → evolves s s' → loose n s'.
Proof. intros [Hs Hev Hmax] _ Hwf Hev'. split; [done|by transitivity s|done]. Qed.

Lemma loose_cache n s c : loose n s → cache_wf c → loose n (set_cache c s).
Proof.
  intros [Hs Hev Hmax] Hc. split; [by apply set_cache_wf| |done].
  transitivity s; [done|apply set_cache_evolves].
Qed.

(** ** The request that may be freed *)

(** An access to the request's memory: the request is there, or was freed. *)
Lemma deref_req_eq a s :
  deref_req a e s =
    match req_at a (requests (cache s)) with
    | Some r => Ok (r, s)
    | None => Fault (Undefined UseAfterFree)
    end.
Proof. unfold deref_req, gets, mbind, M_bind. by destruct (req_at a _). Qed.

Lemma deref_bind {A} a (m : sr_arpreq → R A) s :
  (deref_req a ≫= m) e s =
    match req_at a (requests (cache s)) with
    | Some r => m r e s
    | None => Fault (Undefined UseAfterFree)
    end.
Proof. unfold mbind, M_bind. rewrite deref_req_eq. by destruct (req_at a _). Qed.

Lemma write_any {B} a f (k : unit → thread B) Q n s :
  spare a n s →
  (∀ r, req_wf r → req_addr r = a →
     req_addr (f r) = a ∧ req_ip (f r) = req_ip r ∧
     (req_times_sent r ≤ 4 → req_wf (f r))) →
  (∀ n s s' r, spare a n s → req_at a (requests (cache s)) = Some r → loose n s' →
     s' = set_cache (update_req a f (cache s)) s → iwp freed_request (k tt) Q e n s') →
  iwp freed_request (act (write_req a f) ≫= k) Q e n s.
Proof.
  intros Hsp Hf Hk. apply (iwp_act_any _ _ _ (spare a)); [apply spare_stable|done|apply Hsp|].
  clear n s Hsp. intros n s Hsp. pose proof Hsp as (H & _ & Ht).
  destruct (req_at a (requests (cache s))) as [r|] eqn:Hr.
  2:{ unfold write_req. by rewrite deref_bind, Hr. }
  rewrite (write_req_run a f r e s Hr).
  pose proof (req_at_some _ _ _ Hr) as [Hin Ha].
  pose proof (sr_wf_requests _ _ (loose_wf _ _ H) Hin) as Hwr.
  destruct (Hf r Hwr Ha) as (F1 & F2 & F3). specialize (Ht r eq_refl).
  apply (Hk n s _ r); [done|done| |done]. apply loose_cache; [done|].
  apply update_at_wf with r; try done; [apply H|]. apply F3. lia.
Qed.

Lemma mark_any a n s :
  spare a n s →
  iwp freed_request
    (e ← act ask; act (write_req a (set_req_sent (now e)));; act (write_req a incr_times_sent))
    (λ _, loose) e n s.
Proof.
  intros H. apply (iwp_act _ ask _ (spare a)); [apply spare_stable|done|apply H|].
  clear n s H. intros n s H. exists e, s. split; [done|].
  apply write_any; [done| |].
  { intros r Hr <-. split; [done|]. split; [done|]. intros _. by apply set_req_sent_wf. }
  clear n s H. intros n s s' r (H & Hlt & Ht) Hr Hl ->.
  change (act (write_req a incr_times_sent)) with (act (write_req a incr_times_sent) ≫= Done).
  apply write_any.
  - split; [done|]. split; [done|]. intros q Hq.
    pose proof (req_at_some _ _ _ Hr) as [_ Ha]. cbn [cache set_cache] in Hq.
    rewrite (req_at_update a (set_req_sent (now e)) _ r Hr Ha) in Hq.
    injection Hq as <-. apply (Ht r Hr).
  - intros q Hq <-. split; [done|]. split; [done|]. intros H4. by apply incr_times_sent_wf.
  - clear n s H Hlt Ht Hr Hl r. intros n s s' r _ _ Hl _. apply iwp_done; [apply Hl|done].
Qed.

Lemma ask_any a iface n s :
  cstr_ok sr_IFACE_NAMELEN iface → known a n s →
  iwp freed_request (ask_next_hop_thread a iface) (λ _, loose) e n s.
Proof.
  intros Hi H. unfold ask_next_hop_thread.
  apply (iwp_act_any _ _ _ (known a)); [apply known_stable|done|apply H|].
  clear n s H. intros n s [H Hlt]. rewrite deref_req_eq.
  destruct (req_at a (requests (cache s))) as [r|] eqn:Hr; [|done].
  destruct (Z.eqb_spec (req_times_sent r) 0) as [H0|_]; [|apply iwp_done; [apply H|done]].
  assert (spare a n s) as Hsp.
  { split; [done|]. split; [done|]. intros q Hq. pose proof (loose_max _ _ H).
    rewrite Hr in Hq. injection Hq as <-. lia. }
  clear H Hlt Hr H0. apply (iwp_act_any _ _ _ (spare a)); [apply spare_stable|done|apply Hsp|].
  clear n s Hsp r. intros n s Hsp.
  rewrite deref_bind. destruct (req_at a (requests (cache s))) as [r|] eqn:Hr; [|done].
  unfold mret at 1, M_ret.
  apply (iwp_act _ _ _ (spare a)); [apply spare_stable|done|apply Hsp|].
  generalize (req_ip r). clear n s r Hsp Hr. intros ip n s (H & Hlt & Ht).
  eexists tt, _. split; [by apply sr_send_arp_request_run; [apply H|..]|].
  apply mark_any. split; [|by rewrite arp_request_cache].
  apply (loose_core n s); [done|apply arp_request_core| |apply arp_request_evolves].
  rewrite <- arp_request_core. apply H.
Qed.

#[export] Instance loose_assertion : Assertion freed_request e s0 loose.
Proof.
  split.
  - apply loose_wf.
  - apply loose_evolves.
  - apply loose_stable.
  - apply loose_core.
  - intros n s c H Hc _. by apply loose_cache.
  - intros ip frame len out n s H Hf Hmin Ho Hip.
    apply (iwp_act _ _ _ loose); [apply loose_stable|done|apply H|].
    clear n s H. intros n s H. pose proof (sr_wf_cache _ (loose_wf _ _ H)) as Hc.
    destruct (sr_arpcache_queuereq_run ip frame len (if_name out) e s Hc Hm Hf)
      as (nm & Hcopy & Hrun); [destruct Hf as (_ & Hl & _); unfold eth_size in *; lia|
        by apply if_name_cstr|].
    pose proof (waiting_pkt_wf frame len (if_name out) Hf Hmin (if_wf_name _ Ho)) as Hp.
    unfold name_copy in Hp. rewrite Hcopy in Hp. simpl default in Hp.
    eexists _, _. split; [exact Hrun|]. set (p := mk_packet frame len nm) in *.
    pose proof (queue_packet_wf ip p _ Hc Hip Hp) as Hq.
    apply ask_any; [auto with sr|]. split; [by apply loose_cache|].
    destruct (req_at_queued ip p (cache s) Hc) as (r & Hr & _).
    pose proof (cache_wf_fresh _ Hq) as Hfr. rewrite list.Forall_forall in Hfr.
    apply req_at_some in Hr as [Hin <-]. by apply (Hfr r).
Qed.
End frame.

(** A frame under any rounds, up to four. *)
Lemma frame_any (packet : buf) (len : Z) (iface : cstr) (schedule : list (list env)) (e : env)
    (s : sr_instance) :
  sr_wf s → mallocs_checked e → Forall mallocs_checked (concat schedule) →
  frame_ok packet len → cstr_ok sr_IFACE_NAMELEN iface →
  (length (concat schedule) <= 4)%nat →
  match interleaved (sr_handlepacket_thread packet len iface) schedule e s with
  | Ok (_, s') => sr_wf s' ∧ evolves s s'
  | Fault f => f = Undefined UseAfterFree
  end.
Proof.
  intros Hs Hm Hms Hf Hi Hr. pose proof (loose_assertion e s Hm) as Has.
  pose proof (iwp_interleaved freed_request (sr_handlepacket_thread packet len iface)
    (λ _, loose s) e schedule (length (concat schedule)) s) as H.
  destruct (interleaved _ schedule e s) as [[packet' s']|f].
  - destruct H as (Hwf & n & Hl); [by apply handlepacket_ok|intros _; apply loose_stable|done|done|].
    split; [done|apply Hl].
  - apply H; [by apply handlepacket_ok|intros _; apply loose_stable|done|done].
Qed.
