(* ===== verification/ConcurrentSession.v ===== *)
(** * Sessions under any rounds of the timer

    The main loop of [MainThread] with rounds before any of its actions: what it
    reads is what it reads alone, and what it handles keeps the router's
    invariant. *)

From stdpp Require Import gmap.
From S2P Require Import RouterTheorems SweepTheorems System MainThread Rely Interference Concurrent.
From S2P Require Import Commands SessionTheorems.

(** ** The timer's rounds on the whole state *)

Definition ticks (es : list env) (r : sr_instance) : sr_instance := foldl (λ r e', tick e' r) r es.

Lemma ticks_wf es r :
  sr_wf r → Forall mallocs_checked es → sr_wf (ticks es r) ∧ evolves r (ticks es r).
Proof.
  revert r. induction es as [|e' es IH]; intros r Hr He; [done|].
  apply list.Forall_cons in He as [Hm He]. destruct (tick_run e' r Hr Hm) as [_ Hwf].
  destruct (IH (tick e' r) Hwf He) as [H1 H2]. split; [done|]. etransitivity; [|exact H2].
  unfold tick. etransitivity; [apply set_cache_evolves|apply sweep_evolves].
Qed.

Lemma vns_rounds_run es e s :
  sr_wf (router s) → Forall mallocs_checked es →
  timer_rounds es e s = Ok (tt, set_router (ticks es (router s)) s).
Proof.
  revert s. induction es as [|e' es IH]; intros s Hs He; [by destruct s|].
  apply list.Forall_cons in He as [Hm He]. destruct (tick_run e' (router s) Hs Hm) as [Hrun Hwf].
  cbn [timer_rounds]. rewrite (bind_run _ _ e s tt (set_router (tick e' (router s)) s)).
  - by rewrite IH.
  - unfold timer_round, vns_timer, on_sr. by rewrite Hrun.
Qed.

(** ** Reading is undisturbed

    Reading a command touches nothing of the router, and the timer nothing of
    the socket. *)
Definition local_action {A} (m : V A) : Prop := ∀ e s r,
  m e (set_router r s) =
    match m e s with Ok (a, s') => Ok (a, set_router r s') | Fault f => Fault f end.

Fixpoint local_thread {A} (t : vthread A) : Prop :=
  match t with
  | Done a => True
  | Act m k => local_action m ∧ ∀ b, local_thread (k b)
  end.

Lemma local_bind {A B} (t : vthread A) (k : A → vthread B) :
  local_thread t → (∀ a, local_thread (k a)) → local_thread (t ≫= k).
Proof.
  intros Ht Hk. induction t as [a|C m k' IH]; [apply Hk|].
  destruct Ht as [Hm Ht]. split; [done|]. intros b. by apply IH.
Qed.

Lemma local_act {A B} (m : V A) (k : A → vthread B) :
  local_action m → (∀ a, local_thread (k a)) → local_thread (act m ≫= k).
Proof. intros Hm Hk. by split. Qed.

Lemma local_anywhere {A} (t : vthread A) : local_thread t → local_action (alone t).
Proof.
  induction t as [a|C m k IH]; intros Ht e s r; [done|]. destruct Ht as [Hm Hk].
  cbn [alone]. unfold mbind, M_bind. rewrite (Hm e s r).
  destruct (m e s) as [[b s']|f]; [|done]. by apply IH.
Qed.

Lemma local_lift {A} u (o : option A) : local_action (lift u o).
Proof. intros e s r. by destruct o. Qed.

Lemma local_modify f : (∀ s r, f (set_router r s) = set_router r (f s)) → local_action (modify f).
Proof. intros H e s r. unfold modify. by rewrite H. Qed.

Lemma local_recv n : local_action (sys_recv n).
Proof. intros e s r. unfold sys_recv. simpl. by destruct (answers s) as [|[k| |] l]. Qed.

Lemma local_fuel : local_action recv_fuel.
Proof. by intros e s r. Qed.

Lemma local_malloc a : local_action (on_sr (malloc a)).
Proof. by intros e s r. Qed.

Lemma local_throw {A} f : local_action (throw (A:=A) f).
Proof. by intros e s r. Qed.

Create HintDb local.
#[local] Hint Resolve local_lift local_recv local_fuel local_malloc local_throw : local.

Lemma recv_loop_local fuel off want got b : local_thread (recv_loop_thread fuel off want got b).
Proof.
  revert got b. induction fuel as [|fuel IH]; intros got b; cbn [recv_loop_thread];
    (destruct (_ <? _)%nat; [|done]); [by split; auto with local|].
  apply local_act; [auto with local|]. intros [bs| |]; [|apply IH|done].
  apply local_act; auto with local.
Qed.

Lemma read_body_local len : local_thread (read_body_thread len).
Proof.
  apply local_act; [auto with local|]. intros ok. destruct (negb ok); [done|].
  apply local_act; [auto with local|]. intros b. apply local_act; [auto with local|]. intros fuel.
  apply local_bind; [apply recv_loop_local|]. intros [b'|]; [done|].
  apply local_act; [by apply local_modify|done].
Qed.

Lemma read_command_local : local_thread read_command_thread.
Proof.
  apply local_act; [by apply local_modify|]. intros _. apply local_act; [auto with local|].
  intros fuel. apply local_bind; [apply recv_loop_local|]. intros [l|]; [|done].
  cbv zeta. destruct (_ || _); [|apply read_body_local].
  apply local_act; [by apply local_modify|done].
Qed.

(** Under every schedule the thread reads what it reads alone, and the rounds
    have come and gone. *)
Lemma local_interleaved {A} (t : vthread A) schedule e s :
  local_thread t → sr_wf (router s) → Forall mallocs_checked (concat schedule) →
  ∃ es, Forall mallocs_checked es ∧ es `sublist_of` concat schedule ∧
    interleaved t schedule e s =
      match alone t e s with
      | Ok (a, s') => Ok (a, set_router (ticks es (router s)) s')
      | Fault f => Fault f
      end.
Proof.
  revert schedule s. induction t as [a|C m k IH]; intros sch s Ht Hs He;
    assert (Forall mallocs_checked (hd [] sch) ∧ Forall mallocs_checked (concat (tl sch)) ∧
      concat sch = hd [] sch ++ concat (tl sch)) as (He1 & He2 & Hcat)
      by (destruct sch as [|es sch]; [done|]; by apply Forall_app in He as [? ?]);
    pose proof (vns_rounds_run (hd [] sch) e s Hs He1) as Hr; cbn [interleaved alone];
    rewrite (bind_run _ _ _ _ _ _ Hr).
  - exists (hd [] sch). rewrite Hcat. split; [done|]. split; [by apply sublist_inserts_r|done].
  - destruct Ht as [Hm Hk]. set (r1 := ticks (hd [] sch) (router s)).
    destruct (ticks_wf _ _ Hs He1) as [Hw1 _]. fold r1 in Hw1.
    pose proof (Hm e s r1) as Hm1. unfold mbind, M_bind. rewrite Hm1.
    destruct (m e s) as [[b s']|f]; 
      [|exists []; split; [done|]; split; [apply sublist_nil_l|done]].
    destruct (IH b (tl sch) (set_router r1 s') (Hk b)) as (es & Hes & Hsub & Hrun); [done..|].
    exists (hd [] sch ++ es). split; [by apply Forall_app|].
    rewrite Hcat, Hrun. split.
    { by apply sublist_app. }
    rewrite (local_anywhere _ (Hk b) e s' r1). destruct (alone (k b) e s') as [[a s'']|f]; [|done].
    unfold ticks at 2. by rewrite foldl_app.
Qed.

(** ** One turn *)

Lemma interleaved_act {A B} (m : V B) (k : B → vthread A) schedule :
  interleaved (act m ≫= k) schedule =
    (timer_rounds (hd [] schedule);; b ← m; interleaved (k b) (tl schedule)).
Proof. done. Qed.

Lemma rounds_split (sch : list (list env)) :
  Forall mallocs_checked (concat sch) →
  Forall mallocs_checked (hd [] sch) ∧ Forall mallocs_checked (concat (tl sch)) ∧
  (length (concat (tl sch)) <= length (concat sch))%nat.
Proof.
  destruct sch as [|es sch]; [done|]. cbn. intros [? ?]%Forall_app. rewrite length_app.
  split; [done|]. split; [done|lia].
Qed.

(** An action that only reads the command. *)
Lemma pure_act {A B} (m : V B) b (k : B → vthread A) schedule e s :
  (∀ s, m e s = Ok (b, s)) → sr_wf (router s) → Forall mallocs_checked (concat schedule) →
  ∃ r, interleaved (act m ≫= k) schedule e s =
      interleaved (k b) (tl schedule) e (set_router r s) ∧
    sr_wf r ∧ evolves (router s) r.
Proof.
  intros Hm Hs He. destruct (rounds_split _ He) as (H1 & _ & _).
  rewrite interleaved_act. exists (ticks (hd [] schedule) (router s)).
  destruct (ticks_wf _ _ Hs H1) as [Hw Hev]. split; [|done].
  rewrite (bind_run _ _ _ _ _ _ (vns_rounds_run _ e s Hs H1)).
  by rewrite (bind_run _ _ _ _ _ _ (Hm _)).
Qed.

(** A command's type in a turn. *)
Lemma dispatch_turn command m schedule e s :
  message m → is_u32 command → slice 4 4 m = le_enc 4 (htonl command) →
  sr_wf (router s) → Forall mallocs_checked (concat schedule) →
  ∃ r, interleaved (dispatch_thread 0 (Z.of_nat (length m)) m) schedule e s =
      interleaved (handle_command_thread command (Z.of_nat (length m))
        (put 4 (le_enc 4 command) m)) (tl (tl schedule)) e (set_router r s) ∧
    sr_wf r ∧ evolves (router s) r.
Proof.
  intros [_ Hmin _ _] Hc Hty Hs He. unfold dispatch_thread. cbv zeta.
  destruct (rounds_split _ He) as (_ & He1 & _).
  match goal with |- context [interleaved (act ?m ≫= ?k)] =>
    destruct (pure_act m (htonl command) k schedule e s) as (r1 & -> & Hw1 & Hev1); [|done..|] end.
  { intros s'. rewrite load_ok, Hty by lia. by rewrite le_dec_enc by exact (ntohl_bound command). }
  change (ntohl (htonl command)) with (ntohl (ntohl command)). rewrite ntohl_involutive by done.
  match goal with |- context [interleaved (act ?m' ≫= ?k)] =>
    destruct (pure_act m' (put 4 (le_enc 4 command) m) k (tl schedule) e (set_router r1 s))
      as (r2 & -> & Hw2 & Hev2); [|done..|] end.
  { intros s'. by rewrite store_ok by lia. }
  exists r2. split; [done|]. split; [done|]. by transitivity r1.
Qed.

(** A packet command under any rounds, up to four. *)
Section packet.
Context {F : fault → Prop} {e : env} {s0 : sr_instance} {base : nat → sr_instance → Prop}.
Context `{Has : !Assertion F e s0 base}.
Context (Hm : mallocs_checked e) (Hs0 : sr_wf s0).

Lemma vnspacket_ok b :
  bytes_ok b → (c_packet_header_size <= length b)%nat → Z.of_nat (length b) < MAX_FRAME →
  slice 0 4 b = le_enc 4 (htonl (Z.of_nat (length b))) →
  cstr_ok sr_IFACE_NAMELEN (vns_interface b) →
  ((eth_size + arp_size <= length (vns_frame b))%nat → is_Some (named s0 (vns_interface b))) →
  ok (F:=F) (e:=e) (base:=base) (handle_vnspacket_thread (Z.of_nat (length b)) b).
Proof.
  intros Hb Hmin Hmax Hlen Hi Hif. unfold handle_vnspacket_thread. message_layout.
  destruct (command_frame b Hb Hmin Hmax Hlen) as (Hf & Hload & Hlog).
  apply (ok_read _ (arp_for_other s0 (vns_interface b) (vns_frame b))).
  { intros n s H. pose proof (base_named _ _ (vns_interface b) H) as Hn.
    rewrite sr_arp_req_not_for_us_run;
      [|eapply base_wf, H|done|done|by rewrite Hn].
    unfold arp_for_other. by rewrite Hn. }
  destruct (arp_for_other _ _ _); [apply ok_ret|].
  rewrite Hload. apply (ok_mret (htonl (Z.of_nat (length b)))). rewrite Hlog.
  apply ok_step.
  { intros n s H. eexists _, _. split.
    - apply sr_log_packet_run; [done|]. destruct Hf as (_ & ? & ?). lia.
    - apply (base_core n s); [done|apply log_frame_core| |apply log_frame_evolves].
      rewrite <- log_frame_core. by eapply base_wf. }
  intros _. apply ok_call; [by apply handlepacket_ok|]. intros _. apply ok_ret.
Qed.
End packet.

(** What a turn leaves: the rest of the stream, answers enough to read it, and a
    sound router. *)
Record turned (s : vns) (rest : buf) (used : nat) (s' : vns) : Prop := {
  turned_input : incoming s' = rest;
  turned_answers : no_failure (answers s');
  turned_turn : turn s' = S (turn s);
  turned_supply : (supply (answers s) <= supply (answers s') + used)%nat;
  turned_wf : sr_wf (router s');
  turned_evolves : evolves (router s) (router s')
}.

Definition one_turn (t : turn_rounds) : V Z :=
  c ← interleaved read_command_thread (while_reading t);
  interleaved (finish_thread c) (while_handling t).

(** Rounds before the value of a program that is done. *)
Lemma done_rounds {A} (a : A) schedule e s :
  sr_wf (router s) → Forall mallocs_checked (concat schedule) →
  ∃ es, es `sublist_of` concat schedule ∧ Forall mallocs_checked es ∧
    interleaved (mret (M := vthread) a) schedule e s =
      Ok (a, set_router (ticks es (router s)) s).
Proof.
  intros Hs He. change (mret (M := vthread) a) with (Done (E := venv) (S := vns) a).
  destruct (local_interleaved (Done a) schedule e s I Hs He) as (es & Hes & Hsub & Hrun). eauto.
Qed.

(** The command is read, and rounds have come. *)
Lemma read_turn m rest schedule e s :
  message m → incoming s = m ++ rest → no_failure (answers s) →
  (length m <= supply (answers s))%nat → malloc_ok (base e (S (turn s))) AllocCommand = true →
  sr_wf (router s) → Forall mallocs_checked (concat schedule) →
  ∃ s', interleaved read_command_thread schedule e s =
      Ok (Command (Z.of_nat (length m)) m, s') ∧ turned s rest (length m) s'.
Proof.
  intros Hm Hin Hno Hsup Hmal Hs He.
  destruct (read_message_run m rest e s Hm Hin Hno Hsup Hmal) as (l & Hl & Hsl & Hrun).
  destruct (local_interleaved read_command_thread schedule e s read_command_local Hs He)
    as (es & Hes & _ & ->).
  rewrite (read_command_alone e s), Hrun. eexists. split; [reflexivity|].
  destruct (ticks_wf es (router s) Hs Hes) as [Hw Hev]. by split.
Qed.

Lemma turned_router s rest used s1 r :
  turned s rest used s1 → sr_wf r → evolves (router s1) r →
  turned s rest used (set_router r s1).
Proof. intros [Hi Ha Ht Hsu Hw Hev] Hr Hev'. split; try done. by transitivity (router s1). Qed.

(** The server's farewell. *)
Lemma close_turn last rest t e s :
  close_message last → incoming s = last ++ rest → no_failure (answers s) →
  (length last <= supply (answers s))%nat → malloc_ok (base e (S (turn s))) AllocCommand = true →
  sr_wf (router s) → Forall mallocs_checked (concat (while_reading t)) →
  Forall mallocs_checked (concat (while_handling t)) →
  ∃ s', one_turn t e s = Ok (0, s') ∧ turned s rest (length last) s'.
Proof.
  intros (Hmsg & Hty & Hz) Hin Hno Hsup Hmal Hs Hr Hh. unfold one_turn.
  destruct (read_turn last rest (while_reading t) e s) as (s1 & Hrun & Ht); try done.
  rewrite (bind_run _ _ _ _ _ _ Hrun). cbn [finish_thread].
  destruct (dispatch_turn VNSCLOSE last (while_handling t) e s1) as (r1 & -> & Hw1 & Hev1);
    [done|done|done|apply Ht|done|].
  destruct (rounds_split _ Hh) as (_ & Hh1 & _). destruct (rounds_split _ Hh1) as (_ & Hh2 & _).
  unfold handle_command_thread. change (VNSCLOSE =? VNSPACKET) with false. cbv iota.
  match goal with |- context [interleaved (act ?m)] =>
    destruct (pure_act m 0 mret (tl (tl (while_handling t))) e (set_router r1 s1))
      as (r2 & Hr2 & Hw2 & Hev2); [intros s'; by apply close_command_run|done|done|] end.
  change (act ?m) with (act m ≫= mret (M := vthread)). rewrite Hr2.
  destruct (rounds_split _ Hh2) as (_ & Hh3 & _).
  destruct (done_rounds 0 (tl (tl (tl (while_handling t)))) e (set_router r2 (set_router r1 s1)))
    as (es & _ & Hes & ->); [done|done|]. destruct (ticks_wf es r2 Hw2 Hes) as [Hw3 Hev3].
  eexists. split; [reflexivity|]. apply turned_router; [|done|done].
  apply turned_router; [|done|done]. by apply turned_router.
Qed.

(** A packet command. *)
Lemma packet_turn name16 frame rest t e s :
  let b := vns_packet name16 frame in
  packet_message (router s) name16 frame → incoming s = b ++ rest → no_failure (answers s) →
  (length b <= supply (answers s))%nat → session_ok e →
  sr_wf (router s) → Forall mallocs_checked (concat (while_reading t)) →
  Forall mallocs_checked (concat (while_handling t)) →
  (length (concat (while_handling t)) <= 4)%nat →
  match one_turn t e s with
  | Ok (r, s') => r = 1 ∧ turned s rest (length b) s'
  | Fault f => f = Undefined UseAfterFree
  end.
Proof.
  intros b Hp Hin Hno Hsup He Hs Hr Hh Hn. pose proof (vns_packet_message _ _ _ Hp) as Hmsg.
  unfold one_turn.
  destruct (read_turn b rest (while_reading t) e s) as (s1 & Hrun & Ht); try done; [apply He|].
  rewrite (bind_run _ _ _ _ _ _ Hrun). cbn [finish_thread].
  destruct (dispatch_turn VNSPACKET b (while_handling t) e s1) as (r1 & -> & Hw1 & Hev1);
    [done|done|apply vns_packet_type|apply Ht|done|].
  destruct (rounds_split _ Hh) as (_ & Hh1 & Hl1). destruct (rounds_split _ Hh1) as (_ & Hh2 & Hl2).
  set (sch := tl (tl (while_handling t))) in *. set (s2 := set_router r1 s1).
  assert (turned s rest (length b) s2) as Ht2 by by apply turned_router.
  unfold handle_command_thread. change (VNSPACKET =? VNSPACKET) with true. cbv iota.
  change (put 4 (le_enc 4 VNSPACKET) b) with (packet_buffer name16 frame).
  destruct (interleaved_bind (on_router (handle_vnspacket_thread (Z.of_nat (length b))
    (packet_buffer name16 frame))) (λ _, mret 1) sch e s2) as [n ->].
  destruct (concat_take mallocs_checked n sch Hh2) as [Hc1 Hc2].
  destruct (packet_buffer_ok _ _ _ Hp) as [Hb Hbl Hmin Hmax Hlen Hvi Hvf Hc].
  assert (length (concat (take n sch)) <= 4)%nat as Hn1.
  { rewrite <- (take_drop n sch), concat_app, length_app in Hl2. lia. }
  pose proof (loose_assertion (base e (turn s2)) (router s2) (proj1 (He (turn s2)))) as Has.
  pose proof (iwp_interleaved freed_request (handle_vnspacket_thread (Z.of_nat (length b))
    (packet_buffer name16 frame)) (λ _, loose (router s2)) (base e (turn s2)) (take n sch)
    (length (concat (take n sch))) (router s2)) as H.
  assert (iwp freed_request (handle_vnspacket_thread (Z.of_nat (length b))
    (packet_buffer name16 frame)) (λ _, loose (router s2)) (base e (turn s2))
    (length (concat (take n sch))) (router s2)) as Hiwp.
  { unfold b. rewrite <- Hbl. apply vnspacket_ok; try done; [apply He|].
    rewrite Hvi, Hvf. intros Hmf. unfold named.
    rewrite (evolves_ifs _ _ (turned_evolves _ _ _ _ Ht2)). by apply (packet_iface _ _ _ Hp). }
  specialize (H Hiwp ltac:(intros ?; apply loose_stable) Hc1 ltac:(done)).
  unfold mbind at 1, M_bind. rewrite (on_router_interleaved _ _ e s2). unfold on_sr.
  destruct (interleaved _ (take n sch) _ _) as [[[] r2]|f]; [|exact H].
  destruct H as (Hw2 & n' & [_ Hev2 _]).
  destruct (done_rounds 1 (drop n sch) e (set_router r2 s2)) as (es & _ & Hes & ->); [done|done|].
  destruct (ticks_wf es r2 Hw2 Hes) as [Hw3 Hev3].
  split; [done|]. apply turned_router; [|done|done]. by apply turned_router.
Qed.

(** The hardware information, whatever rounds come: the interfaces are put into
    the router that the rounds before them leave. *)
Lemma evolves_configured l r r' :
  if_list r = [] → evolves r r' → evolves (set_if_list l r) (set_if_list l r').
Proof.
  intros Hnil [_ H2 (new & Hs & Hh)]. split; [done|done|]. exists new. split; [done|].
  rewrite Hnil in Hh. eapply list.Forall_impl; [exact Hh|]. by intros m (? & ? & ? & ? & _ & ? & _).
Qed.

Lemma hwinfo_turn es rest t e s :
  let r := set_if_list (foldl (hw_apply (base e (S (turn s)))) [] es) (router s) in
  sr_wf (router s) → if_list (router s) = [] → hw_ok false es → Z.of_nat (length es) ≤ 256 →
  (∀ t a, malloc_ok (base e t) a = true) → if_wf (fresh_if (base e (S (turn s)))) →
  if_list r ≠ [] → routing_table r ≠ [] → orphans r = [] →
  incoming s = hwinfo_message es ++ rest → no_failure (answers s) →
  (length (hwinfo_message es) <= supply (answers s))%nat →
  Forall mallocs_checked (concat (while_reading t)) →
  Forall mallocs_checked (concat (while_handling t)) →
  ∃ s', one_turn t e s = Ok (1, s') ∧ incoming s' = rest ∧ no_failure (answers s') ∧
    (supply (answers s) <= supply (answers s') + length (hwinfo_message es))%nat ∧
    sr_wf (router s') ∧ evolves r (router s').
Proof.
  intros r Hs Hnil Hok Hmax Hmal Hfresh Hi Hr Ho Hin Hno Hsup Hrd Hh.
  assert (message (hwinfo_message es)) as Hm by by eapply hwinfo_is_message.
  unfold one_turn. destruct (read_turn (hwinfo_message es) rest (while_reading t) e s)
    as (s1 & Hrun & Ht); try done.
  rewrite (bind_run _ _ _ _ _ _ Hrun). cbn [finish_thread].
  destruct (dispatch_turn VNSHWINFO (hwinfo_message es) (while_handling t) e s1)
    as (r1 & -> & Hw1 & Hev1);
    [done|done|unfold hwinfo_message; apply slice_seg; by rewrite length_le_enc|apply Ht|done|].
  destruct (rounds_split _ Hh) as (_ & Hh1 & _). destruct (rounds_split _ Hh1) as (_ & Hh2 & _).
  destruct (rounds_split _ Hh2) as (He3 & Hh3 & _).
  unfold handle_command_thread. change (VNSHWINFO =? VNSPACKET) with false. cbv iota.
  match goal with |- context [interleaved (act ?m)] =>
    change (act m) with (act m ≫= mret (M := vthread)) end.
  rewrite interleaved_act. set (s2 := set_router r1 s1).
  rewrite (bind_run _ _ _ _ _ _ (vns_rounds_run _ e s2 Hw1 He3)).
  set (r2 := ticks (hd [] (tl (tl (while_handling t)))) (router s2)).
  destruct (ticks_wf _ _ Hw1 He3) as [Hw2 Hev2]. fold r2 in Hw2, Hev2.
  assert (evolves (router s) r2) as Hev.
  { transitivity (router s1); [apply Ht|]. by transitivity r1. }
  set (s3 := set_router r2 s2).
  assert (if_list (router s3) = []) as Hnil3 by (cbn; by rewrite (evolves_ifs _ _ Hev)).
  assert (turn s3 = S (turn s)) as Htn by apply Ht.
  destruct (hwinfo_command_run es e s3) as [Hwf Hd];
    [exact Hw2|by rewrite Hnil3|done|by rewrite Htn|by apply Hmal|by rewrite Hnil3|].
  rewrite Hnil3, Htn in Hwf, Hd.
  rewrite dispatch_run with (command := VNSHWINFO) in Hd;
    [|done|done|unfold hwinfo_message; apply slice_seg; by rewrite length_le_enc|by left].
  rewrite (bind_run _ _ _ _ _ _ Hd). rewrite bool_decide_true.
  2:{ split; [done|]. unfold orphans in *. cbn [routing_table if_list set_if_list] in *.
      change (router s3) with r2. by rewrite (evolves_rts _ _ Hev). }
  match goal with |- context [interleaved (mret 1) ?sch e ?s3] =>
    destruct (done_rounds 1 sch e s3) as (es3 & _ & Hes & ->); [done|done|];
    destruct (ticks_wf es3 (router s3) Hwf Hes) as [Hw4 Hev4] end.
  eexists. split; [reflexivity|]. destruct Ht as [T1 T2 _ T3 _ _].
  split; [done|]. split; [done|]. split; [done|]. split; [done|].
  etransitivity; [|exact Hev4]. by apply evolves_configured.
Qed.

(** ** The session *)

(** A round came while a frame was handled. *)
Definition disturbed (t : turn_rounds) : Prop := concat (while_handling t) ≠ [].

Definition few_rounds (t : turn_rounds) : Prop := (length (concat (while_handling t)) <= 4)%nat.

(** Without one, a turn is the dispatch of the command, after the rounds that
    came while it was read. *)
Lemma quiet_turn m rest t e s :
  message m → incoming s = m ++ rest → no_failure (answers s) →
  (length m <= supply (answers s))%nat → session_ok e →
  sr_wf (router s) → Forall mallocs_checked (concat (while_reading t)) → ¬ disturbed t →
  ∃ es l, es `sublist_of` concat (while_reading t) ∧ Forall mallocs_checked es ∧ no_failure l ∧
    (supply (answers s) <= supply l + length m)%nat ∧
    one_turn t e s = dispatch 0 (Z.of_nat (length m)) m e
      (set_router (ticks es (router s)) (set_input rest l (next_turn s))).
Proof.
  intros Hm Hin Hno Hsup He Hs Hr Hq.
  destruct (read_message_run m rest e s Hm Hin Hno Hsup) as (l & Hl & Hsl & Hrun); [apply He|].
  destruct (local_interleaved read_command_thread (while_reading t) e s read_command_local Hs Hr)
    as (es & Hes & Hsub & Hread).
  rewrite (read_command_alone e s), Hrun in Hread. exists es, l. repeat (split; [done|]).
  unfold one_turn. rewrite (bind_run _ _ _ _ _ _ Hread). cbn [finish_thread].
  rewrite interleaved_no_rounds by by apply dec_stable. apply dispatch_alone.
Qed.

Lemma packet_turn_quiet name16 frame rest t e s :
  let b := vns_packet name16 frame in
  packet_message (router s) name16 frame → incoming s = b ++ rest → no_failure (answers s) →
  (length b <= supply (answers s))%nat → session_ok e →
  sr_wf (router s) → Forall mallocs_checked (concat (while_reading t)) → ¬ disturbed t →
  ∃ es s', es `sublist_of` concat (while_reading t) ∧ one_turn t e s = Ok (1, s') ∧
    turned s rest (length b) s' ∧ turn s' = S (turn s) ∧
    router s' = packet_in (base e (S (turn s))) (name16 ++ frame) frame (ticks es (router s)).
Proof.
  intros b Hp Hin Hno Hsup He Hs Hr Hq. pose proof (vns_packet_message _ _ _ Hp) as Hmsg.
  destruct (quiet_turn b rest t e s) as (es & l & Hsub & Hes & Hl & Hsl & Hrun); try done.
  destruct (ticks_wf es (router s) Hs Hes) as [Hw Hev].
  set (s1 := set_router (ticks es (router s)) (set_input rest l (next_turn s))) in *.
  destruct (dispatch_packet_run name16 frame e s1) as (Hd & Hwf & Hev'); [done|apply He| |].
  { destruct Hp as [H1 H2 H3]. split; [done|done|]. unfold named in *.
    change (router s1) with (ticks es (router s)). by rewrite (evolves_ifs _ _ Hev). }
  eexists es, _. split; [done|]. split; [by rewrite Hrun|].
  split; [|done]. apply turned_router; [|done|done]. by split.
Qed.

Lemma main_loop_turns_step fuel turns :
  same_run (main_loop_turns (S fuel) turns)
    (r ← one_turn (turn_of turns);
     if r =? 1 then main_loop_turns fuel (tl turns)
     else interleaved (mret tt) (while_reading (turn_of (tl turns)))).
Proof. cbn [main_loop_turns]. symmetry. apply bind_assoc. Qed.

Record turns_ok (turns : list turn_rounds) : Prop := {
  turns_rounds : turns_all mallocs_checked turns;
  turns_few : Forall few_rounds turns
}.

Lemma turns_first turns :
  turns_ok turns →
  Forall mallocs_checked (concat (while_reading (turn_of turns))) ∧
  Forall mallocs_checked (concat (while_handling (turn_of turns))) ∧
  few_rounds (turn_of turns) ∧ turns_ok (tl turns) ∧
  (disturbed (turn_of turns) ∨ Exists disturbed (tl turns) → Exists disturbed turns).
Proof.
  intros [Hr Hf]. destruct turns as [|t turns].
  - repeat (split; [done || (unfold few_rounds; simpl; lia)|]). by intros [H|H].
  - apply list.Forall_cons in Hr as [[H1 H2] Hr]. apply list.Forall_cons in Hf as [H3 Hf].
    repeat (split; [done|]). rewrite Exists_cons. done.
Qed.

(** A session, from any state of the router. *)
Lemma session_rounds (ps : list (buf * buf)) (last rest : buf) (e : venv) (fuel : nat)
    (turns : list turn_rounds) (s : vns)
    (He : session_ok e) (Hs : sr_wf (router s)) (Hps : packets_ok (router s) ps)
    (Hlast : close_message last) (Hin : incoming s = stream ps ++ last ++ rest)
    (Hno : no_failure (answers s))
    (Hsup : (length (stream ps ++ last) <= supply (answers s))%nat)
    (Hfuel : (length ps < fuel)%nat)
    (Hturns : turns_ok turns) :
  match main_loop_turns fuel turns e s with
  | Ok (_, s') => incoming s' = rest ∧ sr_wf (router s') ∧ evolves (router s) (router s')
  | Fault f => f = Undefined UseAfterFree ∧ Exists disturbed turns
  end.
Proof.
  revert fuel turns s Hs Hps Hin Hno Hsup Hfuel Hturns.
  induction ps as [|[n f] ps IH];
    intros fuel turns s Hs Hps Hin Hno Hsup Hfuel Hturns;
    destruct fuel as [|fuel]; [cbn in Hfuel; lia| |cbn in Hfuel; lia|];
    destruct (turns_first turns Hturns) as (Hr & Hh & Hf & Htl & Hex);
    rewrite (main_loop_turns_step fuel turns e s).
  - cbn [stream app fmap list_fmap concat] in *.
    destruct (close_turn last rest (turn_of turns) e s) as (s1 & Hrun & [Hi1 _ _ _ Hw1 Hev1]);
      try done; [apply He|].
    rewrite (bind_run _ _ _ _ _ _ Hrun). change (0 =? 1) with false. cbv iota.
    destruct (turns_first _ Htl) as (Hr2 & _).
    destruct (done_rounds tt (while_reading (turn_of (tl turns))) e s1) as (es & _ & Hes & ->);
      [done|done|]. destruct (ticks_wf es (router s1) Hw1 Hes) as [Hw2 Hev2].
    split; [done|]. split; [done|]. by etransitivity.
  - change (stream ((n, f) :: ps)) with (vns_packet n f ++ stream ps) in *.
    rewrite <- app_assoc in Hin. rewrite <- app_assoc, length_app in Hsup.
    apply list.Forall_cons in Hps as [Hp Hps].
    pose proof (packet_turn n f (stream ps ++ last ++ rest) (turn_of turns) e s Hp Hin Hno
      ltac:(lia) He Hs Hr Hh Hf) as Hturn.
    destruct (one_turn (turn_of turns) e s) as [[r s1]|x] eqn:Hrun.
    + destruct Hturn as [-> [Hi1 Ha1 _ Hs1 Hw1 Hev1]].
      rewrite (bind_run _ _ _ _ _ _ Hrun). change (1 =? 1) with true. cbv iota.
      assert (match main_loop_turns fuel (tl turns) e s1 with
        | Ok (_, s') => incoming s' = rest ∧ sr_wf (router s') ∧ evolves (router s1) (router s')
        | Fault x => x = Undefined UseAfterFree ∧ Exists disturbed (tl turns)
        end) as H.
      { apply IH; try done; [by eapply packets_ok_evolves|lia|cbn in Hfuel; lia]. }
      destruct (main_loop_turns fuel (tl turns) e s1) as [[[] s2]|x].
      * destruct H as (H1 & H2 & H3). split; [done|]. split; [done|]. by etransitivity.
      * destruct H as [H1 H2]. split; [done|]. apply Hex. by right.
    + rewrite (bind_fault _ _ _ _ _ Hrun). split; [done|]. apply Hex. left. intros Hq.
      destruct (packet_turn_quiet n f (stream ps ++ last ++ rest) (turn_of turns) e s)
        as (es & s' & _ & Hok & _); try done; [lia|by intros ?|congruence].
Qed.

(** C5: a session while the timer runs.  Rounds of the timer may come at any
    point: any number while commands are read, in the middle of the bytes of one,
    and up to four while a frame is handled.  The main loop takes the packet
    commands one after the other and returns at the server's farewell, having
    read exactly up to it, with a well-formed router all of whose messages are
    honest about their interface; or it uses the memory of a request that the
    timer gave up and freed, which is the only fault that can happen, and only
    when a round came while a frame was handled. *)
Theorem concurrent_session (ps : list (buf * buf)) (last rest : buf) (e : venv) (fuel : nat)
    (turns : list turn_rounds) (s : vns)
    (He : session_ok e) (Hs : sr_wf (router s)) (Hps : packets_ok (router s) ps)
    (Hlast : close_message last) (Hin : incoming s = stream ps ++ last ++ rest)
    (Hno : no_failure (answers s))
    (Hsup : (length (stream ps ++ last) <= supply (answers s))%nat)
    (Hfuel : (length ps < fuel)%nat)
    (Hturns : turns_ok turns) :
  match main_loop_turns fuel turns e s with
  | Ok (_, s') => incoming s' = rest ∧ sr_wf (router s') ∧ evolves (router s) (router s')
  | Fault f => f = Undefined UseAfterFree ∧ Exists disturbed turns
  end.
Proof. by apply session_rounds with (ps := ps) (last := last). Qed.

(** The rounds [rs] before the commands, one list for each, and the last one
    before the farewell. *)
Fixpoint deliver_rounds (e : venv) (t : nat) (ps : list (buf * buf)) (rs : list (list env))
    (r : sr_instance) : sr_instance :=
  let r := ticks (hd [] rs) r in
  match ps with
  | [] => r
  | (n, f) :: ps' => deliver_rounds e (S t) ps' (tl rs) (packet_in (base e t) (n ++ f) f r)
  end.

Definition all_rounds (turns : list turn_rounds) : list env :=
  concat ((λ t, concat (while_reading t)) <$> turns).

Lemma all_rounds_first turns :
  all_rounds turns = concat (while_reading (turn_of turns)) ++ all_rounds (tl turns).
Proof. by destruct turns. Qed.

Lemma quiet_first turns :
  turns_all mallocs_checked turns → Forall (λ t, ¬ disturbed t) turns →
  Forall mallocs_checked (concat (while_reading (turn_of turns))) ∧ ¬ disturbed (turn_of turns) ∧
  turns_all mallocs_checked (tl turns) ∧ Forall (λ t, ¬ disturbed t) (tl turns).
Proof.
  intros Hr Hq. destruct turns as [|t turns]; [by repeat split; [|intros H; apply H|..]|].
  apply list.Forall_cons in Hr as [[H1 _] Hr]. by apply list.Forall_cons in Hq as [H3 Hf].
Qed.

(** C8: when no round comes while a frame is handled, the session is a sequence
    of whole steps, frames and rounds: the main loop returns at the farewell, and
    the router is where the frames lead to, handled in order, with some of the
    timer's rounds, in the order they came, before each of them. *)
Theorem session_in_steps (ps : list (buf * buf)) (last rest : buf) (e : venv) (fuel : nat)
    (turns : list turn_rounds) (s : vns)
    (He : session_ok e) (Hs : sr_wf (router s)) (Hps : packets_ok (router s) ps)
    (Hlast : close_message last) (Hin : incoming s = stream ps ++ last ++ rest)
    (Hno : no_failure (answers s))
    (Hsup : (length (stream ps ++ last) <= supply (answers s))%nat)
    (Hfuel : (length ps < fuel)%nat)
    (Hturns : turns_all mallocs_checked turns) (Hquiet : Forall (λ t, ¬ disturbed t) turns) :
  ∃ rs s', main_loop_turns fuel turns e s = Ok (tt, s') ∧ incoming s' = rest ∧
    concat rs `sublist_of` all_rounds turns ∧
    router s' = deliver_rounds e (S (turn s)) ps rs (router s).
Proof.
  revert fuel turns s Hs Hps Hin Hno Hsup Hfuel Hturns Hquiet.
  induction ps as [|[n f] ps IH];
    intros fuel turns s Hs Hps Hin Hno Hsup Hfuel Hturns Hquiet;
    destruct fuel as [|fuel]; [cbn in Hfuel; lia| |cbn in Hfuel; lia|];
    rewrite (all_rounds_first turns);
    destruct (quiet_first turns Hturns Hquiet) as (Hr & Hq & Htl & Hqtl);
    rewrite (main_loop_turns_step fuel turns e s).
  - cbn [stream app fmap list_fmap concat] in *.
    destruct (quiet_turn last rest (turn_of turns) e s) as (es & l & Hsub & Hes & Hl & Hsl & Hrun);
      try done; [apply Hlast|].
    rewrite dispatch_close_run in Hrun by done. destruct (ticks_wf es (router s) Hs Hes) as [Hw _].
    rewrite (bind_run _ _ _ _ _ _ Hrun). change (0 =? 1) with false. cbv iota.
    destruct (quiet_first _ Htl Hqtl) as (Hr2 & _).
    destruct (done_rounds tt (while_reading (turn_of (tl turns))) e
      (set_router (ticks es (router s)) (set_input rest l (next_turn s))))
      as (es2 & Hsub2 & _ & ->); [done|done|].
    exists [es ++ es2]. eexists. split; [reflexivity|]. split; [done|]. split.
    + cbn [concat]. rewrite app_nil_r, (all_rounds_first (tl turns)).
      apply sublist_app; [done|]. by apply sublist_inserts_r.
    + unfold deliver_rounds, ticks. cbn [hd]. by rewrite foldl_app.
  - change (stream ((n, f) :: ps)) with (vns_packet n f ++ stream ps) in *.
    rewrite <- app_assoc in Hin. rewrite <- app_assoc, length_app in Hsup.
    apply list.Forall_cons in Hps as [Hp Hps].
    destruct (packet_turn_quiet n f (stream ps ++ last ++ rest) (turn_of turns) e s)
      as (es & s1 & Hsub & Hrun & [Hi1 Ha1 _ Hs1 Hw1 Hev1] & Ht1 & Hr1); try done; [lia|].
    rewrite (bind_run _ _ _ _ _ _ Hrun). change (1 =? 1) with true. cbv iota.
    destruct (IH fuel (tl turns) s1) as (rs & s2 & Hrun2 & Hi2 & Hsub2 & Hr2); try done;
      [by eapply packets_ok_evolves|lia|cbn in Hfuel; lia|].
    exists (es :: rs), s2. split; [done|]. split; [done|]. split.
    + cbn [concat]. by apply sublist_app.
    + cbn [deliver_rounds hd tl]. by rewrite Hr2, Ht1, Hr1.
Qed.

(** ** The demo session, with rounds *)

Definition demo_session : vns := demo_vns (stream demo_packets ++ demo_close ++ [1; 2]).

(** A round in the middle of the first command, two while the second packet is
    handled, and one before the farewell. *)
Definition demo_turns : list turn_rounds :=
  [mk_rounds [[]; []; []; [env_ok]] [];
   mk_rounds [] [[]; []; []; []; [env_ok]; []; [env_ok]];
   mk_rounds [[env_ok]] []].

(** The same, with none while a packet is handled. *)
Definition quiet_turns : list turn_rounds :=
  [mk_rounds [[]; []; []; [env_ok]] []; mk_rounds [] []; mk_rounds [[env_ok]] []].

Lemma demo_turns_checked : turns_all mallocs_checked demo_turns.
Proof. repeat first [apply env_ok_checked | constructor]. Qed.

Lemma concurrent_session_witness :
  match main_loop_turns 3 demo_turns venv_ok demo_session with
  | Ok (_, s') => incoming s' = [1; 2] ∧ sr_wf (router s') ∧ evolves net1 (router s')
  | Fault f => f = Undefined UseAfterFree ∧ Exists disturbed demo_turns
  end.
Proof.
  apply (concurrent_session demo_packets demo_close [1; 2] venv_ok 3 demo_turns demo_session).
  - apply venv_session.
  - apply net1_wf.
  - apply demo_packets_ok.
  - apply demo_close_ok.
  - done.
  - by apply no_failure_dec.
  - apply Nat.leb_le. by vm_compute.
  - cbn. lia.
  - split; [apply demo_turns_checked|]. apply Forall_cons_2; [by apply Nat.leb_le|].
    apply Forall_cons_2; [by apply Nat.leb_le|].
    apply Forall_cons_2; [by apply Nat.leb_le|by apply Forall_nil_2].
Defined.

Lemma session_in_steps_witness :
  ∃ rs s', main_loop_turns 3 quiet_turns venv_ok demo_session = Ok (tt, s') ∧
    incoming s' = [1; 2] ∧ concat rs `sublist_of` all_rounds quiet_turns ∧
    router s' = deliver_rounds venv_ok 1 demo_packets rs net1.
Proof.
  apply (session_in_steps demo_packets demo_close [1; 2] venv_ok 3 quiet_turns demo_session).
  - apply venv_session.
  - apply net1_wf.
  - apply demo_packets_ok.
  - apply demo_close_ok.
  - done.
  - by apply no_failure_dec.
  - apply Nat.leb_le. by vm_compute.
  - cbn. lia.
  - repeat first [apply env_ok_checked | constructor].
  - apply Forall_cons_2; [by intros H; apply H|]. apply Forall_cons_2; [by intros H; apply H|].
    apply Forall_cons_2; [by intros H; apply H|by apply Forall_nil_2].
Defined.

(** One packet, for the host that a request was sent for [times] times, and a
    round before the action [k] of its handling. *)
Definition late_session (times : Z) : vns :=
  set_router (net_asked times 100 parked) (demo_vns (stream [(eth3_name16, late)] ++ demo_close)).

Definition late_turns (k : nat) : list turn_rounds := [mk_rounds [] (round_at k)].

(** The fault of [concurrent_session] is real: after five requests, the round
    between queueing the packet and asking for its address frees the request in
    the thread's hands.  After four no place does. *)
Example late_session_faults :
  (λ times, (λ k, match main_loop_turns 2 (late_turns k) venv_ok (late_session times) with
    | Ok _ => None
    | Fault f => Some f
    end) <$> seq 0 26) <$> [4; 5] =
  [replicate 26 None; replicate 23 None ++ [Some (Undefined UseAfterFree)] ++ replicate 2 None].
Proof. by vm_compute. Qed.
