(* ===== verification/ProgramTheorems.v ===== *)
(** * The program as a whole ([main])

    From the command line to the end of the main loop, alone and with the timer's
    thread beside it: the composition of the components, and runs of it on
    concrete inputs. *)

From S2P Require Import Handshake Demo SessionTheorems TypeTheorems MainThread.
From S2P Require Import ConcurrentSession.

(** ** The start *)

Lemma text_cstr_ok n w : cstr_ok n (w ++ [0]).
Proof. right. apply elem_of_app. right. by left. Qed.

(** The instance when the connection is made: the names of the options, and the
    routes of the file. *)
Definition started (o : options) (name : list Z) (rs : list sr_rt) (s : sr_instance)
    : sr_instance :=
  mk_sr (name_copy 32 (name ++ [0])) (name_copy 32 (opt_host o ++ [0]))
    (0 :: drop 1 (template s)) (u16 (opt_topo o)) [] rs (cache s) None (sent s).




(** The options ask for no template and no log, and name a user. *)
Record plain_options (o : options) (name : list Z) : Prop := {
  plain_template : opt_template o = None;
  plain_user : opt_user o = Some name;
  plain_log : opt_logfile o = None
}.

(** The table's file, as [sr_load_rt] finds it. *)
Record route_file (inet_aton : list Z → option Z) (e : venv) (s : vns) (fn : list Z)
    (ts : list rt_text) (rs : list sr_rt) : Prop := {
  file_lines : Forall text_ok ts;
  file_routes : Forall2 (text_route inet_aton) ts rs;
  file_open : fopen_ok e fn = true;
  file_disk : disk s !! fn = Some (concat (text_line <$> ts))
}.

Lemma load_rt_wrap_run inet_aton e s fn ts rs :
  route_file inet_aton e s fn ts rs → rs ≠ [] →
  malloc_ok (base e (turn s)) AllocRoute = true →
  sr_load_rt_wrap inet_aton fn e s = Ok (tt, set_router (set_routing_table rs (router s)) s).
Proof.
  intros [H1 H2 H3 H4] Hne Hm. unfold sr_load_rt_wrap.
  rewrite (bind_run _ _ _ _ _ _ (sr_load_rt_run inet_aton e fn ts rs s H1 H2 H3 H4 Hm)).
  destruct rs as [|r rs]; [done|]. change (0 =? 0) with true. cbv beta iota. cbn [negb].
  set (s' := set_routing_table (r :: rs) (router s)).
  destruct (sr_print_routing_table_run (base e (turn s)) s') as [t Ht];
    [by eapply text_routes_named|].
  by rewrite (bind_run _ _ _ _ _ _ (on_sr_run _ _ _ e (set_router s' s) Ht)).
Qed.

(** The instance as [sr_init_instance] and the choice of no template leave it. *)
Definition blank (s : sr_instance) : sr_instance :=
  mk_sr (0 :: drop 1 (user s)) (0 :: drop 1 (host s)) (0 :: drop 1 (template s)) 0 [] []
    (cache s) None (sent s).

Lemma main_setup_eq inet_aton o e s :
  opt_template o = None →
  user (router s) ≠ [] → host (router s) ≠ [] → template (router s) ≠ [] →
  main_setup inet_aton o e s =
    (sr_load_rt_wrap inet_aton (opt_rtable o);; set_options o) e
      (set_router (blank (router s)) s).
Proof.
  intros Ht Hun Hhn Htn. destruct s as [r i a d c t].
  destruct r as [us ho te tp il rt ca lo se]. cbn [router user host template] in *.
  destruct us as [|u0 us], ho as [|h0 ho], te as [|t0 te]; try done.
  unfold main_setup. rewrite Ht.
  set (s0 := mk_vns (mk_sr (0 :: us) (0 :: ho) (t0 :: te) 0 [] [] ca None se) i a d c t).
  rewrite (bind_run _ _ e _ tt s0) by done. reflexivity.
Qed.

Lemma set_options_run o name e s :
  opt_user o = Some name →
  set_options o e s =
    open_log o e (set_router (set_user (name_copy 32 (name ++ [0]))
      (set_host (name_copy 32 (opt_host o ++ [0]))
        (set_topo (u16 (opt_topo o)) (router s)))) s).
Proof.
  intros Hu. unfold set_options. rewrite Hu.
  destruct (name_copy_run 32 _ (text_cstr_ok 32 (opt_host o))) as [Eh _].
  destruct (name_copy_run 32 _ (text_cstr_ok 32 name)) as [En _].
  rewrite (bind_run _ _ e _ tt (set_router (set_topo (u16 (opt_topo o)) (router s)) s)) by done.
  rewrite Eh, lift_some, bind_mret.
  rewrite (bind_run _ _ e _ tt (set_router (set_host (name_copy 32 (opt_host o ++ [0]))
    (set_topo (u16 (opt_topo o)) (router s))) s)) by done.
  by rewrite En, lift_some, bind_mret.
Qed.

(** Everything up to the log file. *)
Lemma main_setup_log inet_aton o name ts rs e s :
  opt_template o = None → opt_user o = Some name →
  route_file inet_aton e s (opt_rtable o) ts rs → rs ≠ [] →
  malloc_ok (base e (turn s)) AllocRoute = true →
  user (router s) ≠ [] → host (router s) ≠ [] → template (router s) ≠ [] →
  main_setup inet_aton o e s = open_log o e (set_router (started o name rs (router s)) s).
Proof.
  intros Ht Hu Hf Hne Hm Hun Hhn Htn. rewrite main_setup_eq by done.
  set (s1 := set_router (blank (router s)) s).
  assert (route_file inet_aton e s1 (opt_rtable o) ts rs) as Hf1 by (destruct Hf; by split).
  rewrite (bind_run _ _ _ _ _ _ (load_rt_wrap_run _ e s1 _ ts rs Hf1 Hne Hm)).
  by rewrite (set_options_run o name).
Qed.

Lemma main_setup_run inet_aton o name ts rs e s :
  plain_options o name → route_file inet_aton e s (opt_rtable o) ts rs → rs ≠ [] →
  malloc_ok (base e (turn s)) AllocRoute = true →
  user (router s) ≠ [] → host (router s) ≠ [] → template (router s) ≠ [] →
  main_setup inet_aton o e s = Ok (tt, set_router (started o name rs (router s)) s).
Proof.
  intros [Ht Hu Hl] Hf Hne Hm Hun Hhn Htn. rewrite (main_setup_log _ _ name ts rs) by done.
  unfold open_log. by rewrite Hl.
Qed.

(** The user's name is printed before the connection is made. *)
Lemma user_printed {A} name o rs e s (k : V A) :
  0 ∉ name → (length name < 32)%nat →
  (u ← on_sr (gets user); lift OutOfBounds (c_str u);; k) e
    (set_router (started o name rs (router s)) s) =
  k e (set_router (started o name rs (router s)) s).
Proof.
  intros H0 Hl. rewrite (bind_run _ _ e _ (name_copy 32 (name ++ [0]))
    (set_router (started o name rs (router s)) s)) by done.
  by rewrite c_str_text.
Qed.

(** ** A session from the command line to the farewell *)

Section program.
Context (inet_aton : list Z → option Z) (e : venv) (s : vns) (args : list (Z * list Z)).

(** What the server sends, in order: the challenge, the verdict, the hardware
    information, packets, the farewell. *)
Definition session_bytes (salt : buf) (verdict : Z) (text : buf) (es : list hw_entry)
    (ps : list (buf * buf)) (last : buf) : buf :=
  (auth_challenge salt ++ auth_status verdict text) ++ hwinfo_message es ++ stream ps ++ last.

(** The router when it is ready to process packets: the instance of the
    command line with the interfaces of the hardware information and an empty
    cache, after the two messages of the handshake. *)
Definition ready (o : options) (name salt key : buf) (rs : list sr_rt) (es : list hw_entry)
    : sr_instance :=
  let r := started o name rs (router s) in
  mk_sr (user r) (host r) (template r) (topo_id r)
    (foldl (hw_apply (base e (3 + turn s))) [] es) rs
    (mk_cache (replicate SR_ARPCACHE_SZ zero_entry) [] (next_addr (cache r))) None
    (sent r ++ [auth_reply name salt (take AUTH_KEY_LEN key); open_bytes r]).

(** The first turn of the main loop, on the hardware information. *)
Lemma hwinfo_turn_run es rest s1 fuel :
  sr_wf (router s1) → if_list (router s1) = [] → hw_ok false es → Z.of_nat (length es) ≤ 256 →
  (∀ t a, malloc_ok (base e t) a = true) →
  if_wf (fresh_if (base e (S (turn s1)))) →
  let r := set_if_list (foldl (hw_apply (base e (S (turn s1)))) [] es) (router s1) in
  if_list r ≠ [] → routing_table r ≠ [] → orphans r = [] →
  incoming s1 = hwinfo_message es ++ rest → no_failure (answers s1) →
  (length (hwinfo_message es) <= supply (answers s1))%nat →
  sr_wf r ∧ ∃ l, no_failure l ∧
    (supply (answers s1) <= supply l + length (hwinfo_message es))%nat ∧
    main_loop (S fuel) e s1 =
      main_loop fuel e (mk_vns r rest l (disk s1) (closed s1) (S (turn s1))).
Proof.
  intros Hs Hnil Hok Hmax Hmal Hfresh r Hi Hr Ho Hin Hno Hsup.
  destruct (read_command_run 0 (hwinfo_message es) rest e s1) as (l & Hn & Hl & Hrun);
    [by eapply hwinfo_is_message|exact Hin|exact Hno|exact Hsup|by apply Hmal|].
  set (s2 := set_input rest l (next_turn s1)) in *.
  destruct (hwinfo_command_run es e s2) as [Hwf Hd].
  - exact Hs.
  - change (router s2) with (router s1). by rewrite Hnil.
  - exact Hmax.
  - exact Hfresh.
  - apply Hmal.
  - change (router s2) with (router s1). by rewrite Hnil.
  - change (router s2) with (router s1) in Hwf, Hd. change (turn s2) with (S (turn s1)) in Hwf, Hd.
    rewrite Hnil in Hwf, Hd. fold r in Hwf, Hd.
    rewrite bool_decide_true in Hd by done.
    split; [done|]. exists l. split; [done|]. split; [done|]. cbn [main_loop].
    unfold sr_read_from_server. by rewrite (bind_run _ _ _ _ _ _ (eq_trans Hrun Hd)).
Qed.

Context (o : options) (name salt key text : buf) (verdict : Z).
Context (ts : list rt_text) (rs : list sr_rt) (es : list hw_entry).
Context (ps : list (buf * buf)) (last rest : buf) (fuel : nat).

(** The operating system does what is asked of it. *)
Context (Hmal : ∀ t a, malloc_ok (base e t) a = true) (Hw : ∀ t, writes_ok (base e t)).
Context (Hnet : host_found e = true ∧ socket_ok e = true ∧ connect_ok e = true).

(** The command line, and the arrays of the instance on the stack. *)
Context (Hargs : main_options args default_options e s = Ok (o, s)) (Ho : plain_options o name).
Context (Hname : 0 ∉ name ∧ (length name < 32)%nat).
Context (Hstack : user (router s) ≠ [] ∧ host (router s) ≠ [] ∧ template (router s) ≠ []).

(** The files: the routes, and the key. *)
Context (Hfile : route_file inet_aton e s (opt_rtable o) ts rs).
Context (Hrs : rs ≠ [] ∧ Forall rt_wf rs).
Context (Hkey : fopen_ok e auth_key_file = true ∧ disk s !! auth_key_file = Some key ∧
                bytes_ok key ∧ (AUTH_KEY_LEN <= length key)%nat ∧
                Forall (λ c, c ≠ 10) (take AUTH_KEY_LEN key)).

(** The server: its messages are what the protocol says, and complete. *)
Context (Hsalt : bytes_ok salt ∧ Z.of_nat (length salt) ≤ 9992).
Context (Hv : is_u8 verdict ∧ verdict ≠ 0).
Context (Htext : bytes_ok text ∧ Z.of_nat (length text) ≤ 9991).
Context (Hes : hw_ok false es ∧ Z.of_nat (length es) ≤ 256).
Context (Hfresh : if_wf (fresh_if (base e (3 + turn s)))).
Context (Hready : if_list (ready o name salt key rs es) ≠ [] ∧
                  orphans (ready o name salt key rs es) = []).
Context (Hps : packets_ok (ready o name salt key rs es) ps) (Hlast : close_message last).
Context (Hin : incoming s = session_bytes salt verdict text es ps last ++ rest).
Context (Hno : no_failure (answers s)).
Context (Hsup : (length (session_bytes salt verdict text es ps last) <= supply (answers s))%nat).
Context (Hfuel : (S (length ps) < fuel)%nat).

Lemma program_connects :
  let r0 := started o name rs (router s) in
  ∃ l, no_failure l ∧
    (length (hwinfo_message es ++ stream ps ++ last) <= supply l)%nat ∧
    sr_connect_to_server e (set_router r0 s) =
      Ok (0, mk_vns (set_sent (sent r0 ++
                [auth_reply name salt (take AUTH_KEY_LEN key); open_bytes r0]) r0)
               (hwinfo_message es ++ stream ps ++ last ++ rest) l (disk s) (closed s)
               (2 + turn s)).
Proof.
  intros r0. destruct Hkey as (K1 & K2 & K3 & K4 & K5), Hname as [N1 N2].
  destruct (name_copy_run 32 _ (text_cstr_ok 32 name)) as [_ Ln].
  destruct (name_copy_run 32 _ (text_cstr_ok 32 (opt_host o))) as [_ Lh].
  unfold session_bytes in Hsup, Hin. rewrite !length_app in Hsup.
  destruct (connect_run salt key name text (hwinfo_message es ++ stream ps ++ last ++ rest)
    verdict e (set_router r0 s)) as (l & Hn & Hl & Hrun); try done;
    try apply Hsalt; try apply Htext; try apply Hv; try (left; apply Hv).
  - intros t. split; [intros a _; apply Hmal|apply Hmal].
  - by apply c_str_text.
  - lia.
  - change (incoming (set_router r0 s)) with (incoming s). rewrite Hin. by rewrite <- !app_assoc.
  - change (answers (set_router r0 s)) with (answers s). rewrite length_app. lia.
  - left. change (32 <= length (name_copy 32 (opt_host o ++ [0%Z])))%nat. by rewrite Lh.
  - left. change (32 <= length (name_copy 32 (name ++ [0%Z])))%nat. by rewrite Ln.
  - exists l. split; [done|]. split; [|exact Hrun].
    change (answers (set_router r0 s)) with (answers s) in Hl.
    rewrite !length_app. rewrite !length_app in Hl. lia.
Qed.

(** The program up to its main loop, whatever the loop is: the instance of the
    command line without interfaces, its cache empty, and the server's messages
    behind the handshake still to be read. *)
Definition at_loop (l : list answer) : vns :=
  let r := started o name rs (router s) in
  mk_vns (mk_sr (user r) (host r) (template r) (topo_id r) [] rs
            (mk_cache (replicate SR_ARPCACHE_SZ zero_entry) [] (next_addr (cache r))) None
            (sent r ++ [auth_reply name salt (take AUTH_KEY_LEN key); open_bytes r]))
    (hwinfo_message es ++ stream ps ++ last ++ rest) l (disk s) (closed s) (2 + turn s).

Lemma program_reaches_loop :
  ∃ l, no_failure l ∧ (length (hwinfo_message es ++ stream ps ++ last) <= supply l)%nat ∧
    sr_wf (router (at_loop l)) ∧
    ∀ loop, main_around inet_aton loop args e s = (loop;; mret 0) e (at_loop l).
Proof.
  destruct Hstack as (S1 & S2 & S3), Hrs as [R1 R2].
  destruct program_connects as (l & Hn & Hl & Hconn). exists l. split; [done|]. split; [done|].
  split; [split; [by apply list.Forall_nil|exact R2|apply init_cache_wf]|]. intros loop.
  unfold main_around. rewrite (bind_run _ _ _ _ _ _ Hargs).
  rewrite (bind_run _ _ _ _ _ _
    (main_setup_run inet_aton o name ts rs e s Ho Hfile R1 (Hmal _ _) S1 S2 S3)).
  rewrite user_printed by apply Hname.
  rewrite (bind_run _ _ _ _ _ _ Hconn). change (0 =? -1) with false. cbv iota.
  set (s2 := mk_vns _ _ l _ _ _).
  assert (route_file inet_aton e s2 (opt_rtable o) ts rs) as Hf2 by (destruct Hfile; by split).
  rewrite (bind_run _ _ _ _ _ _ (load_rt_wrap_run _ e s2 _ ts rs Hf2 R1 (Hmal _ _))).
  by rewrite (bind_run _ _ e _ tt (at_loop l)).
Qed.

(** The program, step for step. *)
Lemma program_run :
  ∃ s', sr_main inet_aton args fuel e s = Ok (0, s') ∧ incoming s' = rest ∧
    router s' = deliver_all e (4 + turn s) ps (ready o name salt key rs es) ∧
    sr_wf (router s') ∧ evolves (ready o name salt key rs es) (router s').
Proof.
  destruct Hrs as [R1 R2], Hes as [E1 E2], Hready as [G1 G2].
  destruct program_reaches_loop as (l & Hn & Hl & Hw0 & Hmain).
  unfold sr_main. rewrite Hmain. clear Hmain. destruct fuel as [|n]; [lia|].
  rewrite length_app in Hl.
  destruct (hwinfo_turn_run es (stream ps ++ last ++ rest) (at_loop l) n)
    as (Hwf & l2 & Hn2 & Hl2 & Hturn); try done; [cbn; lia|]. cbn [answers at_loop] in Hl2.
  destruct (main_loop_run ps last rest e n
    (mk_vns (ready o name salt key rs es) (stream ps ++ last ++ rest) l2 (disk s) (closed s)
       (3 + turn s))) as (s' & Hloop & Hrest & Hdel & Hwf' & Hev); try done.
  - intros t. split; [intros a _; apply Hmal|apply Hmal].
  - cbn. lia.
  - lia.
  - exists s'. split; [|done]. by rewrite (bind_run _ _ _ _ _ _ (eq_trans Hturn Hloop)).
Qed.

(** C10: the program as a whole.  Started with a user's name, from a file of
    routes and a key, against a server that keeps to the protocol, [main] loads
    the routes, authenticates, opens the session, takes over the interfaces of
    the hardware information and handles the packets in order until the
    farewell, however the bytes arrive: it returns 0, has read exactly up to
    the farewell, and the router is in the state that the packets' frames lead
    to from the configured one; the invariant holds, the configuration is the
    server's and the file's, and every message sent is honest about its
    interface. *)
Theorem program_serves :
  ∃ s', sr_main inet_aton args fuel e s = Ok (0, s') ∧ incoming s' = rest ∧
    router s' = deliver_all e (4 + turn s) ps (ready o name salt key rs es) ∧
    sr_wf (router s') ∧ evolves (ready o name salt key rs es) (router s').
Proof. apply program_run. Qed.


(** C4: the program as a whole, while the timer runs.  The timer's thread is
    there from the end of the start on; its rounds may come at any point of the
    main loop, up to four while a command is handled.  [main] returns 0 with
    everything up to the farewell read, the configuration of the server and the
    file in place, a well-formed router and only honest messages sent; or a frame
    uses a request that the timer gave up and freed, which is the only fault that
    can happen, and only when a round came while a command was handled. *)
Theorem program_with_timer (turns : list turn_rounds) (Hturns : turns_ok turns) :
  match main_around inet_aton (main_loop_turns fuel turns) args e s with
  | Ok (r, s') => r = 0 ∧ incoming s' = rest ∧ sr_wf (router s') ∧
      evolves (ready o name salt key rs es) (router s')
  | Fault f => f = Undefined UseAfterFree ∧ Exists disturbed turns
  end.
Proof.
  destruct Hrs as [R1 R2], Hes as [E1 E2], Hready as [G1 G2].
  destruct program_reaches_loop as (l & Hn & Hl & Hw0 & ->).
  destruct fuel as [|n]; [lia|]. rewrite length_app in Hl.
  destruct (turns_first turns Hturns) as (Hr & Hh & Hf & Htl & Hex).
  destruct (hwinfo_turn es (stream ps ++ last ++ rest) (turn_of turns) e (at_loop l))
    as (s1 & Hrun & Hin1 & Hn1 & Hl1 & Hw1 & Hev1); try done; [cbn; lia|].
  cbn [answers at_loop] in Hl1.
  assert (main_loop_turns (S n) turns e (at_loop l) = main_loop_turns n (tl turns) e s1) as Hstep.
  { rewrite (main_loop_turns_step n turns e (at_loop l)). by rewrite (bind_run _ _ _ _ _ _ Hrun). }
  pose proof (session_rounds ps last rest e n (tl turns) s1) as H.
  unfold mbind at 1, M_bind at 1. rewrite Hstep.
  destruct (main_loop_turns n (tl turns) e s1) as [[[] s2]|f].
  - destruct H as (H1 & H2 & H3); try done; [|by eapply packets_ok_evolves|lia|lia|].
    + intros t. split; [intros a _; apply Hmal|apply Hmal].
    + split; [done|]. split; [done|]. split; [done|]. by etransitivity.
  - destruct H as [-> H]; try done; [|by eapply packets_ok_evolves|lia|lia|].
    + intros t. split; [intros a _; apply Hmal|apply Hmal].
    + split; [done|]. apply Hex. by right.
Qed.
End program.

(** ** A run of the whole program

    Started with a user name, the client loads its routes, authenticates, opens
    the session, receives the hardware information, and handles a packet that it
    must resolve a next hop for and an ARP request for its own address. *)

(** The entries of the hardware information for an interface. *)
Definition hw_of (i : sr_if) : list hw_entry :=
  [(HWINTERFACE, if_name i); (HWETHER, if_addr i ++ replicate 26 0);
   (HWETHIP, le_enc 4 (if_ip i) ++ replicate 28 0)].

(** Routes [0.0.0.0 10.0.1.100 0.0.0.0 eth3] and
    [192.168.2.2 192.168.2.2 255.255.255.255 eth1]. *)
Definition demo_routes : list rt_text :=
  [mk_text [48; 46; 48; 46; 48; 46; 48] [49; 48; 46; 48; 46; 49; 46; 49; 48; 48]
     [48; 46; 48; 46; 48; 46; 48] [101; 116; 104; 51];
   mk_text [49; 57; 50; 46; 49; 54; 56; 46; 50; 46; 50] [49; 57; 50; 46; 49; 54; 56; 46; 50; 46; 50]
     [50; 53; 53; 46; 50; 53; 53; 46; 50; 53; 53; 46; 50; 53; 53] [101; 116; 104; 49]].

Definition demo_table : list sr_rt :=
  [mk_rt 0 (ip4 10 0 1 100) 0 eth3_name;
   mk_rt (ip4 192 168 2 2) (ip4 192 168 2 2) (ip4 255 255 255 255) eth1_name].

Definition demo_hardware : list hw_entry := hw_of eth1 ++ hw_of eth2 ++ hw_of eth3.

Definition demo_traffic : list (buf * buf) :=
  [(eth3_name16, transit); (take 16 eth2_name, arp_query)].

Definition demo_options : options :=
  mk_options (opt_host default_options) (Some [118; 110; 115]) (opt_server default_options)
    (opt_port default_options) (opt_rtable default_options) None 0 None.

Definition demo_args : list (Z * list Z) := [(117, [118; 110; 115])].

Definition demo_start : vns :=
  mk_vns
    (mk_sr (replicate 32 7) (replicate 32 7) (replicate 30 7) 0 [] [] (mk_cache [] [] 0) None [])
    (session_bytes [1; 2; 3; 4] 1 [0] demo_hardware demo_traffic demo_close ++ [])
    (concat (replicate 600 [Interrupted; Gives 7]))
    (<[auth_key_file := demo_key]> {[rtable_file := concat (text_line <$> demo_routes)]})
    false 0.

Definition demo_ready : sr_instance :=
  ready venv_ok demo_start demo_options [118; 110; 115] [1; 2; 3; 4] demo_key demo_table
    demo_hardware.

Lemma demo_traffic_ok : packets_ok demo_ready demo_traffic.
Proof.
  assert (∀ n f, bytes_okb f = true → Z.of_nat (length f) ≤ 9976 →
    n ∈ [eth3_name16; take 16 eth2_name] → packet_message demo_ready n f) as H.
  { intros n f Hf Hl Hn. apply elem_of_cons in Hn as [->|Hn]; [|apply list_elem_of_singleton in Hn as ->];
      (split; [split; [done|]; split; [by apply bytes_okb_ok|]; by apply list_elem_of_In; vm_compute; auto 20
              |split; [by apply bytes_okb_ok|lia]
              |intros _; eexists; by vm_compute]). }
  apply Forall_cons_2; [apply H; [done|by apply Z.leb_le|by left]|].
  apply Forall_cons_2; [apply H; [done|by apply Z.leb_le|by right; left]|]. by apply Forall_nil_2.
Qed.

Lemma demo_name_ok : 0 ∉ [118; 110; 115] ∧ (length [118; 110; 115] < 32)%nat.
Proof.
  split; [|by apply Nat.ltb_lt]. intros H%list_elem_of_In. cbn in H. intuition discriminate.
Qed.

Lemma demo_file_ok :
  route_file dotted venv_ok demo_start (opt_rtable demo_options) demo_routes demo_table.
Proof.
  split; [|by repeat constructor|done|done].
  repeat (apply Forall_cons_2; [split; [by apply word_okb|]; split; [by apply word_okb|];
    split; by apply word_okb|]). by apply Forall_nil_2.
Qed.

Lemma demo_table_ok : demo_table ≠ [] ∧ Forall rt_wf demo_table.
Proof.
  split; [done|]. repeat (apply Forall_cons_2; [by apply rt_okb_ok; vm_compute|]).
  by apply Forall_nil_2.
Qed.

Lemma demo_key_ok :
  fopen_ok venv_ok auth_key_file = true ∧ disk demo_start !! auth_key_file = Some demo_key ∧
  bytes_ok demo_key ∧ (AUTH_KEY_LEN <= length demo_key)%nat ∧
  Forall (λ c, c ≠ 10) (take AUTH_KEY_LEN demo_key).
Proof.
  split; [done|]. split; [done|]. split; [by apply bytes_okb_ok|].
  split; [by apply Nat.leb_le|]. cbn. repeat constructor; done.
Qed.

Lemma demo_hardware_ok : hw_ok false demo_hardware ∧ Z.of_nat (length demo_hardware) ≤ 256.
Proof.
  split; [|by apply Z.leb_le]. cbn [hw_ok demo_hardware hw_of app]. repeat split; try done;
    first [by apply bytes_okb_ok | by intros [?|?] | intros _; by apply (bool_decide_eq_true _)].
Qed.

(** A hypothesis of the program's theorems, for the run of the demo. *)
Ltac demo_premise :=
  first
    [ apply demo_name_ok | apply demo_file_ok | apply demo_table_ok | apply demo_key_ok
    | apply demo_hardware_ok | apply demo_traffic_ok | apply demo_close_ok
    | intros t; apply env_ok_writes
    | by apply if_okb_ok | by apply no_failure_dec
    | by apply Nat.ltb_lt | apply Nat.leb_le; by vm_compute
    | split; [by apply bytes_okb_ok|by apply Z.leb_le]
    | split; [done|by vm_compute]
    | done ].

Lemma program_serves_witness :
  ∃ s', sr_main dotted demo_args 5 venv_ok demo_start = Ok (0, s') ∧ incoming s' = [] ∧
    router s' = deliver_all venv_ok (4 + turn demo_start) demo_traffic demo_ready ∧
    sr_wf (router s') ∧ evolves demo_ready (router s').
Proof.
  apply (program_serves dotted venv_ok demo_start demo_args demo_options [118; 110; 115]
    [1; 2; 3; 4] demo_key [0] 1 demo_routes demo_table demo_hardware demo_traffic demo_close []);
    demo_premise.
Defined.


(** Rounds while the hardware information and the second packet are read, and two
    while it is handled. *)
Definition program_turns : list turn_rounds :=
  [mk_rounds [[]; [env_ok]] [[env_ok]]; mk_rounds [] [];
   mk_rounds [[env_ok]; []; [env_ok]] [[]; []; []; [env_ok]; []; [env_ok]]; mk_rounds [] []].

Lemma program_turns_ok : turns_ok program_turns.
Proof.
  split; [repeat first [apply env_ok_checked | constructor]|].
  repeat (apply Forall_cons_2; [by apply Nat.leb_le|]). by apply Forall_nil_2.
Qed.

Lemma program_with_timer_witness :
  match main_around dotted (main_loop_turns 5 program_turns) demo_args venv_ok demo_start with
  | Ok (r, s') => r = 0 ∧ incoming s' = [] ∧ sr_wf (router s') ∧ evolves demo_ready (router s')
  | Fault f => f = Undefined UseAfterFree ∧ Exists disturbed program_turns
  end.
Proof.
  apply (program_with_timer dotted venv_ok demo_start demo_args demo_options [118; 110; 115]
    [1; 2; 3; 4] demo_key [0] 1 demo_routes demo_table demo_hardware demo_traffic demo_close [] 5);
    first [apply program_turns_ok | demo_premise].
Defined.

(** These rounds do no harm: the program sends its four messages. *)
Example demo_program_rounds :
  match main_around dotted (main_loop_turns 5 program_turns) demo_args venv_ok demo_start with
  | Ok (r, s') => (r, length (incoming s'), length (sent (router s')))
  | Fault _ => (-1, 0%nat, 0%nat)
  end = (0, 0%nat, 4%nat).
Proof. by vm_compute. Qed.

(** What is sent: the answer to the challenge, the opening message, the question
    for the next hop, and the answer to the question for the router's own
    address. *)
Lemma demo_program :
  match sr_main dotted demo_args 5 venv_ok demo_start with
  | Ok (r, s) =>
      r = 0 ∧ incoming s = [] ∧ (if_name <$> if_list (router s)) = [eth1_name; eth2_name; eth3_name] ∧
      sent (router s) =
        [auth_reply [118; 110; 115] [1; 2; 3; 4] (take AUTH_KEY_LEN demo_key);
         open_bytes (router s);
         vns_packet (take 16 eth1_name) (arp_request_frame eth1 server1_ip);
         vns_packet (take 16 eth2_name) (arp_reply_frame eth2 arp_query)]
  | Fault _ => False
  end.
Proof. by vm_compute. Qed.
