(* ===== verification/PrintTheorems.v ===== *)
(** * What printing reads and what it writes

    [print_hdrs] on any packet, and the routing table's print-out read back by
    [sr_load_rt]. *)

From S2P Require Import Handshake Demo SessionTheorems ProgramTheorems.

(** ** Printing a packet *)

Section headers.
Context {E S : Type} (e : E) (s : S).
Implicit Types (b : buf).

Lemma print_addr_eth_run addr :
  length addr = ETHER_ADDR_LEN → ∃ t, print_addr_eth (E:=E) (S:=S) addr = mret t.
Proof. intros H. unfold print_addr_eth. rewrite load_bytes_ok by (by rewrite H). by eexists. Qed.

Lemma rd_bind {A} base f b (k : Z → M E S A) : fits base f b → rd base f b ≫= k = k (get base f b).
Proof. intros H. by rewrite rd_ok. Qed.

Lemma rdb_bind {A} base f b (k : buf → M E S A) :
  fits base f b → rdb base f b ≫= k = k (getb base f b).
Proof. intros H. by rewrite rdb_ok. Qed.

Lemma getb_length base f b : fits base f b → length (getb base f b) = f_len f.
Proof. unfold fits, getb. intros H. rewrite length_slice. lia. Qed.

Ltac fits := unfold fits, eth_size, ip_size, arp_size, icmp_t08_size in *; cbn; lia.

Lemma get_drop base f k b : get base f (drop k b) = get (k + base) f b.
Proof. unfold get, slice. by rewrite drop_drop, Nat.add_assoc. Qed.

(** A function that reads members of an object that is long enough. *)
Ltac reads :=
  repeat first
    [ rewrite bind_mret
    | rewrite rd_bind by fits
    | rewrite rdb_bind by fits
    | match goal with
      | |- context [print_addr_eth (getb ?o ?f ?b)] =>
          let t := fresh "t" in let H := fresh "H" in
          destruct (print_addr_eth_run (getb o f b)) as [t H];
            [by rewrite getb_length by fits|]; rewrite H
      end ].

Lemma print_hdr_eth_run b :
  (eth_size <= length b)%nat → ∃ t, print_hdr_eth (E:=E) (S:=S) b 0 = mret t.
Proof. intros H. unfold print_hdr_eth. reads. by eexists. Qed.

Lemma print_hdr_ip_run b :
  (eth_size + ip_size <= length b)%nat → ∃ t, print_hdr_ip (E:=E) (S:=S) b eth_size = mret t.
Proof. intros H. unfold print_hdr_ip, rd_ip_v, rd_ip_hl. reads. by eexists. Qed.

Lemma print_hdr_arp_run b :
  (eth_size + arp_size <= length b)%nat → ∃ t, print_hdr_arp (E:=E) (S:=S) b eth_size = mret t.
Proof. intros H. unfold print_hdr_arp. reads. by eexists. Qed.

(** The ICMP header of an echo message has four bytes more than [print_hdrs]
    asks for. *)
Definition echo_type (t : Z) : bool := (t =? 0) || (t =? 8).

Lemma print_hdr_icmp_run b off :
  (off + 4 <= length b)%nat →
  if echo_type (get off icmp_type b) && (length b <? off + icmp_t08_size)%nat
  then print_hdr_icmp b off e s = Fault (Undefined OutOfBounds)
  else ∃ t, print_hdr_icmp (E:=E) (S:=S) b off = mret t.
Proof.
  intros H. unfold print_hdr_icmp. reads. unfold echo_type.
  destruct ((_ =? 0) || (_ =? 8)); cbn [andb]; [|by reads; eexists].
  destruct (Nat.ltb_spec (length b) (off + icmp_t08_size)) as [Hl|Hl]; [|by reads; eexists].
  unfold icmp_t08_size in Hl. reads. destruct (decide (off + 6 <= length b)%nat) as [H6|H6].
  - reads. apply bind_fault. unfold rd, load. cbn. by rewrite leb_nat_false by lia.
  - apply bind_fault. unfold rd, load. cbn. by rewrite leb_nat_false by lia.
Qed.
End headers.

(** A packet with the first four bytes of an ICMP echo header, cut before its
    end. *)
Definition cut_echo (b : buf) : Prop :=
  (eth_size + ip_size + 4 <= length b < eth_size + ip_size + icmp_t08_size)%nat ∧
  ntohs (get 0 ether_type b) = ethertype_ip ∧ get eth_size ip_p b = ip_protocol_icmp ∧
  echo_type (get (eth_size + ip_size) icmp_type b) = true.
#[export] Instance cut_echo_dec b : Decision (cut_echo b).
Proof. apply _. Defined.

Ltac not_cut := intros ([? ?] & ? & ? & ?); unfold eth_size, ip_size in *; first [lia | congruence].

(** C36: printing the headers of a packet reads only the packet, and always
    prints, whatever the packet's length and contents, except in one case: an
    ICMP echo message that ends within its header is read past its end. *)
Theorem print_hdrs_bounds {E S} (e : E) (s : S) (b : buf) :
  if bool_decide (cut_echo b)
  then print_hdrs b (Z.of_nat (length b)) e s = Fault (Undefined OutOfBounds)
  else ∃ text, print_hdrs b (Z.of_nat (length b)) e s = Ok (text, s).
Proof.
  unfold print_hdrs. cbv zeta.
  destruct (Z.ltb_spec (Z.of_nat (length b)) (Z.of_nat eth_size)) as [H|H].
  { rewrite bool_decide_false by not_cut. by eexists. }
  unfold ethertype. rewrite rd_bind by fits. rewrite bind_mret.
  destruct (print_hdr_eth_run (E:=E) (S:=S) b) as [te ->]; [fits|]. rewrite bind_mret.
  destruct (Z.eqb_spec (ntohs (get 0 ether_type b)) ethertype_ip) as [Hip|Hip].
  2:{ rewrite bool_decide_false by not_cut. destruct (_ =? ethertype_arp); [|by eexists].
      destruct (Z.ltb_spec (Z.of_nat (length b)) (Z.of_nat eth_size + Z.of_nat arp_size));
        [by eexists|].
      destruct (print_hdr_arp_run (E:=E) (S:=S) b) as [t ->]; [fits|]. by eexists. }
  destruct (Z.ltb_spec (Z.of_nat (length b)) (Z.of_nat eth_size + Z.of_nat ip_size)) as [H1|H1].
  { rewrite bool_decide_false by not_cut. by eexists. }
  destruct (print_hdr_ip_run (E:=E) (S:=S) b) as [ti ->]; [fits|]. rewrite bind_mret.
  unfold ip_protocol. rewrite rd_bind by (unfold fits; rewrite length_drop; fits).
  rewrite get_drop, Nat.add_0_r.
  destruct (Z.eqb_spec (get eth_size ip_p b) ip_protocol_icmp) as [Hicmp|Hicmp].
  2:{ rewrite bool_decide_false by not_cut. by eexists. }
  destruct (Z.ltb_spec (Z.of_nat (length b)) (Z.of_nat eth_size + Z.of_nat ip_size + 4)) as [H2|H2].
  { rewrite bool_decide_false by not_cut. by eexists. }
  pose proof (print_hdr_icmp_run e s b (eth_size + ip_size) ltac:(fits)) as Hrun.
  assert (echo_type (get (eth_size + ip_size) icmp_type b) &&
    (length b <? eth_size + ip_size + icmp_t08_size)%nat = bool_decide (cut_echo b)) as Hc.
  { destruct (bool_decide_reflect (cut_echo b)) as [(Hl & _ & _ & ->)|Hn].
    { cbn [andb]. apply Nat.ltb_lt. lia. }
    apply not_true_iff_false. intros [Ht Hl]%andb_true_iff. apply Nat.ltb_lt in Hl.
    apply Hn. repeat split; (done || fits). }
  rewrite Hc in Hrun. case_bool_decide.
  - by rewrite (bind_fault _ _ _ _ _ Hrun).
  - destruct Hrun as [t ->]. by eexists.
Qed.

(** ** Printing the routing table and loading it *)

Section round_trip.
Context (inet_aton : list Z → option Z) (e : env).

(** [inet_ntoa] writes an address as a word, which [inet_aton] reads back. *)
Context (Hntoa : ∀ a, is_u32 a → word_ok (inet_ntoa e a) ∧ inet_aton (inet_ntoa e a) = Some a).

(** A route whose interface's name could be in a file. *)
Definition route_writable (r : sr_rt) : Prop :=
  is_u32 (rt_dest r) ∧ is_u32 (rt_gw r) ∧ is_u32 (rt_mask r) ∧
  ∃ w, word_ok w ∧ rt_interface r = name_copy sr_IFACE_NAMELEN (w ++ [0]).

Lemma word_no_nul w : word_ok w → 0 ∉ w.
Proof. intros (_ & Hw & _) H. rewrite list.Forall_forall in Hw. by destruct (Hw 0 H). Qed.

Lemma tabs_sep n : (0 < n < WORD_SIZE)%nat → sep_ok (replicate n 9).
Proof.
  intros Hn. split; [by destruct n; [lia|]|]. rewrite length_replicate.
  split; [|lia]. by apply Forall_replicate.
Qed.

Lemma print_entry_line r s :
  route_writable r → ∃ t line, text_ok t ∧ text_route inet_aton t r ∧ line_of t line ∧
    sr_print_routing_entry r e s = Ok (line, s).
Proof.
  intros (Hd & Hg & Hm & w & Hw & Hi).
  destruct (Hntoa _ Hd) as [Wd Ad], (Hntoa _ Hg) as [Wg Ag], (Hntoa _ Hm) as [Wm Am].
  set (t := mk_text (inet_ntoa e (rt_dest r)) (inet_ntoa e (rt_gw r)) (inet_ntoa e (rt_mask r)) w).
  exists t, (t_dest t ++ replicate 2 9 ++ t_gw t ++ replicate 1 9 ++ t_mask t ++ replicate 1 9 ++
    t_iface t ++ [10]).
  split; [done|]. split; [done|].
  split; [constructor; apply tabs_sep; unfold WORD_SIZE; lia|].
  unfold sr_print_routing_entry, ask, mbind, M_bind. rewrite Hi.
  by rewrite c_str_text by (apply word_no_nul, Hw || apply Hw).
Qed.

Lemma print_entries_lines rs s :
  Forall route_writable rs → ∃ ts lines, Forall text_ok ts ∧ Forall2 (text_route inet_aton) ts rs ∧
    Forall2 line_of ts lines ∧ print_all sr_print_routing_entry rs e s = Ok (concat lines, s).
Proof.
  induction 1 as [|r rs Hr _ (ts & ls & Hts & Hrs & Hls & Hp)]; [by exists [], []|].
  destruct (print_entry_line r s Hr) as (t & l & Ht & Hrt & Hl & Hpr).
  exists (t :: ts), (l :: ls). repeat (split; [by constructor|]). cbn [print_all concat].
  by rewrite (bind_run _ _ _ _ _ _ Hpr), (bind_run _ _ _ _ _ _ Hp).
Qed.
End round_trip.

(** C35: the lines that [sr_print_routing_table] prints under its heading are a
    routing table's file: written to disk and loaded, on any router, they put
    back exactly the routes that were printed, in order. *)
Theorem print_load_round_trip (inet_aton : list Z → option Z) (e : env) (s : sr_instance)
    (Hntoa : ∀ a, is_u32 a → word_ok (inet_ntoa e a) ∧ inet_aton (inet_ntoa e a) = Some a)
    (Hrs : Forall route_writable (routing_table s)) (Hne : routing_table s ≠ []) :
  ∃ rows, sr_print_routing_table e s = Ok (table_header ++ rows, s) ∧
    ∀ (ve : venv) (v : vns) (fn : list Z),
      fopen_ok ve fn = true → disk v !! fn = Some rows →
      malloc_ok (base ve (turn v)) AllocRoute = true →
      sr_load_rt inet_aton fn ve v =
        Ok (0, set_router (set_routing_table (routing_table s) (router v)) v).
Proof.
  destruct (print_entries_lines inet_aton e Hntoa _ s Hrs) as (ts & ls & Hts & Htr & Hls & Hp).
  exists (concat ls). split.
  - unfold sr_print_routing_table, gets, mbind at 1, M_bind.
    destruct (routing_table s) as [|r rs]; [done|].
    rewrite (bind_run _ _ _ _ _ _ Hp). done.
  - intros ve v fn Hfn Hd Hm.
    rewrite (sr_load_rt_lines_run inet_aton ve fn ts (routing_table s) ls v) by done.
    by destruct (routing_table s).
Qed.

(** ** Witnesses *)

(** The decimal text of an octet: digits, and it parses to the octet. *)
Definition octet_okb (x : Z) : bool :=
  let t := text_d x in
  forallb (λ c, (48 <=? c) && (c <=? 57)) t && (1 <=? length t)%nat && (length t <=? 3)%nat &&
  (foldl (λ cur c, cur * 10 + (c - 48)) 0 t =? x).

Lemma octets_ok : forallb octet_okb (seqZ 0 256) = true.
Proof. by vm_compute. Qed.

Lemma octet_ok x : is_u8 x →
  Forall (λ c, 48 ≤ c ≤ 57) (text_d x) ∧ (1 <= length (text_d x) <= 3)%nat ∧
  foldl (λ cur c, cur * 10 + (c - 48)) 0 (text_d x) = x.
Proof.
  intros Hx. assert (octet_okb x = true) as H.
  { pose proof octets_ok as H. rewrite forallb_forall in H. apply H, list_elem_of_In, elem_of_seqZ.
    unfold is_u8 in Hx. lia. }
  unfold octet_okb in H. apply andb_prop in H as [[[H1 H2]%andb_prop H3]%andb_prop H4].
  apply Nat.leb_le in H2, H3. apply Z.eqb_eq in H4. split; [|done].
  apply list.Forall_forall. intros c Hc%list_elem_of_In. rewrite forallb_forall in H1.
  apply H1, andb_prop in Hc as [?%Z.leb_le ?%Z.leb_le]. lia.
Qed.

Lemma parse_digits cur t r :
  Forall (λ c, 48 ≤ c ≤ 57) t →
  parse_dotted cur (t ++ r) = parse_dotted (foldl (λ cur c, cur * 10 + (c - 48)) cur t) r.
Proof.
  intros Ht. revert cur. induction Ht as [|c t Hc _ IH]; intros cur; [done|].
  cbn [app parse_dotted foldl]. by rewrite (proj2 (Z.eqb_neq c 46)) by lia.
Qed.

Lemma dotted_text_inv a :
  is_u32 a → word_ok (dotted_text a) ∧ dotted (dotted_text a) = Some a.
Proof.
  intros Ha. unfold dotted_text. pose proof (le_enc_ok 4 a) as Hok.
  pose proof (length_le_enc 4 a) as Hlen. pose proof (le_dec_enc 4 a Ha) as Hdec.
  destruct (le_enc 4 a) as [|x [|y [|z [|w []]]]]; try discriminate Hlen.
  repeat (apply list.Forall_cons in Hok as [? Hok]).
  destruct (octet_ok x) as (Dx & Lx & Vx), (octet_ok y) as (Dy & Ly & Vy),
    (octet_ok z) as (Dz & Lz & Vz), (octet_ok w) as (Dw & Lw & Vw); try done.
  split.
  - split; [by destruct (text_d x)|]. rewrite !length_app. cbn [length].
    split; [|unfold WORD_SIZE; lia].
    assert (∀ t, Forall (λ c, 48 ≤ c ≤ 57) t → Forall (λ c, is_space c = false ∧ c ≠ 0) t) as Hd.
    { intros t Ht. eapply list.Forall_impl; [exact Ht|]. cbv beta. intros c Hc. unfold is_space.
      rewrite (proj2 (Z.eqb_neq c 32)), (proj2 (Z.leb_gt c 13)), andb_false_r by lia. split; [done|lia]. }
    rewrite !Forall_app, !list.Forall_singleton. repeat (split; [by auto|]). by auto.
  - unfold dotted. cbn [app]. rewrite parse_digits by done. cbn [parse_dotted Z.eqb Pos.eqb].
    rewrite parse_digits by done. cbn [parse_dotted Z.eqb Pos.eqb].
    rewrite parse_digits by done. cbn [parse_dotted Z.eqb Pos.eqb].
    rewrite <- (app_nil_r (text_d w)), parse_digits by done. cbn [parse_dotted].
    rewrite Vx, Vy, Vz, Vw. f_equal. exact Hdec.
Qed.

Lemma print_load_round_trip_witness :
  ∃ rows, sr_print_routing_table env_ok net1 = Ok (table_header ++ rows, net1) ∧
    ∀ (ve : venv) (v : vns) (fn : list Z),
      fopen_ok ve fn = true → disk v !! fn = Some rows →
      malloc_ok (base ve (turn v)) AllocRoute = true →
      sr_load_rt dotted fn ve v =
        Ok (0, set_router (set_routing_table (routing_table net1) (router v)) v).
Proof.
  apply (print_load_round_trip dotted env_ok net1); [exact dotted_text_inv| |done].
  repeat (apply Forall_cons_2; [split; [done|]; split; [done|]; split; [done|];
    match goal with |- ∃ _, _ ∧ ?n = _ => exists (take 4 n) end; split; [by apply word_okb|done]|]).
  by apply Forall_nil_2.
Defined.

(** The routes that a file says can be printed and loaded again. *)
Lemma text_route_writable inet_aton t r :
  (∀ w a, inet_aton w = Some a → is_u32 a) → text_ok t → text_route inet_aton t r →
  route_writable r.
Proof.
  intros Ha (_ & _ & _ & Hi) (Hd & Hg & Hm & Hn).
  split; [by eapply Ha|]. split; [by eapply Ha|]. split; [by eapply Ha|]. eauto.
Qed.

(** A ping is printed; cut in its header it is not. *)
Example ping_printed :
  ∃ text, print_hdrs transit (Z.of_nat (length transit)) tt tt = Ok (text, tt).
Proof. eexists. by vm_compute. Qed.

Example cut_ping_overread :
  let b := take 40 (ip_frame (router_mac 3) client_mac client_ip server1_ip 1 64 (ping [])) in
  cut_echo b ∧ print_hdrs b (Z.of_nat (length b)) tt tt = Fault (Undefined OutOfBounds).
Proof. split; [by apply (bool_decide_eq_true _)|by vm_compute]. Qed.
