(* ===== verification/StartTheorems.v ===== *)
(** * How the program fails to start ([main])

    What [main] returns, or exits with, when a file cannot be read, the server
    cannot be reached, or the server refuses the user. *)

From S2P Require Import Handshake Demo SessionTheorems ProgramTheorems.

(** The server asks for credentials and refuses them. *)
Record refusal (e : venv) (s : vns) (salt key text rest : buf) : Prop := {
  refusal_session : session_ok e;
  refusal_writes : ∀ t, writes_ok (base e t);
  refusal_net : host_found e && socket_ok e && connect_ok e = true;
  refusal_file : fopen_ok e auth_key_file = true ∧ disk s !! auth_key_file = Some key;
  refusal_key : bytes_ok key ∧ (AUTH_KEY_LEN <= length key)%nat ∧
                Forall (λ c, c ≠ 10) (take AUTH_KEY_LEN key);
  refusal_salt : bytes_ok salt ∧ Z.of_nat (length salt) ≤ 9992;
  refusal_text : bytes_ok text ∧ Z.of_nat (length text) ≤ 9991 ∧ 0 ∈ text;
  refusal_in : incoming s = auth_challenge salt ++ auth_status 0 text ++ rest;
  refusal_answers : no_failure (answers s);
  refusal_supply :
    (length (auth_challenge salt ++ auth_status 0 text) <= supply (answers s))%nat
}.

Section start.
Context (inet_aton : list Z → option Z) (e : venv) (s : vns) (args : list (Z * list Z)).
Context (o : options) (name : list Z) (fuel : nat).

(** The command line asks for no template and names a user; the arrays of the
    instance on the stack are there. *)
Context (Hargs : main_options args default_options e s = Ok (o, s)).
Context (Htempl : opt_template o = None) (Huser : opt_user o = Some name).
Context (Hstack : user (router s) ≠ [] ∧ host (router s) ≠ [] ∧ template (router s) ≠ []).
Context (Hmal : ∀ t a, malloc_ok (base e t) a = true).

Lemma main_no_table :
  fopen_ok e (opt_rtable o) = false ∨ disk s !! opt_rtable o = None →
  sr_main inet_aton args fuel e s = Fault (Exited 1).
Proof.
  intros Hf. destruct Hstack as (S1 & S2 & S3). unfold sr_main, main_around.
  rewrite (bind_run _ _ _ _ _ _ Hargs). apply bind_fault. rewrite main_setup_eq by done.
  apply bind_fault. by eapply load_rt_wrap_refused, sr_load_rt_unreadable.
Qed.

Context (ts : list rt_text) (rs : list sr_rt).
Context (Hfile : route_file inet_aton e s (opt_rtable o) ts rs) (Hrs : rs ≠ []).

Lemma main_no_log fname :
  opt_logfile o = Some fname → fname ≠ [45] → fopen_ok e fname = false →
  sr_main inet_aton args fuel e s = Fault (Exited 1).
Proof.
  intros Hl Hne Hf. destruct Hstack as (S1 & S2 & S3). unfold sr_main, main_around.
  rewrite (bind_run _ _ _ _ _ _ Hargs). apply bind_fault.
  rewrite (main_setup_log inet_aton o name ts rs e s Htempl Huser Hfile Hrs (Hmal _ _) S1 S2 S3).
  unfold open_log. rewrite Hl. unfold sr_dump_open, ask, mbind, M_bind, mret, M_ret.
  by rewrite bool_decide_false, Hf by done.
Qed.

Context (Hlog : opt_logfile o = None) (Hname : 0 ∉ name ∧ (length name < 32)%nat).

(** The program after its set-up: the result of the connection decides. *)
Lemma main_connect s' :
  sr_connect_to_server e (set_router (started o name rs (router s)) s) = Ok (-1, s') →
  sr_main inet_aton args fuel e s = Ok (1, s').
Proof.
  intros Hc. destruct Hstack as (S1 & S2 & S3). unfold sr_main, main_around.
  rewrite (bind_run _ _ _ _ _ _ Hargs).
  assert (plain_options o name) as Ho by done.
  rewrite (bind_run _ _ _ _ _ _
    (main_setup_run inet_aton o name ts rs e s Ho Hfile Hrs (Hmal _ _) S1 S2 S3)).
  rewrite user_printed by apply Hname. by rewrite (bind_run _ _ _ _ _ _ Hc).
Qed.

Lemma main_no_server :
  host_found e && socket_ok e && connect_ok e = false →
  ∃ s', sr_main inet_aton args fuel e s = Ok (1, s') ∧ incoming s' = incoming s ∧
    router s' = started o name rs (router s).
Proof.
  intros Hnet. set (s1 := set_router (started o name rs (router s)) s).
  assert (∃ s', sr_connect_to_server e s1 = Ok (-1, s') ∧ incoming s' = incoming s ∧
    router s' = router s1) as (s' & Hc & Hin & Hr).
  { unfold sr_connect_to_server. rewrite (bind_run _ _ e s1 e s1) by done.
    destruct (host_found e), (socket_ok e), (connect_ok e); try done; by eexists. }
  exists s'. split; [by apply main_connect|]. done.
Qed.

Lemma main_refused salt key text rest :
  refusal e s salt key text rest →
  ∃ s', sr_main inet_aton args fuel e s = Ok (1, s') ∧ incoming s' = rest ∧
    router s' = set_sent (sent (router s) ++ [auth_reply name salt (take AUTH_KEY_LEN key)])
                  (started o name rs (router s)).
Proof.
  intros [He Hw [[H1 H2]%andb_prop H3]%andb_prop [K1 K2] (K3 & K4 & K5) [A1 A2]
    (T1 & T2 & T3) Hin Hno Hsup].
  destruct Hname as [N1 N2]. set (s1 := set_router (started o name rs (router s)) s).
  destruct (authenticate_run salt key name text rest 0 e s1) as (l & _ & _ & Hc); try done.
  - by apply c_str_text.
  - lia.
  - by right.
  - eexists. split; [exact (main_connect _ Hc)|]. done.
Qed.
End start.

(** C30: the ways in which the program fails to start.  When the routing table's
    file or the log file cannot be opened, it exits with 1; when the server's
    host is not found or there is no connection, [main] returns 1 with the
    options and the routes loaded and nothing read or sent; when the server
    refuses the user, it returns 1 after its answer to the challenge, the only
    message it sent, and has read exactly up to the end of the refusal. *)
Theorem start_errors (inet_aton : list Z → option Z) (e : venv) (s : vns)
    (args : list (Z * list Z)) (o : options) (name : list Z) (fuel : nat)
    (Hargs : main_options args default_options e s = Ok (o, s))
    (Htempl : opt_template o = None)
    (Huser : opt_user o = Some name ∧ 0 ∉ name ∧ (length name < 32)%nat)
    (Hstack : user (router s) ≠ [] ∧ host (router s) ≠ [] ∧ template (router s) ≠ [])
    (Hmal : ∀ t a, malloc_ok (base e t) a = true) :
  (fopen_ok e (opt_rtable o) = false ∨ disk s !! opt_rtable o = None →
   sr_main inet_aton args fuel e s = Fault (Exited 1)) ∧
  ∀ ts rs, route_file inet_aton e s (opt_rtable o) ts rs → rs ≠ [] →
  (∀ fname, opt_logfile o = Some fname → fname ≠ [45] → fopen_ok e fname = false →
   sr_main inet_aton args fuel e s = Fault (Exited 1)) ∧
  (opt_logfile o = None → host_found e && socket_ok e && connect_ok e = false →
   ∃ s', sr_main inet_aton args fuel e s = Ok (1, s') ∧ incoming s' = incoming s ∧
     router s' = started o name rs (router s)) ∧
  (∀ salt key text rest, opt_logfile o = None → refusal e s salt key text rest →
   ∃ s', sr_main inet_aton args fuel e s = Ok (1, s') ∧ incoming s' = rest ∧
     router s' = set_sent (sent (router s) ++ [auth_reply name salt (take AUTH_KEY_LEN key)])
                   (started o name rs (router s))).
Proof.
  destruct Huser as [Hu Hname]. split; [by eapply main_no_table|]. intros ts rs Hfile Hrs. split; [|split].
  - intros fname. by eapply main_no_log.
  - intros Hlog. by eapply main_no_server.
  - intros salt key text rest Hlog. by eapply main_refused.
Qed.

(** The challenge of a server that refuses the user, on the demonstration's
    files. *)
Definition refused_start : vns :=
  mk_vns (router demo_start) (auth_challenge [1; 2; 3; 4] ++ auth_status 0 [110; 111; 0] ++ [9])
    (answers demo_start) (disk demo_start) false 0.

Lemma start_errors_witness :
  ∃ s', sr_main dotted demo_args 5 venv_ok refused_start = Ok (1, s') ∧ incoming s' = [9] ∧
    router s' = set_sent (sent (router refused_start) ++
        [auth_reply [118; 110; 115] [1; 2; 3; 4] (take AUTH_KEY_LEN demo_key)])
      (started demo_options [118; 110; 115] demo_table (router refused_start)).
Proof.
  apply (start_errors dotted venv_ok refused_start demo_args demo_options [118; 110; 115] 5)
    with (ts := demo_routes) (text := [110; 111; 0]); try done.
  - split; [done|]. split; [|by apply Nat.ltb_lt]. intros H%list_elem_of_In. cbn in H.
    intuition discriminate.
  - split.
    + repeat (apply Forall_cons_2; [split; [by apply word_okb|]; split; [by apply word_okb|];
        split; by apply word_okb|]). by apply Forall_nil_2.
    + repeat constructor.
    + done.
    + done.
  - split.
    + intros t. split; [intros a _; done|done].
    + intros t. apply env_ok_writes.
    + done.
    + done.
    + split; [by apply bytes_okb_ok|]. split; [by apply Nat.leb_le|]. cbn. repeat constructor; done.
    + split; [by apply bytes_okb_ok|by apply Z.leb_le].
    + split; [by apply bytes_okb_ok|]. split; [by apply Z.leb_le|]. by apply (bool_decide_eq_true _).
    + done.
    + by apply no_failure_dec.
    + apply Nat.leb_le. by vm_compute.
Defined.
